(* ===== verification/_CoqProject ===== *)
-Q . S2P
Prelude.v
GoTime.v
GoText.v
GoTextFacts.v
GoNet.v
GoNetFacts.v
GoDate.v
GoRegexp.v
GoRegexpFacts.v
GoFloat.v
GoStrconv.v
GoDuration.v
GoFlag.v
Json.v
Digest.v
Model.v
Limiter.v
HookEvent.v
HookConfig.v
HookConfigFacts.v
Install.v
InstallFacts.v
Ledger.v
Validate.v
Store.v
StoreTokens.v
StoreReports.v
StoreHistory.v
StoreSnapshot.v
Migrate.v
MigrateFacts.v
Version.v
GoDurationFacts.v
Firmware.v
FirmwareFacts.v
Server.v
ServerFacts.v
Codex.v
CodexFacts.v
CodexRpc.v
CodexRpcFacts.v
CodexSession.v
CodexSessionFacts.v
Claude.v
ClaudeUsage.v
ClaudeUsageFacts.v
ClaudeResetFacts.v
ClaudeAbsoluteFacts.v
ClaudeOrder.v
HookServer.v
ClaudeFacts.v
Agent.v
AgentFacts.v
AgentSnapshot.v
HookServerFacts.v
Delivery.v
DeliveryFacts.v
Reporting.v
StatusLine.v
StatusLineFacts.v
Provision.v
ProvisionFacts.v
Settings.v
Service.v
ServiceFacts.v
Notifier.v
Standalone.v
StandaloneFacts.v
Lifecycle.v
Loopback.v
LifecycleFacts.v
SettingsFacts.v
Commands.v
CommandsFacts.v
ClaudeProbe.v
HooksCommand.v
DatabasePath.v
FirmwareDelivery.v
ServerMode.v
CommandRun.v
