(* ===== verification/Prelude.v ===== *)
(** * The quota monitor, verified

    Agents on developers' machines poll the Codex and Claude command-line
    tools for their quota windows, follow the running tasks through hooks, and
    report both to a server; the server keeps the latest report of every agent
    in SQLite and answers an embedded display, which also downloads its own
    firmware from it.  A standalone mode runs agent and server in one process.
    This development models the Go code under [src/cmd] and [src/internal] and
    proves what makes its parts, and their composition, correct.

    ** The parts and their files

    A component's definitions are in a file of its name, its theorems in the
    same file or in one that ends in [Facts].

    - The language and its library.  [Prelude] (this file): results with Go's
      early returns, loops over lists, tactics.  [GoTime] instants and
      durations at 64 bits, [GoText] strings as bytes with UTF-8 decoding,
      [GoNet] host names and ports, the
      escapes of a URL's path and the matching of [http.ServeMux], [GoDate] the calendar, [GoRegexp] the
      regular expressions with their leftmost-first matches, [GoFloat]
      binary64, [GoStrconv] numbers as text, [GoDuration] durations as text,
      [GoFlag] command-line flags, [Json] decoded JSON, [Digest] SHA-256 with
      hexadecimal and base64.
    - [Model]: [internal/model], the records on the wire.
    - [Limiter], [Validate], [Server]: [internal/server/server.go].
      [Limiter.Allow] is the fixed-window limiter,
      [Validate.ValidateAgentReport] the validator, [Server.ServeHTTP] the
      routes, the authentication and the handlers.  A handler is a function
      from the server's state to a response and the new state; what happens
      between taking and giving back an authentication slot is split into
      [authEnter] and [authLeave], so that requests can interleave.
    - [Store], [StoreTokens], [StoreReports], [StoreHistory],
      [StoreSnapshot], [Migrate], [DatabasePath]: [internal/store/store.go].
      A table is a finite map from its primary key, a statement is a function
      on the tables that checks the schema's constraints, and a transaction
      that fails leaves the database as it was.  [Migrate] numbers the calls
      of [Open]; an oracle decides which fail.
    - [HookEvent], [HookConfig], [Install], [StatusLine]: [internal/hooks],
      from the payload of a hook to the transactional installation, over a
      file system whose calls may fail.
    - [Codex], [CodexRpc], [CodexSession]: [internal/collector/codex.go].  The
      decisions are functions of the app-server's answers; the pending table,
      the children and the calls are a step relation whose steps are critical
      sections; the functions that use them are programs on that relation.
    - [Claude], [ClaudeUsage], [ClaudeProbe]: [internal/collector/claude.go],
      its decisions, the parsers of the usage panel and the commands it runs.
      [ClaudeResetFacts], [ClaudeAbsoluteFacts] and [ClaudeOrder] are about
      the reset phrases and the search in decoded JSON.
    - [Ledger], [Agent], [HookServer], [Service], [Lifecycle], [Loopback]:
      [internal/agent], the table of running tasks, the agent's state with its
      collections and reports, its local server, its service files, and the
      run loop as a transition system of its goroutines.
    - [Version], [Firmware]: [internal/firmware].  [Publish] is a sequence of
      file-system steps, each of which may fail, with the deferred clean-up;
      the directory after every step is recorded, so a crash is any recorded
      directory.
    - [Commands], [Settings], [Provision], [Notifier], [Standalone],
      [HooksCommand], [ServerMode], [CommandRun]: [cmd/quota-monitor/main.go], from the
      arguments to what the process does.
    - [Delivery], [Reporting], [FirmwareDelivery], and the theorems of
      [AgentSnapshot], [CommandsFacts], [StandaloneFacts] and
      [ServerMode]: the components at work together.

    How the parts meet: [AgentSnapshot] proves that what [Agent.SnapshotReport]
    sends is what [Validate.ValidateAgentReport] accepts; [ServerFacts] runs
    the validator and the store's transaction inside the handler;
    [StoreSnapshot] reads back what [StoreReports] stores.  What the agent
    relies on when it reports is the class [Reporting.Channel] with its laws
    [ChannelLaws]; the agent's theorem is proved against the interface, and
    the sink of the standalone mode and the HTTPS request are its instances.
    Databases that show the same are related by [same_data], with [Proper]
    instances for the operations.  The lemmas a client uses
    ([validate_report_ok], [report_isolated], [opened_image_ok], [Apply_ok],
    [db_ok] and its preservation) stand next to the operations and are shared;
    the numbered properties are used by nothing else.

    ** What is shown

    - Reports: the transaction is atomic and replaces exactly one agent's rows
      (C1), a token writes for its own agent only
      (C2), reports converge whatever the order
      (C3), validation is a declarative predicate
      (C15), an agent's own reports are accepted
      (C7), except after a hook event that comes too
      late (C40); what an agent holds reaches the display
      (C8), over a link that loses and reorders
      requests it is never rolled back (C10), and
      over any number of restarts, kills and token commands the database is
      the record of the last accepted reports
      (C9).
    - Tokens and access: authentication is exactly the unrevoked digests of the
      scope (C6), revocation is final
      (C5), the schema's constraints always hold
      (C39), no route gives data to a request without a display
      token (C13), the limiter bounds the rate,
      also when its calls come out of the order of their times
      (C37), and a start in which one call fails leaves no
      token behind (C32).
    - The display: the newest usable observation of each provider
      (C16); publishing firmware is atomic
      (C4), and what was published is what the display
      downloads (C14).
    - Hooks: an installation is all or nothing (C28),
      can be repeated (C29) and undone
      (C27), and keeps the user's status line
      (C30); the installed command delivers its events
      (C12) to a server that changes nothing for others
      (C11) and listens on the machine only
      (C31); the ledger means what its specification says
      (C26).
    - Collectors: the Codex report picks the most restrictive windows
      (C38), its calls are correlated
      (C34), its sessions keep the protocol
      (C35) and refine the sequential decisions
      (C36); a Claude logout needs two answers
      (C17), the usage panel
      is read section by section (C19), the reset phrases
      are read as written (C24, C25), and the
      monitor does not watch itself (C18).
    - Processes: the standalone mode starts and restarts
      (C20), the agent stops (C21) and uses its
      collectors one round at a time (C22), a database is
      upgraded safely (C23), and the service file gives the
      configured command back, dollar signs excluded
      (C33).
    - Not numbered, and proved beside these: the life of a token under the
      token commands ([Token_commands]), the settings file ([Settings_mean]),
      the absence of phantom tasks ([Ledger_no_phantoms]), the service file on
      the disk ([Service_file_written]), the database's path
      as a URI ([Database_uri]), versions, merging, back-off and others.

    ** Bounds and fuel

    The structural recursions need none.  [Digest.SHA256.run] consumes 64 bytes
    a step and is given the length of the padded message as fuel;
    [Firmware.hashLoop] reads one buffer a step and is given the length of the
    stream plus one, the last read being the end of file;
    [Digest.SHA256.run_fuel] and [FirmwareFacts.hashReader_complete] say that
    this is enough.  [GoRegexp.findAll] is given
    the number of runes plus one, and no expression it is used with matches
    the empty text; [GoDuration.durationLoop] is given the length of the text,
    of which each turn consumes a byte.  The steps of [Run_stops] and the actions of [Session_protocol] are
    bounded by a number that is part of the theorem.  Integers are [Z] with
    the 64-bit wrap-around written out where Go computes on them.

    ** What is not modelled

    Logging, the text of error messages, HTTP and TLS themselves, the text
    syntax of JSON and of URLs, SQLite's files and locking (outside [Open]
    and the provisioning of tokens, a statement is refused for the schema's
    constraints only, and a request is one step; the queries of a snapshot
    are separate in [Store.BuildDisplaySnapshotFrom]), the clock's monotonic reading and
    the zone database.  A clock, a source of random bytes and the iteration
    order of a map are arguments of the definitions that use them, and so are
    the functions of [filepath], the environment and the home directory.  Of
    [main.go]: the JSON and the usage text that are printed.  The Windows replacement
    primitives ([atomic_replace_windows.go]) are calls into its API; the
    display's firmware is not Go. *)

From stdpp Require Export base gmap strings list sorting.
From Stdlib Require Export ZArith Lia.
From Stdlib Require Strings.Ascii Strings.String.
Export Stdlib.Strings.Ascii (ascii(..)).
Export (notations) Stdlib.Strings.Ascii.

#[global] Open Scope Z_scope.
#[global] Set Default Goal Selector "!".
#[global] Set Warnings "-clear-no-such-hyp".

(** ** Results

    A Go function returning [(T, error)] is a function into [result E T]: a
    nil error is [Ok], and a non-nil one is [Err] with the error's identity.
    A function returning only [error] goes into [result E unit]. *)

Inductive result (E A : Type) : Type :=
| Ok (a : A)
| Err (e : E).
Arguments Ok {E A} _.
Arguments Err {E A} _.

#[global] Instance result_eq_dec `{EqDecision E, EqDecision A} : EqDecision (result E A).
Proof. solve_decision. Defined.

#[global] Instance result_ret E : MRet (result E) := λ A a, Ok a.
#[global] Instance result_bind E : MBind (result E) := λ A B f m,
  match m with Ok a => f a | Err e => Err e end.
#[global] Instance result_fmap E : FMap (result E) := λ A B f m,
  match m with Ok a => Ok (f a) | Err e => Err e end.

(** [refuse c e] is Go's [if c { return e }] in a function whose remaining
    statements follow as the continuation of the bind. *)
Definition refuse {E} (c : bool) (e : E) : result E unit :=
  if c then Err e else Ok tt.

Definition is_ok {E A} (m : result E A) : bool :=
  match m with Ok _ => true | Err _ => false end.

Lemma Ok_inj {E A} (a b : A) : Ok (E := E) a = Ok b → a = b.
Proof. by intros [=]. Qed.

Section result_lemmas.
Context {E A B : Type}.
Implicit Types (m : result E A) (f : A → result E B).

Lemma bind_Ok m f b : (m ≫= f) = Ok b ↔ ∃ a, m = Ok a ∧ f a = Ok b.
Proof.
  destruct m as [a|e]; simpl; split.
  - eauto.
  - by intros (? & [= ->] & ?).
  - done.
  - by intros (? & ? & ?).
Qed.

Lemma bind_Err m f e :
  (m ≫= f) = Err e ↔ m = Err e ∨ ∃ a, m = Ok a ∧ f a = Err e.
Proof.
  destruct m as [a|e']; simpl; split.
  - eauto.
  - by intros [?|(? & [= ->] & ?)].
  - intros [= ->]. by left.
  - by intros [[= ->]|(? & ? & ?)].
Qed.

Lemma refuse_Ok (c : bool) (e : E) (u : unit) : refuse c e = Ok u ↔ c = false.
Proof. by destruct c, u. Qed.

Lemma refuse_bind_Ok (c : bool) (e : E) (k : unit → result E B) b :
  (refuse c e ≫= k) = Ok b ↔ c = false ∧ k tt = Ok b.
Proof. destruct c; simpl; split; [done|by intros []|done|by intros []]. Qed.

Lemma is_ok_true m : is_ok m = true ↔ ∃ a, m = Ok a.
Proof. destruct m; simpl; split; [eauto|done|done|by intros [? ?]]. Qed.
End result_lemmas.

(** [iterM f l s] is a Go [for _, x := range l] loop whose body updates the
    state [s] and may return early with an error. *)
Fixpoint iterM {E S A : Type} (f : A → S → result E S) (l : list A) (s : S) : result E S :=
  match l with
  | [] => Ok s
  | x :: l => s ← f x s; iterM f l s
  end.

Lemma iterM_app {E S A} (f : A → S → result E S) l1 l2 s :
  iterM f (l1 ++ l2) s = iterM f l1 s ≫= iterM f l2.
Proof. revert s. induction l1 as [|x l1 IH]; intros s; [done|]. simpl. by destruct (f x s); simpl. Qed.

(** An error of a loop is an error of its body. *)
Lemma iterM_Err {E S A} (P : E → Prop) (f : A → S → result E S) l s e :
  (∀ x s e, f x s = Err e → P e) → iterM f l s = Err e → P e.
Proof.
  intros Hf. revert s. induction l as [|x l IH]; intros s; [done|].
  simpl. intros [He|(s1 & _ & He)]%bind_Err; eauto.
Qed.

(** A loop whose body commutes pairwise on successful runs gives the same
    success value in every iteration order.  Go's map iteration order is
    unspecified, so the loops over maps are shown to be insensitive to it. *)
Lemma iterM_perm {E S A} (f : A → S → result E S) l1 l2 s s' :
  l1 ≡ₚ l2 →
  (∀ x y s0 s1, x ∈ l1 → y ∈ l1 → (f x s0 ≫= f y) = Ok s1 → (f y s0 ≫= f x) = Ok s1) →
  iterM f l1 s = Ok s' → iterM f l2 s = Ok s'.
Proof.
  intros Hp. revert s s'.
  induction Hp as [|x l1 l2 Hp IH|x y l|l1 l2 l3 Hp1 IH1 Hp2 IH2]; intros s s' Hc; simpl.
  - done.
  - intros (s1 & H1 & H2)%bind_Ok. rewrite H1. simpl. apply IH; [|done].
    intros; apply Hc; set_solver.
  - intros (s1 & H1 & (s2 & H2 & H3)%bind_Ok)%bind_Ok.
    assert ((f x s ≫= f y) = Ok s2) as Hxy.
    { apply Hc; [set_solver..|]. rewrite H1. done. }
    apply bind_Ok in Hxy as (s3 & H4 & H5). rewrite H4. simpl. rewrite H5. done.
  - intros H. apply IH2; [|by apply IH1].
    intros x y s0 s1 Hx Hy. apply Hc; by rewrite Hp1.
Qed.

(** A loop whose body inserts one row per element, refusing a key that is
    taken: it succeeds when every element is acceptable and no key is taken
    twice, and then it has added exactly the rows of the list. *)
Section insert_loop.
Context {K V A S E : Type} `{Countable K}.
Context (f : A → S → result E S) (get : S → gmap K V) (put : S → gmap K V → S).
Context (ok : A → Prop) (key : A → K) (val : A → V) (inv : S → Prop).
Context (get_put : ∀ s m, get (put s m) = m) (put_put : ∀ s m m', put (put s m) m' = put s m').
Context (put_get : ∀ s, put s (get s) = s) (inv_put : ∀ s m, inv s → inv (put s m)).
Context (step : ∀ x s s', inv s →
  f x s = Ok s' ↔ ok x ∧ get s !! key x = None ∧ s' = put s (<[key x := val x]> (get s))).

Definition rows (l : list A) : gmap K V := list_to_map ((λ x, (key x, val x)) <$> l).

Lemma rows_None l k : k ∉ key <$> l → rows l !! k = None.
Proof. intros Hk. apply not_elem_of_list_to_map_1. by rewrite <-list_fmap_compose. Qed.

Lemma iterM_inserts l s s' : inv s →
  iterM f l s = Ok s' ↔
  Forall ok l ∧ NoDup (key <$> l) ∧ (∀ x, x ∈ l → get s !! key x = None) ∧
  s' = put s (rows l ∪ get s).
Proof.
  revert s. induction l as [|x l IH]; intros s Hi; simpl.
  - unfold rows. simpl. rewrite (left_id_L ∅ (∪)), put_get. split; [intros [= ->]|by intros (_ & _ & _ & ->)].
    split_and!; [constructor|constructor|set_solver|done].
  - rewrite bind_Ok, Forall_cons, NoDup_cons. split.
    + intros (s1 & H1 & H2). apply step in H1 as (Hx & Hn & ->); [|done].
      apply IH in H2 as (Hl & Hd & Hf & ->); [|by apply inv_put]. rewrite get_put, put_put.
      setoid_rewrite get_put in Hf.
      assert (Hkl : key x ∉ key <$> l).
      { intros (y & Heq & Hy)%list_elem_of_fmap. specialize (Hf y Hy). by rewrite <-Heq, lookup_insert_eq in Hf. }
      split_and!; try done.
      * intros y [->|Hy]%elem_of_cons; [done|]. specialize (Hf y Hy).
        by apply lookup_insert_None in Hf as [? _].
      * f_equal. unfold rows at 2. simpl. fold (rows l).
        rewrite <-insert_union_l, insert_union_r; [done|by apply rows_None].
    + intros ((Hx & Hl) & (Hk & Hd) & Hf & ->).
      exists (put s (<[key x := val x]> (get s))). split.
      * apply step; [done|]. split_and!; [done| |done]. apply Hf. set_solver.
      * apply IH; [by apply inv_put|]. rewrite get_put, put_put. split_and!; try done.
        -- intros y Hy. rewrite lookup_insert_ne; [apply Hf; set_solver|].
           intros Heq. apply Hk. rewrite Heq. by apply list_elem_of_fmap_2.
        -- f_equal. unfold rows at 1. simpl. fold (rows l).
           rewrite <-insert_union_l, insert_union_r; [done|by apply rows_None].
Qed.
End insert_loop.

(** ** Automation *)

(** Case analysis on the innermost conditional of the goal or of a
    hypothesis, keeping the equation. *)
Ltac case_in H :=
  match type of H with
  | context [match ?x with _ => _ end] => destruct x eqn:?
  end.

(** Invert a successful chain of binds and refusals into its conjuncts. *)
Ltac ok_inv :=
  repeat match goal with
  | H : (refuse _ _ ≫= _) = Ok _ |- _ => apply refuse_bind_Ok in H as [? H]
  | H : (_ ≫= _) = Ok _ |- _ => apply bind_Ok in H as (? & ? & H)
  | H : refuse _ _ = Ok _ |- _ => apply refuse_Ok in H
  | H : Ok _ = Ok _ |- _ => injection H as H; subst
  | H : Err _ = Ok _ |- _ => discriminate H
  | H : Ok _ = Err _ |- _ => discriminate H
  | H : () |- _ => destruct H
  end.

(** Turn boolean tests of the code into the propositions they decide. *)
Ltac breflect :=
  repeat match goal with
  | H : _ && _ = true |- _ => apply andb_true_iff in H as [? ?]
  | H : _ || _ = false |- _ => apply orb_false_iff in H as [? ?]
  | H : negb _ = true |- _ => apply negb_true_iff in H
  | H : negb _ = false |- _ => apply negb_false_iff in H
  | H : bool_decide _ = true |- _ => apply bool_decide_eq_true in H
  | H : bool_decide _ = false |- _ => apply bool_decide_eq_false in H
  | H : (_ <? _) = true |- _ => apply Z.ltb_lt in H
  | H : (_ <? _) = false |- _ => apply Z.ltb_ge in H
  | H : (_ <=? _) = true |- _ => apply Z.leb_le in H
  | H : (_ <=? _) = false |- _ => apply Z.leb_gt in H
  | H : (_ =? _) = true |- _ => apply Z.eqb_eq in H
  | H : (_ =? _) = false |- _ => apply Z.eqb_neq in H
  end.

Create HintDb qmon.
#[export] Hint Resolve lookup_insert_eq lookup_delete_eq : qmon.
