(* ===== verification/GoTime.v ===== *)
(** * Go's [time] package, as far as the monitor uses it

    An instant is its number of nanoseconds since the Unix epoch.  Go's zero
    [time.Time] is 1 January of year 1; it is an ordinary instant that
    [IsZero] recognises.  The location of a [time.Time] and its monotonic
    reading are not modelled: every comparison in the monitor is between
    instants, and [UTC] only changes the location.  A [time.Duration] is an
    [int64]; [UnixNano] and the saturating [Sub] are written at that width. *)

From S2P Require Import Prelude.

Abbreviation Time := Z (only parsing).
Abbreviation Duration := Z (only parsing).

(** ** Machine integers *)

Definition min_int64 : Z := - 2 ^ 63.
Definition max_int64 : Z := 2 ^ 63 - 1.

(** Two's-complement wrap-around of an [int64] result. *)
Definition wrap64 (z : Z) : Z := (z + 2 ^ 63) mod 2 ^ 64 - 2 ^ 63.

Definition in_int64 (z : Z) : Prop := min_int64 <= z <= max_int64.

Lemma wrap64_id z : in_int64 z → wrap64 z = z.
Proof.
  unfold in_int64, wrap64, min_int64, max_int64. intros ?. rewrite Z.mod_small; lia.
Qed.

Lemma wrap64_range z : in_int64 (wrap64 z).
Proof.
  unfold in_int64, wrap64, min_int64, max_int64.
  pose proof (Z.mod_pos_bound (z + 2 ^ 63) (2 ^ 64)). lia.
Qed.

(** ** Durations *)

Definition Nanosecond : Duration := 1.
Definition Second : Duration := 1000000000.
Definition Millisecond : Duration := 1000000.
Definition Minute : Duration := 60 * Second.
Definition Hour : Duration := 60 * Minute.

(** ** Instants *)

(** January 1, year 1, 00:00:00 UTC. *)
Definition zeroTime : Time := -62135596800 * Second.

Definition IsZero (t : Time) : bool := t =? zeroTime.
Definition Before (t u : Time) : bool := t <? u.
Definition After (t u : Time) : bool := u <? t.

Definition Add (t : Time) (d : Duration) : Time := t + d.

(** [t.Sub(u)] saturates at the bounds of a [Duration]. *)
Definition Sub (t u : Time) : Duration :=
  Z.max min_int64 (Z.min max_int64 (t - u)).

Definition UnixNano (t : Time) : Z := wrap64 t.

(** [time.Unix(0, n)] and [time.Unix(s, 0)].  A [Time] holds an [int64] number
    of seconds since year 1, so the seconds wrap around. *)
Definition UnixFromNano (n : Z) : Time := n.
Definition unixToInternal : Z := 62135596800.
Definition UnixFromSec (s : Z) : Time := (wrap64 (s + unixToInternal) - unixToInternal) * Second.
Definition UnixFromMilli (ms : Z) : Time := ms * Millisecond.

(** The instants [UnixNano] represents exactly: years 1678 to 2262. *)
Definition nano_range (t : Time) : Prop := in_int64 t.

Lemma UnixNano_id t : nano_range t → UnixNano t = t.
Proof. apply wrap64_id. Qed.

(** [time.Time]'s JSON encoding (RFC 3339) exists for years 0 to 9999. *)
Definition minJSONTime : Time := -62167219200 * Second.
Definition maxJSONTime : Time := 253402300800 * Second.
Definition json_time (t : Time) : bool := (minJSONTime <=? t) && (t <? maxJSONTime).

(** The comparisons, as propositions. *)
Lemma Before_true t u : Before t u = true ↔ t < u.
Proof. apply Z.ltb_lt. Qed.
Lemma Before_false t u : Before t u = false ↔ u <= t.
Proof. apply Z.ltb_ge. Qed.
Lemma After_true t u : After t u = true ↔ u < t.
Proof. apply Z.ltb_lt. Qed.
Lemma After_false t u : After t u = false ↔ t <= u.
Proof. apply Z.ltb_ge. Qed.
Lemma IsZero_true t : IsZero t = true ↔ t = zeroTime.
Proof. apply Z.eqb_eq. Qed.
Lemma IsZero_false t : IsZero t = false ↔ t ≠ zeroTime.
Proof. apply Z.eqb_neq. Qed.

(** A saturated difference compares with an in-range duration as the exact
    difference does. *)
Lemma Sub_ge t u d : in_int64 d → min_int64 < d → d <= Sub t u ↔ d <= t - u.
Proof. unfold in_int64, Sub, min_int64, max_int64. lia. Qed.
Lemma Sub_gt t u d : in_int64 d → d < max_int64 → (d < Sub t u) ↔ d < t - u.
Proof. unfold in_int64, Sub, min_int64, max_int64. lia. Qed.
Lemma Sub_exact t u : in_int64 (t - u) → Sub t u = t - u.
Proof. unfold in_int64, Sub, min_int64, max_int64. lia. Qed.

(** Case analysis on time tests: rewrite them as inequalities. *)
Ltac time_simpl :=
  repeat match goal with
  | H : Before _ _ = true |- _ => apply Before_true in H
  | H : Before _ _ = false |- _ => apply Before_false in H
  | H : After _ _ = true |- _ => apply After_true in H
  | H : After _ _ = false |- _ => apply After_false in H
  | H : IsZero _ = true |- _ => apply IsZero_true in H
  | H : IsZero _ = false |- _ => apply IsZero_false in H
  end.

#[export] Hint Resolve wrap64_range : qmon.
