(* ===== verification/GoText.v ===== *)
(** * Go strings

    A Go string is a byte sequence, here a [string] of 8-bit characters.
    Ranging over a string decodes UTF-8 the way [utf8.DecodeRune] does: a byte
    that starts no well-formed sequence yields U+FFFD and advances by one.
    The functions of [strings] and [unicode] the monitor calls are defined on
    top of that decoding. *)

From S2P Require Import Prelude.

Definition zb (a : ascii) : Z := Z.of_N (Stdlib.Strings.Ascii.N_of_ascii a).
Definition chr (z : Z) : ascii := Stdlib.Strings.Ascii.ascii_of_N (Z.to_N z).

(** [len(s)], in bytes. *)
Definition len (s : string) : Z := Z.of_nat (Stdlib.Strings.String.length s).

(** ** Decoding *)

Definition RuneError : Z := 0xFFFD.

(** What [utf8.first] says of a lead byte: the sequence's size and the range
    of its second byte. *)
Definition lead (x : Z) : option (Z * Z * Z) :=
  if (0xC2 <=? x) && (x <=? 0xDF) then Some (2, 0x80, 0xBF)
  else if x =? 0xE0 then Some (3, 0xA0, 0xBF)
  else if (0xE1 <=? x) && (x <=? 0xEC) then Some (3, 0x80, 0xBF)
  else if x =? 0xED then Some (3, 0x80, 0x9F)
  else if (0xEE <=? x) && (x <=? 0xEF) then Some (3, 0x80, 0xBF)
  else if x =? 0xF0 then Some (4, 0x90, 0xBF)
  else if (0xF1 <=? x) && (x <=? 0xF3) then Some (4, 0x80, 0xBF)
  else if x =? 0xF4 then Some (4, 0x80, 0x8F)
  else None.

Definition within (lo hi x : Z) : bool := (lo <=? x) && (x <=? hi).
Definition cont (x : Z) : bool := within 0x80 0xBF x.

(** The runes of a string, each with the bytes it was decoded from. *)
Fixpoint chunks (s : string) : list (Z * string) :=
  match s with
  | EmptyString => []
  | String a s1 =>
    let x := zb a in
    let bad (_ : unit) := (RuneError, String a EmptyString) :: chunks s1 in
    if x <? 0x80 then (x, String a EmptyString) :: chunks s1
    else match lead x, s1 with
    | Some (n, lo, hi), String b s2 =>
      let y := zb b in
      if negb (within lo hi y) then bad tt
      else if n =? 2 then
        (Z.lor (Z.shiftl (Z.land x 0x1F) 6) (Z.land y 0x3F),
         String a (String b EmptyString)) :: chunks s2
      else match s2 with
      | EmptyString => bad tt
      | String c s3 =>
        let z := zb c in
        if negb (cont z) then bad tt
        else if n =? 3 then
          (Z.lor (Z.shiftl (Z.land x 0x0F) 12) (Z.lor (Z.shiftl (Z.land y 0x3F) 6) (Z.land z 0x3F)),
           String a (String b (String c EmptyString))) :: chunks s3
        else match s3 with
        | EmptyString => bad tt
        | String d s4 =>
          let w := zb d in
          if negb (cont w) then bad tt
          else
            (Z.lor (Z.shiftl (Z.land x 0x07) 18) (Z.lor (Z.shiftl (Z.land y 0x3F) 12)
               (Z.lor (Z.shiftl (Z.land z 0x3F) 6) (Z.land w 0x3F))),
             String a (String b (String c (String d EmptyString)))) :: chunks s4
        end
      end
    | _, _ => bad tt
    end
  end.

Definition runes (s : string) : list Z := (chunks s).*1.

Fixpoint concat_str (l : list string) : string :=
  match l with [] => "" | s :: l => s +:+ concat_str l end.

Definition bytes_of (l : list (Z * string)) : string := concat_str l.*2.

(** ** unicode *)

(** [unicode.IsControl]: the Cc runes, all in Latin-1. *)
Definition IsControl (r : Z) : bool := within 0 0x1F r || within 0x7F 0x9F r.

(** [unicode.IsSpace]: the White_Space property. *)
Definition IsSpace (r : Z) : bool :=
  within 0x09 0x0D r || (r =? 0x20) || (r =? 0x85) || (r =? 0xA0) || (r =? 0x1680)
  || within 0x2000 0x200A r || (r =? 0x2028) || (r =? 0x2029) || (r =? 0x202F)
  || (r =? 0x205F) || (r =? 0x3000).

Definition is_digit (r : Z) : bool := within 48 57 r.
Definition is_lower (r : Z) : bool := within 97 122 r.
Definition is_upper (r : Z) : bool := within 65 90 r.

(** ** strings *)

Fixpoint drop_while {A} (p : A → bool) (l : list A) : list A :=
  match l with
  | [] => []
  | x :: l' => if p x then drop_while p l' else l
  end.

(** [strings.TrimSpace]. *)
Definition TrimSpace (s : string) : string :=
  let space := λ c : Z * string, IsSpace c.1 in
  bytes_of (rev (drop_while space (rev (drop_while space (chunks s))))).

(** [strings.Fields]: the maximal runs of non-space runes. *)
Fixpoint fields_of (l : list (Z * string)) (cur : string) : list string :=
  match l with
  | [] => if bool_decide (cur = "") then [] else [cur]
  | (r, b) :: l =>
    if IsSpace r
    then (if bool_decide (cur = "") then [] else [cur]) ++ fields_of l ""
    else fields_of l (cur +:+ b)
  end.
Definition Fields (s : string) : list string := fields_of (chunks s) "".

(** [strings.ToLower] on the runes whose lower case is ASCII: A-Z, and U+0130
    and U+212A, which lower to i and k.  Other non-ASCII runes are kept; their
    lower case is non-ASCII too, and every caller only compares the result
    with ASCII text or keeps its ASCII letters and digits. *)
Definition lower_chunk (c : Z * string) : string :=
  if is_upper c.1 then String (chr (c.1 + 32)) EmptyString
  else if c.1 =? 0x130 then "i"
  else if c.1 =? 0x212A then "k"
  else c.2.
Definition ToLower (s : string) : string := concat_str (map lower_chunk (chunks s)).

(** [strings.EqualFold(s, t)] for an ASCII [t]: two runes are equal under simple
    folding when they lower to the same letter; the non-ASCII runes that fold
    to ASCII are U+017F (s) and U+212A (k). *)
Definition fold_rune (r : Z) : Z :=
  if is_upper r then r + 32 else if r =? 0x17F then 115 else if r =? 0x212A then 107 else r.
Definition EqualFold (s t : string) : bool :=
  bool_decide (map fold_rune (runes s) = map fold_rune (runes t)).

(** [strings.HasPrefix], [strings.Contains]. *)
Definition HasPrefix (s p : string) : bool := Stdlib.Strings.String.prefix p s.
Fixpoint Contains (s sub : string) : bool :=
  Stdlib.Strings.String.prefix sub s || match s with EmptyString => false | String _ s' => Contains s' sub end.

(** [strings.Split(s, sep)] for a one-byte separator. *)
Fixpoint Split (sep : ascii) (s : string) : list string :=
  match s with
  | EmptyString => [""]
  | String a s' =>
    if bool_decide (a = sep) then "" :: Split sep s'
    else match Split sep s' with
    | [] => [String a ""]
    | w :: ws => String a w :: ws
    end
  end.

(** Go compares strings bytewise. *)
Definition str_lt (s t : string) : bool := Stdlib.Strings.String.ltb s t.

(** A string without NUL bytes: the two parts of a NUL-joined key. *)
Fixpoint has_byte (c : ascii) (s : string) : bool :=
  match s with EmptyString => false | String a s => bool_decide (a = c) || has_byte c s end.

Definition NUL : ascii := "000"%char.
Definition nul : string := String NUL "".

(** ** The bytewise order *)

Definition str_le (s t : string) : Prop := str_lt t s = false.
#[global] Instance str_le_dec s t : Decision (str_le s t).
Proof. unfold str_le. apply _. Defined.

Lemma str_compare_cons a s b t :
  Stdlib.Strings.String.compare (String a s) (String b t) =
  match N.compare (Stdlib.Strings.Ascii.N_of_ascii a) (Stdlib.Strings.Ascii.N_of_ascii b) with
  | Eq => Stdlib.Strings.String.compare s t
  | c => c
  end.
Proof. done. Qed.

Lemma str_le_compare s t : str_le s t ↔ Stdlib.Strings.String.compare s t ≠ Gt.
Proof.
  unfold str_le, str_lt, Stdlib.Strings.String.ltb.
  rewrite (Stdlib.Strings.String.compare_antisym t s).
  by destruct (Stdlib.Strings.String.compare s t).
Qed.

Lemma str_le_antisym s t : str_le s t → str_le t s → s = t.
Proof.
  rewrite !str_le_compare, (Stdlib.Strings.String.compare_antisym t s).
  intros H1 H2. apply Stdlib.Strings.String.compare_eq_iff.
  by destruct (Stdlib.Strings.String.compare s t).
Qed.

#[global] Instance str_le_total : Total str_le.
Proof.
  intros s t. rewrite !str_le_compare, (Stdlib.Strings.String.compare_antisym t s).
  destruct (Stdlib.Strings.String.compare s t); [by left..|by right].
Qed.

#[global] Instance str_le_trans : Transitive str_le.
Proof.
  intros s t u. rewrite !str_le_compare. revert t u.
  induction s as [|a s IH]; intros [|b t] [|c u]; try done.
  rewrite !str_compare_cons.
  destruct (N.compare_spec (Stdlib.Strings.Ascii.N_of_ascii a) (Stdlib.Strings.Ascii.N_of_ascii b)) as [H1|H1|H1], (N.compare_spec (Stdlib.Strings.Ascii.N_of_ascii b) (Stdlib.Strings.Ascii.N_of_ascii c)) as [H2|H2|H2],
    (N.compare_spec (Stdlib.Strings.Ascii.N_of_ascii a) (Stdlib.Strings.Ascii.N_of_ascii c)) as [H3|H3|H3]; try done; try lia; eauto.
Qed.

(** ** Decoding is lossless, and exact on ASCII *)

Lemma lor_ge a b : 0 <= a → 0 <= b → a <= Z.lor a b.
Proof.
  intros Ha Hb.
  assert (Hl : Z.land a (Z.ldiff b a) = 0).
  { apply Z.bits_inj'. intros n Hn. rewrite Z.land_spec, Z.ldiff_spec, Z.bits_0.
    by destruct (Z.testbit a n), (Z.testbit b n). }
  assert (E : Z.lor a b = a + Z.ldiff b a).
  { rewrite Z.add_nocarry_lxor, Z.lxor_lor by done.
    apply Z.bits_inj'. intros n Hn. rewrite !Z.lor_spec, Z.ldiff_spec.
    by destruct (Z.testbit a n), (Z.testbit b n). }
  rewrite E. pose proof (proj2 (Z.ldiff_nonneg b a)). lia.
Qed.

Lemma len_cons a s : len (String a s) = 1 + len s.
Proof. unfold len. cbn [Stdlib.Strings.String.length]. lia. Qed.

Lemma str_app_cons a s t : String a s +:+ t = String a (s +:+ t).
Proof. done. Qed.

Lemma has_byte_app c s t : has_byte c (s +:+ t) = has_byte c s || has_byte c t.
Proof. induction s as [|a s IH]; [done|]. rewrite str_app_cons. cbn [has_byte]. by rewrite IH, orb_assoc. Qed.

Lemma str_length_app s t :
  Stdlib.Strings.String.length (s +:+ t) =
  (Stdlib.Strings.String.length s + Stdlib.Strings.String.length t)%nat.
Proof. induction s as [|a s IH]; [done|]. cbn. by rewrite <-IH. Qed.

Lemma zb_range a : 0 <= zb a < 256.
Proof. unfold zb. pose proof (Stdlib.Strings.Ascii.N_ascii_bounded a). lia. Qed.
Lemma chr_zb a : chr (zb a) = a.
Proof. unfold chr, zb. rewrite N2Z.id. apply Stdlib.Strings.Ascii.ascii_N_embedding. Qed.

(** The high bits of a well-formed multi-byte sequence. *)
Definition high_bits (x y : Z) : Z :=
  match lead x with
  | Some (n, _, _) =>
    if n =? 2 then Z.shiftl (Z.land x 0x1F) 6
    else if n =? 3 then Z.lor (Z.shiftl (Z.land x 0x0F) 12) (Z.shiftl (Z.land y 0x3F) 6)
    else Z.lor (Z.shiftl (Z.land x 0x07) 18) (Z.shiftl (Z.land y 0x3F) 12)
  | None => 128
  end.
Definition not_overlong (x y : Z) : bool :=
  match lead x with
  | Some (n, lo, hi) => negb (within lo hi y) || (128 <=? high_bits x y)
  | None => true
  end.

Lemma not_overlong_all x y : 0 <= x < 256 → 0 <= y < 256 → not_overlong x y = true.
Proof.
  intros Hx Hy.
  assert (H : forallb (λ x, forallb (not_overlong x) (seqZ 0 256)) (seqZ 0 256) = true) by (vm_compute; reflexivity).
  rewrite forallb_forall in H. specialize (H x). rewrite forallb_forall in H.
  apply H; apply list_elem_of_In, elem_of_seqZ; lia.
Qed.

Lemma high_bits_ge x y n lo hi :
  0 <= x < 256 → 0 <= y < 256 → lead x = Some (n, lo, hi) → within lo hi y = true → 128 <= high_bits x y.
Proof.
  intros Hx Hy Hl Hw. pose proof (not_overlong_all x y Hx Hy) as H. unfold not_overlong in H.
  rewrite Hl, Hw in H. by apply Z.leb_le.
Qed.

(** What is known of a decoded rune: its bytes, when it is ASCII. *)
Definition chunk_ok (c : Z * string) : Prop :=
  c.2 ≠ "" ∧ (c.1 < 128 → 0 <= c.1 ∧ c.2 = String (chr c.1) "").

Lemma chunk_ok_wide r b : 128 <= r → b ≠ "" → chunk_ok (r, b).
Proof. intros Hr Hb. split; simpl; [done|lia]. Qed.

Lemma lead_sizes x n lo hi : lead x = Some (n, lo, hi) → n = 2 ∨ n = 3 ∨ n = 4.
Proof. unfold lead. repeat case_match; intros [= <- <- <-]; auto. Qed.

(** Every step of the decoder takes at least one byte off the string. *)
Lemma chunks_cons a s1 :
  ∃ c s', chunks (String a s1) = c :: chunks s' ∧ String a s1 = c.2 +:+ s' ∧ chunk_ok c.
Proof.
  assert (Hbad : ∃ c s', (RuneError, String a "") :: chunks s1 = c :: chunks s' ∧
                   String a s1 = c.2 +:+ s' ∧ chunk_ok c).
  { eexists _, s1. split; [done|]. split; [done|]. by apply chunk_ok_wide. }
  cbn [chunks]. destruct (Z.ltb_spec (zb a) 0x80) as [Ha|Ha].
  { eexists _, s1. split; [done|]. split; [done|]. split; [done|]. simpl. intros _.
    rewrite chr_zb. pose proof (zb_range a). split; [lia|done]. }
  destruct (lead (zb a)) as [[[n lo] hi]|] eqn:Hl; [|done].
  destruct s1 as [|b s2]; [done|]. destruct (within lo hi (zb b)) eqn:Hw; simpl negb; cbv iota; [|done].
  pose proof (high_bits_ge _ _ _ _ _ (zb_range a) (zb_range b) Hl Hw) as Hh. unfold high_bits in Hh. rewrite Hl in Hh.
  assert (Hpos : ∀ x m k, 0 <= m → 0 <= Z.shiftl (Z.land x m) k)
    by (intros; apply Z.shiftl_nonneg, Z.land_nonneg; lia).
  assert (Hpos' : ∀ x m, 0 <= m → 0 <= Z.land x m) by (intros; apply Z.land_nonneg; lia).
  destruct (n =? 2) eqn:E2.
  { eexists _, s2. split; [done|]. split; [done|]. apply chunk_ok_wide; [|done].
    etrans; [exact Hh|]. apply lor_ge; auto with lia. }
  destruct s2 as [|c s3]; [done|]. destruct (cont (zb c)); simpl negb; cbv iota; [|done].
  destruct (n =? 3) eqn:E3.
  { eexists _, s3. split; [done|]. split; [done|]. apply chunk_ok_wide; [|done].
    etrans; [exact Hh|]. rewrite Z.lor_assoc. apply lor_ge; [apply Z.lor_nonneg; auto with lia|auto with lia]. }
  destruct s3 as [|d s4]; [done|]. destruct (cont (zb d)); simpl negb; cbv iota; [|done].
  eexists _, s4. split; [done|]. split; [done|]. apply chunk_ok_wide; [|done].
  etrans; [exact Hh|]. rewrite Z.lor_assoc. apply lor_ge; [apply Z.lor_nonneg; auto with lia|].
  apply Z.lor_nonneg; auto with lia.
Qed.

Lemma chunks_ind (P : string → Prop) :
  P "" →
  (∀ c s', chunk_ok c → P s' → chunks (c.2 +:+ s') = c :: chunks s' → P (c.2 +:+ s')) →
  ∀ s, P s.
Proof.
  intros H0 Hs s. remember (Stdlib.Strings.String.length s) as n eqn:Hn.
  revert s Hn. induction (lt_wf n) as [n _ IH]. intros [|a s1] ->; [done|].
  destruct (chunks_cons a s1) as (c & s' & Hc & Heq & Hok).
  rewrite Heq in Hc. rewrite Heq. apply Hs; [done| |done].
  eapply IH; [|done]. rewrite Heq. destruct Hok as [Hne _]. destruct (c.2) as [|x b]; [done|].
  rewrite str_length_app. simpl. lia.
Qed.

Lemma bytes_of_chunks s : bytes_of (chunks s) = s.
Proof.
  induction s as [|c s' Hok IH Hc] using chunks_ind; [done|]. rewrite Hc.
  change (bytes_of (c :: chunks s')) with (c.2 +:+ bytes_of (chunks s')). by rewrite IH.
Qed.

(** A string all of whose runes satisfy an ASCII-only predicate is its bytes. *)
Definition ascii_only (p : Z → bool) : Prop := ∀ r, p r = true → r < 128.

Lemma runes_ascii p s :
  ascii_only p → forallb p (runes s) = true →
  runes s = zb <$> Stdlib.Strings.String.list_ascii_of_string s.
Proof.
  intros Hp. induction s as [|c s' [_ Hok] IH Hc] using chunks_ind; [done|].
  unfold runes in *. rewrite Hc. rewrite fmap_cons. cbn [forallb]. intros [Hc1 Hs']%andb_true_iff.
  destruct (Hok (Hp _ Hc1)) as [Hpos ->].
  change (Stdlib.Strings.String.list_ascii_of_string (String (chr c.1) "" +:+ s'))
    with (chr c.1 :: Stdlib.Strings.String.list_ascii_of_string s').
  rewrite fmap_cons, IH by done. f_equal.
  unfold zb, chr. rewrite Stdlib.Strings.Ascii.N_ascii_embedding; [lia|]. apply Hp in Hc1. lia.
Qed.
