(* ===== verification/GoTextFacts.v ===== *)
(** * Facts about ASCII text

    ASCII strings decode to one rune per byte; what trimming keeps and what it
    removes. *)

From S2P Require Import Prelude GoText.

Definition ascii_chunk (a : ascii) : Z * string := (zb a, String a "").

Lemma chunks_ascii a s : zb a < 128 → chunks (String a s) = ascii_chunk a :: chunks s.
Proof. intros Ha. cbn [chunks]. by rewrite (proj2 (Z.ltb_lt _ _)). Qed.

Lemma zb_chr d : 0 <= d < 256 → zb (chr d) = d.
Proof. intros Hd. unfold zb, chr. rewrite Stdlib.Strings.Ascii.N_ascii_embedding; lia. Qed.

Definition ascii_string (s : string) : bool :=
  forallb (λ a, zb a <? 128) (Stdlib.Strings.String.list_ascii_of_string s).

Lemma chunks_app s t : ascii_string s = true → chunks (s +:+ t) = chunks s ++ chunks t.
Proof.
  induction s as [|a s IH]; [done|]. cbn [ascii_string Stdlib.Strings.String.list_ascii_of_string forallb].
  intros [Ha Hs]%andb_true_iff. apply Z.ltb_lt in Ha. rewrite str_app_cons, !chunks_ascii by done. cbn [app].
  f_equal. by apply IH.
Qed.

Lemma ascii_chunks s : ascii_string s = true → chunks s = ascii_chunk <$> Stdlib.Strings.String.list_ascii_of_string s.
Proof.
  induction s as [|a s IH]; [done|]. cbn [ascii_string Stdlib.Strings.String.list_ascii_of_string forallb].
  intros [Ha Hs]%andb_true_iff. rewrite chunks_ascii by (by apply Z.ltb_lt). rewrite fmap_cons. f_equal. by apply IH.
Qed.

Lemma ascii_app s t : ascii_string s = true → ascii_string t = true → ascii_string (s +:+ t) = true.
Proof.
  intros Hs Ht. induction s as [|a s IH]; [done|]. rewrite str_app_cons.
  cbn [ascii_string Stdlib.Strings.String.list_ascii_of_string forallb] in *. apply andb_true_iff in Hs as [? ?].
  apply andb_true_iff. split; [done|]. by apply IH.
Qed.

(** ** Trimming *)

Lemma drop_while_all {A} (p : A → bool) l l' : Forall (λ x, p x = true) l → drop_while p (l ++ l') = drop_while p l'.
Proof. induction 1 as [|x l Hx Hl IH]; [done|]. cbn. by rewrite Hx. Qed.

(** Spaces around a text that begins and ends with other runes. *)
Lemma TrimSpace_around u s v x y l l' :
  ascii_string u = true → ascii_string s = true →
  Forall (λ c : Z * string, IsSpace c.1 = true) (chunks u) → Forall (λ c : Z * string, IsSpace c.1 = true) (chunks v) →
  chunks s = x :: l → chunks s = l' ++ [y] → IsSpace x.1 = false → IsSpace y.1 = false →
  TrimSpace (u +:+ (s +:+ v)) = s.
Proof.
  intros Hu Hs Fu Fv E1 E2 Hx Hy. unfold TrimSpace. rewrite !chunks_app by done. rewrite drop_while_all by done.
  rewrite E1. change ((x :: l) ++ chunks v) with (x :: (l ++ chunks v)). cbn [drop_while]. rewrite Hx.
  change (x :: (l ++ chunks v)) with ((x :: l) ++ chunks v). rewrite <-E1, E2, !rev_app_distr.
  rewrite drop_while_all by (by apply Forall_rev). change (rev [y]) with [y]. cbn [app drop_while]. rewrite Hy.
  change (y :: rev l') with ([y] ++ rev l'). rewrite rev_app_distr, rev_involutive. change (rev [y]) with [y].
  rewrite <-E2. apply bytes_of_chunks.
Qed.

(** Nothing to trim. *)
Lemma TrimSpace_tight s x y l l' :
  chunks s = x :: l → chunks s = l' ++ [y] → IsSpace x.1 = false → IsSpace y.1 = false → TrimSpace s = s.
Proof.
  intros E1 E2 Hx Hy. unfold TrimSpace. rewrite E1. cbn [drop_while]. rewrite Hx, <-E1, E2.
  replace (rev (l' ++ [y])) with (y :: rev l') by (by rewrite rev_app_distr).
  cbn [drop_while]. rewrite Hy. change (y :: rev l') with ([y] ++ rev l').
  rewrite rev_app_distr, rev_involutive. change (rev [y]) with [y]. rewrite <-E2. apply bytes_of_chunks.
Qed.

(** ** Decoding again

    A multi-byte rune is decoded from its own bytes. *)

Lemma chunks_own a u c u' v :
  chunks (String a u) = c :: chunks u' → String a u = c.2 +:+ u' → (2 <= Stdlib.Strings.String.length c.2)%nat →
  chunks (c.2 +:+ v) = c :: chunks v.
Proof.
  assert (Hbad : ∀ l l', (RuneError, String a "") :: l = c :: l' → (2 <= Stdlib.Strings.String.length c.2)%nat → False).
  { intros l l' [= <- _] H. cbn in H. lia. }
  cbn [chunks]. destruct (Z.ltb_spec (zb a) 0x80) as [Ha|Ha].
  { intros [= <- _] _ H. cbn in H. lia. }
  intros H _ Hl. revert H.
  destruct (lead (zb a)) as [[[n lo] hi]|] eqn:E; [|intros H; by destruct (Hbad _ _ H Hl)].
  destruct u as [|b s2]; [intros H; by destruct (Hbad _ _ H Hl)|].
  destruct (within lo hi (zb b)) eqn:Hw; cbn [negb]; [|intros H; by destruct (Hbad _ _ H Hl)].
  destruct (n =? 2) eqn:E2.
  { intros [= <- _]. cbn [fst snd]. rewrite !str_app_cons. cbn [chunks]. rewrite (proj2 (Z.ltb_ge _ _)), E, Hw, E2 by done. done. }
  destruct s2 as [|x s3]; [intros H; by destruct (Hbad _ _ H Hl)|].
  destruct (cont (zb x)) eqn:Hx; cbn [negb]; [|intros H; by destruct (Hbad _ _ H Hl)].
  destruct (n =? 3) eqn:E3.
  { intros [= <- _]. cbn [fst snd]. rewrite !str_app_cons. cbn [chunks]. rewrite (proj2 (Z.ltb_ge _ _)), E, Hw, E2, Hx, E3 by done. done. }
  destruct s3 as [|y s4]; [intros H; by destruct (Hbad _ _ H Hl)|].
  destruct (cont (zb y)) eqn:Hy; cbn [negb]; [|intros H; by destruct (Hbad _ _ H Hl)].
  intros [= <- _]. cbn [fst snd]. rewrite !str_app_cons. cbn [chunks]. rewrite (proj2 (Z.ltb_ge _ _)), E, Hw, E2, Hx, E3, Hy by done. done.
Qed.

(** A chunk of one byte is determined by the byte. *)
Lemma chunks_single a u c u' :
  chunks (String a u) = c :: chunks u' → String a u = c.2 +:+ u' → (Stdlib.Strings.String.length c.2 < 2)%nat →
  c = ((if zb a <? 0x80 then zb a else RuneError), String a "").
Proof.
  cbn [chunks]. destruct (zb a <? 0x80); [by intros [= <- _]|].
  intros H _ Hl. revert H.
  destruct (lead (zb a)) as [[[n lo] hi]|]; [|by intros [= <- _]].
  destruct u as [|b s2]; [by intros [= <- _]|].
  destruct (within lo hi (zb b)); cbn [negb]; [|by intros [= <- _]].
  destruct (n =? 2); [intros [= <- _]; cbn in Hl; lia|].
  destruct s2 as [|x s3]; [by intros [= <- _]|].
  destruct (cont (zb x)); cbn [negb]; [|by intros [= <- _]].
  destruct (n =? 3); [intros [= <- _]; cbn in Hl; lia|].
  destruct s3 as [|y s4]; [by intros [= <- _]|].
  destruct (cont (zb y)); cbn [negb]; [|by intros [= <- _]].
  intros [= <- _]; cbn in Hl; lia.
Qed.

Lemma str_app_assoc s t u : s +:+ (t +:+ u) = (s +:+ t) +:+ u.
Proof. induction s as [|a s IH]; [done|]. by rewrite !str_app_cons, IH. Qed.

Lemma str_app_nil s : s +:+ "" = s.
Proof. induction s as [|a s IH]; [done|]. by rewrite str_app_cons, IH. Qed.

Lemma len_app s t : len (s +:+ t) = len s + len t.
Proof. unfold len. rewrite str_length_app. lia. Qed.

Lemma bytes_of_app l l' : bytes_of (l ++ l') = bytes_of l +:+ bytes_of l'.
Proof.
  induction l as [|c l IH]; [done|]. change (bytes_of ((c :: l) ++ l')) with (c.2 +:+ bytes_of (l ++ l')).
  rewrite IH. apply str_app_assoc.
Qed.

Lemma str_app_inv s t u : s +:+ t = s +:+ u → t = u.
Proof. induction s as [|a s IH]; [done|]. rewrite !str_app_cons. intros [= H]. by apply IH. Qed.

(** Decoding reads ahead, but a shorter text decodes to a prefix. *)
Lemma chunks_take n s : chunks (bytes_of (take n (chunks s))) = take n (chunks s).
Proof.
  revert n. induction s as [|c s' [Hne _] IH Hc] using chunks_ind; intros n; [by destruct n|].
  rewrite Hc. destruct n as [|n]; [done|]. cbn [take]. set (t := bytes_of (take n (chunks s'))).
  change (bytes_of (c :: take n (chunks s'))) with (c.2 +:+ t). rewrite <-IH. fold t.
  assert (Hs' : s' = t +:+ bytes_of (drop n (chunks s'))) by (unfold t; by rewrite <-bytes_of_app, take_drop, bytes_of_chunks).
  destruct c as [r b]. cbn [snd] in *. destruct b as [|a b]; [done|]. rewrite !str_app_cons in *.
  destruct (chunks_cons a (b +:+ t)) as (c' & t' & Hc' & Heq & _). rewrite Hc'.
  destruct (decide (2 <= Stdlib.Strings.String.length c'.2)%nat) as [Hl|Hl].
  - assert (E : chunks (String a (b +:+ s')) = c' :: chunks (t' +:+ bytes_of (drop n (chunks s')))).
    { rewrite Hs' at 1. rewrite str_app_assoc, <-str_app_cons, Heq, <-str_app_assoc. by apply (chunks_own a (b +:+ t) c' t'). }
    rewrite Hc in E. injection E as E _. subst c'. cbn [snd] in Heq. rewrite str_app_cons in Heq. injection Heq as Heq.
    apply str_app_inv in Heq. by subst t'.
  - assert (Hcb : (Stdlib.Strings.String.length (String a b) < 2)%nat).
    { destruct (decide (2 <= Stdlib.Strings.String.length (String a b))%nat) as [Hl'|]; [|lia].
      pose proof (chunks_own a (b +:+ s') (r, String a b) s' t Hc eq_refl Hl') as E. cbn [snd] in E. rewrite str_app_cons, Hc' in E.
      injection E as -> _. done. }
    pose proof (chunks_single a (b +:+ s') (r, String a b) s' Hc eq_refl Hcb) as E1.
    pose proof (chunks_single a (b +:+ t) c' t' Hc' Heq ltac:(lia)) as E2.
    rewrite <-E1 in E2. subst c'. cbn [snd] in Heq. rewrite str_app_cons in Heq. injection Heq as Heq.
    apply str_app_inv in Heq. by subst t'.
Qed.

Lemma chunks_drop n s : chunks (bytes_of (drop n (chunks s))) = drop n (chunks s).
Proof.
  revert n. induction s as [|c s' _ IH Hc] using chunks_ind; intros n; [by destruct n|].
  destruct n as [|n]; [by rewrite drop_0, bytes_of_chunks|]. rewrite Hc. apply IH.
Qed.

Lemma drop_while_drop {A} (p : A → bool) l : ∃ n, drop_while p l = drop n l.
Proof.
  induction l as [|x l [n IH]]; [by exists O|]. cbn [drop_while]. destruct (p x); [by exists (S n)|by exists O].
Qed.

Lemma drop_while_idemp {A} (p : A → bool) l : drop_while p (drop_while p l) = drop_while p l.
Proof. induction l as [|x l IH]; [done|]. cbn [drop_while]. destruct (p x) eqn:E; [exact IH|]. cbn. by rewrite E. Qed.

Lemma drop_while_prefix {A} (p : A → bool) l l' : drop_while p (l ++ l') = l ++ l' → l ≠ [] → drop_while p l = l.
Proof.
  destruct l as [|x l]; [done|]. intros H _. cbn [app drop_while] in *. destruct (p x) eqn:E; [|done].
  exfalso. assert (Hlen : (length (drop_while p (l ++ l')) ≤ length (l ++ l'))%nat).
  { destruct (drop_while_drop p (l ++ l')) as [n ->]. rewrite length_drop. lia. }
  rewrite H in Hlen. cbn in Hlen. lia.
Qed.


(** Trimming twice is trimming once. *)
Lemma TrimSpace_idemp s : TrimSpace (TrimSpace s) = TrimSpace s.
Proof.
  unfold TrimSpace. set (p := λ c : Z * string, IsSpace c.1).
  set (m := drop_while p (chunks s)). set (k := drop_while p (rev m)).
  assert (Hm : chunks (bytes_of m) = m) by (unfold m; destruct (drop_while_drop p (chunks s)) as [n ->]; apply chunks_drop).
  assert (Hk : chunks (bytes_of (rev k)) = rev k).
  { unfold k. destruct (drop_while_drop p (rev m)) as [n ->]. rewrite skipn_rev, rev_involutive.
    pose proof (chunks_take (length m - n) (bytes_of m)) as H. by rewrite Hm in H. }
  rewrite Hk.
  assert (Hd : drop_while p (rev k) = rev k).
  { destruct (decide (rev k = [])) as [->|Hne]; [done|].
    destruct (drop_while_drop p (rev m)) as [n Hn]. fold k in Hn.
    apply (drop_while_prefix p (rev k) (rev (take n (rev m)))); [|done].
    rewrite <-rev_app_distr, Hn, take_drop, rev_involutive. apply drop_while_idemp. }
  rewrite Hd, rev_involutive. unfold k at 1. rewrite drop_while_idemp. done.
Qed.

(** ** A line break at the end *)

Definition line_end : string := String "010"%char "".

Lemma lead_within x n lo hi : lead x = Some (n, lo, hi) → within lo hi 10 = false.
Proof. unfold lead. repeat case_match; intros [= <- <- <-]; reflexivity. Qed.

Lemma chunks_line s : chunks (s +:+ line_end) = chunks s ++ chunks line_end.
Proof.
  remember (Stdlib.Strings.String.length s) as n eqn:Hn. revert s Hn.
  induction (lt_wf n) as [n _ IH]. intros [|a s1] ->; [done|].
  assert (IH' : ∀ u, (Stdlib.Strings.String.length u < Stdlib.Strings.String.length (String a s1))%nat →
    chunks (u +:+ line_end) = chunks u ++ chunks line_end) by (intros u Hu; by eapply IH).
  clear IH. rewrite str_app_cons. cbn [chunks].
  assert (Hbad : (RuneError, String a "") :: chunks (s1 +:+ line_end) = ((RuneError, String a "") :: chunks s1) ++ chunks line_end).
  { cbn [app]. f_equal. apply IH'. simpl. lia. }
  destruct (zb a <? 0x80); [cbn [app]; f_equal; apply IH'; simpl; lia|].
  destruct (lead (zb a)) as [[[k lo] hi]|] eqn:El; [|exact Hbad].
  destruct s1 as [|b s2]; [change ("" +:+ line_end) with (String "010" ""); pose proof (lead_within _ _ _ _ El) as Hw; change 10 with (zb "010") in Hw; cbn iota; rewrite Hw; reflexivity|].
  rewrite str_app_cons in *. destruct (within lo hi (zb b)); cbn [negb]; [|exact Hbad].
  destruct (k =? 2); [cbn [app]; f_equal; apply IH'; simpl; lia|].
  destruct s2 as [|c s3]; [exact Hbad|]. rewrite str_app_cons in *. destruct (cont (zb c)); cbn [negb]; [|exact Hbad].
  destruct (k =? 3); [cbn [app]; f_equal; apply IH'; simpl; lia|].
  destruct s3 as [|d s4]; [exact Hbad|]. rewrite str_app_cons in *. destruct (cont (zb d)); cbn [negb]; [|exact Hbad].
  cbn [app]. f_equal. apply IH'. simpl. lia.
Qed.

Lemma drop_while_all_end {A} (p : A → bool) l x : p x = true →
  drop_while p (l ++ [x]) = match drop_while p l with [] => [] | m => m ++ [x] end.
Proof.
  intros Hx. induction l as [|y l IH]; cbn [app drop_while]; [by rewrite Hx|]. destruct (p y); [exact IH|done].
Qed.

Lemma TrimSpace_line_end s : TrimSpace (s +:+ line_end) = TrimSpace s.
Proof.
  unfold TrimSpace. rewrite chunks_line. change (chunks line_end) with [(10, line_end)].
  set (p := λ c : Z * string, IsSpace c.1). rewrite drop_while_all_end by reflexivity.
  destruct (drop_while p (chunks s)) as [|x l]; [done|]. rewrite rev_app_distr. cbn [app rev]. done.
Qed.

(** ** Printable ASCII without spaces, as in a bearer token *)

Definition visible (c : ascii) : Prop := 33 <= zb c < 127.
Definition visible_string (s : string) : Prop := Forall visible (Stdlib.Strings.String.list_ascii_of_string s).

Lemma visible_ascii s : visible_string s → ascii_string s = true.
Proof.
  intros H. unfold ascii_string. rewrite forallb_forall. intros a Ha%list_elem_of_In.
  unfold visible_string in H. rewrite Forall_forall in H. specialize (H a Ha). unfold visible in H. apply Z.ltb_lt. lia.
Qed.

Lemma visible_no_space a : visible a → IsSpace (zb a) = false.
Proof.
  unfold visible, IsSpace, within. intros Ha.
  repeat (apply orb_false_iff; split); first [apply Z.eqb_neq; lia|apply andb_false_iff; rewrite !Z.leb_gt; lia].
Qed.

(** The first and the last rune of a visible text. *)
Lemma visible_ends s : visible_string s → s ≠ "" →
  ∃ x y l l', chunks s = x :: l ∧ chunks s = l' ++ [y] ∧ IsSpace x.1 = false ∧ IsSpace y.1 = false.
Proof.
  intros Hv Hne. pose proof (ascii_chunks s (visible_ascii s Hv)) as E. unfold visible_string in Hv.
  destruct (Stdlib.Strings.String.list_ascii_of_string s) as [|a l] eqn:El; [by destruct s|].
  destruct (exists_last (l := a :: l) ltac:(done)) as (l' & b & El'). pose proof Hv as Hv'. rewrite El' in Hv'.
  exists (ascii_chunk a), (ascii_chunk b), (ascii_chunk <$> l), (ascii_chunk <$> l').
  split; [by rewrite E|]. split; [rewrite E, El'; by rewrite fmap_app|].
  split; apply visible_no_space; [by inversion Hv|]. apply Forall_app in Hv' as [_ Hv']. by inversion Hv'.
Qed.

Lemma TrimSpace_visible s : visible_string s → TrimSpace s = s.
Proof.
  intros Hv. destruct (decide (s = "")) as [->|Hne]; [done|].
  destruct (visible_ends s Hv Hne) as (x & y & l & l' & E1 & E2 & Hx & Hy). by apply (TrimSpace_tight s x y l l').
Qed.

Lemma TrimSpace_line s : visible_string s → TrimSpace (s +:+ String "010" "") = s.
Proof.
  intros Hv. destruct (decide (s = "")) as [->|Hne]; [done|].
  destruct (visible_ends s Hv Hne) as (x & y & l & l' & E1 & E2 & Hx & Hy).
  apply (TrimSpace_around "" s (String "010" "") x y l l'); try done.
  - by apply visible_ascii.
  - by repeat constructor.
Qed.

Lemma visible_app s t : visible_string s → visible_string t → visible_string (s +:+ t).
Proof.
  unfold visible_string. intros Hs Ht. induction s as [|a s IH]; [done|]. rewrite str_app_cons.
  cbn [Stdlib.Strings.String.list_ascii_of_string] in *. apply Forall_cons in Hs as [Ha Hs]. constructor; [done|]. by apply IH.
Qed.

Lemma visible_prefix n s : visible_string s → visible_string (Stdlib.Strings.String.substring 0 n s).
Proof.
  revert n. unfold visible_string. induction s as [|a s IH]; intros [|n]; simpl; try done.
  intros [Ha Hs]%Forall_cons. constructor; [done|]. by apply IH.
Qed.
