(* ===== verification/GoNet.v ===== *)
(** * Go's [net], [net/url] and [net/http]: addresses, paths and the mux

    [net.SplitHostPort], [net.ParseIP] and the texts of addresses
    ([net.IP.String], [net.TCPAddr.String]).  An address is its eight groups
    of sixteen bits; one of IPv4 has the prefix [::ffff:0:0].  A host with a
    zone is an error of [net.ParseIP].  Then the escapes of a URL's path,
    [path.Clean], and what [http.ServeMux] matches its patterns with. *)

From S2P Require Import Prelude GoTime GoText.

(** ** Hosts and ports *)

(** [strings.IndexByte(s, c)] and [LastIndexByte], as the text around it. *)
Fixpoint cut (c : ascii) (s : string) : option (string * string) :=
  match s with
  | EmptyString => None
  | String a s' =>
    if bool_decide (a = c) then Some ("", s')
    else match cut c s' with Some (x, y) => Some (String a x, y) | None => None end
  end.
Fixpoint cutLast (c : ascii) (s : string) : option (string * string) :=
  match s with
  | EmptyString => None
  | String a s' =>
    match cutLast c s' with
    | Some (x, y) => Some (String a x, y)
    | None => if bool_decide (a = c) then Some ("", s') else None
    end
  end.

(** The host of [net.SplitHostPort], when it succeeds. *)
Definition splitHost (hostport : string) : option string :=
  match cutLast ":" hostport with
  | None => None
  | Some (host, port) =>
    if has_byte "[" port || has_byte "]" port then None
    else match host with
    | String "[" inside =>
      match cut "]" inside with
      | Some (h, "") => if has_byte "[" h then None else Some h
      | _ => None
      end
    | _ => if has_byte ":" host || has_byte "[" host || has_byte "]" host then None else Some host
    end
  end.

(** [net.JoinHostPort]. *)
Definition JoinHostPort (host port : string) : string :=
  if has_byte ":" host then "[" +:+ host +:+ "]:" +:+ port else host +:+ ":" +:+ port.

(** ** Parsing addresses *)

Definition IP : Type := list Z.

(** The four fields of [parseIPv4Fields]: [val] and [digLen] are those of the
    current field, which has no leading zero and is at most 255. *)
Fixpoint v4Fields (s : string) (val : Z) (digLen : nat) (fields : list Z) : option (list Z) :=
  match s with
  | EmptyString => if (length fields <? 3)%nat then None else Some (fields ++ [val])
  | String c s =>
    if is_digit (zb c) then
      if (digLen =? 1)%nat && (val =? 0) then None
      else let val := val * 10 + (zb c - 48) in
        if 255 <? val then None else v4Fields s val (S digLen) fields
    else if bool_decide (c = "."%char) then
      if (digLen =? 0)%nat || bool_decide (s = "") then None
      else if (length fields =? 3)%nat then None
      else v4Fields s 0 0 (fields ++ [val])
    else None
  end.

Definition hexDigit (c : ascii) : option Z :=
  let x := zb c in
  if is_digit x then Some (x - 48)
  else if within 97 102 x then Some (x - 87)
  else if within 65 70 x then Some (x - 55)
  else None.

(** The digits of a group: their number, their value and what follows; a fifth
    digit is an error. *)
Fixpoint hexRun (s : string) (off : nat) (acc : Z) : option (nat * Z * string) :=
  match s with
  | EmptyString => Some (off, acc, s)
  | String c s' =>
    match hexDigit c with
    | None => Some (off, acc, s)
    | Some d => if (3 <? off)%nat then None else hexRun s' (S off) (acc * 16 + d)
    end
  end.

Definition pair16 (fields : list Z) : list Z :=
  match fields with [a; b; c; d] => [a * 256 + b; c * 256 + d] | _ => [] end.

(** The loop of [parseIPv6] with room for [n] groups: the groups, and how many
    come before the ellipsis. *)
Fixpoint v6Groups (n : nat) (s : string) (groups : list Z) (ellipsis : option nat) : option (list Z * option nat) :=
  match n with
  | O => if bool_decide (s = "") then Some (groups, ellipsis) else None
  | S n' =>
    match hexRun s 0 0 with
    | None => None
    | Some (off, acc, rest) =>
      if (off =? 0)%nat then None
      else match rest with
      | String "." _ =>
        if bool_decide (ellipsis = None) && negb (length groups =? 6)%nat then None
        else if (n <? 2)%nat then None
        else match v4Fields s 0 0 [] with
        | Some fields => Some (groups ++ pair16 fields, ellipsis)
        | None => None
        end
      | EmptyString => Some (groups ++ [acc], ellipsis)
      | String ":" (String ":" rest) =>
        if bool_decide (ellipsis ≠ None) then None
        else if bool_decide (rest = "") then Some (groups ++ [acc], Some (S (length groups)))
        else v6Groups n' rest (groups ++ [acc]) (Some (S (length groups)))
      | String ":" EmptyString => None
      | String ":" rest => v6Groups n' rest (groups ++ [acc]) ellipsis
      | _ => None
      end
    end
  end.

Definition expand (groups : list Z) (ellipsis : option nat) : option IP :=
  if (length groups <? 8)%nat then
    match ellipsis with
    | None => None
    | Some e => Some (take e groups ++ replicate (8 - length groups) 0 ++ drop e groups)
    end
  else if bool_decide (ellipsis = None) then Some groups else None.

Definition parseIPv6 (s : string) : option IP :=
  match s with
  | String ":" (String ":" EmptyString) => Some (replicate 8 0)
  | String ":" (String ":" s) => '(groups, e) ← v6Groups 8 s [] (Some O); expand groups e
  | _ => '(groups, e) ← v6Groups 8 s [] None; expand groups e
  end.

Definition v4Prefix : list Z := [0; 0; 0; 0; 0; 0xFFFF].

Definition parseIPv4 (s : string) : option IP := fields ← v4Fields s 0 0 []; Some (v4Prefix ++ pair16 fields).

(** The first of the bytes that decide what [netip.ParseAddr] tries. *)
Fixpoint addressKind (s : string) : option ascii :=
  match s with
  | EmptyString => None
  | String c s => if bool_decide (c ∈ ["."; ":"; "%"]%char) then Some c else addressKind s
  end.

Definition ParseIP (s : string) : option IP :=
  match addressKind s with
  | Some "."%char => parseIPv4 s
  | Some ":"%char => if has_byte "%" s then None else parseIPv6 s
  | _ => None
  end.

(** [IP.To4] and [IP.IsLoopback]. *)
Definition To4 (ip : IP) : option (list Z) :=
  if bool_decide (take 6 ip = v4Prefix) then Some (drop 6 ip) else None.
Definition IsLoopback (ip : IP) : bool :=
  match To4 ip with
  | Some (g :: _) => g / 256 =? 127
  | _ => bool_decide (ip = [0; 0; 0; 0; 0; 0; 0; 1])
  end.

(** ** Writing addresses *)

Definition digit10 (d : Z) : string := String (chr (48 + d)) "".
Definition byteText (b : Z) : string :=
  (if 100 <=? b then digit10 (b / 100) else "") +:+ (if 10 <=? b then digit10 (b / 10 mod 10) else "") +:+ digit10 (b mod 10).

Definition v4Text (a b c d : Z) : string :=
  byteText a +:+ "." +:+ byteText b +:+ "." +:+ byteText c +:+ "." +:+ byteText d.

Definition digit16 (d : Z) : string := String (chr (if d <? 10 then 48 + d else 87 + d)) "".
Definition hexText (g : Z) : string :=
  (if 0x1000 <=? g then digit16 (g / 0x1000) else "") +:+ (if 0x100 <=? g then digit16 (g / 0x100 mod 16) else "") +:+
  (if 0x10 <=? g then digit16 (g / 0x10 mod 16) else "") +:+ digit16 (g mod 16).

Fixpoint groupsText (l : list Z) : string :=
  match l with [] => "" | [g] => hexText g | g :: l => hexText g +:+ ":" +:+ groupsText l end.

(** The longest run of zero groups, and the first of these: where it starts
    and how long it is. *)
Fixpoint zeros (l : list Z) : nat := match l with 0 :: l => S (zeros l) | _ => O end.
Fixpoint longestZeros (i : nat) (l : list Z) (best : nat * nat) : nat * nat :=
  match l with
  | [] => best
  | _ :: l' =>
    let n := zeros l in
    longestZeros (S i) l' (if (2 <=? n)%nat && (best.2 <? n)%nat then (i, n) else best)
  end.

Definition v6Text (ip : IP) : string :=
  match longestZeros 0 ip (O, O) with
  | (_, O) => groupsText ip
  | (i, n) => groupsText (take i ip) +:+ "::" +:+ groupsText (drop (i + n) ip)
  end.

Definition IPString (ip : IP) : string :=
  match To4 ip with
  | Some [g; h] => v4Text (g / 256) (g mod 256) (h / 256) (h mod 256)
  | _ => v6Text ip
  end.

(** [net.TCPAddr.String], with the text of the port. *)
Definition TCPAddrString (ip : IP) (zone port : string) : string :=
  JoinHostPort (if bool_decide (zone = "") then IPString ip else IPString ip +:+ "%" +:+ zone) port.

Example addresses :
  map ParseIP ["127.0.0.1"; "127.1"; "0127.0.0.1"; "127.0.0.01"; "256.0.0.1"; "::1"; "::"; "::ffff:127.0.0.1"; "0:0:0:0:0:0:0:1";
    "1::2::3"; "::1%lo"; "1:2:3:4:5:6:7:8:9"; "1:2:3:4:5:6:7::"; "localhost"; "12345::"; "fe80::1:0"] =
  [Some (v4Prefix ++ [0x7F00; 1]); None; None; None; None; Some [0; 0; 0; 0; 0; 0; 0; 1]; Some (replicate 8 0);
    Some (v4Prefix ++ [0x7F00; 1]); Some [0; 0; 0; 0; 0; 0; 0; 1]; None; None; None; Some [1; 2; 3; 4; 5; 6; 7; 0]; None; None;
    Some [0xfe80; 0; 0; 0; 0; 0; 1; 0]].
Proof. vm_compute. reflexivity. Qed.

Example address_texts :
  map (λ ip, TCPAddrString ip "" "80") [v4Prefix ++ [0x7F00; 1]; [0; 0; 0; 0; 0; 0; 0; 1]; replicate 8 0; [0x2001; 0xdb8; 0; 0; 1; 0; 0; 1]] =
  ["127.0.0.1:80"; "[::1]:80"; "[::]:80"; "[2001:db8::1:0:0:1]:80"].
Proof. vm_compute. reflexivity. Qed.

(** ** Paths of URLs *)

(** [shouldEscape] in a path: letters, digits, and the marks that have no other
    meaning there. *)
Definition pathChar (a : ascii) : bool :=
  let c := zb a in
  is_lower c || is_upper c || is_digit c || has_byte a "-_.~$&+,/:;=@".

Definition hexUpper (d : Z) : ascii := chr (if d <? 10 then 48 + d else 55 + d).
Definition unhex (a : ascii) : option Z :=
  let c := zb a in
  if is_digit c then Some (c - 48)
  else if within 97 102 c then Some (c - 87)
  else if within 65 70 c then Some (c - 55)
  else None.

Definition percent : ascii := "%"%char.

Fixpoint escapePath (s : string) : string :=
  match s with
  | EmptyString => EmptyString
  | String a s =>
    if pathChar a then String a (escapePath s)
    else String percent (String (hexUpper (zb a / 16)) (String (hexUpper (zb a mod 16)) (escapePath s)))
  end.

(** [url.PathUnescape]. *)
Fixpoint PathUnescape (s : string) : option string :=
  match s with
  | EmptyString => Some EmptyString
  | String a s1 =>
    if bool_decide (a = percent) then
      match s1 with
      | String x (String y s2) =>
        match unhex x, unhex y with
        | Some h, Some l => String (chr (16 * h + l)) <$> PathUnescape s2
        | _, _ => None
        end
      | _ => None
      end
    else String a <$> PathUnescape s1
  end.

(** [URL.EscapedPath], for a URL parsed from the path [raw], which is [path]
    without its escapes: the path as it was sent, unless it holds a byte that
    has to be escaped. *)
Definition validEncoded (s : string) : bool :=
  forallb (λ a, pathChar a || has_byte a "!'()*[]%") (Stdlib.Strings.String.list_ascii_of_string s).
Definition EscapedPath (raw path : string) : string :=
  if validEncoded raw then raw else if bool_decide (path = "*") then "*" else escapePath path.

(** [path.Clean] on the elements of a path. *)
Definition cleanElements (rooted : bool) (es : list string) : list string :=
  rev (foldl (λ acc e,
    if bool_decide (e = "") || bool_decide (e = ".") then acc
    else if bool_decide (e = "..") then
      match acc with
      | x :: acc' => if bool_decide (x = "..") then e :: acc else acc'
      | [] => if rooted then [] else [e]
      end
    else e :: acc) [] es).
Definition slash : ascii := "/"%char.
Definition Clean (p : string) : string :=
  let rooted := HasPrefix p "/" in
  let body := Stdlib.Strings.String.concat "/" (cleanElements rooted (Split slash p)) in
  if rooted then String slash body else if bool_decide (body = "") then "." else body.

(** ** http.ServeMux *)

(** [cleanPath]: rooted, clean, and with the slash at the end it had. *)
Definition cleanPath (p : string) : string :=
  let p := if HasPrefix p "/" then p else "/" +:+ p in
  let np := Clean p in
  if bool_decide (snd <$> cutLast slash p = Some "") && negb (bool_decide (np = "/")) then np +:+ "/" else np.

(** What the patterns of a mux are matched with: the segments of the path, each
    without its escapes.  A path that is not clean is redirected, unless the
    method is CONNECT. *)
Inductive muxAnswer := MuxInvalid | MuxRedirect | MuxSegments (segments : list string).

#[global] Instance muxAnswer_eq_dec : EqDecision muxAnswer.
Proof. solve_decision. Defined.

Definition pathSegments (p : string) : list string := (λ e, default e (PathUnescape e)) <$> tail (Split slash p).

Definition muxTarget (method raw : string) : muxAnswer :=
  match PathUnescape raw with
  | None => MuxInvalid
  | Some path =>
    let p := EscapedPath raw path in
    if bool_decide (raw = "*") then MuxInvalid
    else if negb (bool_decide (method = "CONNECT")) && negb (bool_decide (cleanPath p = p)) then MuxRedirect
    else MuxSegments (pathSegments p)
  end.

Example mux_targets :
  muxTarget "GET" <$> ["/healthz"; "/health%7a"; "/a%2Fb"; "/a//b"; "/a/"; "/%zz"; "/a b"] =
  [MuxSegments ["healthz"]; MuxSegments ["healthz"]; MuxSegments ["a/b"]; MuxRedirect; MuxSegments ["a"; ""]; MuxInvalid; MuxSegments ["a b"]].
Proof. vm_compute. reflexivity. Qed.
