(* ===== verification/GoNetFacts.v ===== *)
(** * Facts about Go's [net]

    Reading the text of an address gives the address back, and the host of the
    text of a TCP address is the text of its IP address. *)

From S2P Require Import Prelude GoTime GoText GoTextFacts GoNet.

Definition group_ok (g : Z) : Prop := 0 <= g < 0x10000.
Definition ip_ok (ip : IP) : Prop := length ip = 8%nat ∧ Forall group_ok ip.

(** ** Digits *)

Lemma below_split (P : Z → Prop) (n : nat) d : 0 <= d < Z.of_nat n → Forall P (Z.of_nat <$> seq 0 n) → P d.
Proof.
  intros Hd H. rewrite Forall_forall in H. apply H. apply list_elem_of_fmap. exists (Z.to_nat d).
  split; [lia|]. apply elem_of_seq. lia.
Qed.

Lemma digit10_zb d : 0 <= d < 10 → zb (chr (48 + d)) = 48 + d.
Proof. intros. apply zb_chr. lia. Qed.

Lemma hexDigit_digit16 d : 0 <= d < 16 → hexDigit (chr (if d <? 10 then 48 + d else 87 + d)) = Some d.
Proof.
  intros Hd. apply (below_split (λ d, hexDigit (chr (if d <? 10 then 48 + d else 87 + d)) = Some d) 16 d Hd).
  apply (bool_decide_unpack _). vm_compute. exact I.
Qed.

(** The bytes of an address that are not separators. *)
Definition plain (c : ascii) : Prop := hexDigit c ≠ None.

Lemma plain_colon c : plain c → c ≠ ":"%char.
Proof. by intros H ->. Qed.
Lemma plain_dot c : plain c → c ≠ "."%char.
Proof. by intros H ->. Qed.
Lemma plain_percent c : plain c → c ≠ "%"%char.
Proof. by intros H ->. Qed.

Lemma digit10_plain d : 0 <= d < 10 → plain (chr (48 + d)).
Proof.
  intros Hd. apply (below_split (λ d, hexDigit (chr (48 + d)) ≠ None) 10 d Hd). apply (bool_decide_unpack _). vm_compute. exact I.
Qed.

(** ** Texts as bytes *)

Lemma str_nil_app s : "" +:+ s = s.
Proof. done. Qed.

Fixpoint all_plain (s : string) : Prop := match s with EmptyString => True | String c s => plain c ∧ all_plain s end.

Lemma all_plain_app s t : all_plain s → all_plain t → all_plain (s +:+ t).
Proof. induction s as [|a s IH]; [done|]. rewrite str_app_cons. intros [? ?] ?. split; auto. Qed.

Lemma has_byte_plain c s : hexDigit c = None → all_plain s → has_byte c s = false.
Proof.
  intros Hc. induction s as [|a s IH]; [done|]. intros [Ha Hs]. simpl. rewrite bool_decide_false, IH; [done..|]. by intros ->.
Qed.

Lemma addressKind_plain s t : all_plain s → addressKind (s +:+ t) = addressKind t.
Proof.
  induction s as [|a s IH]; [done|]. intros [Ha Hs]. rewrite str_app_cons. simpl. rewrite bool_decide_false; [auto|].
  rewrite !elem_of_cons. intros [-> |[-> |[-> |?%elem_of_nil]]]; done.
Qed.

Lemma byteText_plain b : 0 <= b < 256 → all_plain (byteText b).
Proof.
  intros Hb. unfold byteText, digit10.
  assert (all_plain (String (chr (48 + b mod 10)) "")) by (split; [apply digit10_plain; pose proof (Z.mod_pos_bound b 10); lia|done]).
  repeat apply all_plain_app; [case_match|case_match|]; try done; (split; [apply digit10_plain|done]).
  - split; [apply Z.div_pos; lia|apply Z.div_lt_upper_bound; lia].
  - apply Z.mod_pos_bound. lia.
Qed.

Lemma digit16_plain d : 0 <= d < 16 → all_plain (digit16 d).
Proof. intros Hd. split; [|done]. unfold plain. by rewrite hexDigit_digit16. Qed.

Lemma hexText_plain g : group_ok g → all_plain (hexText g).
Proof.
  intros [Hg1 Hg2]. unfold hexText. repeat apply all_plain_app; repeat case_match; try done; apply digit16_plain.
  - split; [apply Z.div_pos; lia|apply Z.div_lt_upper_bound; lia].
  - apply Z.mod_pos_bound. lia.
  - apply Z.mod_pos_bound. lia.
  - apply Z.mod_pos_bound. lia.
Qed.

(** ** IPv4 *)

Lemma v4Fields_digit d s val n fields : 0 <= d < 10 → 0 <= val → (n = 1%nat → val ≠ 0) → val * 10 + d <= 255 →
  v4Fields (digit10 d +:+ s) val n fields = v4Fields s (val * 10 + d) (S n) fields.
Proof.
  intros Hd Hv Hn Hle. unfold digit10. rewrite str_app_cons. simpl. rewrite (digit10_zb d Hd).
  assert (is_digit (48 + d) = true) as -> by (unfold is_digit, within; lia).
  assert (((n =? 1)%nat && (val =? 0)) = false) as -> by (destruct (Nat.eqb_spec n 1); [specialize (Hn e)|]; lia).
  replace (48 + d - 48) with d by lia. assert ((255 <? val * 10 + d) = false) as -> by lia. done.
Qed.

Lemma v4Fields_byte b s fields : 0 <= b < 256 → ∃ n, n ≠ O ∧ v4Fields (byteText b +:+ s) 0 0 fields = v4Fields s b n fields.
Proof.
  intros Hb. unfold byteText. pose proof (Z.div_mod b 10 ltac:(lia)) as E1. pose proof (Z.mod_pos_bound b 10 ltac:(lia)) as B1.
  pose proof (Z.div_mod (b / 10) 10 ltac:(lia)) as E2. pose proof (Z.mod_pos_bound (b / 10) 10 ltac:(lia)) as B2.
  assert (E3 : b / 10 / 10 = b / 100) by (rewrite Z.div_div by lia; done).
  assert (B3 : 0 <= b / 100 < 10) by (split; [apply Z.div_pos; lia|apply Z.div_lt_upper_bound; lia]). rewrite E3 in E2.
  rewrite <- !str_app_assoc. destruct (Z.leb_spec 100 b).
  - replace (10 <=? b) with true by lia. exists 3%nat. split; [done|].
    rewrite !v4Fields_digit by lia. f_equal. lia.
  - destruct (Z.leb_spec 10 b).
    + exists 2%nat. split; [done|]. rewrite str_nil_app, !v4Fields_digit by lia. f_equal. lia.
    + exists 1%nat. split; [done|]. rewrite !str_nil_app, !v4Fields_digit by lia. f_equal. lia.
Qed.

Lemma v4Fields_dot s n fields b : n ≠ O → s ≠ "" → (length fields < 3)%nat →
  v4Fields (String "." s) b n fields = v4Fields s 0 0 (fields ++ [b]).
Proof.
  intros Hn Hs Hl. simpl. rewrite (bool_decide_false (s = "")) by done.
  rewrite (proj2 (Nat.eqb_neq n 0)), (proj2 (Nat.eqb_neq (length fields) 3)) by (done || lia). done.
Qed.

Lemma byteText_ne b s : byteText b +:+ s ≠ "".
Proof. unfold byteText, digit10. by repeat case_match. Qed.

Lemma parseIPv4_text a b c d : Forall (λ x, 0 <= x < 256) [a; b; c; d] →
  v4Fields (v4Text a b c d) 0 0 [] = Some [a; b; c; d].
Proof.
  intros H. rewrite !Forall_cons in H. destruct H as (Ha & Hb & Hc & Hd & _). unfold v4Text.
  destruct (v4Fields_byte a ("." +:+ byteText b +:+ "." +:+ byteText c +:+ "." +:+ byteText d) [] Ha) as (n1 & H1 & ->).
  rewrite !(str_app_cons "." ""), !str_nil_app, v4Fields_dot by (done || apply byteText_ne || (simpl; lia)).
  destruct (v4Fields_byte b (String "." (byteText c +:+ String "." (byteText d))) ([] ++ [a]) Hb) as (n2 & H2 & ->).
  rewrite v4Fields_dot by (done || apply byteText_ne || (simpl; lia)).
  destruct (v4Fields_byte c (String "." (byteText d)) (([] ++ [a]) ++ [b]) Hc) as (n3 & H3 & ->).
  rewrite <- (str_app_nil (byteText d)), v4Fields_dot by (done || apply byteText_ne || (simpl; lia)).
  by destruct (v4Fields_byte d "" ((([] ++ [a]) ++ [b]) ++ [c]) Hd) as (n4 & H4 & ->).
Qed.

(** ** IPv6 *)

Lemma hexRun_digit d s off acc : 0 <= d < 16 → (off <= 3)%nat → hexRun (digit16 d +:+ s) off acc = hexRun s (S off) (acc * 16 + d).
Proof.
  intros Hd Ho. unfold digit16. rewrite str_app_cons, str_nil_app. simpl. rewrite hexDigit_digit16 by done.
  by rewrite (proj2 (Nat.ltb_ge 3 off)).
Qed.

(** What may follow a group. *)
Definition separates (s : string) : Prop := s = "" ∨ ∃ s', s = String ":" s'.

Lemma hexRun_stop s off acc : separates s → hexRun s off acc = Some (off, acc, s).
Proof. by intros [-> |[s' ->]]. Qed.

Lemma hexRun_text g s : group_ok g → separates s → ∃ off, off ≠ O ∧ hexRun (hexText g +:+ s) 0 0 = Some (off, g, s).
Proof.
  intros [Hg1 Hg2] Hs. unfold hexText. rewrite <- !str_app_assoc.
  pose proof (Z.div_mod g 16 ltac:(lia)) as E1. pose proof (Z.mod_pos_bound g 16 ltac:(lia)) as B1.
  pose proof (Z.div_mod (g / 16) 16 ltac:(lia)) as E2. pose proof (Z.mod_pos_bound (g / 16) 16 ltac:(lia)) as B2.
  pose proof (Z.div_mod (g / 16 / 16) 16 ltac:(lia)) as E3. pose proof (Z.mod_pos_bound (g / 16 / 16) 16 ltac:(lia)) as B3.
  assert (F2 : g / 16 / 16 = g / 0x100) by (by rewrite Z.div_div by lia).
  assert (F3 : g / 0x100 / 16 = g / 0x1000) by (by rewrite Z.div_div by lia).
  assert (B4 : 0 <= g / 0x1000 < 16) by (split; [apply Z.div_pos; lia|apply Z.div_lt_upper_bound; lia]).
  rewrite F2 in E2, E3, B3. rewrite F3 in E3.
  destruct (Z.leb_spec 0x1000 g); [exists 4%nat|destruct (Z.leb_spec 0x100 g); [exists 3%nat|destruct (Z.leb_spec 0x10 g); [exists 2%nat|exists 1%nat]]];
    (split; [done|]); rewrite ?str_nil_app; repeat match goal with |- context [?a <=? g] => replace (a <=? g) with true by lia end;
    rewrite !hexRun_digit, hexRun_stop by (done || lia); do 3 f_equal; lia.
Qed.

Lemma hexText_head g s : group_ok g → ∃ c t, hexText g +:+ s = String c t ∧ plain c.
Proof.
  intros Hg. pose proof (hexText_plain g Hg) as Hp. destruct (hexText g) as [|c t] eqn:E.
  - exfalso. revert E. unfold hexText, digit16. by repeat case_match.
  - exists c, (t +:+ s). split; [by rewrite str_app_cons|]. apply Hp.
Qed.

Lemma groupsText_head g gs s : group_ok g → ∃ c t, groupsText (g :: gs) +:+ s = String c t ∧ plain c.
Proof.
  intros Hg. destruct gs as [|g' gs]; [by apply hexText_head|]. cbn [groupsText]. rewrite <- str_app_assoc. by apply hexText_head.
Qed.

(** One turn of the loop, on a group. *)
Lemma v6Groups_last n g acc e : group_ok g → v6Groups (S n) (hexText g) acc e = Some (acc ++ [g], e).
Proof.
  intros Hg. rewrite <- (str_app_nil (hexText g)). cbn [v6Groups].
  destruct (hexRun_text g "" Hg) as (off & Ho & ->); [by left|]. by rewrite (proj2 (Nat.eqb_neq off 0)).
Qed.

Lemma v6Groups_more n g c s acc e : group_ok g → plain c →
  v6Groups (S n) (hexText g +:+ String ":" (String c s)) acc e = v6Groups n (String c s) (acc ++ [g]) e.
Proof.
  intros Hg Hc. cbn [v6Groups]. destruct (hexRun_text g (String ":" (String c s)) Hg) as (off & Ho & ->); [right; eauto|].
  rewrite (proj2 (Nat.eqb_neq off 0)) by done. apply plain_colon in Hc.
  by destruct c as [[] [] [] [] [] [] [] []].
Qed.

Lemma v6Groups_gap n g s acc : group_ok g →
  v6Groups (S n) (hexText g +:+ String ":" (String ":" s)) acc None =
    if bool_decide (s = "") then Some (acc ++ [g], Some (S (length acc))) else v6Groups n s (acc ++ [g]) (Some (S (length acc))).
Proof.
  intros Hg. cbn [v6Groups]. destruct (hexRun_text g (String ":" (String ":" s)) Hg) as (off & Ho & ->); [right; eauto|].
  by rewrite (proj2 (Nat.eqb_neq off 0)).
Qed.

Lemma groupsText_cons g g' gs : groupsText (g :: g' :: gs) = hexText g +:+ String ":" (groupsText (g' :: gs)).
Proof. done. Qed.

Lemma v6Groups_text n gs acc e : Forall group_ok gs → gs ≠ [] → (length gs <= n)%nat →
  v6Groups n (groupsText gs) acc e = Some (acc ++ gs, e).
Proof.
  revert n acc. induction gs as [|g gs IH]; intros n acc Hok Hne Hn; [done|]. apply Forall_cons in Hok as [Hg Hok].
  destruct n as [|n]; [simpl in Hn; lia|]. destruct gs as [|g' gs]; [by apply v6Groups_last|].
  rewrite groupsText_cons. destruct (groupsText_head g' gs "") as (c & t & E & Hc); [by inversion Hok|].
  rewrite str_app_nil in E. rewrite E, v6Groups_more, <- E, IH by (done || simpl in *; lia). by rewrite <- app_assoc.
Qed.

Lemma v6Groups_ellipsis n gs s acc : Forall group_ok gs → gs ≠ [] → (length gs <= n)%nat →
  v6Groups n (groupsText gs +:+ String ":" (String ":" s)) acc None =
    if bool_decide (s = "") then Some (acc ++ gs, Some (length (acc ++ gs)))
    else v6Groups (n - length gs) s (acc ++ gs) (Some (length (acc ++ gs))).
Proof.
  revert n acc. induction gs as [|g gs IH]; intros n acc Hok Hne Hn; [done|]. apply Forall_cons in Hok as [Hg Hok].
  destruct n as [|n]; [simpl in Hn; lia|]. destruct gs as [|g' gs].
  - cbn [groupsText]. rewrite v6Groups_gap by done. rewrite length_app, Nat.add_1_r. simpl. by rewrite Nat.sub_0_r.
  - rewrite groupsText_cons, <- str_app_assoc, str_app_cons.
    destruct (groupsText_head g' gs (String ":" (String ":" s))) as (c & t & E & Hc); [by inversion Hok|].
    rewrite E, v6Groups_more, <- E, IH by (done || simpl in *; lia). by rewrite <- app_assoc.
Qed.

(** ** The run of zeros *)

Lemma zeros_take l : (zeros l <= length l)%nat ∧ take (zeros l) l = replicate (zeros l) 0.
Proof. induction l as [|[|p|p] l [IH1 IH2]]; simpl; [done| |by split; [lia|]..]. split; [lia|]. by rewrite IH2. Qed.

Definition run_of (ip : IP) (best : nat * nat) : Prop :=
  best.2 = O ∨ (2 <= best.2)%nat ∧ (best.1 + best.2 <= length ip)%nat ∧ take best.2 (drop best.1 ip) = replicate best.2 0.

Lemma longestZeros_run ip i l best : l = drop i ip → run_of ip best → run_of ip (longestZeros i l best).
Proof.
  revert i best. induction l as [|g l IH]; intros i best Hl Hb; [done|]. cbn [longestZeros]. apply IH.
  - replace (S i) with (i + 1)%nat by lia. by rewrite <- drop_drop, <- Hl.
  - destruct ((2 <=? zeros (g :: l))%nat && (best.2 <? zeros (g :: l))%nat) eqn:E; [|done].
    apply andb_prop in E as [E _]. apply Nat.leb_le in E. right. cbn [fst snd]. rewrite <- Hl.
    destruct (zeros_take (g :: l)) as [H1 H2]. split_and!; [done| |done].
    assert (Hlen : length (g :: l) = length (drop i ip)) by by rewrite Hl. rewrite length_drop in Hlen. lia.
Qed.

Lemma ip_split ip i n : (i + n <= length ip)%nat → take n (drop i ip) = replicate n 0 →
  ip = take i ip ++ replicate n 0 ++ drop (i + n) ip.
Proof. intros Hl <-. by rewrite <- drop_drop, take_drop, take_drop. Qed.

(** ** Whole addresses *)

Lemma parseIPv6_plain c s : plain c → parseIPv6 (String c s) = ('(groups, e) ← v6Groups 8 (String c s) [] None; expand groups e).
Proof. intros Hc. destruct c as [[] [] [] [] [] [] [] []]; try reflexivity. by destruct Hc. Qed.

Lemma parseIPv6_gap s : s ≠ "" → parseIPv6 (String ":" (String ":" s)) = ('(groups, e) ← v6Groups 8 s [] (Some O); expand groups e).
Proof. by destruct s. Qed.

Lemma groupsText_ne l : l ≠ [] → Forall group_ok l → groupsText l ≠ "".
Proof.
  destruct l as [|g l]; [done|]. intros _ [Hg _]%Forall_cons. destruct (groupsText_head g l "" Hg) as (c & t & E & _).
  rewrite str_app_nil in E. by rewrite E.
Qed.

Lemma parseIPv6_text ip : ip_ok ip → parseIPv6 (v6Text ip) = Some ip.
Proof.
  intros [Hlen Hok]. unfold v6Text. pose proof (longestZeros_run ip 0 ip (O, O) eq_refl (or_introl eq_refl)) as Hrun.
  destruct (longestZeros 0 ip (O, O)) as [i n]. destruct n as [|n'].
  { destruct ip as [|g ip]; [done|]. destruct (groupsText_head g ip "") as (c & t & E & Hc); [by inversion Hok|].
    rewrite str_app_nil in E. rewrite E, parseIPv6_plain, <- E, v6Groups_text by (done || simpl in *; lia). simpl. unfold expand.
    by rewrite Hlen. }
  destruct Hrun as [|(Hn & Hl & Hz)]; [done|]. cbn [fst snd] in Hn, Hl, Hz. set (n := S n') in *.
  pose proof (ip_split ip i n Hl Hz) as Hip. rewrite !str_app_cons, str_nil_app.
  assert (Hpre : Forall group_ok (take i ip)) by by apply Forall_take.
  assert (Hpost : Forall group_ok (drop (i + n) ip)) by by apply Forall_drop.
  assert (Hexp : expand (take i ip ++ drop (i + n) ip) (Some i) = Some ip).
  { unfold expand. rewrite length_app, length_take, length_drop, Hlen.
    rewrite (proj2 (Nat.ltb_lt _ 8)) by lia. rewrite take_app_length', drop_app_length' by (rewrite length_take; lia).
    replace (8 - (i `min` 8 + (8 - (i + n))))%nat with n by lia. by rewrite <- Hip. }
  destruct (decide (i = O)) as [->|Hi].
  - cbn [take groupsText]. rewrite str_nil_app. cbn [plus take app] in *.
    destruct (decide (drop n ip = [])) as [E|E].
    + rewrite E in Hip. rewrite E. rewrite app_nil_r in Hip. assert (n = 8)%nat as -> by (apply (f_equal length) in E; rewrite length_drop in E; simpl in E; lia).
      simpl. by rewrite Hip at 1.
    + rewrite parseIPv6_gap by by apply groupsText_ne. rewrite v6Groups_text by (done || rewrite length_drop; lia). exact Hexp.
  - destruct (take i ip) as [|g gs] eqn:Et; [apply (f_equal length) in Et; rewrite length_take in Et; simpl in Et; lia|].
    destruct (groupsText_head g gs (String ":" (String ":" (groupsText (drop (i + n) ip))))) as (c & t & E & Hc); [by inversion Hpre|].
    assert (Hli : length (g :: gs) = i) by (rewrite <- Et, length_take; lia).
    rewrite E, parseIPv6_plain, <- E by done. rewrite v6Groups_ellipsis by (done || lia). rewrite app_nil_l, Hli. case_bool_decide as Ed.
    + assert (drop (i + n) ip = []) as E0. { destruct (decide (drop (i + n) ip = [])); [done|]. by apply groupsText_ne in Ed. }
      rewrite E0, app_nil_r in Hexp. exact Hexp.
    + rewrite v6Groups_text; [exact Hexp|done| |rewrite length_drop; lia]. by intros E0; rewrite E0 in Ed.
Qed.

Lemma groupsText_kind gs s : Forall group_ok gs → (addressKind s = Some ":"%char ∨ (2 <= length gs)%nat) →
  addressKind (groupsText gs +:+ s) = Some ":"%char.
Proof.
  intros Hok. destruct gs as [|g [|g' gs]]; intros Hs.
  - destruct Hs; [done|]. simpl in *. lia.
  - cbn [groupsText]. inversion Hok. rewrite addressKind_plain by by apply hexText_plain. destruct Hs; [done|]. simpl in *. lia.
  - rewrite groupsText_cons, <- str_app_assoc. inversion Hok. by rewrite addressKind_plain by by apply hexText_plain.
Qed.

Lemma groupsText_bytes c gs : Forall group_ok gs → hexDigit c = None → c ≠ ":"%char → has_byte c (groupsText gs) = false.
Proof.
  intros Hok Hc Hne. induction gs as [|g [|g' gs] IH]; [done| |].
  - inversion Hok. by apply has_byte_plain, hexText_plain.
  - rewrite groupsText_cons, has_byte_app. inversion Hok. rewrite has_byte_plain by (done || by apply hexText_plain).
    cbn [has_byte orb]. rewrite bool_decide_false by congruence. auto.
Qed.

Lemma v6Text_bytes c ip : ip_ok ip → hexDigit c = None → c ≠ ":"%char → has_byte c (v6Text ip) = false.
Proof.
  intros [_ Hok] Hc Hne. unfold v6Text. destruct (longestZeros 0 ip (O, O)) as [i [|n]]; [by apply groupsText_bytes|].
  rewrite !has_byte_app. rewrite !groupsText_bytes by (done || by apply Forall_take || by apply Forall_drop).
  cbn [has_byte]. by rewrite bool_decide_false by congruence.
Qed.

Lemma v6Text_kind ip : ip_ok ip → addressKind (v6Text ip) = Some ":"%char.
Proof.
  intros [Hlen Hok]. unfold v6Text. destruct (longestZeros 0 ip (O, O)) as [i [|n]].
  - rewrite <- (str_app_nil (groupsText ip)). apply groupsText_kind; [done|]. right. lia.
  - apply groupsText_kind; [by apply Forall_take|]. by left.
Qed.

(** An address of IPv4 is its prefix and its four bytes. *)
Lemma To4_inv ip l : ip_ok ip → To4 ip = Some l → ∃ g h, l = [g; h] ∧ ip = v4Prefix ++ [g; h] ∧ group_ok g ∧ group_ok h.
Proof.
  intros [Hlen Hok]. unfold To4. case_bool_decide as E; [|done]. intros [= <-].
  destruct ip as [|a [|b [|c [|d [|e [|f [|g [|h [|? ?]]]]]]]]]; try done. simpl in E. injection E as -> -> -> -> -> ->.
  rewrite !Forall_cons in Hok. exists g, h. by repeat split; apply Hok.
Qed.

Lemma To4_None_text ip : To4 ip = None → IPString ip = v6Text ip.
Proof. unfold IPString. by intros ->. Qed.

Lemma bytes_of_group g : group_ok g → 0 <= g / 256 < 256 ∧ 0 <= g mod 256 < 256.
Proof. intros [H1 H2]. split; [|apply Z.mod_pos_bound; lia]. split; [apply Z.div_pos; lia|apply Z.div_lt_upper_bound; lia]. Qed.

Lemma ParseIP_IPString ip : ip_ok ip → ParseIP (IPString ip) = Some ip.
Proof.
  intros Hip. destruct (To4 ip) as [l|] eqn:E4.
  - destruct (To4_inv ip l Hip E4) as (g & h & -> & -> & Hg & Hh). unfold IPString. rewrite E4.
    destruct (bytes_of_group g Hg) as [Ha Hb]. destruct (bytes_of_group h Hh) as [Hc Hd]. unfold ParseIP.
    assert (Hkind : addressKind (v4Text (g / 256) (g mod 256) (h / 256) (h mod 256)) = Some "."%char).
    { unfold v4Text. by rewrite addressKind_plain by by apply byteText_plain. }
    rewrite Hkind. unfold parseIPv4. rewrite parseIPv4_text by by rewrite !Forall_cons. simpl. unfold v4Prefix.
    rewrite (Z.mul_comm (g / 256)), (Z.mul_comm (h / 256)), <- !Z.div_mod by lia. done.
  - rewrite To4_None_text by done. unfold ParseIP. rewrite v6Text_kind, v6Text_bytes by done. by apply parseIPv6_text.
Qed.

(** ** The text of a TCP address *)

Lemma cutLast_app c s t : has_byte c t = false → cutLast c (s +:+ String c t) = Some (s, t).
Proof.
  intros Ht. induction s as [|a s IH]; [rewrite str_nil_app|rewrite str_app_cons; cbn [cutLast]; by rewrite IH].
  cbn [cutLast]. assert (cutLast c t = None) as ->; [|by rewrite bool_decide_true].
  induction t as [|b t IH]; [done|]. simpl in *. apply orb_false_elim in Ht as [Hb Ht]. rewrite IH by done. by rewrite Hb.
Qed.

Lemma cut_app c s t : has_byte c s = false → cut c (s +:+ String c t) = Some (s, t).
Proof.
  induction s as [|a s IH]; [rewrite str_nil_app; cbn [cut]; by rewrite bool_decide_true|].
  rewrite str_app_cons. simpl. intros [Ha Hs]%orb_false_elim. by rewrite Ha, IH.
Qed.

Definition no_brackets (s : string) : Prop := has_byte "[" s = false ∧ has_byte "]" s = false.

Lemma splitHost_JoinHostPort host port : no_brackets host → no_brackets port → has_byte ":" port = false →
  splitHost (JoinHostPort host port) = Some host.
Proof.
  intros [H1 H2] [P1 P2] Hp. unfold JoinHostPort, splitHost. destruct (has_byte ":" host) eqn:Eh.
  - replace ("[" +:+ host +:+ "]:" +:+ port) with ((String "[" (host +:+ "]")) +:+ String ":" port)
      by (rewrite !str_app_cons, str_nil_app, <- str_app_assoc; by rewrite str_app_cons).
    rewrite cutLast_app, P1, P2, cut_app, H1 by done. done.
  - rewrite str_app_cons, str_nil_app, cutLast_app, P1, P2 by done. rewrite H1, H2, Eh. simpl.
    destruct host as [|[[] [] [] [] [] [] [] []] host]; try done.
Qed.

Lemma IPString_no_brackets ip : ip_ok ip → no_brackets (IPString ip).
Proof.
  intros Hip. destruct (To4 ip) as [l|] eqn:E4.
  - destruct (To4_inv ip l Hip E4) as (g & h & -> & -> & Hg & Hh). unfold IPString. rewrite E4.
    destruct (bytes_of_group g Hg) as [Ha Hb]. destruct (bytes_of_group h Hh) as [Hc Hd].
    split; unfold v4Text; rewrite !has_byte_app, !(has_byte_plain _ (byteText _)) by (done || by apply byteText_plain); done.
  - rewrite To4_None_text by done. by split; apply v6Text_bytes.
Qed.

(** A port is decimal. *)
Definition port_ok (port : string) : Prop := all_plain port.

Lemma splitHost_TCPAddr ip port : ip_ok ip → port_ok port → splitHost (TCPAddrString ip "" port) = Some (IPString ip).
Proof.
  intros Hip Hp. unfold TCPAddrString. rewrite bool_decide_true by done.
  apply splitHost_JoinHostPort; [by apply IPString_no_brackets|by split; apply has_byte_plain|by apply has_byte_plain].
Qed.

(** An address with a zone has none of an IP address. *)
Lemma ParseIP_zone s zone : addressKind s = Some ":"%char → ParseIP (s +:+ "%" +:+ zone) = None.
Proof.
  intros Hs. unfold ParseIP. assert (Hk : addressKind (s +:+ "%" +:+ zone) = Some ":"%char).
  { clear -Hs. induction s as [|a s IH]; [done|]. rewrite str_app_cons. simpl in *. case_bool_decide; auto. }
  rewrite Hk, !has_byte_app. by rewrite orb_true_r.
Qed.

(** ** Paths *)

Lemma unhex_hexUpper d : 0 <= d < 16 → unhex (hexUpper d) = Some d.
Proof.
  intros Hd. assert (∃ n, (n < 16)%nat ∧ d = Z.of_nat n) as (n & Hn & ->) by (exists (Z.to_nat d); lia).
  do 16 (destruct n as [|n]; [reflexivity|]). lia.
Qed.

Lemma PathUnescape_escape s : PathUnescape (escapePath s) = Some s.
Proof.
  induction s as [|a s IH]; [done|]. cbn [escapePath]. destruct (pathChar a) eqn:Ha; cbn [PathUnescape].
  - rewrite bool_decide_false by (intros ->; vm_compute in Ha; discriminate). by rewrite IH.
  - rewrite bool_decide_true by done. pose proof (zb_range a) as Hr.
    rewrite !unhex_hexUpper by (try apply Z.mod_pos_bound; try split; try apply Z.div_pos; try apply Z.div_lt_upper_bound; lia).
    rewrite IH. cbn. rewrite <- Z.div_mod by lia. by rewrite chr_zb.
Qed.

Lemma escapePath_app s t : escapePath (s +:+ t) = escapePath s +:+ escapePath t.
Proof.
  induction s as [|a s IH]; [done|]. rewrite str_app_cons. cbn [escapePath]. destruct (pathChar a); by rewrite IH, ?str_app_cons.
Qed.

Lemma hexUpper_plain d : 0 <= d < 16 → pathChar (hexUpper d) = true ∧ hexUpper d ≠ slash.
Proof.
  intros Hd. assert (∃ n, (n < 16)%nat ∧ d = Z.of_nat n) as (n & Hn & ->) by (exists (Z.to_nat d); lia).
  do 16 (destruct n as [|n]; [by vm_compute|]). lia.
Qed.

Lemma byte_digits a : 0 <= zb a / 16 < 16 ∧ 0 <= zb a mod 16 < 16.
Proof.
  pose proof (zb_range a). split; [split; [apply Z.div_pos; lia|apply Z.div_lt_upper_bound; lia]|apply Z.mod_pos_bound; lia].
Qed.

Lemma validEncoded_escape s : validEncoded (escapePath s) = true.
Proof.
  unfold validEncoded. induction s as [|a s IH]; [done|]. cbn [escapePath]. destruct (byte_digits a) as [H1 H2].
  destruct (pathChar a) eqn:Ha; cbn [Stdlib.Strings.String.list_ascii_of_string forallb]; rewrite ?Ha, IH; [done|].
  rewrite (proj1 (hexUpper_plain _ H1)), (proj1 (hexUpper_plain _ H2)). done.
Qed.

Lemma escapePath_slash s : has_byte slash (escapePath s) = has_byte slash s.
Proof.
  induction s as [|a s IH]; [done|]. cbn [escapePath]. destruct (byte_digits a) as [H1 H2].
  destruct (pathChar a) eqn:Ha; cbn [has_byte]; rewrite IH; [done|].
  rewrite (bool_decide_false (percent = slash)), !(bool_decide_false (hexUpper _ = slash)) by (first [discriminate|by apply hexUpper_plain]).
  rewrite (bool_decide_false (a = slash)) by (intros ->; vm_compute in Ha; discriminate). done.
Qed.

Lemma escapePath_inj s t : escapePath s = escapePath t → s = t.
Proof. intros H. apply (f_equal PathUnescape) in H. rewrite !PathUnescape_escape in H. congruence. Qed.
