(* ===== verification/GoDate.v ===== *)
(** * Go's calendar

    The Gregorian calendar of [time.Time], [time.Date] with a location, and
    [time.Parse] for RFC 3339.  A day is numbered from 1 January of year 0.
    A location is what [Location.lookup] answers for a number of seconds since
    the epoch: the offset east of UTC in seconds and the interval in which it
    holds; the zone database itself is not modelled. *)

From S2P Require Import Prelude GoTime GoText.

(** ** Days *)

Definition isLeap (y : Z) : bool := (y mod 4 =? 0) && (negb (y mod 100 =? 0) || (y mod 400 =? 0)).

(** The days from year 0 to year [y], and in a year before month [m]. *)
Definition yearDays (y : Z) : Z := 365 * y + (y + 3) / 4 - (y + 99) / 100 + (y + 399) / 400.
Definition monthDays (leap : bool) : list Z := [31; if leap then 29 else 28; 31; 30; 31; 30; 31; 31; 30; 31; 30; 31].
Definition daysIn (m y : Z) : Z := default 0 (monthDays (isLeap y) !! Z.to_nat (m - 1)).
Definition daysBefore (leap : bool) (m : Z) : Z := foldr Z.add 0 (firstn (Z.to_nat (m - 1)) (monthDays leap)).

Definition epochDay : Z := 719528.
Definition dayNumber (y m d : Z) : Z := yearDays y + daysBefore (isLeap y) m + d - 1.

(** The year of a day: the estimate is off by at most one. *)
Definition yearOf (n : Z) : Z :=
  let y := 400 * n / 146097 in
  if n <? yearDays y then y - 1 else if yearDays (y + 1) <=? n then y + 1 else y.

(** The month and the day from what is left of the year. *)
Fixpoint monthOf (months : list Z) (m n : Z) : Z * Z :=
  match months with
  | [] => (m, n + 1)
  | days :: months => if n <? days then (m, n + 1) else monthOf months (m + 1) (n - days)
  end.

Record civil := mkCivil { Year : Z; Month : Z; Day : Z }.

Definition civilOf (n : Z) : civil :=
  let y := yearOf n in
  let '(m, d) := monthOf (monthDays (isLeap y)) 1 (n - yearDays y) in
  mkCivil y m d.

(** ** Wall clocks *)

Record Location := mkLocation { lookupOffset : Z → Z * Z * Z }.

Definition UTC : Location := mkLocation (λ _, (0, min_int64, max_int64)).
Definition offsetAt (l : Location) (seconds : Z) : Z := (lookupOffset l seconds).1.1.

Record clock := mkClock { Date_ : civil; Hour_ : Z; Minute_ : Z; Second_ : Z }.

Definition daySeconds : Z := 86400.

(** [t.In(l)], as its fields. *)
Definition wallSeconds (l : Location) (t : Time) : Z := let s := t / Second in s + offsetAt l s.
Definition clockOf (s : Z) : clock :=
  let r := s mod daySeconds in
  mkClock (civilOf (s / daySeconds + epochDay)) (r / 3600) (r / 60 mod 60) (r mod 60).
Definition In_ (l : Location) (t : Time) : clock := clockOf (wallSeconds l t).

(** [time.Date] for a month from 1 to 12: the offset is looked up at the
    instant that the wall clock would be in UTC, and again when it does not
    hold at the instant that gives. *)
Definition civilSeconds (y m d hour minute second : Z) : Z :=
  (dayNumber y m d - epochDay) * daySeconds + hour * 3600 + minute * 60 + second.

Definition DateSeconds (l : Location) (wall : Z) : Z :=
  let '(offset, start, stop) := lookupOffset l wall in
  if offset =? 0 then wall
  else
    let utc := wall - offset in
    if (utc <? start) || (stop <=? utc) then wall - offsetAt l utc else utc.

Definition Date (l : Location) (y m d hour minute : Z) : Time :=
  DateSeconds l (civilSeconds y m d hour minute 0) * Second.

(** ** RFC 3339

    [time.Parse] with [time.RFC3339] or [time.RFC3339Nano]: four digits of
    year and two of the rest, except that one digit of hour will do; a
    fraction after a point or a comma, of which nine digits count; and a zone
    [Z] or an offset whose hours go to 24 and minutes to 60. *)

Definition digitOf (a : ascii) : option Z := let x := zb a - 48 in if within 0 9 x then Some x else None.

Fixpoint takeDigits (n : nat) (acc : Z) (s : string) : option (Z * string) :=
  match n with
  | O => Some (acc, s)
  | S n =>
    match s with
    | EmptyString => None
    | String a s => x ← digitOf a; takeDigits n (10 * acc + x) s
    end
  end.

Definition takeByte (a : ascii) (s : string) : option string :=
  match s with String b s => if bool_decide (a = b) then Some s else None | EmptyString => None end.

(** [getnum] without a fixed width. *)
Definition takeHour (s : string) : option (Z * string) :=
  match takeDigits 2 0 s with Some r => Some r | None => takeDigits 1 0 s end.

(** The digits of a fraction, [weight] being what the next one counts. *)
Fixpoint takeFraction (weight acc : Z) (s : string) : Z * string :=
  match s with
  | String a s' =>
    match digitOf a with Some x => takeFraction (weight / 10) (acc + x * weight) s' | None => (acc, s) end
  | EmptyString => (acc, s)
  end.

Definition takeNanos (s : string) : Z * string :=
  match s with
  | String a (String b s') =>
    if (bool_decide (a = "."%char) || bool_decide (a = ","%char)) && bool_decide (digitOf b ≠ None)
    then takeFraction 100000000 0 (String b s') else (0, s)
  | _ => (0, s)
  end.

(** The offset in seconds. *)
Definition takeZone (s : string) : option (Z * string) :=
  match s with
  | String a s' =>
    if bool_decide (a = "Z"%char) then Some (0, s')
    else if bool_decide (a = "+"%char) || bool_decide (a = "-"%char) then
      '(hh, s') ← takeDigits 2 0 s'; s' ← takeByte ":" s'; '(mm, s') ← takeDigits 2 0 s';
      if (24 <? hh) || (60 <? mm) then None
      else let offset := (hh * 60 + mm) * 60 in
           Some (if bool_decide (a = "-"%char) then - offset else offset, s')
    else None
  | EmptyString => None
  end.

Definition ParseRFC3339 (s : string) : option Time :=
  '(year, s) ← takeDigits 4 0 s; s ← takeByte "-" s;
  '(month, s) ← takeDigits 2 0 s; s ← takeByte "-" s;
  '(day, s) ← takeDigits 2 0 s; s ← takeByte "T" s;
  '(hour, s) ← takeHour s; s ← takeByte ":" s;
  '(minute, s) ← takeDigits 2 0 s; s ← takeByte ":" s;
  '(second, s) ← takeDigits 2 0 s;
  let '(nanos, s) := takeNanos s in
  '(offset, s) ← takeZone s;
  if bool_decide (s = "") && within 1 12 month && within 1 (daysIn month year) day
     && (hour <? 24) && (minute <? 60) && (second <? 60)
  then Some ((civilSeconds year month day hour minute second - offset) * Second + nanos) else None.

Example rfc3339 :
  map ParseRFC3339 ["1970-01-01T00:00:00Z"; "2024-02-29T23:59:59.25+02:00"; "2023-02-29T00:00:00Z"; "1970-01-01T1:02:03,5-01:00"] =
  [Some 0; Some 1709243999250000000; None; Some 7323500000000].
Proof. vm_compute. reflexivity. Qed.

(** ** The calendar's laws *)

#[local] Ltac Zify.zify_post_hook ::= Z.to_euclidean_division_equations.

Lemma yearDays_step y : yearDays (y + 1) = yearDays y + if isLeap y then 366 else 365.
Proof.
  unfold yearDays, isLeap.
  destruct (Z.eqb_spec (y mod 4) 0), (Z.eqb_spec (y mod 100) 0), (Z.eqb_spec (y mod 400) 0); cbn [negb orb andb]; lia.
Qed.

Lemma yearDays_mono y y' : y <= y' → yearDays y + 365 * (y' - y) <= yearDays y'.
Proof.
  intros Hy. replace y' with (y + (y' - y)) by lia. set (k := y' - y) in *. assert (Hk : 0 <= k) by lia. clearbody k.
  revert k Hk. apply natlike_ind; [replace (y + 0) with y by lia; lia|]. intros k Hk IH.
  replace (y + Z.succ k) with (y + k + 1) by lia. rewrite yearDays_step. destruct (isLeap _); lia.
Qed.

Lemma yearOf_spec n : yearDays (yearOf n) <= n < yearDays (yearOf n + 1).
Proof.
  unfold yearOf. set (y := 400 * n / 146097).
  assert (H : yearDays (y - 1) <= n < yearDays (y + 2)).
  { unfold yearDays. subst y. split; lia. }
  destruct (Z.ltb_spec n (yearDays y)); [replace (y - 1 + 1) with y by lia; lia|].
  destruct (Z.leb_spec (yearDays (y + 1)) n); [replace (y + 1 + 1) with (y + 2) by lia|]; lia.
Qed.

Lemma yearOf_unique n y : yearDays y <= n < yearDays (y + 1) → yearOf n = y.
Proof.
  intros Hy. pose proof (yearOf_spec n) as H.
  destruct (Z.lt_trichotomy (yearOf n) y) as [Hl|[?|Hl]]; [|done|].
  - pose proof (yearDays_mono (yearOf n + 1) y ltac:(lia)). lia.
  - pose proof (yearDays_mono (y + 1) (yearOf n) ltac:(lia)). lia.
Qed.

Definition validDay (y m d : Z) : Prop := 1 <= m <= 12 ∧ 1 <= d <= daysIn m y.

Ltac month_case m Hm :=
  let H := fresh in
  assert (m = 1 ∨ m = 2 ∨ m = 3 ∨ m = 4 ∨ m = 5 ∨ m = 6 ∨ m = 7 ∨ m = 8 ∨ m = 9 ∨ m = 10 ∨ m = 11 ∨ m = 12) as H by lia;
  clear Hm; repeat destruct H as [-> | H]; [..|subst m].

(** The table's entries for a given month. *)
Ltac eval_months :=
  repeat match goal with
  | |- context [default 0 (monthDays ?b !! ?n)] =>
    let v := eval vm_compute in (default 0 (monthDays b !! n)) in change (default 0 (monthDays b !! n)) with v
  | |- context [foldr Z.add 0 (firstn ?n (monthDays ?b))] =>
    let v := eval vm_compute in (foldr Z.add 0 (firstn n (monthDays b))) in
    change (foldr Z.add 0 (firstn n (monthDays b))) with v
  | |- context [monthDays ?b] => let v := eval vm_compute in (monthDays b) in change (monthDays b) with v
  end.

Lemma dayOfYear_range y m d :
  validDay y m d → 0 <= daysBefore (isLeap y) m + d - 1 < if isLeap y then 366 else 365.
Proof.
  intros [Hm Hd]. revert Hd. unfold daysIn, daysBefore.
  destruct (isLeap y); month_case m Hm; eval_months; lia.
Qed.

(** The fields of a day are those it was made of, and no others. *)
Lemma civilOf_dayNumber y m d : validDay y m d → civilOf (dayNumber y m d) = mkCivil y m d.
Proof.
  intros Hv. pose proof (dayOfYear_range y m d Hv) as Hr. destruct Hv as [Hm Hd].
  assert (Hy : yearOf (dayNumber y m d) = y).
  { apply yearOf_unique. rewrite yearDays_step. unfold dayNumber. destruct (isLeap y); lia. }
  unfold civilOf. rewrite Hy.
  replace (dayNumber y m d - yearDays y) with (daysBefore (isLeap y) m + d - 1) by (unfold dayNumber; lia).
  clear Hr Hy. revert Hd. unfold daysIn, daysBefore.
  destruct (isLeap y); month_case m Hm; eval_months; intros Hd; cbn [monthOf];
    repeat match goal with |- context [?a <? ?b] => destruct (Z.ltb_spec a b); try (exfalso; lia) end;
    f_equal; lia.
Qed.

Lemma clockOf_civilSeconds y m d hour minute :
  validDay y m d → 0 <= hour < 24 → 0 <= minute < 60 →
  clockOf (civilSeconds y m d hour minute 0) = mkClock (mkCivil y m d) hour minute 0.
Proof.
  intros Hv Hh Hm. unfold clockOf, civilSeconds, daySeconds.
  rewrite <-(civilOf_dayNumber y m d Hv). generalize (dayNumber y m d) as n. intros n.
  f_equal; [f_equal|..]; lia.
Qed.
