(* ===== verification/GoRegexp.v ===== *)
(** * Go's regular expressions

    The expressions of [regexp] that the program uses, matched on the decoded
    runes of a string.  Go returns the leftmost match and, of those, the one a
    backtracking search finds first; [matchHere] is that search.  No loop body
    here matches the empty string, and a repetition that would is cut off. *)

From S2P Require Import Prelude GoText.

Abbreviation chunk := (Z * string)%type.

Inductive re :=
| Empty
| Cls (f : Z → bool)
| Seq (a b : re)
| Alt (a b : re)
| Star (greedy : bool) (a : re)
| Grp (n : nat) (a : re)
| Bol | Eol | Wordb.

(** Submatches: what each group matched last. *)
Abbreviation caps := (list (nat * list chunk)).

Definition group (c : caps) (n : nat) : option (list chunk) :=
  snd <$> head (filter (λ g : nat * list chunk, g.1 = n) c).

(** [match[n]], empty for a group that took no part. *)
Definition groupText (c : caps) (n : nat) : string := bytes_of (default [] (group c n)).

Definition is_word (r : Z) : bool := is_digit r || is_lower r || is_upper r || (r =? 95).
Definition wordAt (o : option Z) : bool := match o with Some r => is_word r | None => false end.

Section matcher.
Abbreviation K := (option Z → list chunk → caps → option (list chunk * caps)).

(** A repetition, given the matcher of its body; [n] bounds the rounds. *)
Fixpoint loop (body : K → K) (greedy : bool) (k : K) (n : nat) : K := λ p s c,
  match n with
  | O => k p s c
  | S n =>
    let again (_ : unit) := body (λ p' s' c',
      if (List.length s' <? List.length s)%nat then loop body greedy k n p' s' c' else None) p s c in
    if greedy
    then match again tt with Some r => Some r | None => k p s c end
    else match k p s c with Some r => Some r | None => again tt end
  end.

(** The rest of the input and the groups, at the first success of [k]; [p] is
    the rune before the input. *)
Fixpoint matchHere (r : re) (k : K) {struct r} : K := λ p s c,
  match r with
  | Empty => k p s c
  | Cls f => match s with x :: s' => if f x.1 then k (Some x.1) s' c else None | [] => None end
  | Seq a b => matchHere a (matchHere b k) p s c
  | Alt a b => match matchHere a k p s c with Some r => Some r | None => matchHere b k p s c end
  | Star greedy a => loop (matchHere a) greedy k (S (List.length s)) p s c
  | Grp n a => matchHere a (λ p' s' c', k p' s' ((n, take (List.length s - List.length s') s) :: c')) p s c
  | Bol => match p with None => k p s c | Some _ => None end
  | Eol => match s with [] => k p s c | _ => None end
  | Wordb => if xorb (wordAt p) (wordAt (fst <$> head s)) then k p s c else None
  end.
End matcher.

Definition stop : option Z → list chunk → caps → option (list chunk * caps) := λ _ s c, Some (s, c).

(** The leftmost match: what comes before it, it, and what comes after it. *)
Record found := mkFound { before : list chunk; matched : list chunk; after : list chunk; groups : caps }.

Fixpoint search (r : re) (p : option Z) (s : list chunk) (skipped : list chunk) : option found :=
  match matchHere r stop p s [] with
  | Some (rest, c) => Some (mkFound skipped (take (List.length s - List.length rest) s) rest c)
  | None => match s with [] => None | x :: s' => search r (Some x.1) s' (skipped ++ [x]) end
  end.

(** [FindStringSubmatch], [MatchString] and [FindString]. *)
Definition FindStringSubmatch (r : re) (s : string) : option caps := groups <$> search r None (chunks s) [].
Definition MatchString (r : re) (s : string) : bool := bool_decide (FindStringSubmatch r s ≠ None).
Definition FindString (r : re) (s : string) : string :=
  match search r None (chunks s) [] with Some f => bytes_of (matched f) | None => "" end.

Definition lastRune (p : option Z) (l : list chunk) : option Z :=
  match last l with Some x => Some x.1 | None => p end.

(** The successive matches, none of them empty, and what is between them. *)
Fixpoint findAll (fuel : nat) (r : re) (p : option Z) (s : list chunk) : list found * list chunk :=
  match fuel with
  | O => ([], s)
  | S fuel =>
    match search r p s [] with
    | None => ([], s)
    | Some f =>
      let '(fs, rest) := findAll fuel r (lastRune (lastRune p (before f)) (matched f)) (after f) in
      (f :: fs, before f ++ rest)
    end
  end.

Definition FindAllStringSubmatch (r : re) (s : string) : list caps :=
  groups <$> (findAll (S (List.length (chunks s))) r None (chunks s)).1.
(** [ReplaceAllString(s, "")]. *)
Definition RemoveAllString (r : re) (s : string) : string :=
  bytes_of (findAll (S (List.length (chunks s))) r None (chunks s)).2.

(** ** Abbreviations of the syntax *)

Definition space_rune (r : Z) : bool := bool_decide (r ∈ [9; 10; 12; 13; 32]).   (* \s *)
Definition any_rune (r : Z) : bool := negb (r =? 10).                            (* . *)
Definition Plus (greedy : bool) (a : re) : re := Seq a (Star greedy a).
Definition Opt (a : re) : re := Alt a Empty.
Fixpoint Seqs (l : list re) : re := match l with [] => Empty | [a] => a | a :: l => Seq a (Seqs l) end.
Fixpoint Alts (l : list re) : re := match l with [] => Empty | [a] => a | a :: l => Alt a (Alts l) end.
Fixpoint Exactly (n : nat) (a : re) : re :=
  match n with O => Empty | S O => a | S n => Seq a (Exactly n a) end.
(** [a{1,m}]: at least one and at most [S m]. *)
Fixpoint UpTo (m : nat) (a : re) : re :=
  match m with O => Empty | S m => Alt (Seq a (UpTo m a)) Empty end.
Definition Between1 (m : nat) (a : re) : re := Seq a (UpTo (m - 1) a).

Definition Rune (r : Z) : re := Cls (λ x, x =? r).
(** A literal, and one under [(?i)]. *)
Fixpoint Lit (s : string) : re :=
  match s with
  | EmptyString => Empty
  | String a EmptyString => Rune (zb a)
  | String a s => Seq (Rune (zb a)) (Lit s)
  end.
Definition FoldRune (r : Z) : re := Cls (λ x, fold_rune x =? fold_rune r).
Fixpoint ILit (s : string) : re :=
  match s with
  | EmptyString => Empty
  | String a EmptyString => FoldRune (zb a)
  | String a s => Seq (FoldRune (zb a)) (ILit s)
  end.
Definition letter_fold (x : Z) : bool := is_lower (fold_rune x).                 (* (?i)[a-z] *)
Definition Spaces : re := Star true (Cls space_rune).
Definition Spaces1 : re := Plus true (Cls space_rune).
Definition Digit : re := Cls is_digit.

Example regexp_groups :
  FindAllStringSubmatch (Seqs [Grp 1 (Plus true Digit); Spaces; Grp 2 (Alts [Seq (ILit "day") (Opt (ILit "s")); ILit "d"; ILit "h"])])
    "in 17H 2 days" =
  [[(2%nat, chunks "H"); (1%nat, chunks "17")]; [(2%nat, chunks "days"); (1%nat, chunks "2")]].
Proof. vm_compute. reflexivity. Qed.

Example regexp_lazy :
  bytes_of ∘ default [] ∘ (λ c, group c 1) <$>
  FindStringSubmatch (Seqs [Wordb; ILit "reset"; Opt (ILit "s"); Spaces1; Grp 1 (Plus false (Cls any_rune)); Spaces; Eol])
    "Session · resets  in 2h " = Some "in 2h".
Proof. vm_compute. reflexivity. Qed.
