(* ===== verification/GoRegexpFacts.v ===== *)
(** * Facts about the matcher

    Soundness: a match is in the language of its expression, and so is what
    each group holds.  And, for computing matches of texts with unknown parts,
    how the common expressions consume their input. *)

From S2P Require Import Prelude GoText GoRegexp.

Implicit Types (s l : list chunk) (c : caps) (r : re) (p : option Z).

(** ** Languages *)

(** The texts of an expression, anchors being empty. *)
Inductive lang : re → list chunk → Prop :=
| lang_empty : lang Empty []
| lang_cls f x : f x.1 = true → lang (Cls f) [x]
| lang_seq a b l1 l2 : lang a l1 → lang b l2 → lang (Seq a b) (l1 ++ l2)
| lang_alt1 a b l : lang a l → lang (Alt a b) l
| lang_alt2 a b l : lang b l → lang (Alt a b) l
| lang_star0 g a : lang (Star g a) []
| lang_star g a l1 l2 : lang a l1 → lang (Star g a) l2 → lang (Star g a) (l1 ++ l2)
| lang_grp n a l : lang a l → lang (Grp n a) l
| lang_bol : lang Bol []
| lang_eol : lang Eol []
| lang_wordb : lang Wordb [].

(** [Grp n a] occurs in [r]. *)
Fixpoint hasGroup (r : re) (n : nat) (a : re) : Prop :=
  match r with
  | Seq r1 r2 | Alt r1 r2 => hasGroup r1 n a ∨ hasGroup r2 n a
  | Star _ r => hasGroup r n a
  | Grp m r => (m = n ∧ r = a) ∨ hasGroup r n a
  | _ => False
  end.

(** The groups of [c'] are those of [c] and texts of groups of [r], cut out of [s]. *)
Definition captured r s c c' : Prop := ∀ n l,
  (n, l) ∈ c' → (n, l) ∈ c ∨ ((∃ a, hasGroup r n a ∧ lang a l) ∧ l ⊆ s).

Lemma captured_refl r s c : captured r s c c.
Proof. intros n l; by left. Qed.
Lemma captured_trans r1 r2 r s1 s2 c1 c2 c3 :
  (∀ n a, hasGroup r1 n a → hasGroup r n a) → (∀ n a, hasGroup r2 n a → hasGroup r n a) → s2 ⊆ s1 →
  captured r1 s1 c1 c2 → captured r2 s2 c2 c3 → captured r s1 c1 c3.
Proof.
  intros G1 G2 Hs H1 H2 n l [Hin|[(a & ? & ?) Hl]]%H2; [|right; split; [by eauto|set_solver]].
  apply H1 in Hin as [?|[(a & ? & ?) ?]]; [by left|right; split; eauto].
Qed.

Definition sound (r : re) : Prop := ∀ k p s c res, matchHere r k p s c = Some res →
  ∃ l s' p' c', s = l ++ s' ∧ lang r l ∧ captured r s c c' ∧ k p' s' c' = Some res.

Lemma loop_sound a g n k p s c res :
  sound a → loop (matchHere a) g k n p s c = Some res →
  ∃ l s' p' c', s = l ++ s' ∧ lang (Star g a) l ∧ captured (Star g a) s c c' ∧ k p' s' c' = Some res.
Proof.
  intros Ha. revert p s c res. induction n as [|n IH]; intros p s c res; cbn [loop].
  { intros H. exists [], s, p, c. eauto using lang_star0, captured_refl. }
  assert (Hk : k p s c = Some res →
    ∃ l s' p' c', s = l ++ s' ∧ lang (Star g a) l ∧ captured (Star g a) s c c' ∧ k p' s' c' = Some res).
  { intros H. exists [], s, p, c. eauto using lang_star0, captured_refl. }
  set (again := matchHere a _ p s c).
  assert (Hm : again = Some res →
    ∃ l s' p' c', s = l ++ s' ∧ lang (Star g a) l ∧ captured (Star g a) s c c' ∧ k p' s' c' = Some res).
  { intros (l1 & s1 & p1 & c1 & -> & Hl & Hc & H)%Ha. case_match; [|done].
    apply IH in H as (l2 & s2 & p2 & c2 & -> & Hl2 & Hc2 & H).
    exists (l1 ++ l2), s2, p2, c2. rewrite <-app_assoc. split_and!; [done|by constructor| |done].
    eapply (captured_trans a (Star g a)); [done..| |exact Hc|exact Hc2]. set_solver. }
  destruct g; [destruct again|destruct (k p s c)]; auto.
Qed.

Lemma matchHere_sound r : sound r.
Proof.
  induction r as [|f|a IHa b IHb|a IHa b IHb|g a IHa|n a IHa| | |]; intros k p s c res; cbn [matchHere].
  - intros H. exists [], s, p, c. eauto using lang_empty, captured_refl.
  - destruct s as [|x s]; [done|]. destruct (f x.1) eqn:E; [|done]. intros H.
    exists [x], s, (Some x.1), c. eauto using lang_cls, captured_refl.
  - intros (l1 & s1 & p1 & c1 & -> & Hl1 & Hc1 & H)%IHa. apply IHb in H as (l2 & s2 & p2 & c2 & -> & Hl2 & Hc2 & H).
    exists (l1 ++ l2), s2, p2, c2. rewrite <-app_assoc. split_and!; [done|by constructor| |done].
    eapply (captured_trans a b); [by left|by right| |exact Hc1|exact Hc2]. set_solver.
  - destruct (matchHere a k p s c) eqn:E.
    + intros [= ->]. apply IHa in E as (l1 & s1 & p1 & c1 & -> & Hl1 & Hc1 & H).
      exists l1, s1, p1, c1. split_and!; [done|by apply lang_alt1| |done].
      intros n l [?|[(a' & ? & ?) ?]]%Hc1; [by left|right; split; [exists a'; split; [by left|done]|done]].
    + intros H. apply IHb in H as (l1 & s1 & p1 & c1 & -> & Hl1 & Hc1 & H).
      exists l1, s1, p1, c1. split_and!; [done|by apply lang_alt2| |done].
      intros n l [?|[(a' & ? & ?) ?]]%Hc1; [by left|right; split; [exists a'; split; [by right|done]|done]].
  - intros H. by apply (loop_sound _ _ (S (List.length s))) in H.
  - intros (l1 & s1 & p1 & c1 & -> & Hl1 & Hc1 & H)%IHa.
    eexists l1, s1, p1, _. split_and!; [done|by constructor| |exact H].
    replace (take _ (l1 ++ s1)) with l1.
    2: { rewrite length_app, Nat.add_sub. by rewrite take_app_length. }
    intros m l [E|Hin]%elem_of_cons.
    + injection E as -> ->. right. split; [exists a; split; [by left|done]|set_solver].
    + apply Hc1 in Hin as [?|[(a' & ? & ?) ?]]; [by left|right; split; [exists a'; split; [by right|done]|done]].
  - destruct p; [done|]. intros H. exists [], s, None, c. eauto using lang_bol, captured_refl.
  - destruct s; [|done]. intros H. exists [], [], p, c. eauto using lang_eol, captured_refl.
  - destruct (xorb _ _); [|done]. intros H. exists [], s, p, c. eauto using lang_wordb, captured_refl.
Qed.

(** Every match of [r] has a group [n]. *)
Fixpoint mustGroup (r : re) (n : nat) : bool :=
  match r with
  | Seq r1 r2 => mustGroup r1 n || mustGroup r2 n
  | Alt r1 r2 => mustGroup r1 n && mustGroup r2 n
  | Grp m r => bool_decide (m = n) || mustGroup r n
  | _ => false
  end.

Definition grows (r : re) c c' : Prop := c ⊆ c' ∧ ∀ n, mustGroup r n = true → n ∈ c'.*1.

Lemma grows_keys c c' n : c ⊆ c' → n ∈ c.*1 → n ∈ c'.*1.
Proof. intros Hc (g & -> & Hg)%list_elem_of_fmap. apply list_elem_of_fmap. eauto. Qed.

Lemma matchHere_grows r k p s c res :
  matchHere r k p s c = Some res → ∃ p' s' c', grows r c c' ∧ k p' s' c' = Some res.
Proof.
  assert (Hrefl : ∀ c, c ⊆ c) by done.
  revert k p s c res. induction r as [|f|a IHa b IHb|a IHa b IHb|g a IHa|n a IHa| | |]; intros k p s c res; cbn [matchHere].
  - intros H. by exists p, s, c.
  - destruct s as [|x s]; [done|]. destruct (f x.1); [|done]. intros H. by exists (Some x.1), s, c.
  - intros (p1 & s1 & c1 & [Hc1 Hn1] & H)%IHa. apply IHb in H as (p2 & s2 & c2 & [Hc2 Hn2] & H).
    exists p2, s2, c2. split; [|done]. split; [by etrans|]. cbn [mustGroup].
    intros n [Hn|Hn]%orb_true_iff; [by apply (grows_keys c1), Hn1|by apply Hn2].
  - destruct (matchHere a k p s c) eqn:E.
    + intros [= ->]. apply IHa in E as (p1 & s1 & c1 & [Hc1 Hn1] & H). exists p1, s1, c1. split; [|done].
      split; [done|]. cbn [mustGroup]. intros n [Hn _]%andb_true_iff. by apply Hn1.
    + intros (p1 & s1 & c1 & [Hc1 Hn1] & H)%IHb. exists p1, s1, c1. split; [|done].
      split; [done|]. cbn [mustGroup]. intros n [_ Hn]%andb_true_iff. by apply Hn1.
  - generalize (S (List.length s)) as m. intros m. revert p s c res.
    induction m as [|m IHm]; intros p s c res; cbn [loop]; [intros H; by exists p, s, c|].
    set (again := matchHere a _ p s c).
    assert (Hk : k p s c = Some res → ∃ p' s' c', grows (Star g a) c c' ∧ k p' s' c' = Some res)
      by (intros H; by exists p, s, c).
    assert (Hm : again = Some res → ∃ p' s' c', grows (Star g a) c c' ∧ k p' s' c' = Some res).
    { intros (p1 & s1 & c1 & [Hc1 _] & H)%IHa. destruct (_ <? _)%nat; [|done].
      apply IHm in H as (p2 & s2 & c2 & [Hc2 _] & H). exists p2, s2, c2. split; [|done]. split; [by etrans|done]. }
    destruct g; [destruct again|destruct (k p s c)]; auto.
  - intros (p1 & s1 & c1 & [Hc1 Hn1] & H)%IHa. eexists p1, s1, _. split; [|exact H].
    split; [set_solver|]. cbn [mustGroup]. intros m [Hm|Hm]%orb_true_iff; rewrite fmap_cons; [|by right; apply Hn1].
    apply bool_decide_eq_true in Hm as <-. by left.
  - destruct p; [done|]. intros H. by exists None, s, c.
  - destruct s; [|done]. intros H. by exists p, [], c.
  - destruct (xorb _ _); [|done]. intros H. by exists p, s, c.
Qed.

(** ** Searches *)

Lemma stop_sound r p s rest c :
  matchHere r stop p s [] = Some (rest, c) →
  let m := take (List.length s - List.length rest) s in
  s = m ++ rest ∧ lang r m ∧ ∀ n l, (n, l) ∈ c → (∃ a, hasGroup r n a ∧ lang a l) ∧ l ⊆ s.
Proof.
  intros (l & s' & p' & c' & -> & Hl & Hc & H)%matchHere_sound. injection H as -> ->.
  cbv zeta. rewrite length_app, Nat.add_sub, take_app_length. split_and!; [done|done|].
  intros n l' [Hin|H]%Hc; [by apply elem_of_nil in Hin|done].
Qed.

Lemma search_sound r p s skipped f :
  search r p s skipped = Some f →
  ∃ pre, before f = skipped ++ pre ∧ s = pre ++ matched f ++ after f ∧ lang r (matched f) ∧
    ∀ n l, (n, l) ∈ groups f → (∃ a, hasGroup r n a ∧ lang a l) ∧ l ⊆ s.
Proof.
  assert (Hstop : ∀ p s skipped rest c, matchHere r stop p s [] = Some (rest, c) →
    ∃ pre, skipped = skipped ++ pre ∧ s = pre ++ take (List.length s - List.length rest) s ++ rest ∧
    lang r (take (List.length s - List.length rest) s) ∧
    ∀ n l, (n, l) ∈ c → (∃ a, hasGroup r n a ∧ lang a l) ∧ l ⊆ s).
  { intros p' s' skipped' rest c (H1 & H2 & H3)%stop_sound. exists []. rewrite app_nil_r. done. }
  revert p skipped. induction s as [|x s IH]; intros p skipped; cbn [search];
    destruct (matchHere r stop p _ []) as [[rest c]|] eqn:E.
  1, 3: intros [= <-]; by apply (Hstop _ _ skipped) in E.
  - done.
  - intros (pre & Hb & -> & Hl & Hc)%IH. exists (x :: pre). rewrite Hb, <-app_assoc. split_and!; [done|done|done|].
    intros n l Hin. destruct (Hc n l Hin) as [? ?]. split; [done|set_solver].
Qed.

Lemma group_elem c n l : group c n = Some l → (n, l) ∈ c.
Proof.
  unfold group. destruct (filter _ c) as [|[m l'] rest] eqn:E; [done|]. intros [= <-].
  assert (Hin : (m, l') ∈ filter (λ g : nat * list chunk, g.1 = n) c) by (rewrite E; set_solver).
  apply list_elem_of_filter in Hin as [<- Hin]. done.
Qed.

(** What a group holds after a successful [FindStringSubmatch]. *)
Lemma submatch_sound r str c n l :
  FindStringSubmatch r str = Some c → group c n = Some l → (∃ a, hasGroup r n a ∧ lang a l) ∧ l ⊆ chunks str.
Proof.
  unfold FindStringSubmatch. destruct (search r None (chunks str) []) as [f|] eqn:E; [|done].
  intros [= <-] Hg%group_elem. apply search_sound in E as (pre & _ & _ & _ & H). by apply H.
Qed.

Lemma group_None c n : group c n = None → n ∉ c.*1.
Proof.
  unfold group. intros H (g & -> & Hg)%list_elem_of_fmap.
  assert (Hin : g ∈ filter (λ g' : nat * list chunk, g'.1 = g.1) c) by (by apply list_elem_of_filter).
  destruct (filter _ c); [by apply elem_of_nil in Hin|done].
Qed.

Lemma submatch_must r str c n :
  FindStringSubmatch r str = Some c → mustGroup r n = true → ∃ l, group c n = Some l.
Proof.
  intros H Hn. destruct (group c n) as [l|] eqn:E; [by exists l|]. apply group_None in E. destruct E.
  assert (Hsearch : ∀ s p skipped f, search r p s skipped = Some f → n ∈ (groups f).*1).
  { induction s as [|x s IH]; intros p skipped f; cbn [search]; destruct (matchHere r stop p _ []) as [[rest c']|] eqn:E.
    1, 3: intros [= <-]; apply matchHere_grows in E as (? & ? & ? & [_ Hg] & E); injection E as <- <-; by apply Hg.
    - done.
    - apply IH. }
  unfold FindStringSubmatch in H. destruct (search r None (chunks str) []) as [f|] eqn:E; [|done].
  injection H as <-. by apply (Hsearch _ _ _ _ E).
Qed.

Lemma FindString_empty r str :
  (∀ l1 l l2, chunks str = l1 ++ l ++ l2 → ¬ lang r l) → FindString r str = "".
Proof.
  intros H. unfold FindString. destruct (search r None (chunks str) []) as [f|] eqn:E; [|done].
  apply search_sound in E as (pre & Hb & Hs & Hl & _). by destruct (H pre (matched f) (after f) Hs).
Qed.

(** ** Computing a match *)

Definition all (f : Z → bool) l : Prop := Forall (λ x : chunk, f x.1 = true) l.
Definition stops (f : Z → bool) s : Prop := match s with [] => True | x :: _ => f x.1 = false end.

Lemma lang_star_all g f l : lang (Star g (Cls f)) l → all f l.
Proof.
  remember (Star g (Cls f)) as r eqn:E. induction 1 as [| | | | | |g' a l1 l2 H1 _ _ IH| | | |]; try done; [constructor|].
  apply Forall_app. split; [|by apply IH]. injection E as -> ->. inversion H1; subst. by repeat constructor.
Qed.

Lemma lastRune_cons p x l : lastRune p (x :: l) = lastRune (Some x.1) l.
Proof. unfold lastRune. rewrite last_cons. by destruct (last l). Qed.

(** A greedy run of a class goes as far as it can, if the rest succeeds there. *)
Lemma star_run f k p s1 s2 c res :
  all f s1 → stops f s2 → k (lastRune p s1) s2 c = Some res →
  matchHere (Star true (Cls f)) k p (s1 ++ s2) c = Some res.
Proof.
  intros H1 H2. cbn [matchHere].
  assert (H : ∀ n, (List.length s1 < n)%nat → ∀ p, k (lastRune p s1) s2 c = Some res →
    loop (matchHere (Cls f)) true k n p (s1 ++ s2) c = Some res).
  2: { intros Hk. apply H; [rewrite length_app; lia|done]. }
  induction H1 as [|x s1 Hx _ IH]; intros [|n] Hn q Hk; cbn [List.length] in Hn; [lia| |lia|].
  - cbn [loop matchHere app]. destruct s2 as [|y s2]; [done|]. simpl in H2. by rewrite H2.
  - cbn [loop matchHere app]. rewrite Hx. cbn [List.length].
    rewrite (proj2 (Nat.ltb_lt _ _)) by lia. rewrite lastRune_cons in Hk. rewrite IH; [done|lia|done].
Qed.

Lemma plus_run f k p s1 s2 c res :
  s1 ≠ [] → all f s1 → stops f s2 → k (lastRune p s1) s2 c = Some res →
  matchHere (Plus true (Cls f)) k p (s1 ++ s2) c = Some res.
Proof.
  intros Hne H1 H2 Hk. destruct H1 as [|x s1 Hx H1]; [done|]. cbn [Plus matchHere app]. rewrite Hx.
  rewrite lastRune_cons in Hk. exact (star_run f k (Some x.1) s1 s2 c res H1 H2 Hk).
Qed.

(** A group around a consumed prefix. *)
Lemma take_prefix l s : take (List.length (l ++ s) - List.length s) (l ++ s) = l.
Proof. by rewrite length_app, Nat.add_sub, take_app_length. Qed.

Lemma group_run n a k p l s c res :
  (∀ k', k' (lastRune p l) s c = Some res → matchHere a k' p (l ++ s) c = Some res) →
  k (lastRune p l) s ((n, l) :: c) = Some res → matchHere (Grp n a) k p (l ++ s) c = Some res.
Proof. intros Ha Hk. cbn [matchHere]. apply Ha. by rewrite take_prefix. Qed.

Lemma group_plus n f k p s1 s2 c res :
  s1 ≠ [] → all f s1 → stops f s2 → k (lastRune p s1) s2 ((n, s1) :: c) = Some res →
  matchHere (Grp n (Plus true (Cls f))) k p (s1 ++ s2) c = Some res.
Proof. intros Hne H1 H2 Hk. apply group_run; [|done]. intros k' Hk'. by apply plus_run. Qed.

(** An expression that matches no prefix fails. *)
Lemma matchHere_none r k p s c :
  (∀ l s', s = l ++ s' → ¬ lang r l) → matchHere r k p s c = None.
Proof.
  intros H. destruct (matchHere r k p s c) as [res|] eqn:E; [|done].
  apply matchHere_sound in E as (l & s' & _ & _ & -> & Hl & _). by destruct (H l s').
Qed.

(** What is left is not blank, so [\s*$] fails. *)
Lemma spaces_end_none k p s c :
  Exists (λ x : chunk, space_rune x.1 = false) s → matchHere Spaces (matchHere Eol k) p s c = None.
Proof.
  intros Hs. destruct (matchHere _ _ p s c) as [res|] eqn:E; [|done].
  apply matchHere_sound in E as (l & s' & p' & c' & -> & Hl & _ & H).
  destruct s' as [|y s']; [|done]. rewrite app_nil_r in Hs. apply lang_star_all in Hl.
  apply Exists_exists in Hs as (x & Hin & Hx). unfold all in Hl. rewrite Forall_forall in Hl. rewrite Hl in Hx; done.
Qed.

Definition tight s : Prop := match last s with Some x => space_rune x.1 = false | None => False end.

Lemma tight_suffix s1 s2 : s2 ≠ [] → tight (s1 ++ s2) → tight s2.
Proof. intros Hne. unfold tight. rewrite last_app. by destruct (last s2) eqn:E; [|apply last_None in E]. Qed.
Lemma tight_exists s : tight s → Exists (λ x : chunk, space_rune x.1 = false) s.
Proof.
  unfold tight. destruct (last s) as [x|] eqn:E; [|done]. intros Hx. apply last_Some in E as [l ->].
  apply Exists_app. right. by constructor.
Qed.

(** [(.+?)\s*$] holds the whole rest of a line that does not end in a blank. *)
Lemma lazy_rest n k p s c :
  all any_rune s → tight s →
  matchHere (Grp n (Plus false (Cls any_rune))) (matchHere Spaces (matchHere Eol k)) p s c = k (lastRune p s) [] ((n, s) :: c).
Proof.
  intros Ha Ht.
  assert (H : ∀ k0 m p l, all any_rune l → (List.length l < m)%nat →
    (∀ p l1 l2, l = l1 ++ l2 → l2 ≠ [] → k0 p l2 c = None) →
    loop (matchHere (Cls any_rune)) false k0 m p l c = k0 (lastRune p l) [] c).
  { intros k0. induction m as [|m IH]; intros q l Hl Hm Hk; [lia|]. cbn [loop].
    destruct l as [|x l].
    - cbn [matchHere]. by destruct (k0 q [] c) eqn:E; change (lastRune q []) with q; rewrite E.
    - rewrite (Hk q [] (x :: l)) by done. cbn [matchHere]. inversion Hl as [|? ? Hx Hl']; subst. rewrite Hx.
      cbn [List.length] in *. rewrite (proj2 (Nat.ltb_lt _ _)) by lia.
      rewrite IH; [by rewrite lastRune_cons|done|lia|].
      intros p1 l1 l2 E. subst l. by apply (Hk p1 (x :: l1)). }
  destruct s as [|x s]; [done|]. inversion Ha as [|? ? Hx Hl']; subst.
  cbn [Plus matchHere]. rewrite Hx. rewrite H; [|done|lia|].
  - rewrite lastRune_cons. cbn [List.length]. rewrite Nat.sub_0_r.
    change (S (List.length s)) with (List.length (x :: s)). rewrite firstn_all.
    unfold Spaces. cbn [matchHere loop List.length]. by destruct (k _ _ _).
  - intros p1 l1 l2 E Hne. apply spaces_end_none, tight_exists.
    apply (tight_suffix (x :: l1)); [done|]. by rewrite <-app_comm_cons, <-E.
Qed.
