(* ===== verification/GoFloat.v ===== *)
(** * Go's [float64]

    IEEE 754 binary64 values and operations, from the specification in
    [SpecFloat]: 53 bits of precision, largest exponent 1024.  NaN carries no
    payload. *)

From S2P Require Import Prelude.
From Stdlib Require Export SpecFloat.

Abbreviation float64 := spec_float (only parsing).

#[global] Instance float64_eq_dec : EqDecision float64.
Proof. solve_decision. Defined.

Definition f_add : float64 → float64 → float64 := SFadd 53 1024.
Definition f_sub : float64 → float64 → float64 := SFsub 53 1024.
Definition f_div : float64 → float64 → float64 := SFdiv 53 1024.
Definition f_abs : float64 → float64 := SFabs.
Definition f_lt : float64 → float64 → bool := SFltb.
Definition f_eq : float64 → float64 → bool := SFeqb.

(** [float64(n)] for an integer. *)
Definition f_of_Z (n : Z) : float64 := binary_normalize 53 1024 n 0 false.

Definition IsNaN (x : float64) : bool :=
  match x with S754_nan => true | _ => false end.
(** [math.IsInf(x, 0)]. *)
Definition IsInf (x : float64) : bool :=
  match x with S754_infinity _ => true | _ => false end.

Definition f_zero : float64 := S754_zero false.
Definition f_hundred : float64 := S754_finite false 7036874417766400 (-46).
(** The double nearest to 0.01. *)
Definition f_cent : float64 := S754_finite false 5764607523034235 (-59).

Example f_hundred_ok : f_of_Z 100 = f_hundred.
Proof. reflexivity. Qed.
Example f_cent_ok : f_div (f_of_Z 1) f_hundred = f_cent.
Proof. reflexivity. Qed.

(** ** Comparisons *)

(** [a <= b] on values that are ordered; false when either is NaN. *)
Definition f_le (a b : float64) : bool := SFleb a b.

Lemma SFcompare_antisym a b :
  SFcompare b a = option_map CompOpp (SFcompare a b).
Proof.
  destruct a as [[]|[]| |[] m e], b as [[]|[]| |[] n f]; simpl; try done;
    rewrite (Z.compare_antisym e f); destruct (e ?= f); simpl; try done;
    change (Pos.compare_cont Eq n m) with (Pos.compare n m);
    change (Pos.compare_cont Eq m n) with (Pos.compare m n);
    rewrite (Pos.compare_antisym m n); by destruct (Pos.compare m n).
Qed.

(** Two numbers are ordered by [<] one way or by [<=] the other way. *)
Lemma f_lt_false_le a b :
  IsNaN a = false → IsNaN b = false → f_lt a b = false → f_le b a = true.
Proof.
  unfold f_lt, f_le, SFltb, SFleb. rewrite (SFcompare_antisym a b).
  intros Ha Hb. destruct (SFcompare a b) as [[]|] eqn:E; try done.
  destruct a as [[]|[]| |[] ? ?], b as [[]|[]| |[] ? ?]; done.
Qed.

Lemma f_lt_true_le a b : f_lt a b = true → f_le a b = true.
Proof. unfold f_lt, f_le, SFltb, SFleb. by destruct (SFcompare a b) as [[]|]. Qed.

Lemma f_lt_le_false a b : f_lt a b = true → f_le b a = false.
Proof.
  unfold f_lt, f_le, SFltb, SFleb. rewrite (SFcompare_antisym a b).
  by destruct (SFcompare a b) as [[]|].
Qed.

Lemma f_le_lt_false a b : f_le a b = true → f_lt b a = false.
Proof.
  unfold f_lt, f_le, SFltb, SFleb. rewrite (SFcompare_antisym a b).
  by destruct (SFcompare a b) as [[]|].
Qed.

Lemma f_le_refl a : IsNaN a = false → f_le a a = true.
Proof.
  unfold f_le, SFleb. destruct a as [[]|[]| |[] m e]; simpl; try done; intros _;
    rewrite Z.compare_refl; change (Pos.compare_cont Eq m m) with (Pos.compare m m);
    by rewrite Pos.compare_refl.
Qed.

#[export] Hint Resolve f_lt_false_le f_lt_true_le f_lt_le_false f_le_lt_false f_le_refl : qmon.

(** ** The order of numbers

    A number's place in the order: its class, then exponent and mantissa with
    their sign.  Comparing numbers is comparing places lexicographically. *)
Definition place (x : float64) : Z * Z * Z :=
  match x with
  | S754_nan => (5, 0, 0)
  | S754_infinity true => (0, 0, 0)
  | S754_finite true m e => (1, - e, Z.neg m)
  | S754_zero _ => (2, 0, 0)
  | S754_finite false m e => (3, e, Z.pos m)
  | S754_infinity false => (4, 0, 0)
  end.

Definition place_lt (p q : Z * Z * Z) : Prop :=
  p.1.1 < q.1.1 ∨ (p.1.1 = q.1.1 ∧ (p.1.2 < q.1.2 ∨ (p.1.2 = q.1.2 ∧ p.2 < q.2))).

Lemma SFcompare_place a b :
  IsNaN a = false → IsNaN b = false →
  match SFcompare a b with
  | Some Lt => place_lt (place a) (place b)
  | Some Eq => place a = place b
  | Some Gt => place_lt (place b) (place a)
  | None => False
  end.
Proof.
  unfold place_lt.
  destruct a as [[]|[]| |[] m e], b as [[]|[]| |[] n f]; simpl; try done; intros _ _; try lia;
    try (change (Pos.compare_cont Eq m n) with (Pos.compare m n));
    destruct (Z.compare_spec e f); subst; simpl; try lia;
    destruct (Pos.compare_spec m n); subst; simpl; try done; lia.
Qed.

Lemma f_lt_place a b :
  IsNaN a = false → IsNaN b = false → f_lt a b = true ↔ place_lt (place a) (place b).
Proof.
  intros Ha Hb. pose proof (SFcompare_place a b Ha Hb) as H. unfold f_lt, SFltb.
  destruct (SFcompare a b) as [[]|]; (split; [done|]); intros Hp; try done;
    exfalso; unfold place_lt in *; [rewrite H in Hp|]; lia.
Qed.

Lemma f_eq_place a b :
  IsNaN a = false → IsNaN b = false → f_eq a b = true ↔ place a = place b.
Proof.
  intros Ha Hb. pose proof (SFcompare_place a b Ha Hb) as H. unfold f_eq, SFeqb.
  destruct (SFcompare a b) as [[]|]; (split; [done|]); intros Hp; try done;
    exfalso; rewrite Hp in H; unfold place_lt in *; lia.
Qed.

Lemma place_lt_trans p q r : place_lt p q → place_lt q r → place_lt p r.
Proof. unfold place_lt. lia. Qed.
Lemma place_lt_total p q : place_lt p q ∨ p = q ∨ place_lt q p.
Proof.
  unfold place_lt. destruct p as [[a b] c], q as [[a' b'] c']. simpl.
  destruct (Z.lt_trichotomy a a') as [|[->|]]; [lia| |lia].
  destruct (Z.lt_trichotomy b b') as [|[->|]]; [lia| |lia].
  destruct (Z.lt_trichotomy c c') as [|[->|]]; [lia|auto|lia].
Qed.
