(* ===== verification/GoStrconv.v ===== *)
(** * Go's [strconv]

    [ParseInt] and [Atoi] in base 10, [ParseFloat] for 64 bits, and the
    conversion of a [float64] to an [int64].  [ParseFloat] is written out for
    decimal numbers and for the names of the special values; what it makes of
    anything else (hexadecimal mantissas, underscores) is an argument. *)

From S2P Require Import Prelude GoTime GoText GoFloat GoDate.

(** The digits at the front: their value, their number and the rest. *)
Fixpoint digits (acc : Z) (n : nat) (s : string) : Z * nat * string :=
  match s with
  | String a s' => match digitOf a with Some x => digits (10 * acc + x) (S n) s' | None => (acc, n, s) end
  | EmptyString => (acc, n, s)
  end.

Definition sign (s : string) : bool * string :=
  match s with
  | String a s' => if bool_decide (a = "-"%char) then (true, s') else if bool_decide (a = "+"%char) then (false, s') else (false, s)
  | EmptyString => (false, s)
  end.

(** [strconv.ParseInt(s, 10, 64)]; [Atoi] is the same on 64-bit machines. *)
Definition ParseInt (s : string) : option Z :=
  let '(negative, s) := sign s in
  let '(v, n, rest) := digits 0 0 s in
  let v := if negative : bool then - v else v in
  if bool_decide (n ≠ O ∧ rest = "") && (min_int64 <=? v) && (v <=? max_int64) then Some v else None.

(** The float nearest to [m * 10 ^ x], ties to even.  A quotient of more than
    60 bits with a sticky last bit rounds as the exact one does. *)
Definition f_of_decimal (m x : Z) : float64 :=
  if 0 <=? x then binary_normalize 53 1024 (m * 10 ^ x) 0 false
  else
    let d := 10 ^ (- x) in
    let shift := 64 + Z.log2 d in
    let n := Z.shiftl m shift in
    let sticky := if n mod d =? 0 then 0 else 1 in
    binary_normalize 53 1024 (2 * (n / d) + sticky) (- (shift + 1)) false.

Definition f_opp : float64 → float64 := SFopp.
Definition f_nan : float64 := S754_nan.
Definition f_inf (negative : bool) : float64 := S754_infinity negative.

(** The exponent part; Go stops accumulating at 10000. *)
Fixpoint exponentDigits (acc : Z) (n : nat) (s : string) : Z * nat * string :=
  match s with
  | String a s' =>
    match digitOf a with
    | Some x => exponentDigits (if acc <? 10000 then 10 * acc + x else acc) (S n) s'
    | None => (acc, n, s)
    end
  | EmptyString => (acc, n, s)
  end.
Definition exponent (s : string) : Z * string :=
  match s with
  | String a s' =>
    if bool_decide (a ∈ ["e"; "E"]%char) then
      let '(negative, s') := sign s' in
      match exponentDigits 0 0 s' with
      | (_, O, _) => (0, s)
      | (e, _, rest) => (if negative : bool then - e else e, rest)
      end
    else (0, s)
  | EmptyString => (0, s)
  end.

(** A decimal number without a sign, if all of [s] is one: [None], or the
    mantissa and the power of ten. *)
Definition decimal (s : string) : option (Z * Z) :=
  let '(m, n, s) := digits 0 0 s in
  let '(m, k, s) := match s with
                    | String a s' => if bool_decide (a = "."%char) then digits m 0 s' else (m, O, s)
                    | EmptyString => (m, O, s)
                    end in
  let '(e, s) := exponent s in
  if bool_decide ((n + k)%nat ≠ O ∧ s = "") then Some (m, e - Z.of_nat k) else None.

(** [strconv.ParseFloat(s, 64)]: the value, and whether there was no error. *)
Definition ParseFloat (other : string → float64 * bool) (s : string) : float64 * bool :=
  let '(negative, s') := sign s in
  match decimal s' with
  | Some (m, x) =>
    let v := f_of_decimal m x in
    (if negative then f_opp v else v, negb (IsInf v))
  | None =>
    let name := ToLower s' in
    if bool_decide (name = "inf" ∨ name = "infinity") then (f_inf negative, true)
    else if bool_decide (ToLower s = "nan") then (f_nan, true)
    else other s
  end.

(** [int64(x)]: truncation; out of range the result is the machine's. *)
Definition f_truncate (x : float64) : option Z :=
  match x with
  | S754_zero _ => Some 0
  | S754_finite s m e =>
    let v := if 0 <=? e then Z.shiftl (Zpos m) e else Z.shiftr (Zpos m) (- e) in
    Some (if s then - v else v)
  | _ => None
  end.
Definition f_to_int64 (machine : float64 → Z) (x : float64) : Z :=
  match f_truncate x with
  | Some v => if (min_int64 <=? v) && (v <=? max_int64) then v else machine x
  | None => machine x
  end.

Definition noOther : string → float64 * bool := λ _, (f_zero, false).

Example parse_ints : map ParseInt ["42"; "-7"; "+0"; ""; "9223372036854775808"; "1x"] = [Some 42; Some (-7); Some 0; None; None; None].
Proof. vm_compute. reflexivity. Qed.

Example parse_floats :
  ParseFloat noOther "100" = (f_hundred, true) ∧
  ParseFloat noOther "0.1" = (S754_finite false 7205759403792794 (-56), true) ∧
  ParseFloat noOther "1e400" = (f_inf false, false) ∧ ParseFloat noOther "NaN" = (f_nan, true) ∧
  ParseFloat noOther "-37.5" = (S754_finite true 5277655813324800 (-47), true) ∧
  ParseFloat noOther "5e-324" = (S754_finite false 1 (-1074), true).
Proof. vm_compute. done. Qed.

(** ** Rounding a natural number gives no NaN and keeps the sign *)

Definition not_negative (x : float64) : Prop :=
  match x with S754_nan => False | S754_zero s | S754_infinity s | S754_finite s _ _ => s = false end.

Lemma shr_1_nonneg r : 0 <= shr_m r → 0 <= shr_m (shr_1 r).
Proof. destruct r as [[|[m|m|]|] b b']; simpl; lia. Qed.

Lemma shr_nonneg r e n : 0 <= shr_m r → 0 <= shr_m (shr r e n).1.
Proof.
  intros Hr. unfold shr. destruct n as [|n|]; [done| |done]. simpl.
  revert r Hr. induction n as [n IH|n IH|]; intros r Hr; simpl; eauto using shr_1_nonneg.
Qed.

Lemma shr_fexp_nonneg m e l : 0 <= m → 0 <= shr_m (shr_fexp 53 1024 m e l).1.
Proof. intros Hm. unfold shr_fexp. apply shr_nonneg. by destruct l as [|[]]. Qed.

Lemma round_nearest_even_nonneg m l : 0 <= m → 0 <= round_nearest_even m l.
Proof. unfold round_nearest_even. destruct l as [|[]]; [done| |lia..]. destruct (Z.even m); lia. Qed.

Definition sign_is (s : bool) (x : float64) : Prop :=
  match x with S754_nan => False | S754_zero s' | S754_infinity s' | S754_finite s' _ _ => s' = s end.

Lemma binary_round_aux_sign s m e l : 0 <= m → sign_is s (binary_round_aux 53 1024 s m e l).
Proof.
  intros Hm. unfold binary_round_aux.
  pose proof (shr_fexp_nonneg m e l Hm) as H1. destruct (shr_fexp 53 1024 m e l) as [r1 e1]. cbn [fst] in H1.
  pose proof (shr_fexp_nonneg _ e1 loc_Exact (round_nearest_even_nonneg _ (loc_of_shr_record r1) H1)) as H2.
  destruct (shr_fexp 53 1024 _ e1 loc_Exact) as [r2 e2]. cbn [fst] in H2.
  destruct (shr_m r2) as [|p|p]; [done| |lia]. by destruct (e2 <=? 1024 - 53).
Qed.

Lemma binary_normalize_not_nan m e s : IsNaN (binary_normalize 53 1024 m e s) = false.
Proof.
  destruct m as [|m|m]; [done| |]; simpl; unfold binary_round;
    match goal with |- context [let '(_, _) := ?t in _] => destruct t end;
    match goal with |- context [binary_round_aux 53 1024 ?s ?m ?e ?l] =>
      pose proof (binary_round_aux_sign s m e l ltac:(lia)) as H; destruct (binary_round_aux 53 1024 s m e l) end; done.
Qed.

Lemma binary_normalize_sign m e : 0 <= m → not_negative (binary_normalize 53 1024 m e false).
Proof.
  intros Hm. destruct m as [|m|m]; [done| |lia]. simpl. unfold binary_round.
  match goal with |- context [let '(_, _) := ?t in _] => destruct t end. by apply (binary_round_aux_sign false).
Qed.

Lemma f_of_decimal_sign m x : 0 <= m → not_negative (f_of_decimal m x).
Proof.
  intros Hm. unfold f_of_decimal. destruct (Z.leb_spec 0 x); apply binary_normalize_sign; [nia|].
  assert (0 <= Z.shiftl m (64 + Z.log2 (10 ^ (- x)))) by (by apply Z.shiftl_nonneg).
  assert (0 < 10 ^ (- x)) by lia.
  pose proof (Z.div_pos (Z.shiftl m (64 + Z.log2 (10 ^ (- x)))) (10 ^ (- x))). destruct (_ =? 0); lia.
Qed.
