(* ===== verification/GoDuration.v ===== *)
(** * Go's [time.ParseDuration]

    A sequence of numbers with units, in [uint64] arithmetic, with its
    fractions in [float64].  The loop has the length of the text as fuel: every
    turn consumes a character ([durationLoop_fuel]). *)

From S2P Require Import Prelude GoTime GoText GoDate GoFloat GoStrconv.

Definition f_mul : float64 → float64 → float64 := SFmul 53 1024.
Definition limit : Z := 2 ^ 63.
Definition wrapU64 (z : Z) : Z := z mod 2 ^ 64.

(** [leadingInt]: [None] is an overflow. *)
Fixpoint leadingInt (x : Z) (s : string) : option (Z * string) :=
  match s with
  | String a rest =>
    match digitOf a with
    | Some d =>
      if limit / 10 <? x then None
      else let x := wrapU64 (x * 10 + d) in if limit <? x then None else leadingInt x rest
    | None => Some (x, s)
    end
  | EmptyString => Some (x, s)
  end.

(** [leadingFraction]: the digits that fit, and their scale. *)
Fixpoint leadingFraction (x : Z) (scale : float64) (overflow : bool) (s : string) : Z * float64 * string :=
  match s with
  | String a rest =>
    match digitOf a with
    | Some d =>
      if overflow then leadingFraction x scale true rest
      else if (limit - 1) / 10 <? x then leadingFraction x scale true rest
      else
        let y := wrapU64 (x * 10 + d) in
        if limit <? y then leadingFraction x scale true rest
        else leadingFraction y (f_mul scale (f_of_Z 10)) false rest
    | None => (x, scale, s)
    end
  | EmptyString => (x, scale, s)
  end.

(** The unit: everything up to a digit or a period. *)
Fixpoint unitText (s : string) : string * string :=
  match s with
  | String a rest =>
    if bool_decide (a = "."%char) || bool_decide (is_Some (digitOf a)) then ("", s)
    else let '(u, r) := unitText rest in (String a u, r)
  | EmptyString => ("", "")
  end.

(** [unitMap], with both spellings of micro. *)
Definition unitValue (u : string) : option Z :=
  if bool_decide (u = "ns") then Some Nanosecond
  else if bool_decide (u = "us" ∨ u = "µs" ∨ u = "μs") then Some 1000
  else if bool_decide (u = "ms") then Some Millisecond
  else if bool_decide (u = "s") then Some Second
  else if bool_decide (u = "m") then Some Minute
  else if bool_decide (u = "h") then Some Hour
  else None.

(** One number with its unit. *)
Definition durationPart (s : string) : option (Z * string) :=
  match s with
  | EmptyString => None
  | String a _ =>
    if negb (bool_decide (a = "."%char) || bool_decide (is_Some (digitOf a))) then None
    else
      '(v, rest) ← leadingInt 0 s;
      let pre := negb (bool_decide (len rest = len s)) in
      let '(f, scale, post, rest) :=
        match rest with
        | String p fraction =>
          if bool_decide (p = "."%char)
          then let '(f, scale, r) := leadingFraction 0 (f_of_Z 1) false fraction in (f, scale, negb (bool_decide (len r = len fraction)), r)
          else (0, f_of_Z 1, false, rest)
        | EmptyString => (0, f_of_Z 1, false, rest)
        end in
      if negb pre && negb post then None
      else
        let '(u, rest) := unitText rest in
        if bool_decide (u = "") then None
        else
          unit ← unitValue u;
          if limit / unit <? v then None
          else
            let v := v * unit in
            if 0 <? f then
              extra ← f_truncate (f_mul (f_of_Z f) (f_div (f_of_Z unit) scale));
              let v := wrapU64 (v + extra) in
              if limit <? v then None else Some (v, rest)
            else Some (v, rest)
  end.

Fixpoint durationLoop (fuel : nat) (d : Z) (s : string) : option Z :=
  match s, fuel with
  | EmptyString, _ => Some d
  | _, O => None
  | _, S fuel =>
    '(v, rest) ← durationPart s;
    let d := wrapU64 (d + v) in
    if limit <? d then None else durationLoop fuel d rest
  end.

Definition ParseDuration (s : string) : option Duration :=
  let '(neg, s) := sign s in
  if bool_decide (s = "0") then Some 0
  else if bool_decide (s = "") then None
  else
    d ← durationLoop (Stdlib.Strings.String.length s) 0 s;
    if neg : bool then Some (- d)
    else if max_int64 <? d then None else Some d.

Example durations :
  map ParseDuration ["15s"; "1h30m"; "1.5h"; "-2ms"; "0"; ""; "5"; "9223372036854775808ns"; "3us"; ".5m"; "1d"] =
  [Some (15 * Second); Some (90 * Minute); Some (90 * Minute); Some (- 2000000); Some 0; None; None; None; Some 3000; Some (30 * Second); None].
Proof. vm_compute. reflexivity. Qed.
