(* ===== verification/GoFlag.v ===== *)
(** * Go's [flag]

    [FlagSet.Parse] for string, boolean and duration flags.  A flag set is the
    value of each defined flag; parsing stops at the first argument that is
    not a flag, or after "--". *)

From S2P Require Import Prelude GoTime GoText GoNet GoNetFacts GoDuration.

Inductive flagValue := VString (s : string) | VBool (b : bool) | VDuration (d : Duration).

Abbreviation FlagSet := (gmap string flagValue).

Inductive flagError :=
| HelpRequested | BadSyntax (s : string) | NotDefined (name : string)
| NeedsArgument (name : string) | BadValue (name value : string).

#[global] Instance flagError_eq_dec : EqDecision flagError.
Proof. solve_decision. Defined.

(** [strconv.ParseBool]. *)
Definition ParseBool (s : string) : option bool :=
  if bool_decide (s ∈ ["1"; "t"; "T"; "true"; "TRUE"; "True"]) then Some true
  else if bool_decide (s ∈ ["0"; "f"; "F"; "false"; "FALSE"; "False"]) then Some false
  else None.

(** [flag.Value.Set], on the value the flag has. *)
Definition setFlag (old : flagValue) (value : string) : option flagValue :=
  match old with
  | VString _ => Some (VString value)
  | VBool _ => VBool <$> ParseBool value
  | VDuration _ => VDuration <$> ParseDuration value
  end.

Inductive argument :=
| NotAFlag                                       (* parsing ends before it *)
| Terminator                                     (* parsing ends after it *)
| Malformed
| Named (name : string) (value : option string).

(** The name, and the value after the first "=" that does not begin it. *)
Definition nameAndValue (name : string) : argument :=
  match name with
  | EmptyString => Malformed
  | String c rest =>
    if bool_decide (c = "-"%char) || bool_decide (c = "="%char) then Malformed
    else match cut "=" rest with
    | Some (x, v) => Named (String c x) (Some v)
    | None => Named name None
    end
  end.

Definition readArgument (s : string) : argument :=
  match s with
  | String "-" (String "-" EmptyString) => Terminator
  | String "-" (String "-" name) => nameAndValue name
  | String "-" EmptyString => NotAFlag
  | String "-" name => nameAndValue name
  | _ => NotAFlag
  end.

(** A boolean flag takes its value after "=" only; another flag may take the
    next argument, whatever it looks like. *)
Fixpoint Parse (fs : FlagSet) (args : list string) : result flagError (FlagSet * list string) :=
  match args with
  | [] => Ok (fs, [])
  | s :: rest =>
    match readArgument s with
    | NotAFlag => Ok (fs, args)
    | Terminator => Ok (fs, rest)
    | Malformed => Err (BadSyntax s)
    | Named name value =>
      match fs !! name with
      | None => Err (if bool_decide (name ∈ ["help"; "h"]) then HelpRequested else NotDefined name)
      | Some (VBool b) =>
        let text := default "true" value in
        match setFlag (VBool b) text with
        | Some new => Parse (<[name := new]> fs) rest
        | None => Err (BadValue name text)
        end
      | Some old =>
        match value with
        | Some text =>
          match setFlag old text with
          | Some new => Parse (<[name := new]> fs) rest
          | None => Err (BadValue name text)
          end
        | None =>
          match rest with
          | [] => Err (NeedsArgument name)
          | text :: rest =>
            match setFlag old text with
            | Some new => Parse (<[name := new]> fs) rest
            | None => Err (BadValue name text)
            end
          end
        end
      end
    end
  end.

(** The variables behind the flags. *)
Definition stringOf (fs : FlagSet) (name : string) : string := match fs !! name with Some (VString s) => s | _ => "" end.
Definition boolOf (fs : FlagSet) (name : string) : bool := match fs !! name with Some (VBool b) => b | _ => false end.
Definition durationOf (fs : FlagSet) (name : string) : Duration := match fs !! name with Some (VDuration d) => d | _ => 0 end.

(** ** Facts *)

(** A name that can be written on the command line. *)
Definition flag_name (name : string) : bool :=
  match name with
  | EmptyString => false
  | String c rest => negb (bool_decide (c = "-"%char)) && negb (bool_decide (c = "="%char)) && negb (has_byte "=" rest)
  end.

Lemma cut_None c s : has_byte c s = false → cut c s = None.
Proof. induction s as [|a s IH]; [done|]. simpl. intros [Ha Hs]%orb_false_elim. by rewrite Ha, IH. Qed.

Lemma readArgument_plain name : flag_name name → readArgument ("--" +:+ name) = Named name None.
Proof.
  destruct name as [|c rest]; [done|]. intros [[Hd He]%andb_prop_elim Hr]%andb_prop_elim.
  apply negb_prop_elim in Hd, He, Hr.
  change (readArgument ("--" +:+ String c rest)) with (nameAndValue (String c rest)). simpl.
  rewrite cut_None by by destruct (has_byte "=" rest). by destruct (bool_decide (c = "-"%char)), (bool_decide (c = "="%char)).
Qed.

Lemma readArgument_value name v : flag_name name → readArgument ("--" +:+ name +:+ "=" +:+ v) = Named name (Some v).
Proof.
  destruct name as [|c rest]; [done|]. intros [[Hd He]%andb_prop_elim Hr]%andb_prop_elim.
  apply negb_prop_elim in Hd, He, Hr.
  change (readArgument ("--" +:+ String c rest +:+ "=" +:+ v)) with (nameAndValue (String c (rest +:+ String "=" v))). simpl.
  rewrite cut_app by by destruct (has_byte "=" rest). by destruct (bool_decide (c = "-"%char)), (bool_decide (c = "="%char)).
Qed.

(** A string flag followed by its value. *)
Lemma Parse_string fs name old v rest : flag_name name → fs !! name = Some (VString old) →
  Parse fs (("--" +:+ name) :: v :: rest) = Parse (<[name := VString v]> fs) rest.
Proof. intros Hn Hf. cbn [Parse]. by rewrite readArgument_plain, Hf. Qed.

Lemma Parse_string_value fs name old v rest : flag_name name → fs !! name = Some (VString old) →
  Parse fs (("--" +:+ name +:+ "=" +:+ v) :: rest) = Parse (<[name := VString v]> fs) rest.
Proof. intros Hn Hf. cbn [Parse]. by rewrite readArgument_value, Hf. Qed.

Example flags_read :
  Parse {["json" := VBool false; "db" := VString "d"; "t" := VDuration 0]} ["--json"; "-db=x=y"; "--t"; "1s"; "--db"; "--z"; "pos"; "-json=0"] =
  Ok ({["json" := VBool true; "db" := VString "--z"; "t" := VDuration 1000000000]}, ["pos"; "-json=0"]) ∧
  map (Parse {["json" := VBool false; "db" := VString "d"]}) [["-h"]; ["--x"]; ["--json=2"]; ["--db"]; ["---db"]; ["--=x"]; ["--"; "-h"]] =
  [Err HelpRequested; Err (NotDefined "x"); Err (BadValue "json" "2"); Err (NeedsArgument "db"); Err (BadSyntax "---db"); Err (BadSyntax "--=x");
   Ok ({["json" := VBool false; "db" := VString "d"]}, ["-h"])].
Proof. vm_compute. split; reflexivity. Qed.
