(* ===== verification/Json.v ===== *)
(** * Decoded JSON

    What [encoding/json] gives for a value of static type [any]: the input of
    the collectors' parsers.  The text syntax is not modelled here; a payload
    that does not decode is [None] where one of these is expected.  The fields
    of an object are listed with distinct keys, in the order in which Go
    iterates over the map. *)

From S2P Require Import Prelude GoFloat.

#[local] Set Warnings "-register-all".
(** What [json.Unmarshal] gives for an [any]. *)
Inductive json :=
| JNull | JBool (b : bool) | JNumber (x : float64) | JString (s : string)
| JArray (l : list json) | JObject (l : list (string * json)).

(** [object[key]] with its presence. *)
Fixpoint field (fields : list (string * json)) (key : string) : option json :=
  match fields with
  | [] => None
  | (k, v) :: fields => if bool_decide (k = key) then Some v else field fields key
  end.

Lemma field_Some fields key v :
  NoDup fields.*1 → field fields key = Some v ↔ (key, v) ∈ fields.
Proof.
  induction fields as [|[k w] fields IH]; simpl; [by intros _; split; [|intros ?%elem_of_nil]|].
  rewrite NoDup_cons, elem_of_cons. intros [Hk Hn]. case_bool_decide as E.
  - subst. split.
    + intros [= ->]. by left.
    + intros [[= ->]|Hin]; [done|]. destruct Hk. by apply (list_elem_of_fmap_2 fst _ _ Hin).
  - rewrite IH by done. split; [by right|]. by intros [[= -> ->]|].
Qed.

(** A lookup does not depend on the order of the fields. *)
Lemma field_perm fields fields' key :
  NoDup fields.*1 → fields ≡ₚ fields' → field fields key = field fields' key.
Proof.
  intros Hn Hp. assert (Hn' : NoDup fields'.*1) by (by rewrite <-Hp).
  apply option_eq. intros v. by rewrite !field_Some, Hp.
Qed.
