(* ===== verification/Digest.v ===== *)
(** * Digests and text encodings

    SHA-256 ([crypto/sha256], FIPS 180-4), lower-case hexadecimal
    ([encoding/hex], and [%x] of bytes) and unpadded URL base64
    ([base64.RawURLEncoding]).  They are executable, so token authentication
    is run on real digests. *)

From S2P Require Import Prelude GoText.

Definition bytes_of_string (s : string) : list Z :=
  map zb (Stdlib.Strings.String.list_ascii_of_string s).
Definition string_of_bytes (l : list Z) : string :=
  Stdlib.Strings.String.string_of_list_ascii (map chr l).

(** ** SHA-256 *)

Module SHA256.

Definition w32 (z : Z) : Z := z mod 2 ^ 32.
Definition rotr (n x : Z) : Z :=
  Z.lor (Z.shiftr x n) (w32 (Z.shiftl x (32 - n))).
Definition ch (x y z : Z) : Z := Z.lxor (Z.land x y) (Z.land (Z.lxor x (2 ^ 32 - 1)) z).
Definition maj (x y z : Z) : Z := Z.lxor (Z.land x y) (Z.lxor (Z.land x z) (Z.land y z)).
Definition big0 (x : Z) : Z := Z.lxor (rotr 2 x) (Z.lxor (rotr 13 x) (rotr 22 x)).
Definition big1 (x : Z) : Z := Z.lxor (rotr 6 x) (Z.lxor (rotr 11 x) (rotr 25 x)).
Definition small0 (x : Z) : Z := Z.lxor (rotr 7 x) (Z.lxor (rotr 18 x) (Z.shiftr x 3)).
Definition small1 (x : Z) : Z := Z.lxor (rotr 17 x) (Z.lxor (rotr 19 x) (Z.shiftr x 10)).

(** The constants: the first 32 bits of the fractional parts of the cube roots
    of the first 64 primes, and of the square roots of the first eight. *)
Definition is_prime (n : Z) : bool := forallb (λ d, negb (n mod d =? 0)) (seqZ 2 (n - 2)).
Definition primes : list Z := filter (λ n, is_prime n = true) (seqZ 2 310).

(** The integer cube root of [n], a bit at a time from bit [i]. *)
Fixpoint cbrt (i : nat) (n acc : Z) : Z :=
  let acc := let x := acc + 2 ^ Z.of_nat i in if x * x * x <=? n then x else acc in
  match i with O => acc | S i => cbrt i n acc end.

Definition K : list Z := Eval vm_compute in
  map (λ p, w32 (cbrt 40 (p * 2 ^ 96) 0)) primes.

Record state := State { sa : Z; sb : Z; sc : Z; sd : Z; se : Z; sf : Z; sg : Z; sh : Z }.

Definition init : state := Eval vm_compute in
  match map (λ p, w32 (Z.sqrt (p * 2 ^ 64))) (take 8 primes) with
  | [a; b; c; d; e; f; g; h] => State a b c d e f g h
  | _ => State 0 0 0 0 0 0 0 0
  end.

Definition round (s : state) (kw : Z * Z) : state :=
  let '(k, w) := kw in
  let t1 := sh s + big1 (se s) + ch (se s) (sf s) (sg s) + k + w in
  let t2 := big0 (sa s) + maj (sa s) (sb s) (sc s) in
  State (w32 (t1 + t2)) (sa s) (sb s) (sc s) (w32 (sd s + t1)) (se s) (sf s) (sg s).

(** The schedule is grown newest word first. *)
Fixpoint extend (n : nat) (w : list Z) : list Z :=
  match n with
  | O => w
  | S n =>
    extend n (w32 (small1 (nth 1 w 0) + nth 6 w 0 + small0 (nth 14 w 0) + nth 15 w 0) :: w)
  end.

Fixpoint words (l : list Z) : list Z :=
  match l with
  | a :: b :: c :: d :: l => (a * 2 ^ 24 + b * 2 ^ 16 + c * 2 ^ 8 + d) :: words l
  | _ => []
  end.

Definition compress (s : state) (block : list Z) : state :=
  let w := rev (extend 48 (rev (words block))) in
  let t := fold_left round (combine K w) s in
  State (w32 (sa s + sa t)) (w32 (sb s + sb t)) (w32 (sc s + sc t)) (w32 (sd s + sd t))
        (w32 (se s + se t)) (w32 (sf s + sf t)) (w32 (sg s + sg t)) (w32 (sh s + sh t)).

Definition be_bytes (n : nat) (x : Z) : list Z :=
  map (λ i, Z.shiftr x (8 * Z.of_nat i) mod 256) (rev (seq 0 n)).

Definition pad (m : list Z) : list Z :=
  let n := Z.of_nat (length m) in
  m ++ 0x80 :: replicate (Z.to_nat ((55 - n) mod 64)) 0 ++ be_bytes 8 (8 * n).

Fixpoint run (fuel : nat) (s : state) (l : list Z) : state :=
  match fuel with
  | O => s
  | S fuel =>
    match l with
    | [] => s
    | _ => run fuel (compress s (take 64 l)) (drop 64 l)
    end
  end.

(** Any fuel that covers the length gives the same digest. *)
Lemma run_fuel n m s l : (length l ≤ n)%nat → (length l ≤ m)%nat → run n s l = run m s l.
Proof.
  revert m s l. induction n as [|n IH]; intros [|m] s l Hn Hm; destruct l as [|x l]; simpl in *; try done; try lia.
  apply IH; rewrite length_drop; simpl; lia.
Qed.

Definition out (s : state) : list Z :=
  flat_map (be_bytes 4) [sa s; sb s; sc s; sd s; se s; sf s; sg s; sh s].

End SHA256.

(** [sha256.Sum256], as the 32 bytes of the digest.  One block is consumed
    per unit of fuel, and the padded message has at most as many blocks as
    bytes. *)
Definition Sum256 (s : string) : string :=
  let m := SHA256.pad (bytes_of_string s) in
  string_of_bytes (SHA256.out (SHA256.run (length m) SHA256.init m)).

Lemma length_string_of_bytes l : Stdlib.Strings.String.length (string_of_bytes l) = length l.
Proof. unfold string_of_bytes. induction l as [|x l IH]; simpl; [done|]. by rewrite IH. Qed.

Lemma len_Sum256 s : len (Sum256 s) = 32.
Proof. unfold len, Sum256. by rewrite length_string_of_bytes. Qed.

(** ** Hexadecimal *)

Definition hex_digit (d : Z) : ascii := chr (if d <? 10 then 48 + d else 87 + d).
Fixpoint hex_encode (s : string) : string :=
  match s with
  | EmptyString => EmptyString
  | String a s =>
    String (hex_digit (Z.shiftr (zb a) 4)) (String (hex_digit (Z.land (zb a) 15)) (hex_encode s))
  end.

(** ** Unpadded URL base64 *)

Definition b64_alphabet : string :=
  "ABCDEFGHIJKLMNOPQRSTUVWXYZabcdefghijklmnopqrstuvwxyz0123456789-_".
Definition b64_char (d : Z) : ascii :=
  match Stdlib.Strings.String.get (Z.to_nat (Z.land d 63)) b64_alphabet with Some a => a | None => NUL end.

Fixpoint b64_encode (l : list Z) : string :=
  match l with
  | a :: b :: c :: l =>
    String (b64_char (Z.shiftr a 2))
      (String (b64_char (Z.lor (Z.shiftl a 4) (Z.shiftr b 4)))
        (String (b64_char (Z.lor (Z.shiftl b 2) (Z.shiftr c 6)))
          (String (b64_char c) (b64_encode l))))
  | [a; b] =>
    String (b64_char (Z.shiftr a 2))
      (String (b64_char (Z.lor (Z.shiftl a 4) (Z.shiftr b 4)))
        (String (b64_char (Z.shiftl b 2)) ""))
  | [a] => String (b64_char (Z.shiftr a 2)) (String (b64_char (Z.shiftl a 4)) "")
  | [] => ""
  end.

Lemma length_b64_encode l :
  Stdlib.Strings.String.length (b64_encode l) = ((length l * 4 + 2) / 3)%nat.
Proof.
  assert (H : ∀ n l, (length l ≤ n)%nat →
                Stdlib.Strings.String.length (b64_encode l) = ((length l * 4 + 2) / 3)%nat); [|by eapply H].
  clear l. induction n as [|n IH]; intros [|a [|b [|c l]]] Hn; try done; simpl in Hn; try lia.
  cbn [b64_encode Stdlib.Strings.String.length length]. rewrite IH by lia.
  replace (S (S (S (length l))) * 4 + 2)%nat with (4 * 3 + (length l * 4 + 2))%nat by lia.
  rewrite Nat.div_add_l by lia. lia.
Qed.

(** Published test vectors. *)
Example Sum256_abc :
  hex_encode (Sum256 "abc") =
  "ba7816bf8f01cfea414140de5dae2223b00361a396177a9cb410ff61f20015ad".
Proof. vm_compute. reflexivity. Qed.
Example Sum256_two_blocks :
  hex_encode (Sum256 "abcdbcdecdefdefgefghfghighijhijkijkljklmklmnlmnomnopnopq") =
  "248d6a61d20638b8e5c026930c3e6039a33ce45964ff2167f6ecedd419db06c1".
Proof. vm_compute. reflexivity. Qed.
Example b64_foobar : b64_encode (bytes_of_string "fooba") = "Zm9vYmE".
Proof. vm_compute. reflexivity. Qed.
