(* ===== verification/Model.v ===== *)
(** * internal/model: the data exchanged between the parts

    [types.go] and [normalize.go].  A Go struct is a record whose fields keep
    their names behind a two-letter prefix; a pointer that may be nil is an
    option; a map or slice that may be nil is an option of a finite map or of
    a list. *)

From S2P Require Import Prelude GoTime GoText GoFloat.

Definition SchemaVersion : Z := 1.

Abbreviation ProviderName := string (only parsing).
Definition ProviderCodex : ProviderName := "codex".
Definition ProviderClaude : ProviderName := "claude".

Abbreviation TaskKind := string (only parsing).
Definition TaskMain : TaskKind := "main".
Definition TaskSub : TaskKind := "sub".

Abbreviation Freshness := string (only parsing).
Definition FreshnessFresh : Freshness := "fresh".
Definition FreshnessStale : Freshness := "stale".
Definition FreshnessUnavailable : Freshness := "unavailable".

Record LimitWindow := mkLimitWindow {
  UsedPercent : float64;
  RemainingPercent : float64;
  ResetsAt : option Time
}.

Record ProviderWindows := mkProviderWindows {
  FiveHour : option LimitWindow;
  SevenDay : option LimitWindow
}.

Definition noWindows : ProviderWindows := mkProviderWindows None None.

Record ProviderReport := mkProviderReport {
  pr_ObservedAt : Time;
  pr_AuthState : string;
  pr_Plan : string;
  pr_Source : string;
  pr_Windows : ProviderWindows;
  pr_ErrorCode : string
}.

Record ActiveTask := mkActiveTask {
  at_Provider : ProviderName;
  at_Kind : TaskKind;
  at_SessionID : string;
  at_StartedAt : Time;
  at_LastSeenAt : Time
}.

Record AgentReport := mkAgentReport {
  ar_SchemaVersion : Z;
  ar_AgentID : string;
  ar_SentAt : Time;
  ar_Providers : option (gmap ProviderName ProviderReport);
  ar_ActiveTasks : option (list ActiveTask)
}.

Record ProviderSnapshot := mkProviderSnapshot {
  ps_ObservedAt : option Time;
  ps_Freshness : Freshness;
  ps_LoginRequired : bool;
  ps_Plan : string;
  ps_Source : string;
  ps_Windows : ProviderWindows
}.

Record TaskCount := mkTaskCount { tc_Main : Z; tc_Sub : Z }.

Record TaskSummary := mkTaskSummary {
  ts_Codex : TaskCount;
  ts_Claude : TaskCount;
  ts_Total : TaskCount
}.

Record AgentSummary := mkAgentSummary { as_Online : Z; as_Total : Z }.

Record DisplaySnapshot := mkDisplaySnapshot {
  ds_SchemaVersion : Z;
  ds_GeneratedAt : Time;
  ds_Providers : gmap ProviderName ProviderSnapshot;
  ds_Tasks : TaskSummary;
  ds_Agents : AgentSummary;
  ds_Warnings : list string
}.

#[global] Instance LimitWindow_eq_dec : EqDecision LimitWindow.
Proof. solve_decision. Defined.
#[global] Instance ProviderWindows_eq_dec : EqDecision ProviderWindows.
Proof. solve_decision. Defined.
#[global] Instance ProviderReport_eq_dec : EqDecision ProviderReport.
Proof. solve_decision. Defined.
#[global] Instance ActiveTask_eq_dec : EqDecision ActiveTask.
Proof. solve_decision. Defined.
#[global] Instance AgentReport_eq_dec : EqDecision AgentReport.
Proof. solve_decision. Defined.
#[global] Instance ProviderSnapshot_eq_dec : EqDecision ProviderSnapshot.
Proof. solve_decision. Defined.
#[global] Instance TaskCount_eq_dec : EqDecision TaskCount.
Proof. solve_decision. Defined.
#[global] Instance TaskSummary_eq_dec : EqDecision TaskSummary.
Proof. solve_decision. Defined.
#[global] Instance AgentSummary_eq_dec : EqDecision AgentSummary.
Proof. solve_decision. Defined.
#[global] Instance DisplaySnapshot_eq_dec : EqDecision DisplaySnapshot.
Proof. solve_decision. Defined.

(** ** normalize.go *)

Definition ClampPercent (value : float64) : float64 :=
  if IsNaN value || IsInf value || f_lt value f_zero then f_zero
  else if f_lt f_hundred value then f_hundred
  else value.

Definition NewLimitWindow (used : float64) (resetsAt : Time) : LimitWindow :=
  let used := ClampPercent used in
  mkLimitWindow used (f_sub f_hundred used) (Some resetsAt).

Definition ValidProvider (provider : ProviderName) : bool :=
  bool_decide (provider = ProviderCodex) || bool_decide (provider = ProviderClaude).

Definition ValidTaskKind (kind : TaskKind) : bool :=
  bool_decide (kind = TaskMain) || bool_decide (kind = TaskSub).

Lemma ValidProvider_true p : ValidProvider p = true ↔ p = ProviderCodex ∨ p = ProviderClaude.
Proof. unfold ValidProvider. by rewrite orb_true_iff, !bool_decide_eq_true. Qed.

Lemma ValidTaskKind_true k : ValidTaskKind k = true ↔ k = TaskMain ∨ k = TaskSub.
Proof. unfold ValidTaskKind. by rewrite orb_true_iff, !bool_decide_eq_true. Qed.

(** A percentage the rest of the system accepts: a number in [0, 100]. *)
Definition percent (x : float64) : Prop :=
  IsNaN x = false ∧ f_le f_zero x = true ∧ f_le x f_hundred = true.

(** [ClampPercent] always returns a percentage, and leaves a percentage as it is. *)
Lemma ClampPercent_percent value : percent (ClampPercent value).
Proof.
  unfold ClampPercent, percent.
  destruct (IsNaN value) eqn:HN; [done|]. destruct (IsInf value) eqn:HI; [done|]. simpl.
  destruct (f_lt value f_zero) eqn:H0; [done|].
  destruct (f_lt f_hundred value) eqn:H1; [done|].
  split_and!; [done|by apply f_lt_false_le..].
Qed.

Lemma ClampPercent_id value : percent value → ClampPercent value = value.
Proof.
  intros (HN & H0 & H1). unfold ClampPercent. rewrite HN.
  assert (IsInf value = false) as -> by (destruct value as [|[]| |]; done).
  by rewrite (f_le_lt_false _ _ H0), (f_le_lt_false _ _ H1).
Qed.
