(* ===== verification/Limiter.v ===== *)
(** * internal/server: the fixed-window rate limiter

    [fixedWindowLimiter] of [server.go].  The mutex makes every [Allow] one
    atomic step, so a concurrent execution is some sequence of calls.  A handler reads
    the clock before it takes the mutex (server.go:284 and 326), so a call may
    carry an earlier time than the call before it: [setbacks] counts those, and
    the rate bound is about all sequences.  The refinement of the limiter
    without pruning is about clocks that do not go backwards. *)

From S2P Require Import Prelude GoTime.

Record fixedWindowEntry := mkEntry { start : Time; count : Z }.

#[global] Instance fixedWindowEntry_eq_dec : EqDecision fixedWindowEntry.
Proof. solve_decision. Defined.

Record fixedWindowLimiter := mkLimiter {
  window : Duration;
  entries : gmap string fixedWindowEntry
}.

Definition newFixedWindowLimiter (window : Duration) : fixedWindowLimiter :=
  mkLimiter window ∅.

(** [prune] drops the entries of windows that ended at least one window ago,
    and those that start in the future, once the table has 4096 entries. *)
Definition pruned (w : Duration) (now : Time) (e : fixedWindowEntry) : bool :=
  (2 * w <=? Sub now (start e)) || Before now (start e).

Definition prune (l : fixedWindowLimiter) (now : Time) : fixedWindowLimiter :=
  if Z.of_nat (size (entries l)) <? 4096 then l
  else mkLimiter (window l)
         (filter (λ kv : string * fixedWindowEntry, pruned (window l) now kv.2 = false) (entries l)).

(** An entry whose window is over, or that a clock set back left in the
    future, is replaced by a new window. *)
Definition expired (w : Duration) (now : Time) (e : fixedWindowEntry) : bool :=
  (w <=? Sub now (start e)) || Before now (start e).

Definition Allow (l : fixedWindowLimiter) (key : string) (now : Time) (limit : Z)
    : (bool * Duration) * fixedWindowLimiter :=
  let fresh :=
    ((true, 0), prune (mkLimiter (window l) (<[key := mkEntry now 1]> (entries l))) now) in
  match entries l !! key with
  | None => fresh
  | Some entry =>
    if expired (window l) now entry then fresh
    else if limit <=? count entry
    then ((false, Sub (Add (start entry) (window l)) now), l)
    else ((true, 0), mkLimiter (window l) (<[key := mkEntry (start entry) (count entry + 1)]> (entries l)))
  end.

(** The [Retry-After] header of a refused request:
    [max(1, int(math.Ceil(retryAfter.Seconds())))], the ceiling being exact on
    the durations a one-minute window produces. *)
Definition retryAfterSeconds (d : Duration) : Z := Z.max 1 ((d + (Second - 1)) / Second).

(** ** Sequences of calls *)

Record call := mkCall { c_key : string; c_now : Time; c_limit : Z }.

(** Run a sequence of calls; the answers come in call order. *)
Fixpoint runCalls (l : fixedWindowLimiter) (cs : list call) : list bool * fixedWindowLimiter :=
  match cs with
  | [] => ([], l)
  | c :: cs =>
    let '((ok, _), l') := Allow l (c_key c) (c_now c) (c_limit c) in
    let '(oks, l'') := runCalls l' cs in
    (ok :: oks, l'')
  end.

(** The number of granted calls for one key. *)
Fixpoint granted (key : string) (l : fixedWindowLimiter) (cs : list call) : Z :=
  match cs with
  | [] => 0
  | c :: cs =>
    let '((ok, _), l') := Allow l (c_key c) (c_now c) (c_limit c) in
    (if ok && bool_decide (c_key c = key) then 1 else 0) + granted key l' cs
  end.

(** A clock that does not go backwards. *)
Fixpoint clock_ok (t : Time) (cs : list call) : Prop :=
  match cs with [] => True | c :: cs => t <= c_now c ∧ clock_ok (c_now c) cs end.

(** The calls whose time is before the latest time of a call before them;
    [t] is the latest time so far. *)
Fixpoint setbacks (t : Time) (cs : list call) : Z :=
  match cs with
  | [] => 0
  | c :: cs => if c_now c <? t then 1 + setbacks t cs else setbacks (c_now c) cs
  end.

Lemma setbacks_nonneg t cs : 0 <= setbacks t cs.
Proof. revert t. induction cs as [|c cs IH]; intros t; simpl; [lia|]. case_match; [specialize (IH t); lia|apply IH]. Qed.

Lemma clock_ok_setbacks t cs : clock_ok t cs ↔ Forall (λ c, t <= c_now c) cs ∧ setbacks t cs = 0.
Proof.
  revert t. induction cs as [|c cs IH]; intros t; simpl; [naive_solver|].
  rewrite IH, Forall_cons. destruct (Z.ltb_spec (c_now c) t).
  - pose proof (setbacks_nonneg t cs). lia.
  - split; [|intros [[_ Hcs] H0]; split_and!; [lia| |done]].
    + intros (_ & Hcs & H0). split_and!; [lia| |done]. eapply Forall_impl; [exact Hcs|]. simpl. lia.
    + clear -H0. revert H0. generalize (c_now c). induction cs as [|d cs IH]; intros u; simpl; [by constructor|].
      destruct (Z.ltb_spec (c_now d) u).
      * pose proof (setbacks_nonneg u cs). lia.
      * intros H0. constructor; [lia|]. eapply Forall_impl; [by apply IH|]. simpl. lia.
Qed.

(** Windows the system uses: positive and small enough for [2 * window] to be
    an [int64]. *)
Definition sane_window (w : Duration) : Prop := 0 < w ∧ 2 * w < max_int64.

Section lemmas.
Context (w : Duration) (Hw : sane_window w).
Implicit Types (l : fixedWindowLimiter) (now : Time) (e : fixedWindowEntry).

Lemma expired_false now e :
  expired w now e = false ↔ start e <= now ∧ now < start e + w.
Proof.
  unfold expired. rewrite orb_false_iff, Before_false, Z.leb_gt.
  pose proof (Sub_ge now (start e) w) as Hs.
  pose proof Hw as [? ?]; unfold in_int64, min_int64, max_int64 in *. lia.
Qed.

Lemma expired_true now e :
  expired w now e = true ↔ now < start e ∨ start e + w <= now.
Proof. rewrite <-not_false_iff_true, expired_false. lia. Qed.

Lemma pruned_true now e :
  pruned w now e = true ↔ now < start e ∨ start e + 2 * w <= now.
Proof.
  unfold pruned. rewrite orb_true_iff, Before_true, Z.leb_le.
  pose proof (Sub_ge now (start e) (2 * w)) as Hs.
  pose proof Hw as [? ?]; unfold in_int64, min_int64, max_int64 in *. lia.
Qed.

Lemma pruned_expired now e : pruned w now e = true → expired w now e = true.
Proof. rewrite pruned_true, expired_true. pose proof Hw as [? ?]; lia. Qed.

Lemma prune_window l now : window (prune l now) = window l.
Proof. unfold prune. by case_match. Qed.

(** Pruning only removes prunable entries. *)
Lemma prune_lookup l now k :
  window l = w →
  entries (prune l now) !! k = entries l !! k ∨
  (entries (prune l now) !! k = None ∧
   ∃ e, entries l !! k = Some e ∧ pruned w now e = true).
Proof.
  intros Hl. unfold prune. case_match; [by left|]. simpl.
  destruct (entries l !! k) as [e|] eqn:E.
  - destruct (pruned (window l) now e) eqn:P.
    + right. split; [|exists e; by rewrite <-Hl].
      apply map_lookup_filter_None. right.
      intros x Hx. rewrite E in Hx. injection Hx as <-. simpl. by rewrite P.
    + left. by apply map_lookup_filter_Some.
  - left. apply map_lookup_filter_None. by left.
Qed.

Lemma Allow_window l k now limit : window (Allow l k now limit).2 = window l.
Proof.
  unfold Allow. destruct (entries l !! k) as [e|]; simpl; [|by rewrite prune_window].
  destruct (expired _ _ _); simpl; [by rewrite prune_window|].
  by destruct (limit <=? count e).
Qed.

(** The four outcomes of a call. *)
Inductive outcome l k now limit : (bool * Duration) * fixedWindowLimiter → Prop :=
| fresh_window l' :
    match entries l !! k with None => True | Some e => expired w now e = true end →
    l' = prune (mkLimiter w (<[k := mkEntry now 1]> (entries l))) now →
    outcome l k now limit ((true, 0), l')
| same_window e :
    entries l !! k = Some e → expired w now e = false → count e < limit →
    outcome l k now limit
      ((true, 0), mkLimiter w (<[k := mkEntry (start e) (count e + 1)]> (entries l)))
| refused e d :
    entries l !! k = Some e → expired w now e = false → limit <= count e →
    d = start e + w - now →
    outcome l k now limit ((false, d), l).

Lemma Allow_outcome l k now limit :
  window l = w → outcome l k now limit (Allow l k now limit).
Proof.
  intros Hl. unfold Allow. rewrite Hl.
  destruct (entries l !! k) as [e|] eqn:E; [|apply fresh_window; by rewrite ?E].
  destruct (expired w now e) eqn:X; [apply fresh_window; by rewrite ?E|].
  destruct (limit <=? count e) eqn:C; breflect.
  - apply (refused _ _ _ _ e); try done.
    apply expired_false in X. unfold Add. apply Sub_exact.
    pose proof Hw as [? ?]; unfold in_int64, min_int64, max_int64 in *. lia.
  - apply same_window; done.
Qed.

Lemma prune_self l now k e :
  window l = w → entries l !! k = Some e → start e = now →
  entries (prune l now) !! k = Some e.
Proof.
  intros Hl Hk He. destruct (prune_lookup l now k Hl) as [->|(_ & e' & Hk' & P)]; [done|].
  rewrite Hk in Hk'. injection Hk' as <-. apply pruned_true in P. pose proof Hw as [? ?]. lia.
Qed.
End lemmas.

#[export] Hint Resolve Allow_window prune_window : qmon.

(** ** The invariant *)

(** Every entry has granted at least one call. *)
Definition limiter_ok (w : Duration) (l : fixedWindowLimiter) : Prop :=
  window l = w ∧ ∀ k e, entries l !! k = Some e → 1 <= count e.

Section invariant.
Context (w : Duration) (Hw : sane_window w).
Implicit Types (l : fixedWindowLimiter).

Lemma newFixedWindowLimiter_ok : limiter_ok w (newFixedWindowLimiter w).
Proof. split; [done|]. intros k e He. simpl in He. by rewrite lookup_empty in He. Qed.

Lemma insert_ok l k e :
  limiter_ok w l → 1 <= count e → limiter_ok w (mkLimiter w (<[k := e]> (entries l))).
Proof.
  intros [_ Hl] He. split; [done|]. simpl. intros k' e'.
  rewrite lookup_insert. case_decide; [by intros [= <-]|]. apply Hl.
Qed.

Lemma prune_ok l now : limiter_ok w l → limiter_ok w (prune l now).
Proof.
  intros [Hl Hc]. split; [by rewrite prune_window|]. intros k e He.
  destruct (prune_lookup w l now k Hl) as [E|[E _]]; rewrite He in E; [|done].
  apply (Hc k e). by rewrite E.
Qed.

Lemma Allow_ok l k now limit : limiter_ok w l → limiter_ok w (Allow l k now limit).2.
Proof.
  intros Hl. destruct (Allow_outcome w Hw l k now limit) as [l' _ ->|e E _ _|e d _ _ _ _];
    simpl; [apply Hl|..|done].
  - apply prune_ok, insert_ok; [done|simpl; lia].
  - apply insert_ok; [done|]. simpl. destruct Hl as [_ Hl]. specialize (Hl _ _ E). lia.
Qed.
End invariant.

#[export] Hint Resolve newFixedWindowLimiter_ok Allow_ok : qmon.

(** ** The rate bound *)

Section rate.
Context (w : Duration) (Hw : sane_window w) (k : string) (L : Z) (HL : 1 <= L) (a : Time).
Implicit Types (l : fixedWindowLimiter) (now : Time).

(** How many more calls of key [k] can be granted before [a + w]. *)
Definition pot (now : Time) (l : fixedWindowLimiter) : Z :=
  match entries l !! k with
  | None => L
  | Some e =>
    if now <? start e then L
    else if a <=? start e then Z.max 0 (L - count e)
    else L + Z.max 0 (L - count e)
  end.

Lemma pot_later now now' l :
  limiter_ok w l → a <= now <= now' → pot now' l <= pot now l.
Proof.
  intros [_ Hc] Ht. unfold pot. destruct (entries l !! k) as [e|] eqn:E; [|lia].
  specialize (Hc _ _ E).
  destruct (Z.ltb_spec now' (start e)), (Z.ltb_spec now (start e)), (Z.leb_spec a (start e)); lia.
Qed.

Lemma pot_start now l : limiter_ok w l → pot now l <= 2 * L - 1.
Proof.
  intros [_ Hc]. unfold pot. destruct (entries l !! k) as [e|] eqn:E; [|lia].
  specialize (Hc _ _ E). destruct (now <? start e), (a <=? start e); lia.
Qed.

Lemma pot_nonneg now l : 0 <= pot now l.
Proof. unfold pot. repeat case_match; lia. Qed.

(** Pruning and calls of other keys do not raise the potential. *)
Lemma pot_prune now l :
  window l = w → a <= now < a + w → pot now (prune l now) <= pot now l.
Proof.
  intros Hl Ht. unfold pot.
  destruct (prune_lookup w l now k Hl) as [->|(-> & e & -> & P)]; [done|].
  apply (pruned_true w Hw) in P. pose proof Hw as [? ?].
  destruct (Z.ltb_spec now (start e)), (Z.leb_spec a (start e)); lia.
Qed.

Lemma pot_insert_ne now l k' e :
  k' ≠ k → pot now (mkLimiter w (<[k' := e]> (entries l))) = pot now l.
Proof. intros Hk. unfold pot. simpl. by rewrite lookup_insert_ne. Qed.

Lemma pot_step l k' now limit :
  limiter_ok w l → a <= now < a + w → (k' = k → limit <= L) →
  let '((ok, _), l') := Allow l k' now limit in
  (if ok && bool_decide (k' = k) then 1 else 0) + pot now l' <= pot now l.
Proof.
  intros [Hl Hc] Ht Hlim. pose proof Hw as [? ?].
  destruct (Allow_outcome w Hw l k' now limit Hl) as [l' Hf ->|e E X C|e d E X C _].
  - assert (pot now (prune (mkLimiter w (<[k':=mkEntry now 1]> (entries l))) now) <=
            pot now (mkLimiter w (<[k':=mkEntry now 1]> (entries l)))) as Hp
      by by apply pot_prune.
    case_bool_decide as Hk; simpl in *; [|by rewrite (pot_insert_ne now l) in Hp].
    subst k'. unfold pot in Hp at 2. simpl in Hp. rewrite lookup_insert_eq in Hp. simpl in Hp.
    unfold pot at 2. destruct (entries l !! k) as [e|]; simpl in *.
    + apply (expired_true w Hw) in Hf.
      destruct (Z.ltb_spec now now), (Z.leb_spec a now), (Z.ltb_spec now (start e)),
        (Z.leb_spec a (start e)); lia.
    + destruct (Z.ltb_spec now now), (Z.leb_spec a now); lia.
  - simpl. case_bool_decide as Hk; [|by rewrite pot_insert_ne]. subst k'.
    apply (expired_false w Hw) in X. specialize (Hlim eq_refl).
    unfold pot. simpl. rewrite lookup_insert_eq, E. simpl.
    destruct (Z.ltb_spec now (start e)), (Z.leb_spec a (start e)); lia.
  - simpl. lia.
Qed.

(** A call with a time [now] before the latest time [M] may open a window once
    more: it costs at most [L]. *)
Lemma pot_setback l k' now M limit :
  limiter_ok w l → a <= now < M → now < a + w → (k' = k → limit <= L) →
  let '((ok, _), l') := Allow l k' now limit in
  (if ok && bool_decide (k' = k) then 1 else 0) + pot M l' <= L + pot M l.
Proof.
  intros [Hl Hc] Ht Hn Hlim. pose proof Hw as [? ?].
  destruct (Allow_outcome w Hw l k' now limit Hl) as [l' Hf ->|e E X C|e d E X C _].
  - destruct (bool_decide_reflect (k' = k)) as [->|Hk]; cbn [andb].
    + pose proof (prune_self w Hw (mkLimiter w (<[k := mkEntry now 1]> (entries l))) now k (mkEntry now 1) eq_refl
        (lookup_insert_eq _ _ _) eq_refl) as Hself.
      unfold pot at 1. rewrite Hself. cbn [start count]. pose proof (pot_nonneg M l).
      destruct (Z.ltb_spec M now), (Z.leb_spec a now); lia.
    + destruct (prune_lookup w (mkLimiter w (<[k' := mkEntry now 1]> (entries l))) now k eq_refl) as [E|[E _]];
        unfold pot; rewrite E; [|repeat case_match; lia].
      cbn [entries]. rewrite lookup_insert_ne by done. repeat case_match; lia.
  - destruct (bool_decide_reflect (k' = k)) as [->|Hk]; cbn [andb]; [|rewrite pot_insert_ne by done; lia].
    specialize (Hlim eq_refl). unfold pot. cbn [entries]. rewrite lookup_insert_eq, E. cbn [start count].
    repeat case_match; lia.
  - cbn [andb]. lia.
Qed.

Lemma granted_le_pot cs M l :
  limiter_ok w l → a <= M < a + w →
  Forall (λ c, a <= c_now c < a + w ∧ (c_key c = k → c_limit c <= L)) cs →
  granted k l cs <= pot M l + L * setbacks M cs.
Proof.
  revert M l. induction cs as [|c cs IH]; intros M l Hl Hn Hcs; simpl.
  { pose proof (pot_nonneg M l). lia. }
  apply Forall_cons in Hcs as [[Hlt Hlim] Hcs].
  pose proof (pot_step l (c_key c) (c_now c) (c_limit c) Hl Hlt Hlim) as Hstep.
  pose proof (pot_setback l (c_key c) (c_now c) M (c_limit c) Hl) as Hback.
  pose proof (Allow_ok w Hw l (c_key c) (c_now c) (c_limit c) Hl) as Hl'.
  destruct (Allow l (c_key c) (c_now c) (c_limit c)) as [[ok d] l']. simpl in Hl'.
  destruct (Z.ltb_spec (c_now c) M) as [Hlate|Hlate].
  - specialize (IH M l' Hl' Hn Hcs). specialize (Hback ltac:(lia) ltac:(lia) Hlim). lia.
  - specialize (IH (c_now c) l' Hl' Hlt Hcs). pose proof (pot_later M (c_now c) l Hl ltac:(lia)). lia.
Qed.
End rate.

(** ** Reference limiter

    [AllowRef] is the limiter without [prune]: the table only grows.  It is
    the specification the pruning limiter implements. *)

Definition AllowRef (l : fixedWindowLimiter) (key : string) (now : Time) (limit : Z)
    : (bool * Duration) * fixedWindowLimiter :=
  let fresh := ((true, 0), mkLimiter (window l) (<[key := mkEntry now 1]> (entries l))) in
  match entries l !! key with
  | None => fresh
  | Some entry =>
    if expired (window l) now entry then fresh
    else if limit <=? count entry
    then ((false, Sub (Add (start entry) (window l)) now), l)
    else ((true, 0), mkLimiter (window l) (<[key := mkEntry (start entry) (count entry + 1)]> (entries l)))
  end.

(** Run a sequence of calls on a limiter given by its [Allow]. *)
Fixpoint answers (allow : fixedWindowLimiter → string → Time → Z → (bool * Duration) * fixedWindowLimiter)
    (l : fixedWindowLimiter) (cs : list call) : list (bool * Duration) :=
  match cs with
  | [] => []
  | c :: cs =>
    let '(r, l') := allow l (c_key c) (c_now c) (c_limit c) in r :: answers allow l' cs
  end.

Section refinement.
Context (w : Duration) (Hw : sane_window w).

(** The simulation: the tables agree except on entries whose window is over
    and that therefore count as absent from [now] on; no window starts after
    [now]. *)
Definition sim (now : Time) (l r : fixedWindowLimiter) : Prop :=
  window l = w ∧ window r = w ∧
  ∀ k, (∀ e, entries r !! k = Some e → start e <= now) ∧
    (entries l !! k = entries r !! k ∨
     (entries l !! k = None ∧ ∃ e, entries r !! k = Some e ∧ start e + w <= now)).

Lemma sim_insert now l r k e :
  sim now l r → start e <= now →
  sim now (mkLimiter w (<[k := e]> (entries l))) (mkLimiter w (<[k := e]> (entries r))).
Proof.
  intros (_ & _ & Hs) He. split_and!; [done..|]. intros k'. simpl.
  destruct (decide (k = k')) as [->|Hk].
  - rewrite !lookup_insert_eq. split; [by intros ? [= <-]|by left].
  - rewrite !lookup_insert_ne by done. apply Hs.
Qed.

Lemma sim_prune now l r : sim now l r → sim now (prune l now) r.
Proof.
  intros (Hl & Hr & Hs). split_and!; [by rewrite prune_window|done|]. intros k.
  destruct (Hs k) as [Hfut Hk]. split; [done|].
  destruct (prune_lookup w l now k Hl) as [->|(-> & e & E & P)]; [done|].
  right. split; [done|]. rewrite E in Hk. destruct Hk as [Hk|[? _]]; [|done].
  exists e. split; [by rewrite Hk|]. symmetry in Hk. specialize (Hfut _ Hk).
  apply (pruned_true w Hw) in P. pose proof Hw as [? ?]. lia.
Qed.

Lemma sim_later now now' l r : now <= now' → sim now l r → sim now' l r.
Proof.
  intros Hn (Hl & Hr & Hs). split_and!; [done..|]. intros k. destruct (Hs k) as [H1 H2]. split.
  - intros e He. specialize (H1 e He). lia.
  - destruct H2 as [?|(? & e & ? & ?)]; [by left|]. right. split; [done|]. exists e. split; [done|lia].
Qed.

Lemma sim_step now l r k limit :
  sim now l r →
  (Allow l k now limit).1 = (AllowRef r k now limit).1 ∧
  sim now (Allow l k now limit).2 (AllowRef r k now limit).2.
Proof.
  intros Hs. pose proof Hs as (Hl & Hr & Hk). destruct (Hk k) as [_ Heq].
  assert (Hfresh : sim now (prune (mkLimiter w (<[k:=mkEntry now 1]> (entries l))) now)
                    (mkLimiter w (<[k:=mkEntry now 1]> (entries r)))).
  { apply sim_prune, sim_insert; [done|simpl; lia]. }
  unfold Allow, AllowRef. rewrite Hl, Hr.
  destruct Heq as [->|(-> & e & -> & He)].
  - destruct (entries r !! k) as [e|] eqn:E; [|done].
    destruct (expired w now e) eqn:X; [done|].
    destruct (limit <=? count e); [done|]. split; [done|].
    apply sim_insert; [done|]. simpl. apply (expired_false w Hw) in X. lia.
  - assert (expired w now e = true) as -> by (apply (expired_true w Hw); lia). done.
Qed.

Lemma sim_answers now l r cs :
  sim now l r → clock_ok now cs → answers Allow l cs = answers AllowRef r cs.
Proof.
  revert now l r. induction cs as [|c cs IH]; intros now l r Hs Hc; simpl; [done|].
  destruct Hc as [Hcn Hc]. apply (sim_later _ (c_now c)) in Hs; [|done].
  destruct (sim_step _ _ _ (c_key c) (c_limit c) Hs) as [H1 H2].
  destruct (Allow l _ _ _) as [x l'], (AllowRef r _ _ _) as [y r']. simpl in *. subst y.
  f_equal. by apply (IH (c_now c)).
Qed.

Lemma sim_new now : sim now (newFixedWindowLimiter w) (newFixedWindowLimiter w).
Proof. split_and!; [done..|]. intros k. simpl. split; [done|by left]. Qed.
End refinement.

(** ** Properties *)


Definition demo_calls : list call :=
  [mkCall "k" 0 2; mkCall "j" 1 2; mkCall "k" 2 2; mkCall "k" 3 2].

(** Out of order, a limit of one call per minute grants three in three
    nanoseconds: the bound with two set-backs, and more than [2 * L - 1]. *)
Definition late_calls : list call := [mkCall "k" 5 1; mkCall "k" 4 1; mkCall "k" 3 1].

Example late_calls_granted :
  granted "k" (newFixedWindowLimiter Minute) late_calls = 3 ∧ setbacks 3 late_calls = 2.
Proof. split; vm_compute; reflexivity. Qed.


(** Pruning is invisible: from an empty table and on a clock that does not
    go backwards, the limiter answers every sequence of calls (permission and
    retry delay) exactly as the reference limiter that never prunes. *)
Theorem Allow_refines_reference (w : Duration) (t0 : Time) (cs : list call)
    (Hw : sane_window w) (Hclock : clock_ok t0 cs) :
  answers Allow (newFixedWindowLimiter w) cs = answers AllowRef (newFixedWindowLimiter w) cs.
Proof. apply (sim_answers w Hw t0); [apply sim_new|done]. Qed.

Lemma Allow_refines_reference_witness :
  answers Allow (newFixedWindowLimiter Minute) demo_calls =
  answers AllowRef (newFixedWindowLimiter Minute) demo_calls.
Proof.
  apply (Allow_refines_reference Minute 0 demo_calls); [split; vm_compute; reflexivity|simpl; lia].
Defined.

(** The retry delay is exact: a refused call carries a positive delay of at
    most one window; repeating the call any earlier is refused again and
    leaves the table unchanged; waiting the delay, or the whole seconds sent in
    the Retry-After header, gets the call granted. *)
Theorem Allow_retry_after (w : Duration) (l l' : fixedWindowLimiter) (k : string)
    (now : Time) (limit : Z) (d : Duration)
    (Hw : sane_window w) (Hl : window l = w)
    (Hrefused : Allow l k now limit = ((false, d), l')) :
  l' = l ∧ 0 < d <= w ∧ d <= Second * retryAfterSeconds d ∧
  (∀ t, now <= t < now + d → (Allow l k t limit).1 = (false, now + d - t) ∧ (Allow l k t limit).2 = l) ∧
  (∀ t, now + d <= t → (Allow l k t limit).1 = (true, 0)).
Proof.
  subst w. pose proof (Allow_outcome _ Hw l k now limit eq_refl) as Ho. rewrite Hrefused in Ho.
  assert (l' = l) as -> by (by inversion Ho).
  inversion Ho as [| |e d' E X C Hd]; subst d d'; clear Ho.
  pose proof Hw as [Hw1 Hw2]. apply (expired_false _ Hw) in X as [X1 X2].
  split_and!; [done|lia..| | |].
  - unfold retryAfterSeconds, Second.
    pose proof (Z.mul_succ_div_gt (start e + window l - now + (1000000000 - 1)) 1000000000). lia.
  - intros t Ht. unfold Allow. rewrite E.
    assert (expired (window l) t e = false) as -> by (apply (expired_false _ Hw); lia).
    assert ((limit <=? count e) = true) as -> by (apply Z.leb_le; lia). simpl. split; [|done].
    f_equal. unfold Add. rewrite Sub_exact; [lia|].
    unfold in_int64, min_int64, max_int64 in *. lia.
  - intros t Ht. unfold Allow. rewrite E.
    by assert (expired (window l) t e = true) as -> by (apply (expired_true _ Hw); lia).
Qed.

Lemma Allow_retry_after_witness :
  let l := mkLimiter Minute {["k" := mkEntry 0 2]} in
  Allow l "k" (10 * Second) 2 = ((false, 50 * Second), l) ∧
  (∀ t, 10 * Second + 50 * Second <= t → (Allow l "k" t 2).1 = (true, 0)).
Proof.
  intros l. assert (Allow l "k" (10 * Second) 2 = ((false, 50 * Second), l)) as H
    by (vm_compute; reflexivity).
  split; [exact H|].
  apply (Allow_retry_after Minute l l "k" (10 * Second) 2 (50 * Second));
    [split; vm_compute; reflexivity|reflexivity|exact H].
Defined.
