(* ===== verification/HookEvent.v ===== *)
(** * internal/hooks: the normalized hook event

    The [Event] of [event.go], the canonical event names, the opaque
    identifiers and [ParseEvent], on the decoded payload of the provider.  The
    HTTP forwarder is in [HookServer]. *)

From S2P Require Import Prelude GoTime GoText GoDate GoFloat Json Digest Model.

Record Event := mkEvent {
  ev_Provider : ProviderName;
  ev_Name : string;
  ev_SessionID : string;
  ev_TaskID : string;
  ev_At : Time;
  ev_Probe : bool
}.

#[global] Instance Event_eq_dec : EqDecision Event.
Proof. solve_decision. Defined.

(** [strings.NewReplacer("_", "", "-", "", " ", "").Replace]. *)
Fixpoint strip_separators (s : string) : string :=
  match s with
  | EmptyString => EmptyString
  | String a s =>
    if bool_decide (a ∈ ["_"; "-"; " "]%char) then strip_separators s
    else String a (strip_separators s)
  end.

Definition canonicalEventName (value : string) : string :=
  let compact := strip_separators (ToLower (TrimSpace value)) in
  if bool_decide (compact = "userpromptsubmit") then "UserPromptSubmit"
  else if bool_decide (compact = "stop") then "Stop"
  else if bool_decide (compact = "stopfailure") then "StopFailure"
  else if bool_decide (compact = "sessionend") then "SessionEnd"
  else if bool_decide (compact = "subagentstart") then "SubagentStart"
  else if bool_decide (compact = "subagentstop") then "SubagentStop"
  else if bool_decide (compact = "posttooluse") then "PostToolUse"
  else "".

(** The first 16 bytes of SHA-256(provider, NUL, raw), in hexadecimal. *)
Definition opaqueID (provider : ProviderName) (raw : string) : string :=
  hex_encode (Stdlib.Strings.String.substring 0 16 (Sum256 (provider +:+ nul +:+ raw))).

(** ** ParseEvent *)

Inductive HookError := BadProvider | PayloadNotObject | NoEventName | NoSession.

#[global] Instance HookError_eq_dec : EqDecision HookError.
Proof. solve_decision. Defined.

Fixpoint firstString (object : list (string * json)) (keys : list string) : string :=
  match keys with
  | [] => ""
  | key :: keys =>
    match field object key with
    | Some (JString value) => if bool_decide (value = "") then firstString object keys else value
    | _ => firstString object keys
    end
  end.

(** The first of the keys that holds a timestamp. *)
Fixpoint firstTime (object : list (string * json)) (keys : list string) : option Time :=
  match keys with
  | [] => None
  | key :: keys =>
    match field object key with
    | Some (JString text) => match ParseRFC3339 text with Some t => Some t | None => firstTime object keys end
    | _ => firstTime object keys
    end
  end.

Definition nestedTaskID (raw : list (string * json)) : string :=
  match field raw "agent" with Some (JObject input) => firstString input ["id"; "agent_id"; "agentId"] | _ => "" end.

(** [payload] is [None] when it is not JSON, and JSON's null is the nil map.
    [probing] is [IsProbeEnvironment]. *)
Definition ParseEvent (provider : ProviderName) (overrideName : string) (payload : option json) (now : Time)
    (probing : bool) : result HookError Event :=
  _ ← refuse (negb (bool_decide (provider = ProviderCodex)) && negb (bool_decide (provider = ProviderClaude))) BadProvider;
  raw ← match payload with Some (JObject raw) => Ok raw | Some JNull => Ok [] | _ => Err PayloadNotObject end;
  let name := canonicalEventName
    (if bool_decide (overrideName = "")
     then firstString raw ["hook_event_name"; "hookEventName"; "event_name"; "eventName"; "event"] else overrideName) in
  _ ← refuse (bool_decide (name = "")) NoEventName;
  let rawSessionID := firstString raw ["session_id"; "sessionId"; "conversation_id"; "conversationId"; "thread_id"; "threadId"] in
  _ ← refuse (bool_decide (rawSessionID = "")) NoSession;
  let rawTaskID := firstString raw ["agent_id"; "agentId"; "subagent_id"; "subagentId"; "task_id"; "taskId"] in
  let rawTaskID := if bool_decide (rawTaskID = "") then nestedTaskID raw else rawTaskID in
  Ok (mkEvent provider name (opaqueID provider rawSessionID)
        (if bool_decide (rawTaskID = "") then "" else opaqueID provider rawTaskID)
        (default now (firstTime raw ["timestamp"; "at"; "created_at"; "createdAt"]))
        (match field raw "quota_monitor_probe" with Some (JBool b) => b | _ => false end || probing)).

Lemma length_hex s :
  Stdlib.Strings.String.length (hex_encode s) = (2 * Stdlib.Strings.String.length s)%nat.
Proof. induction s as [|a s IH]; [done|]. cbn -[Nat.mul]. rewrite IH. lia. Qed.

Example canonical_names :
  map canonicalEventName [" user_prompt-Submit "; "STOP"; "Sub Agent Stop"; "other"] =
  ["UserPromptSubmit"; "Stop"; "SubagentStop"; ""].
Proof. vm_compute. reflexivity. Qed.

Example opaqueID_len : len (opaqueID "codex" "abc") = 32.
Proof. vm_compute. reflexivity. Qed.
