(* ===== verification/HookConfig.v ===== *)
(** * internal/hooks: the managed entries of the provider configurations

    [mergeManagedHooks], [removeManagedHooks], [filterManagedGroups],
    [isManagedValue] and the command quoting of [install.go], on decoded JSON
    objects.  Go's maps are lists of fields with distinct keys; an assignment
    replaces a field or adds one at the end. *)

From S2P Require Import Prelude GoText GoFloat Json.

Definition ManagedMarker : string := "quota-monitor-managed-v1".

Definition codexEvents : list string :=
  ["UserPromptSubmit"; "Stop"; "SessionEnd"; "SubagentStart"; "SubagentStop"; "PostToolUse"].
Definition claudeEvents : list string :=
  ["UserPromptSubmit"; "Stop"; "StopFailure"; "SessionEnd"; "SubagentStart"; "SubagentStop"; "PostToolUse"].

(** ** Maps *)

(** [object[key] = value] and [delete(object, key)]. *)
Fixpoint setField (fields : list (string * json)) (key : string) (value : json) : list (string * json) :=
  match fields with
  | [] => [(key, value)]
  | (k, v) :: fields => if bool_decide (k = key) then (k, value) :: fields else (k, v) :: setField fields key value
  end.
Definition delField (fields : list (string * json)) (key : string) : list (string * json) :=
  filter (λ kv : string * json, kv.1 ≠ key) fields.

(** ** Managed values *)

(** [json.Marshal(value)] contains the marker: some key or string does, since
    the marker has no character that the encoder escapes, and no escape
    sequence ends in its first letter. *)
Fixpoint isManagedValue (value : json) : bool :=
  match value with
  | JString s => Contains s ManagedMarker
  | JArray children =>
    (fix go (children : list json) : bool :=
       match children with [] => false | child :: children => isManagedValue child || go children end) children
  | JObject fields =>
    (fix go (fields : list (string * json)) : bool :=
       match fields with
       | [] => false
       | (key, child) :: fields => Contains key ManagedMarker || isManagedValue child || go fields
       end) fields
  | _ => false
  end.

(** One group of the loop of [filterManagedGroups]: what is kept of it, and
    whether a command was removed. *)
Definition filterGroup (rawGroup : json) : option json * bool :=
  match rawGroup with
  | JObject group =>
    match field group "hooks" with
    | Some (JArray rawCommands) =>
      let commands := filter (λ c, isManagedValue c = false) rawCommands in
      (match commands with [] => None | _ => Some (JObject (setField group "hooks" (JArray commands))) end,
       existsb isManagedValue rawCommands)
    | _ => (Some rawGroup, false)
    end
  | _ => (Some rawGroup, false)
  end.

Definition filterManagedGroups (groups : list json) : list json * bool :=
  (omap (λ g, (filterGroup g).1) groups, existsb (λ g, (filterGroup g).2) groups).

Definition managedGroup (command : string) : json :=
  JObject [("hooks", JArray [JObject [("type", JString "command"); ("command", JString command);
                                      ("timeout", JNumber (f_of_Z 5))]])].

Definition groupsOf (hooksObject : list (string * json)) (event : string) : list json :=
  match field hooksObject event with Some (JArray groups) => groups | _ => [] end.

Definition mergeEvent (command : string) (hooksObject : list (string * json)) (event : string) : list (string * json) :=
  setField hooksObject event
    (JArray ((filterManagedGroups (groupsOf hooksObject event)).1 ++ [managedGroup command])).

Definition hooksOf (root : list (string * json)) : list (string * json) :=
  match field root "hooks" with Some (JObject hooksObject) => hooksObject | _ => [] end.

Definition mergeManagedHooks (root : list (string * json)) (events : list string) (command : string)
    : list (string * json) :=
  setField root "hooks" (JObject (foldl (mergeEvent command) (hooksOf root) events)).

(** One field of the loop of [removeManagedHooks]. *)
Definition removeEvent (kv : string * json) : option (string * json) * bool :=
  match kv.2 with
  | JArray groups =>
    let '(filtered, removed) := filterManagedGroups groups in
    if removed then (match filtered with [] => None | _ => Some (kv.1, JArray filtered) end, true)
    else (Some kv, false)
  | _ => (Some kv, false)
  end.

Definition removeManagedHooks (root : list (string * json)) : list (string * json) * bool :=
  match field root "hooks" with
  | Some (JObject hooksObject) =>
    (setField root "hooks" (JObject (omap (λ kv, (removeEvent kv).1) hooksObject)),
     existsb (λ kv, (removeEvent kv).2) hooksObject)
  | _ => (root, false)
  end.

(** ** Commands *)

(** [strings.ReplaceAll] of one byte. *)
Fixpoint replaceByte (c : ascii) (by_ : string) (s : string) : string :=
  match s with
  | EmptyString => EmptyString
  | String a s => if bool_decide (a = c) then by_ +:+ replaceByte c by_ s else String a (replaceByte c by_ s)
  end.

Definition quote : ascii := "'"%char.
Definition dquote : ascii := "034"%char.
Definition backslash : ascii := "\"%char.

Definition shellQuote (targetOS value : string) : string :=
  if bool_decide (targetOS = "windows")
  then String dquote (replaceByte dquote (String backslash (String dquote "")) value) +:+ String dquote ""
  else String quote (replaceByte quote
         (String quote (String dquote (String quote (String dquote (String quote ""))))) value) +:+ String quote "".

Fixpoint joinSpace (l : list string) : string :=
  match l with
  | [] => ""
  | [s] => s
  | s :: l => s +:+ " " +:+ joinSpace l
  end.

Definition managedCommand (targetOS executable : string) (args : list string) : string :=
  joinSpace (shellQuote targetOS <$> executable :: args).

(** The three commands [Install] writes. *)
Definition hookCommand (targetOS executable provider hookURL secretPath : string) : string :=
  managedCommand targetOS executable
    ["hook"; "forward"; "--provider"; provider; "--url"; hookURL; "--secret-file"; secretPath;
     "--managed-by"; ManagedMarker].
Definition statusCommand (targetOS executable hookURL secretPath statePath : string) : string :=
  managedCommand targetOS executable
    ["hook"; "statusline"; "--url"; hookURL; "--secret-file"; secretPath; "--state-file"; statePath;
     "--managed-by"; ManagedMarker].
Definition managedStatusLine (command : string) : json :=
  JObject [("type", JString "command"); ("command", JString command); ("refreshInterval", JNumber (f_of_Z 15))].
