(* ===== verification/HookConfigFacts.v ===== *)
(** * Facts about the managed entries

    Merging is a replacement of what was managed before, removing undoes
    merging, and the commands written are read back by a POSIX shell as the
    very words they were made of. *)

From S2P Require Import Prelude GoText GoTextFacts GoFloat Json HookConfig.

(** ** Fields *)

Implicit Types (fields : list (string * json)) (k e : string) (v : json).

Lemma field_setField fields k v k' :
  field (setField fields k v) k' = if bool_decide (k = k') then Some v else field fields k'.
Proof.
  induction fields as [|[k1 v1] fields IH]; simpl; [by case_bool_decide|].
  destruct (decide (k1 = k)) as [->|Hne].
  - rewrite bool_decide_true by done. simpl. by case_bool_decide.
  - rewrite (bool_decide_false (k1 = k)) by done. simpl. rewrite IH.
    destruct (decide (k1 = k')) as [->|]; [|by rewrite (bool_decide_false (k1 = k'))].
    rewrite (bool_decide_true (k' = k')), (bool_decide_false (k = k')) by congruence. done.
Qed.

Lemma setField_same fields k v : field fields k = Some v → setField fields k v = fields.
Proof.
  induction fields as [|[k1 v1] fields IH]; simpl; [done|]. case_bool_decide; [by intros [= ->]|].
  intros Hf. by rewrite IH.
Qed.

Lemma setField_keys fields k v k' :
  k' ∈ (setField fields k v).*1 → k' = k ∨ k' ∈ fields.*1.
Proof.
  induction fields as [|[k1 v1] fields IH]; simpl; [set_solver|]. case_bool_decide; simpl; set_solver.
Qed.

Lemma setField_NoDup fields k v : NoDup fields.*1 → NoDup (setField fields k v).*1.
Proof.
  induction fields as [|[k1 v1] fields IH]; simpl; [intros _; repeat constructor; set_solver|].
  rewrite NoDup_cons. intros [Hk Hn]. case_bool_decide as E; simpl.
  - by constructor.
  - constructor; [|by apply IH]. intros [->|Hin]%setField_keys; done.
Qed.

Lemma field_None fields k : k ∉ fields.*1 → field fields k = None.
Proof.
  induction fields as [|[k1 v1] fields IH]; simpl; [done|]. intros Hk.
  rewrite bool_decide_false by set_solver. apply IH. set_solver.
Qed.

(** A pass over the fields that keeps their keys. *)
Lemma field_omap (f : string * json → option (string * json)) fields k :
  NoDup fields.*1 → (∀ kv kv', f kv = Some kv' → kv'.1 = kv.1) →
  field (omap f fields) k = v ← field fields k; kv ← f (k, v); Some kv.2.
Proof.
  intros Hn Hf. induction fields as [|[k1 v1] fields IH]; [done|].
  rewrite fmap_cons in Hn. apply NoDup_cons in Hn as [Hk Hn]. simpl in *.
  assert (Hin : ∀ k', k' ∈ (omap f fields).*1 → k' ∈ fields.*1).
  { intros k' (kv' & -> & (kv & Hin & Hkv)%list_elem_of_omap)%list_elem_of_fmap.
    rewrite (Hf _ _ Hkv). by apply list_elem_of_fmap_2. }
  destruct (decide (k1 = k)) as [->|Hne].
  - rewrite (bool_decide_true (k = k)) by done. simpl. destruct (f (k, v1)) as [[k2 v2]|] eqn:E; simpl.
    + pose proof (Hf _ _ E) as Hk2. simpl in Hk2. subst. by rewrite bool_decide_true.
    + apply field_None. by intros ?%Hin.
  - rewrite (bool_decide_false (k1 = k)) by done. destruct (f (k1, v1)) as [[k2 v2]|] eqn:E; simpl; [|by apply IH].
    pose proof (Hf _ _ E) as Hk2. simpl in Hk2. subst. rewrite bool_decide_false by done. by apply IH.
Qed.

(** ** The marker *)

Lemma prefix_app_string s t : Stdlib.Strings.String.prefix s (s +:+ t) = true.
Proof. induction s as [|a s IH]; [by destruct t|]. rewrite str_app_cons. simpl. by destruct (Ascii.ascii_dec a a). Qed.

Lemma Contains_unfold s sub :
  Contains s sub = Stdlib.Strings.String.prefix sub s || match s with EmptyString => false | String _ s' => Contains s' sub end.
Proof. by destruct s. Qed.

Lemma Contains_app s sub t : Contains (s +:+ sub +:+ t) sub = true.
Proof.
  induction s as [|a s IH].
  - change ("" +:+ sub +:+ t) with (sub +:+ t). rewrite Contains_unfold, prefix_app_string. done.
  - rewrite str_app_cons, Contains_unfold. rewrite IH. apply orb_true_r.
Qed.

Lemma joinSpace_last l s t : l ≠ [] → joinSpace (l ++ [s +:+ t]) = (joinSpace l +:+ " ") +:+ s +:+ t.
Proof.
  induction l as [|x [|y l] IH]; intros Hl; [done|by rewrite <-str_app_assoc|].
  cbn [app] in *. cbn [joinSpace]. cbn [joinSpace] in IH. rewrite IH by done. by rewrite <-!str_app_assoc.
Qed.

(** Every managed command carries the marker, whatever the paths are. *)
Lemma managed_command_marked os exe args :
  Contains (managedCommand os exe (args ++ ["--managed-by"; ManagedMarker])) ManagedMarker = true.
Proof.
  assert (Hm : ∃ q1 q2, shellQuote os ManagedMarker = q1 +:+ ManagedMarker +:+ q2).
  { unfold shellQuote. case_bool_decide; [exists (String dquote ""), (String dquote "")|exists (String quote ""), (String quote "")]; reflexivity. }
  destruct Hm as (q1 & q2 & Hm). unfold managedCommand.
  rewrite fmap_cons, fmap_app, fmap_cons, fmap_cons, fmap_nil, Hm.
  replace (shellQuote os exe :: (shellQuote os <$> args) ++ [shellQuote os "--managed-by"; q1 +:+ ManagedMarker +:+ q2])
    with ((shellQuote os exe :: (shellQuote os <$> args) ++ [shellQuote os "--managed-by"]) ++ [q1 +:+ ManagedMarker +:+ q2])
    by (simpl; by rewrite <-app_assoc).
  rewrite joinSpace_last by done. rewrite str_app_assoc. apply Contains_app.
Qed.

Lemma hookCommand_marked os exe p url secret : Contains (hookCommand os exe p url secret) ManagedMarker = true.
Proof. apply (managed_command_marked os exe ["hook"; "forward"; "--provider"; p; "--url"; url; "--secret-file"; secret]). Qed.
Lemma statusCommand_marked os exe url secret state : Contains (statusCommand os exe url secret state) ManagedMarker = true.
Proof. apply (managed_command_marked os exe ["hook"; "statusline"; "--url"; url; "--secret-file"; secret; "--state-file"; state]). Qed.

Lemma managedStatusLine_managed c : Contains c ManagedMarker = true → isManagedValue (managedStatusLine c) = true.
Proof. intros H. unfold managedStatusLine. simpl. by rewrite H, ?orb_true_r. Qed.

(** ** Groups *)

(** A group with neither managed nor missing commands. *)
Definition plain (g : json) : Prop := filterGroup g = (Some g, false).

Lemma filter_plain groups : Forall plain groups → filterManagedGroups groups = (groups, false).
Proof.
  unfold filterManagedGroups, plain. induction 1 as [|g gs Hg _ IH]; [done|].
  injection IH as IH1 IH2. cbn [omap list_omap existsb]. rewrite Hg. cbn [fst snd orb]. by rewrite IH1, IH2.
Qed.

Lemma filter_app g1 g2 :
  filterManagedGroups (g1 ++ g2) =
  ((filterManagedGroups g1).1 ++ (filterManagedGroups g2).1, (filterManagedGroups g1).2 || (filterManagedGroups g2).2).
Proof. unfold filterManagedGroups. simpl. by rewrite omap_app, existsb_app. Qed.

Lemma filter_managed command :
  Contains command ManagedMarker = true → filterManagedGroups [managedGroup command] = ([], true).
Proof.
  intros H.
  assert (Hm : isManagedValue (JObject [("type", JString "command"); ("command", JString command); ("timeout", JNumber (f_of_Z 5))]) = true).
  { simpl. by rewrite H, ?orb_true_r. }
  unfold filterManagedGroups, managedGroup, filterGroup.
  cbn [omap list_omap existsb field]. rewrite (bool_decide_true ("hooks" = "hooks")) by done.
  rewrite filter_cons_False by congruence. rewrite filter_nil. cbn [existsb fst snd]. by rewrite Hm.
Qed.

Lemma filterGroup_plain g g' b : filterGroup g = (Some g', b) → plain g'.
Proof.
  unfold filterGroup, plain. destruct g as [| | | | |group]; try (intros [= <- <-]; done).
  destruct (field group "hooks") as [[| | | |cs|]|] eqn:E; try (intros [= <- <-]; unfold filterGroup; by rewrite E).
  destruct (filter _ cs) as [|c cs'] eqn:Ef; [done|]. intros [= <- <-].
  unfold filterGroup. rewrite field_setField, bool_decide_true by done.
  assert (Hall : Forall (λ c, isManagedValue c = false) (c :: cs')) by (rewrite <-Ef; apply Forall_forall; by intros x [? _]%list_elem_of_filter).
  assert (Hf : filter (λ c, isManagedValue c = false) (c :: cs') = c :: cs').
  { clear -Hall. induction Hall as [|x l Hx _ IH]; [done|]. by rewrite filter_cons_True, IH. }
  assert (He : existsb isManagedValue (c :: cs') = false).
  { clear -Hall. induction Hall as [|x l Hx _ IH]; [done|]. simpl. by rewrite Hx, IH. }
  rewrite Hf, He. do 2 f_equal. f_equal. apply setField_same. rewrite field_setField, bool_decide_true by done. done.
Qed.

(** Filtering once is enough. *)
Lemma filter_result_plain groups : Forall plain (filterManagedGroups groups).1.
Proof.
  unfold filterManagedGroups. simpl. apply Forall_forall. intros g (g0 & _ & H)%list_elem_of_omap.
  destruct (filterGroup g0) as [o b] eqn:E. simpl in H. subst. by eapply filterGroup_plain.
Qed.

(** ** Merging and removing *)

Definition kept (groups : list json) : list json := (filterManagedGroups groups).1.

Lemma groupsOf_setField h e v e' :
  groupsOf (setField h e v) e' =
  if bool_decide (e = e') then match v with JArray groups => groups | _ => [] end else groupsOf h e'.
Proof. unfold groupsOf. rewrite field_setField. by case_bool_decide. Qed.

Lemma merge_field command events h e :
  NoDup events →
  field (foldl (mergeEvent command) h events) e =
  if bool_decide (e ∈ events) then Some (JArray (kept (groupsOf h e) ++ [managedGroup command])) else field h e.
Proof.
  intros Hn. revert h. induction Hn as [|x events Hx Hn IH]; intros h; [done|]. simpl. rewrite IH.
  unfold mergeEvent. rewrite groupsOf_setField, field_setField. fold (kept (groupsOf h x)).
  destruct (decide (x = e)) as [->|Hne].
  - rewrite (bool_decide_false (e ∈ events)) by done. rewrite !bool_decide_true by set_solver. done.
  - rewrite (bool_decide_false (x = e)) by done.
    destruct (decide (e ∈ events)); [rewrite !bool_decide_true by set_solver; done|].
    by rewrite !bool_decide_false by set_solver.
Qed.

Lemma hooksOf_merge root events command :
  hooksOf (mergeManagedHooks root events command) = foldl (mergeEvent command) (hooksOf root) events.
Proof. unfold mergeManagedHooks. unfold hooksOf at 1. rewrite field_setField. by rewrite bool_decide_true. Qed.

Lemma merge_NoDup command events h : NoDup h.*1 → NoDup (foldl (mergeEvent command) h events).*1.
Proof. revert h. induction events as [|e events IH]; intros h Hh; [done|]. simpl. by apply IH, setField_NoDup. Qed.

Lemma kept_managed groups command :
  Contains command ManagedMarker = true →
  filterManagedGroups (kept groups ++ [managedGroup command]) = (kept groups, true).
Proof.
  intros Hc. rewrite filter_app, filter_managed by done.
  rewrite (filter_plain (kept groups)) by apply filter_result_plain. simpl. by rewrite app_nil_r.
Qed.

(** Installing again replaces what was managed and touches nothing else:
    after merging a new command over an old one, each listed event has the
    user's groups (those with an unmanaged command, managed commands taken
    out) in their order followed by one managed group with the new command,
    and every other event and every other field is as it was; so the result is
    the one of merging the new command alone. *)
Theorem Merge_replaces (root : list (string * json)) (events : list string) (old new : string)
    (Hn : NoDup events) (Hold : Contains old ManagedMarker = true) :
  let twice := mergeManagedHooks (mergeManagedHooks root events old) events new in
  let once := mergeManagedHooks root events new in
  (∀ k, k ≠ "hooks" → field twice k = field root k ∧ field once k = field root k) ∧
  (∀ e, field (hooksOf twice) e = field (hooksOf once) e) ∧
  (∀ e, e ∈ events →
     field (hooksOf twice) e = Some (JArray (kept (groupsOf (hooksOf root) e) ++ [managedGroup new]))) ∧
  (∀ e, e ∉ events → field (hooksOf twice) e = field (hooksOf root) e).
Proof.
  simpl. rewrite !hooksOf_merge.
  assert (Ht : ∀ e, field (foldl (mergeEvent new) (foldl (mergeEvent old) (hooksOf root) events) events) e =
    if bool_decide (e ∈ events) then Some (JArray (kept (groupsOf (hooksOf root) e) ++ [managedGroup new]))
    else field (hooksOf root) e).
  { intros e. rewrite merge_field by done. unfold groupsOf at 1. rewrite !merge_field by done.
    case_bool_decide; [|done]. unfold kept at 1. by rewrite kept_managed. }
  split_and!.
  - intros k Hk. unfold mergeManagedHooks. rewrite !field_setField, !bool_decide_false by done. done.
  - intros e. by rewrite Ht, merge_field.
  - intros e He. by rewrite Ht, bool_decide_true.
  - intros e He. by rewrite Ht, bool_decide_false.
Qed.

(** Merging a command again changes nothing. *)
Lemma merge_stable command h events :
  (∀ e, e ∈ events → ∃ groups, field h e = Some (JArray (kept groups ++ [managedGroup command]))) →
  Contains command ManagedMarker = true → foldl (mergeEvent command) h events = h.
Proof.
  intros Hh Hc. induction events as [|e events IH]; [done|]. cbn [foldl].
  destruct (Hh e) as (groups & He); [set_solver|].
  assert (mergeEvent command h e = h) as ->; [|apply IH; intros; apply Hh; set_solver].
  unfold mergeEvent. apply setField_same. unfold groupsOf. rewrite He, kept_managed by done. done.
Qed.

Lemma merge_again root events command h :
  NoDup events → Contains command ManagedMarker = true →
  field root "hooks" = Some (JObject (foldl (mergeEvent command) h events)) →
  mergeManagedHooks root events command = root.
Proof.
  intros Hn Hc Hf. unfold mergeManagedHooks. apply setField_same. unfold hooksOf. rewrite Hf. do 2 f_equal. symmetry.
  apply merge_stable; [|done]. intros e He. rewrite merge_field, bool_decide_true by done. by eexists.
Qed.

Definition user_group : json := JObject [("matcher", JString "*"); ("hooks", JArray [JObject [("command", JString "notify")]])].
Definition user_root : list (string * json) :=
  [("model", JString "opus"); ("hooks", JObject [("Stop", JArray [user_group])])].
Definition old_command : string := hookCommand "linux" "/opt/old" "claude" "http://127.0.0.1:47632" "/s".
Definition new_command : string := hookCommand "linux" "/opt/new" "claude" "http://127.0.0.1:47632" "/s".

Lemma Merge_replaces_witness :
  field (hooksOf (mergeManagedHooks (mergeManagedHooks user_root claudeEvents old_command) claudeEvents new_command)) "Stop"
  = Some (JArray [user_group; managedGroup new_command]).
Proof.
  destruct (Merge_replaces user_root claudeEvents old_command new_command) as (_ & _ & H & _).
  - apply (bool_decide_unpack _). vm_compute. exact I.
  - apply hookCommand_marked.
  - rewrite H; [vm_compute; reflexivity|]. apply (bool_decide_unpack _). vm_compute. exact I.
Defined.

(** The hooks of a user's configuration before the first installation. *)
Definition user_hooks (h : list (string * json)) (events : list string) : Prop :=
  NoDup h.*1 ∧
  (∀ e groups, field h e = Some (JArray groups) → Forall plain groups) ∧
  (∀ e v, e ∈ events → field h e = Some v → ∃ groups, v = JArray groups).
Definition user_ok (root : list (string * json)) (events : list string) : Prop :=
  (field root "hooks" = None ∨ ∃ h, field root "hooks" = Some (JObject h)) ∧ user_hooks (hooksOf root) events.

Lemma removeEvent_key kv kv' : (removeEvent kv).1 = Some kv' → kv'.1 = kv.1.
Proof.
  unfold removeEvent. destruct kv as [k v]. cbn [fst snd].
  destruct v as [| | | |groups|]; try (intros E; by injection E as <-).
  destruct (filterManagedGroups groups) as [[|g gs] []]; cbn [fst]; first [done|intros E; by injection E as <-].
Qed.

Lemma user_hooks_plain h events e : user_hooks h events → Forall plain (groupsOf h e).
Proof.
  intros (_ & Hp & _). unfold groupsOf. destruct (field h e) as [[]|] eqn:E; try constructor. by apply (Hp e).
Qed.

(** What the loop of [removeManagedHooks] makes of an object of hooks. *)
Definition removed (h : list (string * json)) : list (string * json) := omap (λ kv, (removeEvent kv).1) h.

Lemma removeManagedHooks_eq root h :
  field root "hooks" = Some (JObject h) →
  removeManagedHooks root = (setField root "hooks" (JObject (removed h)), existsb (λ kv, (removeEvent kv).2) h).
Proof. unfold removeManagedHooks. by intros ->. Qed.

Lemma removed_merged h0 events command :
  user_hooks h0 events → NoDup events → Contains command ManagedMarker = true →
  let h := foldl (mergeEvent command) h0 events in
  (events ≠ [] → existsb (λ kv, (removeEvent kv).2) h = true) ∧
  (∀ e, groupsOf (removed h) e = groupsOf h0 e) ∧
  (∀ e v, field h0 e = Some v → v ≠ JArray [] → field (removed h) e = Some v).
Proof.
  intros Hok Hn Hc h. pose proof (λ e, user_hooks_plain h0 events e Hok) as Hplain.
  destruct Hok as (Hnd & Hp & Harr).
  assert (Hhn : NoDup h.*1) by by apply merge_NoDup.
  assert (Hf : ∀ e, field (removed h) e = v ← field h e; kv ← (removeEvent (e, v)).1; Some kv.2).
  { intros e. apply (field_omap (λ kv, (removeEvent kv).1)); [done|]. apply removeEvent_key. }
  assert (Hev : ∀ e, e ∈ events → field (removed h) e =
    match groupsOf h0 e with [] => None | gs => Some (JArray gs) end).
  { intros e He. rewrite Hf. unfold h. rewrite merge_field, bool_decide_true by done.
    unfold removeEvent. cbn [mbind option_bind fst snd].
    rewrite kept_managed by done. unfold kept. rewrite filter_plain by (by apply Hplain). cbn [fst snd].
    by destruct (groupsOf h0 e). }
  assert (Hno : ∀ e, e ∉ events → field (removed h) e = field h0 e).
  { intros e He. rewrite Hf. unfold h. rewrite merge_field, bool_decide_false by done.
    destruct (field h0 e) as [v|] eqn:E; [|done].
    unfold removeEvent. cbn [mbind option_bind fst snd].
    destruct v; try done. rewrite filter_plain by (by apply (Hp e)). done. }
  split_and!.
  - intros Hne. destruct events as [|e events']; [done|]. apply existsb_exists.
    assert (Hin : (e, JArray (kept (groupsOf h0 e) ++ [managedGroup command])) ∈ h).
    { apply field_Some; [done|]. unfold h. rewrite merge_field, bool_decide_true by (done || constructor). done. }
    eexists. split; [by apply list_elem_of_In|]. unfold removeEvent. cbn [fst snd]. by rewrite kept_managed.
  - intros e. unfold groupsOf at 1. destruct (decide (e ∈ events)) as [He|He]; [|by rewrite Hno].
    rewrite Hev by done. by destruct (groupsOf h0 e).
  - intros e v Hv Hne. destruct (decide (e ∈ events)) as [He|He]; [|by rewrite Hno].
    rewrite Hev by done. destruct (Harr e v He Hv) as [gs ->]. unfold groupsOf. rewrite Hv. by destruct gs.
Qed.

Lemma field_merge_hooks root events command :
  field (mergeManagedHooks root events command) "hooks" = Some (JObject (foldl (mergeEvent command) (hooksOf root) events)).
Proof. unfold mergeManagedHooks. by rewrite field_setField, bool_decide_true. Qed.
Lemma field_merge_other root events command k :
  k ≠ "hooks" → field (mergeManagedHooks root events command) k = field root k.
Proof. intros Hk. unfold mergeManagedHooks. by rewrite field_setField, bool_decide_false. Qed.
Lemma hooksOf_setField root h : hooksOf (setField root "hooks" (JObject h)) = h.
Proof. unfold hooksOf. by rewrite field_setField, bool_decide_true. Qed.

(** Uninstalling undoes installing: on a configuration without managed
    entries, removing what merging added gives back every other field, every
    group of every event and every event that is no list of groups; at most
    an event's empty list and an empty "hooks" object differ. *)
Theorem Remove_undoes_merge (root : list (string * json)) (events : list string) (command : string)
    (Hok : user_ok root events) (Hn : NoDup events) (Hc : Contains command ManagedMarker = true) :
  let '(root', changed) := removeManagedHooks (mergeManagedHooks root events command) in
  (events ≠ [] → changed = true) ∧
  (∀ k, k ≠ "hooks" → field root' k = field root k) ∧
  (∀ e, groupsOf (hooksOf root') e = groupsOf (hooksOf root) e) ∧
  (∀ e v, field (hooksOf root) e = Some v → v ≠ JArray [] → field (hooksOf root') e = Some v).
Proof.
  rewrite (removeManagedHooks_eq _ _ (field_merge_hooks root events command)), hooksOf_setField.
  destruct (removed_merged (hooksOf root) events command (proj2 Hok) Hn Hc) as (H1 & H2 & H3).
  split_and!; [done| |done|done].
  intros k Hk. by rewrite field_setField, bool_decide_false, field_merge_other.
Qed.

Lemma claudeEvents_NoDup : NoDup claudeEvents.
Proof. apply (bool_decide_unpack _). vm_compute. exact I. Qed.

Lemma user_root_ok : user_ok user_root claudeEvents.
Proof.
  split; [right; eexists; reflexivity|]. split; [repeat constructor; set_solver|]. split.
  - intros e groups. simpl. case_bool_decide; [|done]. intros [= <-]. by repeat constructor.
  - intros e v _. simpl. case_bool_decide; [|done]. intros [= <-]. eauto.
Qed.

Lemma Remove_undoes_merge_witness :
  let '(root', changed) := removeManagedHooks (mergeManagedHooks user_root claudeEvents new_command) in
  changed = true ∧ field root' "model" = Some (JString "opus").
Proof.
  assert (H := Remove_undoes_merge user_root claudeEvents new_command user_root_ok
    claudeEvents_NoDup (hookCommand_marked _ _ _ _ _)).
  destruct (removeManagedHooks (mergeManagedHooks user_root claudeEvents new_command)) as [root' changed].
  destruct H as (H1 & H2 & _). split; [by apply H1|]. by rewrite H2.
Defined.

(** ** Quoting

    How a POSIX shell splits a command into words: single quotes keep
    everything, double quotes keep everything but a dollar, a backquote and a
    backslash; outside quotes a blank ends the word and the characters that
    mean something to the shell are not words.  [None] is a command the shell
    would not read as plain words. *)

Inductive quoting := Outside | Single | Double.

Definition special (a : ascii) : bool :=
  bool_decide (a ∈ ["|"; "&"; ";"; "<"; ">"; "("; ")"; "$"; "`"; "\"; "*"; "?"; "["; "#"; "~"; "="; "%"; "010"; "009"]%char).

Fixpoint shellWords (q : quoting) (word : option string) (s : string) : option (list string) :=
  match s with
  | EmptyString =>
    match q with
    | Outside => Some (match word with Some w => [w] | None => [] end)
    | _ => None
    end
  | String a s =>
    let more := Some (default "" word +:+ String a "") in
    match q with
    | Outside =>
      if bool_decide (a = quote) then shellWords Single (Some (default "" word)) s
      else if bool_decide (a = dquote) then shellWords Double (Some (default "" word)) s
      else if bool_decide (a = " "%char) then
        ws ← shellWords Outside None s; Some (match word with Some w => w :: ws | None => ws end)
      else if special a then None
      else shellWords Outside more s
    | Single => if bool_decide (a = quote) then shellWords Outside word s else shellWords Single more s
    | Double =>
      if bool_decide (a = dquote) then shellWords Outside word s
      else if bool_decide (a ∈ ["$"; "`"; "\"]%char) then None
      else shellWords Double more s
    end
  end.

Lemma shellWords_quoted (v w rest : string) :
  shellWords Single (Some w)
    (replaceByte quote (String quote (String dquote (String quote (String dquote (String quote ""))))) v
       +:+ String quote rest) =
  shellWords Outside (Some (w +:+ v)) rest.
Proof.
  revert w. induction v as [|a v IH]; intros w.
  - rewrite str_app_nil. cbn [replaceByte]. change ("" +:+ String quote rest) with (String quote rest).
    cbn [shellWords]. by rewrite bool_decide_true.
  - cbn [replaceByte]. case_bool_decide as Ha.
    + subst a. rewrite !str_app_cons. change ("" +:+ ?x) with x. cbn [shellWords].
      rewrite !(bool_decide_true (quote = quote)), !(bool_decide_true (dquote = dquote)) by done.
      rewrite !(bool_decide_false (dquote = quote)), !(bool_decide_false (quote = dquote)) by done.
      rewrite bool_decide_false by (apply (bool_decide_unpack _); vm_compute; exact I).
      cbn [default]. change ((?x +:+ "") +:+ ?y) with (x +:+ y). rewrite IH.
      unfold id. f_equal. f_equal. by rewrite <-str_app_assoc.
    + rewrite str_app_cons. cbn [shellWords]. rewrite bool_decide_false by done. cbn [default]. rewrite IH.
      by rewrite <-str_app_assoc.
Qed.

Lemma shellWords_value (os v rest : string) :
  os ≠ "windows" →
  shellWords Outside None (shellQuote os v +:+ rest) = shellWords Outside (Some v) rest.
Proof.
  intros Hos. unfold shellQuote. rewrite bool_decide_false by done.
  rewrite !str_app_cons, <-str_app_assoc. cbn [shellWords]. rewrite bool_decide_true by done.
  apply (shellWords_quoted v "" rest).
Qed.

(** The commands written into the configurations mean what they were made
    from: outside Windows a POSIX shell splits the quoted command into exactly
    the executable and its arguments, whatever characters the paths hold. *)
Theorem managedCommand_words (targetOS executable : string) (args : list string)
    (Hos : targetOS ≠ "windows") :
  shellWords Outside None (managedCommand targetOS executable args) = Some (executable :: args).
Proof.
  unfold managedCommand. revert executable. induction args as [|x args IH]; intros executable.
  - cbn [fmap list_fmap joinSpace]. rewrite <-(str_app_nil (shellQuote targetOS executable)).
    by rewrite shellWords_value.
  - rewrite fmap_cons. cbn [joinSpace]. rewrite fmap_cons. rewrite shellWords_value by done.
    change (" " +:+ ?y) with (String " " y). cbn [shellWords].
    rewrite !bool_decide_false, bool_decide_true by done.
    change (joinSpace (shellQuote targetOS x :: (shellQuote targetOS <$> args)))
      with (joinSpace (shellQuote targetOS <$> x :: args)).
    by rewrite IH.
Qed.

Lemma managedCommand_words_witness :
  shellWords Outside None (managedCommand "linux" "/home/o'brien/$(rm -rf ~)/qm" ["hook"; "a b"]) =
  Some ["/home/o'brien/$(rm -rf ~)/qm"; "hook"; "a b"].
Proof. by apply managedCommand_words. Defined.
