(* ===== verification/Install.v ===== *)
(** * internal/hooks: installing and uninstalling

    The files of [install.go].  A file is what was written to it and its mode;
    a JSON file that was written is the value it encodes, and what decoding
    makes of other bytes is a parameter.  Every call to the operating system
    is numbered, and an oracle decides which of them fail.  A temporary file
    of [atomicWrite] has a name of its own until the rename, so it is only a
    count of what the deferred removals leave behind.  [filepath.Join],
    [filepath.Clean], the home directory and the check of the hook URL are
    parameters too. *)

From S2P Require Import Prelude GoText GoFloat Json HookConfig.

Record installState := mkInstallState {
  st_Version : Z;
  st_CodexPath : string;
  st_ClaudePath : string;
  st_SecretPath : string;
  st_PreviousStatusLineExists : bool;
  st_PreviousStatusLine : option json   (* [None]: an empty RawMessage *)
}.

Inductive content :=
| Raw (bytes : string)
| JsonFile (root : list (string * json))
| StateFile (state : installState).

Record file := mkFile { payload : content; mode : Z }.

Abbreviation FS := (gmap string file).

Record World := mkWorld { files : FS; litter : nat; count : nat }.

Inductive InstallError :=
| NoHome | ExecutableRequired | BadHookURL | SecretRequired
| CallFailed (what : string) | BadState | BadConfig (path : string)
| DuplicatePath (path : string) | RollbackFailed
| Panicked.                            (* assignment to an entry of a nil map *)

#[global] Instance InstallError_eq_dec : EqDecision InstallError.
Proof. solve_decision. Defined.

(** ** Calls that may fail *)

Definition IO (A : Type) : Type := World → result InstallError A * World.

#[global] Instance IO_ret : MRet IO := λ A a w, (Ok a, w).
#[global] Instance IO_bind : MBind IO := λ A B f m w,
  match m w with (Ok a, w) => f a w | (Err e, w) => (Err e, w) end.

Definition throw {A} (e : InstallError) : IO A := λ w, (Err e, w).
Definition getFiles : IO FS := λ w, (Ok (files w), w).
Definition setFiles (f : FS → FS) : IO unit := λ w, (Ok tt, mkWorld (f (files w)) (litter w) (count w)).

(** [m] with its error as a value. *)
Definition try {A} (m : IO A) : IO (result InstallError A) := λ w,
  let '(r, w) := m w in (Ok r, w).

Section calls.
Context (fails : nat → bool).

Definition call (what : string) : IO unit := λ w,
  (if fails (count w) then Err (CallFailed what) else Ok tt, mkWorld (files w) (litter w) (S (count w))).

(** ** Transactions *)

Record fileMutation := mkMutation { fm_path : string; fm_payload : content; fm_mode : Z }.
Record fileSnapshot := mkSnapshot { fs_path : string; fs_old : option file }.

(** The deferred [os.Remove] of the temporary file, whose error is dropped. *)
Definition dropTemporary : IO unit := λ w,
  if fails (count w) then (Ok tt, mkWorld (files w) (S (litter w)) (S (count w)))
  else (Ok tt, mkWorld (files w) (litter w) (S (count w))).

(** [atomicWrite]: the target changes in the rename only. *)
Definition atomicWrite (path : string) (p : content) (m : Z) : IO unit :=
  _ ← call "mkdir";
  _ ← call "create temporary";
  r ← try (_ ← call "chmod"; _ ← call "write"; _ ← call "sync"; _ ← call "close";
           _ ← call "rename"; setFiles (<[path := mkFile p m]>));
  _ ← (match r with Ok _ => mret tt | Err _ => dropTemporary end);
  match r with Ok _ => mret tt | Err e => throw e end.

Definition snapshotFile (path : string) : IO fileSnapshot :=
  _ ← call "stat";
  fs ← getFiles;
  match fs !! path with
  | None => mret (mkSnapshot path None)
  | Some f => _ ← call "read"; mret (mkSnapshot path (Some f))
  end.

(** [rollbackFileTransaction]: from the last snapshot to the first, going on
    after an error; whether all of it worked. *)
Definition restore (s : fileSnapshot) : IO unit :=
  match fs_old s with
  | Some f => atomicWrite (fs_path s) (payload f) (mode f)
  | None => _ ← call "remove"; setFiles (delete (fs_path s))   (* absent already is no error *)
  end.

Fixpoint rollbackFileTransaction (snapshots : list fileSnapshot) : IO bool :=
  match snapshots with
  | [] => mret true
  | s :: snapshots =>
    rest ← rollbackFileTransaction snapshots;
    r ← try (restore s);
    mret (rest && is_ok r)
  end.

(** The first loop of [applyFileTransaction]. *)
Fixpoint takeSnapshots (Clean : string → string) (seen : gset string) (ms : list fileMutation) : IO (list fileSnapshot) :=
  match ms with
  | [] => mret []
  | m :: ms =>
    if decide (Clean (fm_path m) ∈ seen) then throw (DuplicatePath (fm_path m))
    else
      s ← snapshotFile (fm_path m);
      ss ← takeSnapshots Clean ({[Clean (fm_path m)]} ∪ seen) ms;
      mret (s :: ss)
  end.

(** The second loop; [before] are the snapshots of the mutations written so
    far, in order. *)
Fixpoint writeAll (before : list fileSnapshot) (ms : list fileMutation) (ss : list fileSnapshot) : IO unit :=
  match ms, ss with
  | m :: ms, s :: ss =>
    r ← try (atomicWrite (fm_path m) (fm_payload m) (if fm_mode m =? 0 then 0x180 else fm_mode m));
    match r with
    | Ok _ => writeAll (before ++ [s]) ms ss
    | Err e =>
      ok ← rollbackFileTransaction (before ++ [s]);
      throw (if ok : bool then e else RollbackFailed)
    end
  | _, _ => mret tt
  end.

Definition applyFileTransaction (Clean : string → string) (ms : list fileMutation) : IO unit :=
  ss ← takeSnapshots Clean ∅ ms;
  writeAll [] ms ss.
End calls.

(** ** Installing *)

Record InstallConfig := mkInstallConfig {
  HomeDir : string;
  Executable : string;
  HookURL : string;
  Secret : string;
  CodexConfigPath : string;
  ClaudeConfigPath : string;
  StatePath : string;
  SecretPath : string;
  TargetOS : string
}.

Record InstallResult := mkInstallResult {
  ir_CodexPath : string; ir_ClaudePath : string; ir_StatePath : string; ir_SecretPath : string;
  ir_Backups : list string
}.

Definition noState : installState := mkInstallState 0 "" "" "" false None.
Definition orPath (p dflt : string) : string := if bool_decide (p = "") then dflt else p.

Section install.
Context (fails : nat → bool).
Context (home : option string) (GOOS : string) (loopbackURL : string → bool).
Context (Join : list string → string) (Clean : string → string).

(** What [json.Unmarshal] makes of bytes this program did not write: a value
    for a [map[string]any] (JSON's null is the nil map), and a state. *)
Context (UnmarshalRoot : string → option (option (list (string * json)))).
Context (UnmarshalState : content → option installState).

(** The stamps in the names of the backups. *)
Context (codexStamp claudeStamp : string).

(** The encoding of a state, as an object. *)
Definition stateObject (s : installState) : list (string * json) :=
  [("version", JNumber (f_of_Z (st_Version s))); ("codexPath", JString (st_CodexPath s));
   ("claudePath", JString (st_ClaudePath s)); ("secretPath", JString (st_SecretPath s));
   ("previousStatusLineExists", JBool (st_PreviousStatusLineExists s))] ++
  match st_PreviousStatusLine s with Some v => [("previousStatusLine", v)] | None => [] end.

Definition decodeRoot (c : content) : option (option (list (string * json))) :=
  match c with
  | Raw bytes => UnmarshalRoot bytes
  | JsonFile root => Some (Some root)
  | StateFile s => Some (Some (stateObject s))
  end.
Definition decodeState (c : content) : option installState :=
  match c with StateFile s => Some s | _ => UnmarshalState c end.

Definition withDefaults (c : InstallConfig) : result InstallError InstallConfig :=
  homeDir ← (if bool_decide (HomeDir c = "") then match home with Some h => Ok h | None => Err NoHome end
             else Ok (HomeDir c));
  _ ← refuse (bool_decide (Executable c = "")) ExecutableRequired;
  let url := orPath (HookURL c) "http://127.0.0.1:47632" in
  _ ← refuse (negb (loopbackURL url)) BadHookURL;
  _ ← refuse (bool_decide (Secret c = "")) SecretRequired;
  let stateDir := Join [homeDir; ".quota-monitor"] in
  Ok (mkInstallConfig homeDir (Executable c) url (Secret c)
        (orPath (CodexConfigPath c) (Join [homeDir; ".codex"; "hooks.json"]))
        (orPath (ClaudeConfigPath c) (Join [homeDir; ".claude"; "settings.json"]))
        (orPath (StatePath c) (Join [stateDir; "hooks-state.json"]))
        (orPath (SecretPath c) (Join [stateDir; "hook-secret"]))
        (orPath (TargetOS c) GOOS)).

Definition liftR {A} (r : result InstallError A) : IO A := λ w, (r, w).

(** [readInstallState], the missing file being [None]. *)
Definition readInstallState (path : string) : IO (option installState) :=
  _ ← call fails "read state";
  fs ← getFiles;
  match fs !! path with
  | None => mret None
  | Some f => match decodeState (payload f) with Some s => mret (Some s) | None => throw BadState end
  end.

(** [readJSONObjectIfExists]: the root (nil for a JSON null) and the mode. *)
Definition readJSONObjectIfExists (path : string) : IO (option (option (list (string * json)) * Z)) :=
  _ ← call fails "read config";
  fs ← getFiles;
  match fs !! path with
  | None => mret None
  | Some f =>
    match decodeRoot (payload f) with
    | None => throw (BadConfig path)
    | Some root => _ ← call fails "stat config"; mret (Some (root, mode f))
    end
  end.

Definition readJSONObject (path : string) : IO (option (list (string * json)) * Z) :=
  r ← readJSONObjectIfExists path;
  mret (match r with None => (Some [], 0x180) | Some r => r end).

Definition backupName (path stamp : string) : string := path +:+ ".quota-monitor." +:+ stamp +:+ ".bak".
Definition orMode (m : Z) : Z := if m =? 0 then 0x180 else m.

Definition jsonFileMutations (path stamp : string) (root : list (string * json)) (m : Z)
    : IO (list fileMutation * string) :=
  _ ← call fails "stat config";
  fs ← getFiles;
  let write := mkMutation path (JsonFile root) (orMode m) in
  match fs !! path with
  | None => mret ([write], "")
  | Some f =>
    _ ← call fails "read config";
    let backup := backupName path stamp in
    mret ([mkMutation backup (payload f) (mode f); write], backup)
  end.

(** The write to a nil map of [mergeManagedHooks]. *)
Definition mergeInto (root : option (list (string * json))) (events : list string) (command : string)
    : IO (list (string * json)) :=
  match root with None => throw Panicked | Some root => mret (mergeManagedHooks root events command) end.

(** The state to persist: the status line that the wrapper replaces is
    recorded unless it is the wrapper itself. *)
Definition newState (old : option installState) (cfg : InstallConfig) (claudeRoot : list (string * json)) : installState :=
  let s := match old with Some s => if st_Version s =? 1 then s else mkInstallState 1 "" "" "" false None
                        | None => mkInstallState 1 "" "" "" false None end in
  let current := field claudeRoot "statusLine" in
  let managed := match current with Some v => isManagedValue v | None => false end in
  mkInstallState (st_Version s) (CodexConfigPath cfg) (ClaudeConfigPath cfg) (SecretPath cfg)
    (if managed then st_PreviousStatusLineExists s else bool_decide (current ≠ None))
    (if managed then st_PreviousStatusLine s else current).

Definition backups (l : list string) : list string := filter (λ b, b ≠ "") l.

Definition Install (c : InstallConfig) : IO InstallResult :=
  cfg ← liftR (withDefaults c);
  _ ← call fails "mkdir";
  old ← readInstallState (StatePath cfg);
  codex ← readJSONObject (CodexConfigPath cfg);
  claude ← readJSONObject (ClaudeConfigPath cfg);
  codexRoot ← mergeInto codex.1 codexEvents
    (hookCommand (TargetOS cfg) (Executable cfg) "codex" (HookURL cfg) (SecretPath cfg));
  claudeRoot ← mergeInto claude.1 claudeEvents
    (hookCommand (TargetOS cfg) (Executable cfg) "claude" (HookURL cfg) (SecretPath cfg));
  let state := newState old cfg claudeRoot in
  let claudeRoot := setField claudeRoot "statusLine" (managedStatusLine
    (statusCommand (TargetOS cfg) (Executable cfg) (HookURL cfg) (SecretPath cfg) (StatePath cfg))) in
  let mutations := [mkMutation (StatePath cfg) (StateFile state) 0x180;
                    mkMutation (SecretPath cfg) (Raw (Secret cfg +:+ String "010" "")) 0x180] in
  codexM ← jsonFileMutations (CodexConfigPath cfg) codexStamp codexRoot codex.2;
  claudeM ← jsonFileMutations (ClaudeConfigPath cfg) claudeStamp claudeRoot claude.2;
  _ ← applyFileTransaction fails Clean (mutations ++ codexM.1 ++ claudeM.1);
  mret (mkInstallResult (CodexConfigPath cfg) (ClaudeConfigPath cfg) (StatePath cfg) (SecretPath cfg)
          (backups [codexM.2; claudeM.2])).

(** ** Uninstalling *)

Definition backupAndWriteJSON (path stamp : string) (root : list (string * json)) (m : Z) : IO string :=
  _ ← call fails "stat config";
  fs ← getFiles;
  backup ← (match fs !! path with
            | None => mret ""
            | Some f =>
              _ ← call fails "read config";
              _ ← atomicWrite fails (backupName path stamp) (payload f) (orMode m);
              mret (backupName path stamp)
            end);
  _ ← atomicWrite fails path (JsonFile root) (orMode m);
  mret backup.

(** [_ = os.Remove(path)]. *)
Definition removeFile (path : string) : IO unit :=
  r ← try (call fails "remove");
  match r with Ok _ => setFiles (delete path) | Err _ => mret tt end.

(** The status line after uninstalling: untouched unless it is the wrapper. *)
Definition restoreStatusLine (state : installState) (root : list (string * json)) : list (string * json) * bool :=
  match field root "statusLine" with
  | Some current =>
    if isManagedValue current then
      (match st_PreviousStatusLineExists state, st_PreviousStatusLine state with
       | true, Some previous => setField root "statusLine" previous
       | _, _ => delField root "statusLine"
       end, true)
    else (root, false)
  | None => (root, false)
  end.

Definition uninstallCodex (path : string) : IO string :=
  r ← readJSONObjectIfExists path;
  match r with
  | Some (Some root, m) =>
    let '(root, changed) := removeManagedHooks root in
    if changed : bool then backupAndWriteJSON path codexStamp root m else mret ""
  | _ => mret ""
  end.

Definition uninstallClaude (state : installState) (path : string) : IO string :=
  r ← readJSONObjectIfExists path;
  match r with
  | Some (Some root, m) =>
    let '(root, changed) := removeManagedHooks root in
    let '(root, restored) := restoreStatusLine state root in
    if changed || restored then backupAndWriteJSON path claudeStamp root m else mret ""
  | _ => mret ""
  end.

Definition Uninstall (c : InstallConfig) : IO InstallResult :=
  homeDir ← liftR (if bool_decide (HomeDir c = "") then match home with Some h => Ok h | None => Err NoHome end
                   else Ok (HomeDir c));
  let statePath := orPath (StatePath c) (Join [homeDir; ".quota-monitor"; "hooks-state.json"]) in
  old ← readInstallState statePath;
  let state := default noState old in
  let codexPath := orPath (CodexConfigPath c) (orPath (st_CodexPath state) (Join [homeDir; ".codex"; "hooks.json"])) in
  let claudePath := orPath (ClaudeConfigPath c) (orPath (st_ClaudePath state) (Join [homeDir; ".claude"; "settings.json"])) in
  let secretPath := orPath (SecretPath c) (orPath (st_SecretPath state) (Join [homeDir; ".quota-monitor"; "hook-secret"])) in
  b1 ← uninstallCodex codexPath;
  b2 ← uninstallClaude state claudePath;
  _ ← removeFile secretPath;
  _ ← removeFile statePath;
  mret (mkInstallResult codexPath claudePath statePath secretPath (backups [b1; b2])).
End install.
