(* ===== verification/InstallFacts.v ===== *)
(** * Facts about installing

    The file transaction is all or nothing unless undoing it fails too, and
    even then every file is entirely its old or entirely its new self. *)

From S2P Require Import Prelude GoText GoTextFacts GoFloat Json HookConfig HookConfigFacts Install.

Section transactions.
Context (fails : nat → bool).
Implicit Types (w : World) (fs : FS) (ms : list fileMutation).

(** ** The single steps *)

Lemma call_spec what w :
  files (call fails what w).2 = files w ∧
  ((call fails what w).1 = Ok tt ∨ (call fails what w).1 = Err (CallFailed what)).
Proof. unfold call. destruct (fails (count w)); auto. Qed.

Lemma dropTemporary_spec w : files (dropTemporary fails w).2 = files w ∧ (dropTemporary fails w).1 = Ok tt.
Proof. unfold dropTemporary. by destruct (fails (count w)). Qed.

Ltac step_call :=
  match goal with
  | |- context [call fails ?what ?w] =>
    let H1 := fresh in let H2 := fresh in let r := fresh "r" in let w1 := fresh "w" in
    destruct (call_spec what w) as [H1 H2]; destruct (call fails what w) as [r w1]; cbn [fst snd] in H1, H2;
    destruct H2 as [-> | ->]
  end.

Ltac step_drop :=
  match goal with
  | |- context [dropTemporary fails ?w] =>
    let H := fresh in let H' := fresh in let r := fresh "r" in let w1 := fresh "w" in
    destruct (dropTemporary_spec w) as [H H']; destruct (dropTemporary fails w) as [r w1]; cbn in H, H'; subst r
  end.

(** A write replaces the whole file or changes nothing. *)
Lemma atomicWrite_spec p c m w :
  let '(r, w') := atomicWrite fails p c m w in
  match r with
  | Ok _ => files w' = <[p := mkFile c m]> (files w)
  | Err e => files w' = files w ∧ e ≠ RollbackFailed
  end.
Proof.
  unfold atomicWrite, try, setFiles, throw, mbind, IO_bind, mret, IO_ret.
  step_call; [|by split]. step_call; [|split; [congruence|done]].
  repeat (step_call; [|step_drop; split; [congruence|done]]).
  cbn. congruence.
Qed.

Lemma snapshotFile_spec p w :
  let '(r, w') := snapshotFile fails p w in
  files w' = files w ∧
  match r with Ok s => s = mkSnapshot p (files w !! p) | Err e => e ≠ RollbackFailed end.
Proof.
  unfold snapshotFile, getFiles, mbind, IO_bind, mret, IO_ret.
  step_call; [|done]. cbn [files]. rewrite H. destruct (files w !! p) as [f|] eqn:E; [|by split].
  step_call; (split; [congruence|done]).
Qed.

(** Undoing one write. *)
Definition undone (fs : FS) (s : fileSnapshot) : FS :=
  match fs_old s with Some f => <[fs_path s := f]> fs | None => delete (fs_path s) fs end.

Lemma restore_spec s w :
  let '(r, w') := restore fails s w in
  match r with Ok _ => files w' = undone (files w) s | Err _ => files w' = files w end.
Proof.
  unfold restore, undone. destruct (fs_old s) as [f|] eqn:E.
  - pose proof (atomicWrite_spec (fs_path s) (payload f) (mode f) w) as H.
    destruct (atomicWrite fails _ _ _ w) as [[[]|e] w']; [|by destruct H]. rewrite H. by destruct f.
  - unfold setFiles, mbind, IO_bind. step_call; [|done]. cbn. congruence.
Qed.

(** ** Rolling back *)

Definition snapshotOf (fs : FS) (p : string) : fileSnapshot := mkSnapshot p (fs !! p).

(** Every file is as in [fs] or as in [fs']. *)
Definition mixed (fs fs' g : FS) : Prop := ∀ p, g !! p = fs !! p ∨ g !! p = fs' !! p.

Lemma undone_lookup fs g p q :
  undone g (snapshotOf fs p) !! q = if decide (p = q) then fs !! p else g !! q.
Proof.
  unfold undone, snapshotOf. simpl. destruct (fs !! p) as [f|]; [by rewrite lookup_insert|by rewrite lookup_delete].
Qed.

Lemma rollback_spec fs ps w :
  let '(r, w') := rollbackFileTransaction fails (snapshotOf fs <$> ps) w in
  ∃ ok, r = Ok ok ∧ mixed fs (files w) (files w') ∧ (∀ q, q ∉ ps → files w' !! q = files w !! q) ∧
  (ok = true → ∀ q, q ∈ ps → files w' !! q = fs !! q).
Proof.
  induction ps as [|p ps IH]; cbn [fmap list_fmap rollbackFileTransaction].
  - exists true. split; [done|]. split; [by right|]. split; [done|set_solver].
  - unfold mbind, IO_bind, try, mret, IO_ret.
    destruct (rollbackFileTransaction fails (snapshotOf fs <$> ps) w) as [r1 w1].
    destruct IH as (ok & -> & Hm & Hout & Hin).
    pose proof (restore_spec (snapshotOf fs p) w1) as Hr.
    destruct (restore fails (snapshotOf fs p) w1) as [[[]|e] w2]; cbn [is_ok].
    + exists (ok && true). split; [done|]. rewrite Hr.
      split; [intros q; rewrite undone_lookup; case_decide; [subst; by left|apply Hm]|]. split.
      * intros q Hq. rewrite undone_lookup, decide_False by set_solver. apply Hout. set_solver.
      * rewrite andb_true_r. intros -> q Hq. rewrite undone_lookup. case_decide; [by subst|].
        apply Hin; [done|set_solver].
    + exists (ok && false). split; [done|]. rewrite Hr. split; [done|]. split; [|by rewrite andb_false_r].
      intros q Hq. apply Hout. set_solver.
Qed.

(** ** The transaction *)

Lemma takeSnapshots_spec Clean seen ms w :
  let '(r, w') := takeSnapshots fails Clean seen ms w in
  files w' = files w ∧
  match r with
  | Ok ss => ss = snapshotOf (files w) <$> (fm_path <$> ms) ∧ NoDup (fm_path <$> ms) ∧
             (∀ m, m ∈ ms → Clean (fm_path m) ∉ seen)
  | Err e => e ≠ RollbackFailed
  end.
Proof.
  revert seen w. induction ms as [|m ms IH]; intros seen w; cbn [takeSnapshots fmap list_fmap].
  - unfold mret, IO_ret. split; [done|]. split; [done|]. split; [constructor|set_solver].
  - case_decide as Hc; [done|]. unfold mbind, IO_bind, mret, IO_ret.
    pose proof (snapshotFile_spec (fm_path m) w) as Hs.
    destruct (snapshotFile fails (fm_path m) w) as [[s|e] w1]; destruct Hs as [Hf Hs]; [|done].
    specialize (IH ({[Clean (fm_path m)]} ∪ seen) w1).
    destruct (takeSnapshots fails Clean _ ms w1) as [[ss|e] w2]; destruct IH as [Hf2 IH]; (split; [congruence|]); [|done].
    destruct IH as (-> & Hn & Hseen). rewrite Hf. split; [by subst s|]. split.
    + constructor; [|done]. intros (m' & E & Hin)%list_elem_of_fmap. apply (Hseen m' Hin). rewrite <-E. set_solver.
    + intros m' [->|Hin]%elem_of_cons; [done|]. specialize (Hseen m' Hin). set_solver.
Qed.

(** The file a mutation leaves. *)
Definition written (m : fileMutation) : file := mkFile (fm_payload m) (if fm_mode m =? 0 then 0x180 else fm_mode m).
Definition applied (ms : list fileMutation) (fs : FS) : FS := foldl (λ fs m, <[fm_path m := written m]> fs) fs ms.

Lemma applied_out ms fs p : p ∉ fm_path <$> ms → applied ms fs !! p = fs !! p.
Proof.
  revert fs. induction ms as [|m ms IH]; intros fs Hp; [done|]. simpl in *.
  rewrite IH by set_solver. apply lookup_insert_ne. set_solver.
Qed.

Lemma applied_in ms fs m : NoDup (fm_path <$> ms) → m ∈ ms → applied ms fs !! fm_path m = Some (written m).
Proof.
  revert fs. induction ms as [|m' ms IH]; intros fs Hn Hin; [set_solver|]. simpl in *.
  apply NoDup_cons in Hn as [Hm Hn]. apply elem_of_cons in Hin as [->|Hin]; [|by apply IH].
  rewrite applied_out by done. apply lookup_insert_eq.
Qed.

Lemma writeAll_spec fs done_ ms w :
  NoDup (fm_path <$> done_ ++ ms) → files w = applied done_ fs →
  let '(r, w') := writeAll fails (snapshotOf fs <$> (fm_path <$> done_)) ms (snapshotOf fs <$> (fm_path <$> ms)) w in
  mixed fs (applied (done_ ++ ms) fs) (files w') ∧
  match r with
  | Ok _ => files w' = applied (done_ ++ ms) fs
  | Err e => e ≠ RollbackFailed → files w' = fs
  end.
Proof.
  revert done_ w. induction ms as [|m ms IH]; intros d w Hn Hw; cbn [writeAll fmap list_fmap].
  - unfold mret, IO_ret. rewrite app_nil_r. split; [intros p; right; by rewrite Hw|done].
  - unfold mbind, IO_bind, try, throw. cbn [fm_path snapshotOf fs_path].
    pose proof (atomicWrite_spec (fm_path m) (fm_payload m) (if fm_mode m =? 0 then 0x180 else fm_mode m) w) as Ha.
    destruct (atomicWrite fails _ _ _ w) as [[[]|e] w1].
    + assert (Hd : files w1 = applied (d ++ [m]) fs) by (unfold applied; rewrite foldl_app; cbn; by rewrite Ha, Hw).
      specialize (IH (d ++ [m]) w1). rewrite <-app_assoc in IH. specialize (IH Hn Hd).
      rewrite !fmap_app in IH. exact IH.
    + destruct Ha as [Ha He].
      assert (Hp : ∃ ps, ps = fm_path <$> (d ++ [m])) by eauto. destruct Hp as [ps Hps].
      replace ((snapshotOf fs <$> (fm_path <$> d)) ++ [snapshotOf fs (fm_path m)]) with (snapshotOf fs <$> ps)
        by (subst ps; by rewrite !fmap_app).
      pose proof (rollback_spec fs ps w1) as Hr.
      destruct (rollbackFileTransaction fails (snapshotOf fs <$> ps) w1) as [r w2].
      destruct Hr as (ok & -> & Hm & Hout & Hin).
      rewrite fmap_app in Hn. apply NoDup_app in Hn as (Hnd & Hdisj & Hnm).
      split.
      * intros p. destruct (Hm p) as [E|E]; [by left|]. rewrite E, Ha, Hw.
        destruct (decide (p ∈ fm_path <$> d)) as [Hpd|Hpd]; [right|left; by rewrite applied_out].
        assert (Ed : applied (d ++ m :: ms) fs = applied (m :: ms) (applied d fs)) by apply foldl_app.
        rewrite Ed, (applied_out (m :: ms)); [done|by apply Hdisj].
      * destruct ok; [|done]. intros _. apply map_eq. intros p.
        destruct (decide (p ∈ ps)) as [Hpp|Hpp]; [by apply Hin|]. rewrite Hout by done.
        rewrite Ha, Hw. apply applied_out. intros Hpd. apply Hpp. subst ps. rewrite fmap_app. set_solver.
Qed.

(** Writing a list of files is all or nothing unless the rollback fails. *)
Lemma applyFileTransaction_spec (Clean : string → string) ms w :
  let '(r, w') := applyFileTransaction fails Clean ms w in
  mixed (files w) (applied ms (files w)) (files w') ∧
  match r with
  | Ok _ => NoDup (fm_path <$> ms) ∧ files w' = applied ms (files w)
  | Err e => e ≠ RollbackFailed → files w' = files w
  end.
Proof.
  unfold applyFileTransaction, mbind, IO_bind.
  pose proof (takeSnapshots_spec Clean ∅ ms w) as Ht.
  destruct (takeSnapshots fails Clean ∅ ms w) as [[ss|e] w1]; destruct Ht as [Hf Ht].
  2: { split; [left; by rewrite Hf|done]. }
  destruct Ht as (-> & Hn & _).
  pose proof (writeAll_spec (files w) [] ms w1 Hn Hf) as Hw. cbn [fmap list_fmap app] in Hw.
  destruct (writeAll fails [] ms _ w1) as [r w2]. destruct Hw as [Hm Hr]. split; [done|]. by destruct r.
Qed.
End transactions.

(** ** Parts that only read

    [reads P m]: whatever fails, [m] changes no file, and what it returns is
    in the relation [P] to the files. *)

Definition reads {A} (P : FS → A → Prop) (m : IO A) : Prop := ∀ w,
  let '(r, w') := m w in
  files w' = files w ∧ match r with Ok a => P (files w) a | Err e => e ≠ RollbackFailed end.

(** A run from the files [fs]. *)
Definition from {A} (fs : FS) (m : IO A) (Q : result InstallError A → FS → Prop) : Prop := ∀ w,
  files w = fs → let '(r, w') := m w in Q r (files w').

Lemma from_reads {A B} (P : FS → A → Prop) (m : IO A) (f : A → IO B) fs (Q : result InstallError B → FS → Prop) :
  reads P m → (∀ e, e ≠ RollbackFailed → Q (Err e) fs) → (∀ a, P fs a → from fs (f a) Q) → from fs (m ≫= f) Q.
Proof.
  intros Hm He Hf w Hw. unfold mbind, IO_bind. specialize (Hm w).
  destruct (m w) as [[a|e] w']; destruct Hm as [Hw' Ha]; rewrite Hw in *; [by apply Hf|]. rewrite Hw'. by apply He.
Qed.

Lemma from_bind {A B} (Q1 : result InstallError A → FS → Prop) (m : IO A) (f : A → IO B) fs Q :
  from fs m Q1 → (∀ e fs', Q1 (Err e) fs' → Q (Err e) fs') → (∀ a fs', Q1 (Ok a) fs' → from fs' (f a) Q) →
  from fs (m ≫= f) Q.
Proof.
  intros Hm He Hf w Hw. specialize (Hm w Hw). unfold mbind, IO_bind.
  destruct (m w) as [[a|e] w']; [by apply (Hf a _ Hm)|by apply He].
Qed.

Lemma from_ret {A} (a : A) fs (Q : result InstallError A → FS → Prop) : Q (Ok a) fs → from fs (mret a) Q.
Proof. by intros H w <-. Qed.

Lemma reads_bind_reads {A B} (P : FS → A → Prop) (Q : FS → B → Prop) (m : IO A) (f : A → IO B) :
  reads P m → (∀ a, reads (λ fs b, P fs a → Q fs b) (f a)) → reads Q (m ≫= f).
Proof.
  intros Hm Hf w. specialize (Hm w). unfold mbind, IO_bind. destruct (m w) as [[a|e] w1]; [|done].
  destruct Hm as [Hw1 Ha]. specialize (Hf a w1). destruct (f a w1) as [[b|e] w2]; rewrite Hw1 in Hf; [|done].
  destruct Hf as [Hf1 Hf2]. by split; [|apply Hf2].
Qed.

Lemma reads_ret {A} (P : FS → A → Prop) (a : A) : (∀ fs, P fs a) → reads P (mret a).
Proof. by intros H w. Qed.
Lemma reads_throw {A} (P : FS → A → Prop) e : e ≠ RollbackFailed → reads (A:=A) P (throw e).
Proof. by intros H w. Qed.
Lemma reads_files : reads (λ fs g, g = fs) getFiles.
Proof. by intros w. Qed.
Lemma reads_call fails what : reads (λ _ _, True) (call fails what).
Proof. intros w. unfold call. by destruct (fails (count w)). Qed.
Lemma reads_lift {A} (r : result InstallError A) :
  r ≠ Err RollbackFailed → reads (λ _ a, r = Ok a) (liftR r).
Proof. intros Hr w. unfold liftR. destruct r; [done|]. split; [done|]. congruence. Qed.

Section reading.
Context (fails : nat → bool) (UnmarshalRoot : string → option (option (list (string * json)))).
Context (UnmarshalState : content → option installState).

Lemma readInstallState_reads path :
  reads (λ fs r, r = f ← fs !! path; decodeState UnmarshalState (payload f)) (readInstallState fails UnmarshalState path).
Proof.
  eapply reads_bind_reads; [apply reads_call|]. intros []. eapply reads_bind_reads; [apply reads_files|]. intros fs.
  destruct (fs !! path) as [f|] eqn:E.
  - destruct (decodeState UnmarshalState (payload f)) eqn:Ed; [|by apply reads_throw].
    apply reads_ret. intros fs' -> _. rewrite E. simpl. by rewrite Ed.
  - apply reads_ret. intros fs' -> _. by rewrite E.
Qed.

Lemma readJSONObjectIfExists_reads path :
  reads (λ fs r, match fs !! path with
                 | None => r = None
                 | Some f => ∃ root, decodeRoot UnmarshalRoot (payload f) = Some root ∧ r = Some (root, mode f)
                 end) (readJSONObjectIfExists fails UnmarshalRoot path).
Proof.
  eapply reads_bind_reads; [apply reads_call|]. intros []. eapply reads_bind_reads; [apply reads_files|]. intros fs.
  destruct (fs !! path) as [f|] eqn:E.
  - destruct (decodeRoot UnmarshalRoot (payload f)) eqn:Ed; [|by apply reads_throw].
    eapply reads_bind_reads; [apply reads_call|]. intros []. apply reads_ret. intros fs' _ -> _. rewrite E. eauto.
  - apply reads_ret. intros fs' -> _. by rewrite E.
Qed.

(** The object and the mode that a configuration starts from. *)
Definition startOf (fs : FS) (path : string) : option (option (list (string * json)) * Z) :=
  match fs !! path with
  | None => Some (Some [], 0x180)
  | Some f => root ← decodeRoot UnmarshalRoot (payload f); Some (root, mode f)
  end.

Lemma readJSONObject_reads path :
  reads (λ fs r, startOf fs path = Some r) (readJSONObject fails UnmarshalRoot path).
Proof.
  eapply reads_bind_reads; [apply readJSONObjectIfExists_reads|]. intros r. apply reads_ret. intros fs.
  unfold startOf. destruct (fs !! path) as [f|]; [|by intros ->]. intros (root & Hr & ->). by rewrite Hr.
Qed.

Lemma mergeInto_reads root events command :
  reads (λ _ r, ∃ root', root = Some root' ∧ r = mergeManagedHooks root' events command) (mergeInto root events command).
Proof. unfold mergeInto. destruct root; [apply reads_ret; eauto|by apply reads_throw]. Qed.

Definition jsonMutations (fs : FS) (path stamp : string) (root : list (string * json)) (m : Z) : list fileMutation * string :=
  let write := mkMutation path (JsonFile root) (orMode m) in
  match fs !! path with
  | None => ([write], "")
  | Some f => ([mkMutation (backupName path stamp) (payload f) (mode f); write], backupName path stamp)
  end.

Lemma jsonFileMutations_reads path stamp root m :
  reads (λ fs r, r = jsonMutations fs path stamp root m) (jsonFileMutations fails path stamp root m).
Proof.
  eapply reads_bind_reads; [apply reads_call|]. intros []. eapply reads_bind_reads; [apply reads_files|]. intros fs.
  unfold jsonMutations. destruct (fs !! path) as [f|] eqn:E.
  - eapply reads_bind_reads; [apply reads_call|]. intros []. apply reads_ret. intros fs' _ -> _. by rewrite E.
  - apply reads_ret. intros fs' -> _. by rewrite E.
Qed.
End reading.

Definition backupOf (fs : FS) (path stamp : string) : list string :=
  match fs !! path with Some _ => [backupName path stamp] | None => [] end.

Lemma orMode_orMode m : orMode (orMode m) = orMode m.
Proof. unfold orMode. destruct (m =? 0) eqn:E; [done|by rewrite E]. Qed.

Lemma jsonMutations_last fs path stamp root m : mkMutation path (JsonFile root) (orMode m) ∈ (jsonMutations fs path stamp root m).1.
Proof. unfold jsonMutations. destruct (fs !! path); simpl; set_solver. Qed.
Lemma jsonMutations_backup fs path stamp root m f :
  fs !! path = Some f → mkMutation (backupName path stamp) (payload f) (mode f) ∈ (jsonMutations fs path stamp root m).1.
Proof. unfold jsonMutations. intros ->. simpl. set_solver. Qed.
Lemma jsonMutations_paths fs path stamp root m p :
  p ∈ fm_path <$> (jsonMutations fs path stamp root m).1 ↔ p = path ∨ p ∈ backupOf fs path stamp.
Proof. unfold jsonMutations, backupOf. destruct (fs !! path); simpl; set_solver. Qed.

Section installing.
Context (fails : nat → bool).
Context (home : option string) (GOOS : string) (loopbackURL : string → bool).
Context (Join : list string → string) (Clean : string → string).
Context (UnmarshalRoot : string → option (option (list (string * json)))).
Context (UnmarshalState : content → option installState).
Context (codexStamp claudeStamp : string).

Abbreviation defaults := (withDefaults home GOOS loopbackURL Join).
Abbreviation start := (startOf UnmarshalRoot).
Abbreviation install :=
  (Install fails home GOOS loopbackURL Join Clean UnmarshalRoot UnmarshalState codexStamp claudeStamp).

(** ** Installing *)

Definition codexMerged (cfg : InstallConfig) (root : list (string * json)) : list (string * json) :=
  mergeManagedHooks root codexEvents (hookCommand (TargetOS cfg) (Executable cfg) "codex" (HookURL cfg) (SecretPath cfg)).
Definition claudeMerged (cfg : InstallConfig) (root : list (string * json)) : list (string * json) :=
  mergeManagedHooks root claudeEvents (hookCommand (TargetOS cfg) (Executable cfg) "claude" (HookURL cfg) (SecretPath cfg)).
Definition withWrapper (cfg : InstallConfig) (root : list (string * json)) : list (string * json) :=
  setField root "statusLine" (managedStatusLine
    (statusCommand (TargetOS cfg) (Executable cfg) (HookURL cfg) (SecretPath cfg) (StatePath cfg))).

(** The files an installation writes, its inputs being what the files held. *)
Definition installed (fs : FS) (cfg : InstallConfig) (codex claude : list (string * json)) (codexMode claudeMode : Z)
    : list fileMutation :=
  [mkMutation (StatePath cfg) (StateFile (newState (f ← fs !! StatePath cfg; decodeState UnmarshalState (payload f))
     cfg (claudeMerged cfg claude))) 0x180;
   mkMutation (SecretPath cfg) (Raw (Secret cfg +:+ String "010" "")) 0x180] ++
  (jsonMutations fs (CodexConfigPath cfg) codexStamp (codexMerged cfg codex) codexMode).1 ++
  (jsonMutations fs (ClaudeConfigPath cfg) claudeStamp (withWrapper cfg (claudeMerged cfg claude)) claudeMode).1.

Definition installedFrom (fs : FS) (c cfg : InstallConfig) (codex claude : list (string * json)) (codexMode claudeMode : Z) : Prop :=
  defaults c = Ok cfg ∧ start fs (CodexConfigPath cfg) = Some (Some codex, codexMode) ∧
  start fs (ClaudeConfigPath cfg) = Some (Some claude, claudeMode).

Lemma withDefaults_rollback c : defaults c ≠ Err RollbackFailed.
Proof.
  unfold withDefaults, refuse. destruct home; cbn [mbind result_bind];
  repeat (case_bool_decide || destruct (negb _)); done.
Qed.

Lemma Install_spec c fs :
  from fs (install c) (λ r fs', match r with
  | Ok _ => ∃ cfg codex claude cm km, installedFrom fs c cfg codex claude cm km ∧
            NoDup (fm_path <$> installed fs cfg codex claude cm km) ∧
            fs' = applied (installed fs cfg codex claude cm km) fs
  | Err e => e ≠ RollbackFailed → fs' = fs
  end).
Proof.
  unfold Install.
  refine (from_reads _ _ _ _ _ (reads_lift _ (withDefaults_rollback c)) _ _); [done|]. intros cfg Hcfg.
  refine (from_reads _ _ _ _ _ (reads_call _ _) _ _); [done|]. intros _ _.
  refine (from_reads _ _ _ _ _ (readInstallState_reads _ _ _) _ _); [done|]. intros old Hold.
  refine (from_reads _ _ _ _ _ (readJSONObject_reads _ _ _) _ _); [done|]. intros [codex0 cm] Hcodex.
  refine (from_reads _ _ _ _ _ (readJSONObject_reads _ _ _) _ _); [done|]. intros [claude0 km] Hclaude.
  refine (from_reads _ _ _ _ _ (mergeInto_reads _ _ _) _ _); [done|]. intros codex1 (codex & Hc0 & ->).
  refine (from_reads _ _ _ _ _ (mergeInto_reads _ _ _) _ _); [done|]. intros claude1 (claude & Hk0 & ->).
  cbn [fst] in Hc0, Hk0. subst codex0 claude0.
  refine (from_reads _ _ _ _ _ (jsonFileMutations_reads _ _ _ _ _) _ _); [done|]. intros codexM HcM.
  refine (from_reads _ _ _ _ _ (jsonFileMutations_reads _ _ _ _ _) _ _); [done|]. intros claudeM HkM.
  intros w Hw. unfold mbind, IO_bind.
  match goal with |- context [applyFileTransaction _ _ ?ms _] =>
    replace ms with (installed fs cfg codex claude cm km) by (by subst codexM claudeM old) end.
  pose proof (applyFileTransaction_spec fails Clean (installed fs cfg codex claude cm km) w) as Ht.
  destruct (applyFileTransaction _ _ _ w) as [[[]|e] w']; rewrite Hw in Ht; destruct Ht as [_ Ht]; [|done].
  exists cfg, codex, claude, cm, km. done.
Qed.

(** Everything an installation wrote. *)
Definition writtenFiles (fs fs' : FS) (cfg : InstallConfig) (codex claude : list (string * json)) (cm km : Z) : Prop :=
  fs' !! StatePath cfg = Some (mkFile (StateFile (newState (f ← fs !! StatePath cfg; decodeState UnmarshalState (payload f))
    cfg (claudeMerged cfg claude))) 0x180) ∧
  fs' !! SecretPath cfg = Some (mkFile (Raw (Secret cfg +:+ String "010" "")) 0x180) ∧
  fs' !! CodexConfigPath cfg = Some (mkFile (JsonFile (codexMerged cfg codex)) (orMode cm)) ∧
  fs' !! ClaudeConfigPath cfg = Some (mkFile (JsonFile (withWrapper cfg (claudeMerged cfg claude))) (orMode km)) ∧
  (∀ f, fs !! CodexConfigPath cfg = Some f →
     fs' !! backupName (CodexConfigPath cfg) codexStamp = Some (mkFile (payload f) (orMode (mode f)))) ∧
  (∀ f, fs !! ClaudeConfigPath cfg = Some f →
     fs' !! backupName (ClaudeConfigPath cfg) claudeStamp = Some (mkFile (payload f) (orMode (mode f)))) ∧
  (∀ p, p ∉ [StatePath cfg; SecretPath cfg; CodexConfigPath cfg; ClaudeConfigPath cfg] ++
        backupOf fs (CodexConfigPath cfg) codexStamp ++ backupOf fs (ClaudeConfigPath cfg) claudeStamp →
     fs' !! p = fs !! p).

Lemma applied_installed fs cfg codex claude cm km :
  NoDup (fm_path <$> installed fs cfg codex claude cm km) →
  writtenFiles fs (applied (installed fs cfg codex claude cm km) fs) cfg codex claude cm km.
Proof using Type.
  clear fails home GOOS loopbackURL Join Clean UnmarshalRoot.
  intros Hn.
  assert (Hin : ∀ m, m ∈ installed fs cfg codex claude cm km →
    applied (installed fs cfg codex claude cm km) fs !! fm_path m = Some (mkFile (fm_payload m) (orMode (fm_mode m))))
    by (intros m Hm; by apply applied_in).
  unfold writtenFiles, installed in *.
  pose proof (jsonMutations_last fs (CodexConfigPath cfg) codexStamp (codexMerged cfg codex) cm) as H3.
  pose proof (jsonMutations_last fs (ClaudeConfigPath cfg) claudeStamp (withWrapper cfg (claudeMerged cfg claude)) km) as H4.
  split_and!.
  - refine (Hin (mkMutation _ _ 0x180) _). set_solver.
  - refine (Hin (mkMutation _ _ 0x180) _). set_solver.
  - rewrite <-(orMode_orMode cm). refine (Hin (mkMutation _ _ (orMode cm)) _). set_solver.
  - rewrite <-(orMode_orMode km). refine (Hin (mkMutation _ _ (orMode km)) _). set_solver.
  - intros f Hf. refine (Hin (mkMutation _ _ _) _).
    pose proof (jsonMutations_backup _ _ codexStamp (codexMerged cfg codex) cm f Hf). set_solver.
  - intros f Hf. refine (Hin (mkMutation _ _ _) _).
    pose proof (jsonMutations_backup _ _ claudeStamp (withWrapper cfg (claudeMerged cfg claude)) km f Hf). set_solver.
  - intros p Hp. apply applied_out. rewrite !fmap_app, !elem_of_app, !jsonMutations_paths. set_solver.
Qed.

(** C28. An installation is all or nothing.  On success the state, the secret
    and both configurations are written, each configuration holding exactly
    the merge of what it held (an empty object if it was missing), each
    configuration that existed is backed up with its old content and mode,
    and no other file changed.  On any failure, wherever it happened, every
    file is as it was unless the rollback itself reported a failure. *)
Theorem Install_all_or_nothing (c : InstallConfig) (w : World) :
  let '(r, w') := install c w in
  match r with
  | Ok _ => ∃ cfg codex claude cm km, installedFrom (files w) c cfg codex claude cm km ∧
            writtenFiles (files w) (files w') cfg codex claude cm km
  | Err e => e ≠ RollbackFailed → files w' = files w
  end.
Proof.
  pose proof (Install_spec c (files w) w eq_refl) as H. destruct (install c w) as [[ir|e] w']; [|done].
  destruct H as (cfg & codex & claude & cm & km & H1 & H2 & H3). exists cfg, codex, claude, cm, km. split; [done|].
  rewrite H3. by apply applied_installed.
Qed.
End installing.

(** ** Uninstalling *)

Lemma delField_field fields k k' : field (delField fields k) k' = if bool_decide (k = k') then None else field fields k'.
Proof.
  unfold delField. induction fields as [|[k1 v1] fields IH]; simpl; [by case_bool_decide|].
  rewrite filter_cons. cbn [fst]. destruct (decide (k1 ≠ k)) as [Hk|Hk]; [|apply dec_stable in Hk as ->].
  - cbn [field]. rewrite IH. destruct (decide (k1 = k')) as [->|Hne].
    + rewrite (bool_decide_true (k' = k')), (bool_decide_false (k = k')) by congruence. done.
    + by rewrite (bool_decide_false (k1 = k')).
  - rewrite IH. by case_bool_decide.
Qed.

Lemma string_append_ne (s t : string) : t ≠ "" → s +:+ t ≠ s.
Proof.
  intros Ht. induction s as [|a s IH]; [by destruct t|]. rewrite str_app_cons. congruence.
Qed.
Lemma backupName_ne path stamp : backupName path stamp ≠ path.
Proof. by apply string_append_ne. Qed.

Section uninstalling.
Context (fails : nat → bool).
Context (home : option string) (GOOS : string) (loopbackURL : string → bool).
Context (Join : list string → string) (Clean : string → string).
Context (UnmarshalRoot : string → option (option (list (string * json)))).
Context (UnmarshalState : content → option installState).

Lemma atomicWrite_from p c m fs :
  from fs (atomicWrite fails p c m) (λ r fs', match r with Ok _ => fs' = <[p := mkFile c m]> fs | Err _ => True end).
Proof.
  intros w <-. pose proof (atomicWrite_spec fails p c m w) as H. by destruct (atomicWrite fails p c m w) as [[|] w'].
Qed.

(** What is rewritten in place, with its backup. *)
Definition rewritten (fs : FS) (path stamp : string) (f : file) (root : list (string * json)) : FS :=
  <[path := mkFile (JsonFile root) (orMode (mode f))]>
    (<[backupName path stamp := mkFile (payload f) (orMode (mode f))]> fs).

Lemma backupAndWriteJSON_from path stamp root f fs :
  fs !! path = Some f →
  from fs (backupAndWriteJSON fails path stamp root (mode f)) (λ r fs', match r with
    | Ok _ => fs' = rewritten fs path stamp f root | Err _ => True end).
Proof.
  intros Hf. unfold backupAndWriteJSON.
  refine (from_reads _ _ _ _ _ (reads_call _ _) _ _); [done|]. intros _ _.
  refine (from_reads _ _ _ _ _ reads_files _ _); [done|]. intros g ->. rewrite Hf.
  apply (from_bind (λ r fs', match r with
    | Ok _ => fs' = <[backupName path stamp := mkFile (payload f) (orMode (mode f))]> fs | Err _ => True end)); [|done|].
  - refine (from_reads _ _ _ _ _ (reads_call _ _) _ _); [done|]. intros _ _.
    refine (from_bind _ _ _ _ _ (atomicWrite_from _ _ _ _) _ _); [done|]. intros [] fs' ->. by apply from_ret.
  - intros b fs' ->. refine (from_bind _ _ _ _ _ (atomicWrite_from _ _ _ _) _ _); [done|].
    intros [] fs' ->. by apply from_ret.
Qed.

Lemma uninstallCodex_from path stamp fs root m root' :
  fs !! path = Some (mkFile (JsonFile root) m) → removeManagedHooks root = (root', true) →
  from fs (uninstallCodex fails UnmarshalRoot stamp path) (λ r fs', match r with
    | Ok _ => fs' = rewritten fs path stamp (mkFile (JsonFile root) m) root' | Err _ => True end).
Proof.
  intros Hf Hr. unfold uninstallCodex.
  refine (from_reads _ _ _ _ _ (readJSONObjectIfExists_reads _ _ _) _ _); [done|].
  intros r. rewrite Hf. intros (root0 & [= <-] & ->). rewrite Hr. by apply (backupAndWriteJSON_from path stamp).
Qed.

Lemma uninstallClaude_from path stamp fs state root m root' :
  fs !! path = Some (mkFile (JsonFile root) m) → removeManagedHooks root = (root', true) →
  from fs (uninstallClaude fails UnmarshalRoot stamp state path) (λ r fs', match r with
    | Ok _ => fs' = rewritten fs path stamp (mkFile (JsonFile root) m) (restoreStatusLine state root').1
    | Err _ => True end).
Proof.
  intros Hf Hr. unfold uninstallClaude.
  refine (from_reads _ _ _ _ _ (readJSONObjectIfExists_reads _ _ _) _ _); [done|].
  intros r. rewrite Hf. intros (root0 & [= <-] & ->). rewrite Hr.
  destruct (restoreStatusLine state root') as [root2 restored]. by apply (backupAndWriteJSON_from path stamp).
Qed.

Lemma removeFile_from path fs :
  from fs (removeFile fails path) (λ r fs', is_ok r = true ∧ ∀ q, q ≠ path → fs' !! q = fs !! q).
Proof.
  intros w <-. unfold removeFile, try, call, setFiles, mbind, IO_bind, mret, IO_ret.
  destruct (fails (count w)); cbn; [done|]. split; [done|]. intros q Hq. by rewrite lookup_delete_ne.
Qed.

(** [root'] is the configuration [root] again, up to empty lists of groups. *)
Definition restored (root root' : list (string * json)) : Prop :=
  (∀ k, k ≠ "hooks" → field root' k = field root k) ∧
  (∀ e, groupsOf (hooksOf root') e = groupsOf (hooksOf root) e) ∧
  (∀ e v, field (hooksOf root) e = Some v → v ≠ JArray [] → field (hooksOf root') e = Some v).

Lemma removed_restores root merged events command :
  user_ok root events → NoDup events → events ≠ [] → Contains command ManagedMarker = true →
  field merged "hooks" = Some (JObject (foldl (mergeEvent command) (hooksOf root) events)) →
  ∃ h, removeManagedHooks merged = (setField merged "hooks" (JObject h), true) ∧
    (∀ e, groupsOf h e = groupsOf (hooksOf root) e) ∧
    (∀ e v, field (hooksOf root) e = Some v → v ≠ JArray [] → field h e = Some v).
Proof.
  intros Hok Hn Hne Hc Hf.
  destruct (removed_merged (hooksOf root) events command (proj2 Hok) Hn Hc) as (H1 & H2 & H3).
  eexists. rewrite (removeManagedHooks_eq _ _ Hf), H1 by done. done.
Qed.

Lemma codexEvents_NoDup : NoDup codexEvents.
Proof. apply (bool_decide_unpack _). vm_compute. exact I. Qed.

Lemma codex_restored cfg codex :
  user_ok codex codexEvents →
  ∃ root', removeManagedHooks (codexMerged cfg codex) = (root', true) ∧ restored codex root'.
Proof.
  intros Hok.
  destruct (removed_restores codex (codexMerged cfg codex) codexEvents _ Hok codexEvents_NoDup ltac:(done)
    (hookCommand_marked _ _ _ _ _) (field_merge_hooks _ _ _)) as (h & Hr & H2 & H3).
  eexists. split; [exact Hr|]. unfold restored. rewrite hooksOf_setField. split_and!; [|done|done].
  intros k Hk. unfold codexMerged. by rewrite field_setField, bool_decide_false, field_merge_other.
Qed.

Definition userStatusLine (root : list (string * json)) : Prop :=
  ∀ v, field root "statusLine" = Some v → isManagedValue v = false.

(** The state that an installation over a status line of the user keeps gives
    that status line back. *)
Lemma restoreStatusLine_user old cfg (merged root : list (string * json)) wrapper :
  userStatusLine merged → field root "statusLine" = Some wrapper → isManagedValue wrapper = true →
  field (restoreStatusLine (newState old cfg merged) root).1 "statusLine" = field merged "statusLine" ∧
  (∀ k, k ≠ "statusLine" → field (restoreStatusLine (newState old cfg merged) root).1 k = field root k).
Proof.
  intros Hu Hf Hm. unfold restoreStatusLine. rewrite Hf, Hm. unfold newState. cbn [st_PreviousStatusLineExists st_PreviousStatusLine].
  destruct (field merged "statusLine") as [v|] eqn:E.
  - rewrite (Hu v E), bool_decide_true by done. cbn [fst].
    rewrite field_setField, bool_decide_true by done. split; [done|]. intros k Hk.
    by rewrite field_setField, bool_decide_false.
  - rewrite bool_decide_false by naive_solver. cbn [fst].
    rewrite delField_field, bool_decide_true by done. split; [done|]. intros k Hk.
    by rewrite delField_field, bool_decide_false.
Qed.

Lemma claude_restored old cfg claude :
  user_ok claude claudeEvents → userStatusLine claude →
  ∃ root', removeManagedHooks (withWrapper cfg (claudeMerged cfg claude)) = (root', true) ∧
    restored claude (restoreStatusLine (newState old cfg (claudeMerged cfg claude)) root').1.
Proof.
  intros Hok Hs.
  assert (Hf : field (withWrapper cfg (claudeMerged cfg claude)) "hooks" = field (claudeMerged cfg claude) "hooks")
    by (unfold withWrapper; by rewrite field_setField, bool_decide_false).
  destruct (removed_restores claude (withWrapper cfg (claudeMerged cfg claude)) claudeEvents _ Hok claudeEvents_NoDup ltac:(done)
    (hookCommand_marked _ _ _ _ _) (eq_trans Hf (field_merge_hooks _ _ _))) as (h & Hr & H2 & H3).
  eexists. split; [exact Hr|].
  assert (Hk0 : ∀ k, k ≠ "hooks" → field (claudeMerged cfg claude) k = field claude k)
    by (intros k Hk; by apply field_merge_other).
  destruct (restoreStatusLine_user old cfg (claudeMerged cfg claude)
    (setField (withWrapper cfg (claudeMerged cfg claude)) "hooks" (JObject h)) (managedStatusLine
    (statusCommand (TargetOS cfg) (Executable cfg) (HookURL cfg) (SecretPath cfg) (StatePath cfg)))) as [R1 R2].
  { intros v. rewrite Hk0 by done. apply Hs. }
  { rewrite field_setField, bool_decide_false by done. unfold withWrapper. by rewrite field_setField, bool_decide_true. }
  { apply managedStatusLine_managed, statusCommand_marked. }
  unfold restored. split_and!.
  - intros k Hk. destruct (decide (k = "statusLine")) as [->|Hks]; [by rewrite R1, Hk0|].
    rewrite R2, field_setField, bool_decide_false by done.
    unfold withWrapper. rewrite field_setField, bool_decide_false by done. by apply Hk0.
  - intros e. unfold hooksOf at 1. rewrite R2, field_setField, bool_decide_true by done. apply H2.
  - intros e v Hv Hne. unfold hooksOf at 1. rewrite R2, field_setField, bool_decide_true by done. by apply H3.
Qed.

(** The configuration [c'] of an [Uninstall] names the installation of [c]:
    the same home and state, and each other path the same or left to the
    recorded state. *)
Definition sameInstallation (c c' : InstallConfig) : Prop :=
  HomeDir c' = HomeDir c ∧ StatePath c' = StatePath c ∧
  (CodexConfigPath c' = "" ∨ CodexConfigPath c' = CodexConfigPath c) ∧
  (ClaudeConfigPath c' = "" ∨ ClaudeConfigPath c' = ClaudeConfigPath c) ∧
  (SecretPath c' = "" ∨ SecretPath c' = SecretPath c).

Lemma orPath_again p' p d : p' = "" ∨ p' = p → orPath p' (orPath (orPath p d) d) = orPath p d.
Proof. unfold orPath. intros [-> | ->]; repeat case_bool_decide; congruence. Qed.

(** [filepath.Join] joins what it is given piece by piece. *)
Context (Join_Join : ∀ h a b, Join [Join [h; a]; b] = Join [h; a; b]).

(** What [Uninstall] makes of the two configurations of an installation. *)
Definition uninstalled (fs : FS) (cfg : InstallConfig) (cs ks : string) (codex' claude' : file * list (string * json)) (fs' : FS) : Prop :=
  ∀ p, p ∉ [SecretPath cfg; StatePath cfg] →
  fs' !! p = rewritten (rewritten fs (CodexConfigPath cfg) cs codex'.1 codex'.2) (ClaudeConfigPath cfg) ks claude'.1 claude'.2 !! p.

Lemma Uninstall_from cs ks c c' cfg fs s codex cm codex' claude km claude' :
  withDefaults home GOOS loopbackURL Join c = Ok cfg → sameInstallation c c' →
  (f ← fs !! StatePath cfg; decodeState UnmarshalState (payload f)) = Some s →
  st_CodexPath s = CodexConfigPath cfg → st_ClaudePath s = ClaudeConfigPath cfg → st_SecretPath s = SecretPath cfg →
  fs !! CodexConfigPath cfg = Some (mkFile (JsonFile codex) cm) → removeManagedHooks codex = (codex', true) →
  fs !! ClaudeConfigPath cfg = Some (mkFile (JsonFile claude) km) → removeManagedHooks claude = (claude', true) →
  CodexConfigPath cfg ≠ ClaudeConfigPath cfg → backupName (CodexConfigPath cfg) cs ≠ ClaudeConfigPath cfg →
  from fs (Uninstall fails home Join UnmarshalRoot UnmarshalState cs ks c') (λ r fs', match r with
    | Ok _ => uninstalled fs cfg cs ks (mkFile (JsonFile codex) cm, codex')
                (mkFile (JsonFile claude) km, (restoreStatusLine s claude').1) fs'
    | Err _ => True end).
Proof.
  intros Hd (Hh & Hsp & Hc & Hk & Hx) Hs E1 E2 E3 Hfc Hrc Hfk Hrk Hne Hb.
  unfold withDefaults in Hd. unfold Uninstall. rewrite Hh, Hsp.
  destruct (if bool_decide (HomeDir c = "") then _ else _) as [h|e] eqn:Eh in Hd; [|done].
  cbn [mbind result_bind] in Hd. unfold refuse in Hd. destruct (bool_decide (Executable c = "")); [done|].
  destruct (negb (loopbackURL _)) in Hd; [done|]. destruct (bool_decide (Secret c = "")); [done|]. cbn [mbind result_bind] in Hd.
  injection Hd as <-. rewrite !Join_Join in *. cbn [StatePath CodexConfigPath ClaudeConfigPath SecretPath] in *.
  refine (from_reads (λ _ a, a = h) _ _ _ _ _ _ _); [|done|].
  { intros w. unfold liftR. rewrite Eh. done. }
  intros _ ->.
  refine (from_reads _ _ _ _ _ (readInstallState_reads _ _ _) _ _); [done|]. intros old ->. 
  rewrite Hs. cbn [default]. unfold id. rewrite E1, E2, E3, !orPath_again by done.
  refine (from_bind _ _ _ _ _ (uninstallCodex_from _ cs _ _ _ _ Hfc Hrc) _ _); [done|]. intros b1 fs1 ->.
  refine (from_bind _ _ _ _ _ (uninstallClaude_from _ ks _ _ claude km claude' _ Hrk) _ _).
  { unfold rewritten. by rewrite !lookup_insert_ne. }
  { done. }
  intros b2 fs2 ->.
  refine (from_bind _ _ _ _ _ (removeFile_from _ _) _ _); [done|]. intros [] fs3 [_ H3].
  refine (from_bind _ _ _ _ _ (removeFile_from _ _) _ _); [done|]. intros [] fs4 [_ H4].
  apply from_ret. intros p Hp. cbn [SecretPath StatePath fst snd] in *. rewrite H4, H3 by set_solver. done.
Qed.

Lemma rewritten_other fs path stamp f root p :
  p ≠ path → p ≠ backupName path stamp → rewritten fs path stamp f root !! p = fs !! p.
Proof. intros H1 H2. unfold rewritten. by rewrite !lookup_insert_ne by congruence. Qed.
Lemma rewritten_self fs path stamp f root :
  rewritten fs path stamp f root !! path = Some (mkFile (JsonFile root) (orMode (mode f))).
Proof. unfold rewritten. by rewrite lookup_insert_eq. Qed.

Lemma installed_NoDup cs ks fs cfg codex claude cm km :
  NoDup (fm_path <$> installed UnmarshalState cs ks fs cfg codex claude cm km) →
  CodexConfigPath cfg ≠ ClaudeConfigPath cfg ∧
  (CodexConfigPath cfg ∉ [SecretPath cfg; StatePath cfg]) ∧ (ClaudeConfigPath cfg ∉ [SecretPath cfg; StatePath cfg]).
Proof.
  unfold installed. rewrite !fmap_app, app_assoc. intros H. apply NoDup_app in H as (H12 & Hd & _).
  pose proof (jsonMutations_paths fs (CodexConfigPath cfg) cs (codexMerged cfg codex) cm) as Hc.
  pose proof (jsonMutations_paths fs (ClaudeConfigPath cfg) ks (withWrapper cfg (claudeMerged cfg claude)) km) as Hk.
  split_and!.
  - intros E. apply (Hd (CodexConfigPath cfg)); [apply elem_of_app; right; apply Hc; by left|apply Hk; by left].
  - apply NoDup_app in H12 as (_ & Hd' & _). intros Hin. apply (Hd' (CodexConfigPath cfg)); [cbn [fmap list_fmap fm_path]; set_solver|apply Hc; by left].
  - intros Hin. apply (Hd (ClaudeConfigPath cfg)); [apply elem_of_app; left; cbn [fmap list_fmap fm_path]; set_solver|apply Hk; by left].
Qed.

(** C27. Uninstalling restores what installing changed.  Let an installation
    succeed over configurations without managed entries whose hooks are an
    object, if there are any, with distinct events, of which those that the
    program uses are lists, and of which no group has an empty list of commands
    (such a group is dropped by the uninstallation, and an event that is not a
    list is replaced by the installation).  If later, the files being as it left
    them, an uninstallation of the same installation succeeds, then both
    configurations have their mode and every field other than the hooks again,
    Claude's status line included; every event has the same groups again, an
    event with an empty list of groups apart, whose field may be missing; and
    apart from the program's own state and secret and the backups no other
    file differs from before the installation. *)
Theorem Uninstall_restores (cs1 ks1 cs2 ks2 : string) (c c' cfg : InstallConfig)
    (codex claude : list (string * json)) (cm km : Z) (w v : World) (r1 r2 : InstallResult)
    (Hfrom : installedFrom home GOOS loopbackURL Join UnmarshalRoot (files w) c cfg codex claude cm km)
    (Hcodex : user_ok codex codexEvents) (Hclaude : user_ok claude claudeEvents) (Hline : userStatusLine claude)
    (Hinstall : (Install fails home GOOS loopbackURL Join Clean UnmarshalRoot UnmarshalState cs1 ks1 c w).1 = Ok r1)
    (Hv : files v = files (Install fails home GOOS loopbackURL Join Clean UnmarshalRoot UnmarshalState cs1 ks1 c w).2)
    (Hsame : sameInstallation c c')
    (Huninstall : (Uninstall fails home Join UnmarshalRoot UnmarshalState cs2 ks2 c' v).1 = Ok r2)
    (Hstamps : backupName (CodexConfigPath cfg) cs2 ≠ ClaudeConfigPath cfg ∧
               backupName (ClaudeConfigPath cfg) ks2 ≠ CodexConfigPath cfg) :
  let fs := files (Uninstall fails home Join UnmarshalRoot UnmarshalState cs2 ks2 c' v).2 in
  (∃ codex', fs !! CodexConfigPath cfg = Some (mkFile (JsonFile codex') (orMode cm)) ∧ restored codex codex') ∧
  (∃ claude', fs !! ClaudeConfigPath cfg = Some (mkFile (JsonFile claude') (orMode km)) ∧ restored claude claude') ∧
  (∀ p, p ∉ [StatePath cfg; SecretPath cfg; CodexConfigPath cfg; ClaudeConfigPath cfg;
             backupName (CodexConfigPath cfg) cs1; backupName (ClaudeConfigPath cfg) ks1;
             backupName (CodexConfigPath cfg) cs2; backupName (ClaudeConfigPath cfg) ks2] →
   fs !! p = files w !! p).
Proof.
  pose proof (Install_spec fails home GOOS loopbackURL Join Clean UnmarshalRoot UnmarshalState cs1 ks1 c (files w) w eq_refl) as Hi.
  destruct (Install _ _ _ _ _ _ _ _ _ _ c w) as [r w']. cbn [fst snd] in *. subst r. rewrite <-Hv in Hi. clear Hv w'.
  destruct Hi as (cfg0 & codex0 & claude0 & cm0 & km0 & Hfrom0 & Hn & Hw).
  assert (Heq : cfg0 = cfg ∧ codex0 = codex ∧ claude0 = claude ∧ cm0 = cm ∧ km0 = km).
  { destruct Hfrom as (E1 & E2 & E3), Hfrom0 as (E1' & E2' & E3').
    assert (cfg0 = cfg) as -> by congruence. split_and!; congruence. }
  destruct Heq as (-> & -> & -> & -> & ->).
  destruct (installed_NoDup _ _ _ _ _ _ _ _ Hn) as (Hck & Hcs & Hks).
  pose proof (applied_installed UnmarshalState cs1 ks1 (files w) cfg codex claude cm km Hn) as Hf.
  rewrite <-Hw in Hf. destruct Hf as (Fst & _ & Fc & Fk & _ & _ & Fo).
  destruct (codex_restored cfg codex Hcodex) as (codex' & Rc & Rc').
  destruct (claude_restored (f ← files w !! StatePath cfg; decodeState UnmarshalState (payload f)) cfg claude Hclaude Hline)
    as (claude' & Rk & Rk').
  set (s := newState _ cfg (claudeMerged cfg claude)) in *.
  pose proof (Uninstall_from cs2 ks2 c c' cfg (files v) s (codexMerged cfg codex) (orMode cm) codex'
    (withWrapper cfg (claudeMerged cfg claude)) (orMode km) claude' (proj1 Hfrom) Hsame
    ltac:(by rewrite Fst) eq_refl eq_refl eq_refl Fc Rc Fk Rk Hck (proj1 Hstamps) v eq_refl) as Hu.
  destruct (Uninstall _ _ _ _ _ _ _ c' v) as [r v']. cbn [fst snd] in *. subst r. unfold uninstalled in Hu. cbn [fst snd] in Hu.
  split_and!.
  - exists codex'. split; [|done]. rewrite Hu by done. rewrite rewritten_other by (done || by apply not_eq_sym, Hstamps).
    rewrite rewritten_self. cbn [mode]. by rewrite orMode_orMode.
  - eexists. split; [|exact Rk']. rewrite Hu by done. rewrite rewritten_self. cbn [mode]. by rewrite orMode_orMode.
  - intros p Hp. rewrite Hu by set_solver. rewrite !rewritten_other by set_solver. apply Fo.
    unfold backupOf. destruct (files w !! CodexConfigPath cfg), (files w !! ClaudeConfigPath cfg); set_solver.
Qed.
End uninstalling.

(** ** A concrete installation *)

Definition slash (l : list string) : string := String.concat "/" l.
Lemma slash_Join h a b : slash [slash [h; a]; b] = slash [h; a; b].
Proof. unfold slash. cbn [String.concat]. by rewrite <-!str_app_assoc. Qed.

Definition demo_config : InstallConfig :=
  mkInstallConfig "/home/u" "/opt/qm" "" "s3cret" "" "" "" "" "linux".
Definition demo_uninstall : InstallConfig := mkInstallConfig "/home/u" "" "" "" "" "" "" "" "".
Definition demo_files : FS := {["/home/u/.claude/settings.json" := mkFile (JsonFile user_root) 0x1a4]}.
Definition demo_world : World := mkWorld demo_files 0 0.
Definition demo_install :=
  Install (λ _, false) None "linux" (λ _, true) slash id (λ _, None) (λ _, None) "t1" "t2" demo_config demo_world.
Definition demo_installed : World := mkWorld (files demo_install.2) 0 0.
Definition demo_full : InstallConfig :=
  mkInstallConfig "/home/u" "/opt/qm" "http://127.0.0.1:47632" "s3cret" "/home/u/.codex/hooks.json"
    "/home/u/.claude/settings.json" "/home/u/.quota-monitor/hooks-state.json" "/home/u/.quota-monitor/hook-secret" "linux".

Lemma nil_user_ok events : user_ok [] events.
Proof. split; [by left|]. split; [constructor|]. by split. Qed.

Definition demo_result (backups : list string) : InstallResult :=
  mkInstallResult "/home/u/.codex/hooks.json" "/home/u/.claude/settings.json"
    "/home/u/.quota-monitor/hooks-state.json" "/home/u/.quota-monitor/hook-secret" backups.

Lemma demo_from :
  installedFrom None "linux" (λ _, true) slash (λ _, None) (files demo_world) demo_config demo_full [] user_root 0x180 0x1a4.
Proof. split_and!; vm_compute; reflexivity. Qed.

Lemma user_root_line : userStatusLine user_root.
Proof. intros v. vm_compute. done. Qed.

Lemma demo_same : sameInstallation demo_config demo_uninstall.
Proof. unfold sameInstallation. split_and!; first [reflexivity | by left]. Qed.

Lemma demo_stamps :
  backupName (CodexConfigPath demo_full) "t3" ≠ ClaudeConfigPath demo_full ∧
  backupName (ClaudeConfigPath demo_full) "t4" ≠ CodexConfigPath demo_full.
Proof. split; intros E; vm_compute in E; discriminate. Qed.

Lemma Uninstall_restores_witness :
  let fs := files (Uninstall (λ _, false) None slash (λ _, None) (λ _, None) "t3" "t4" demo_uninstall demo_installed).2 in
  ∃ claude', fs !! ClaudeConfigPath demo_full = Some (mkFile (JsonFile claude') 0x1a4) ∧ restored user_root claude'.
Proof.
  destruct (Uninstall_restores (λ _, false) None "linux" (λ _, true) slash id (λ _, None) (λ _, None) slash_Join
    "t1" "t2" "t3" "t4" demo_config demo_uninstall demo_full [] user_root 0x180 0x1a4 demo_world demo_installed
    (demo_result ["/home/u/.claude/settings.json.quota-monitor.t2.bak"])
    (demo_result ["/home/u/.codex/hooks.json.quota-monitor.t3.bak"; "/home/u/.claude/settings.json.quota-monitor.t4.bak"])
    demo_from (nil_user_ok _) user_root_ok user_root_line
    ltac:(vm_compute; reflexivity) eq_refl demo_same ltac:(vm_compute; reflexivity) demo_stamps) as (_ & H & _).
  exact H.
Defined.
