(* ===== verification/Ledger.v ===== *)
(** * internal/agent: the task ledger

    [ledger.go].  The mutex makes [Apply] and [Snapshot] atomic, so a
    concurrent execution is a sequence of them.  The injected clock is the
    argument [clock]. *)

From S2P Require Import Prelude GoTime GoText Model HookEvent.

Definition DefaultTaskTTL : Duration := 15 * Minute.

Record taskRecord := mkTaskRecord { Task : ActiveTask; Parent : string }.

#[global] Instance taskRecord_eq_dec : EqDecision taskRecord.
Proof. solve_decision. Defined.

Record Ledger := mkLedger { ttl : Duration; tasks : gmap string taskRecord }.

Definition NewLedger (ttl : Duration) : Ledger :=
  mkLedger (if ttl <=? 0 then DefaultTaskTTL else ttl) ∅.

Definition ledgerKey (provider : ProviderName) (kind : TaskKind) (id : string) : string :=
  provider +:+ nul +:+ kind +:+ nul +:+ id.

Definition subTaskID (event : Event) : string :=
  let id := TrimSpace (ev_TaskID event) in
  let id := if bool_decide (id = "") then "unknown" else id in
  ev_SessionID event +:+ ":" +:+ id.

Definition pruneLocked (l : Ledger) (now : Time) : Ledger :=
  let cutoff := Add now (- ttl l) in
  mkLedger (ttl l)
    (filter (λ kv : string * taskRecord, Before (at_LastSeenAt (Task kv.2)) cutoff = false) (tasks l)).

Definition touch (now : Time) (r : taskRecord) : taskRecord :=
  mkTaskRecord (mkActiveTask (at_Provider (Task r)) (at_Kind (Task r)) (at_SessionID (Task r))
                  (at_StartedAt (Task r)) now) (Parent r).

(** [if record, ok := l.tasks[key]; ok { touch } else { create }]. *)
Definition touchOrCreate (l : Ledger) (key : string) (now : Time)
    (provider : ProviderName) (kind : TaskKind) (id parent : string) : Ledger :=
  match tasks l !! key with
  | Some record => mkLedger (ttl l) (<[key := touch now record]> (tasks l))
  | None =>
    mkLedger (ttl l)
      (<[key := mkTaskRecord (mkActiveTask provider kind id now now) parent]> (tasks l))
  end.

Definition touchIfPresent (l : Ledger) (key : string) (now : Time) : Ledger :=
  match tasks l !! key with
  | Some record => mkLedger (ttl l) (<[key := touch now record]> (tasks l))
  | None => l
  end.

Definition deleteKey (l : Ledger) (key : string) : Ledger :=
  mkLedger (ttl l) (delete key (tasks l)).

(** [for key, record := range l.tasks { if p(record) { delete(l.tasks, key) } }]. *)
Definition deleteWhere (l : Ledger) (p : taskRecord → bool) : Ledger :=
  mkLedger (ttl l) (filter (λ kv : string * taskRecord, p kv.2 = false) (tasks l)).

(** The time an event counts for, or [None] when it is older than the TTL: the
    event's own time unless that is a minute or more ahead of the clock. *)
Definition eventTime (ttl : Duration) (clock : Time) (event : Event) : option Time :=
  if negb (IsZero (ev_At event)) then
    if Before (ev_At event) (Add clock (- ttl)) then None
    else if Before (ev_At event) (Add clock Minute) then Some (ev_At event)
    else Some clock
  else Some clock.

(** The switch of [Apply], after pruning. *)
Definition applyEvent (l : Ledger) (now : Time) (event : Event) : Ledger :=
  let mainKey := ledgerKey (ev_Provider event) TaskMain (ev_SessionID event) in
  let name := ev_Name event in
  let hasTask := negb (bool_decide (TrimSpace (ev_TaskID event) = "")) in
  if bool_decide (name = "UserPromptSubmit") then
    if bool_decide (ev_SessionID event = "") then l
    else touchOrCreate l mainKey now (ev_Provider event) TaskMain (ev_SessionID event) (ev_SessionID event)
  else if bool_decide (name = "PostToolUse") then
    let l := touchIfPresent l mainKey now in
    if hasTask
    then touchIfPresent l (ledgerKey (ev_Provider event) TaskSub (subTaskID event)) now
    else l
  else if bool_decide (name = "Stop") || bool_decide (name = "StopFailure") then
    deleteKey l mainKey
  else if bool_decide (name = "SessionEnd") then
    deleteWhere l (λ r, bool_decide (at_Provider (Task r) = ev_Provider event) &&
                        bool_decide (Parent r = ev_SessionID event))
  else if bool_decide (name = "SubagentStart") then
    if bool_decide (ev_SessionID event = "") then l
    else
      let id := subTaskID event in
      touchOrCreate l (ledgerKey (ev_Provider event) TaskSub id) now
        (ev_Provider event) TaskSub id (ev_SessionID event)
  else if bool_decide (name = "SubagentStop") then
    if hasTask
    then deleteKey l (ledgerKey (ev_Provider event) TaskSub (subTaskID event))
    else deleteWhere l (λ r, bool_decide (at_Provider (Task r) = ev_Provider event) &&
                             bool_decide (at_Kind (Task r) = TaskSub) &&
                             bool_decide (Parent r = ev_SessionID event))
  else l.

Definition Apply (l : Ledger) (clock : Time) (event : Event) : Ledger :=
  if ev_Probe event ||
     (negb (bool_decide (ev_Provider event = ProviderCodex)) &&
      negb (bool_decide (ev_Provider event = ProviderClaude)))
  then l
  else
    match eventTime (ttl l) clock event with
    | None => l
    | Some now => applyEvent (pruneLocked l now) now event
    end.

(** [Snapshot] prunes, then lists the tasks sorted by their key. *)
Definition taskKey (t : ActiveTask) : string :=
  ledgerKey (at_Provider t) (at_Kind t) (at_SessionID t).
Definition task_le (t u : ActiveTask) : Prop := str_lt (taskKey u) (taskKey t) = false.
#[global] Instance task_le_dec t u : Decision (task_le t u).
Proof. unfold task_le. apply _. Defined.

Definition Snapshot (l : Ledger) (clock : Time) : list ActiveTask * Ledger :=
  let l := pruneLocked l clock in
  (merge_sort task_le (Task <$> (map_to_list (tasks l)).*2), l).

(** ** Lookups *)

Section lookups.
Implicit Types (l : Ledger) (k : string) (r : taskRecord) (now : Time) (ev : Event).

Lemma lookup_filter_record (p : taskRecord → bool) (m : gmap string taskRecord) k :
  filter (λ kv : string * taskRecord, p kv.2 = false) m !! k =
  match m !! k with Some r => if p r then None else Some r | None => None end.
Proof.
  destruct (m !! k) as [r|] eqn:E.
  - destruct (p r) eqn:P.
    + apply map_lookup_filter_None. right. intros r' Hr. simplify_eq. simpl. by rewrite P.
    + by apply map_lookup_filter_Some.
  - apply map_lookup_filter_None. by left.
Qed.

Lemma pruneLocked_lookup l now k :
  tasks (pruneLocked l now) !! k =
  match tasks l !! k with
  | Some r => if at_LastSeenAt (Task r) <? now - ttl l then None else Some r
  | None => None
  end.
Proof. apply (lookup_filter_record (λ r, Before (at_LastSeenAt (Task r)) (Add now (- ttl l)))). Qed.

Lemma deleteWhere_lookup l p k :
  tasks (deleteWhere l p) !! k =
  match tasks l !! k with Some r => if p r then None else Some r | None => None end.
Proof. apply lookup_filter_record. Qed.

Lemma deleteKey_lookup l key k :
  tasks (deleteKey l key) !! k = if decide (key = k) then None else tasks l !! k.
Proof. simpl. by rewrite lookup_delete. Qed.

Lemma touchIfPresent_lookup l key now k :
  tasks (touchIfPresent l key now) !! k =
  if decide (key = k) then touch now <$> tasks l !! k else tasks l !! k.
Proof.
  unfold touchIfPresent. destruct (tasks l !! key) as [r|] eqn:E; simpl.
  - rewrite lookup_insert. case_decide; [|done]. subst. by rewrite E.
  - case_decide; [|done]. subst. by rewrite E.
Qed.

Lemma touchOrCreate_lookup l key now p kd id parent k :
  tasks (touchOrCreate l key now p kd id parent) !! k =
  if decide (key = k)
  then Some (match tasks l !! k with
             | Some r => touch now r
             | None => mkTaskRecord (mkActiveTask p kd id now now) parent
             end)
  else tasks l !! k.
Proof.
  unfold touchOrCreate. destruct (tasks l !! key) as [r|] eqn:E; simpl;
    rewrite lookup_insert; case_decide; try done; subst; by rewrite E.
Qed.

(** Every operation keeps the TTL. *)
Lemma applyEvent_ttl l now ev : ttl (applyEvent l now ev) = ttl l.
Proof. unfold applyEvent, touchOrCreate, touchIfPresent. repeat case_match; done. Qed.

Lemma Apply_ttl l clock ev : ttl (Apply l clock ev) = ttl l.
Proof. unfold Apply. repeat case_match; [done|by rewrite applyEvent_ttl|done]. Qed.
End lookups.

(** The record an event creates when its task is not known yet. *)
Definition mainRecord (now : Time) (ev : Event) : taskRecord :=
  mkTaskRecord (mkActiveTask (ev_Provider ev) TaskMain (ev_SessionID ev) now now) (ev_SessionID ev).
Definition subRecord (now : Time) (ev : Event) : taskRecord :=
  mkTaskRecord (mkActiveTask (ev_Provider ev) TaskSub (subTaskID ev) now now) (ev_SessionID ev).

(** A property of records that [touch] and the two creations establish is an
    invariant of [applyEvent]. *)
Lemma applyEvent_inv (P : string → taskRecord → Prop) l now ev :
  (∀ k r, P k r → P k (touch now r)) →
  (ev_SessionID ev ≠ "" → P (taskKey (Task (mainRecord now ev))) (mainRecord now ev)) →
  (ev_SessionID ev ≠ "" → P (taskKey (Task (subRecord now ev))) (subRecord now ev)) →
  map_Forall P (tasks l) → map_Forall P (tasks (applyEvent l now ev)).
Proof.
  intros Ht Hm Hs Hl.
  assert (Htouch : ∀ l key, map_Forall P (tasks l) → map_Forall P (tasks (touchIfPresent l key now))).
  { clear l Hl. intros l key Hl k r. rewrite touchIfPresent_lookup.
    case_decide; [|apply Hl]. intros (r' & Hr & ->)%fmap_Some. apply Ht, Hl, Hr. }
  assert (Hcreate : ∀ p kd id parent,
    P (ledgerKey p kd id) (mkTaskRecord (mkActiveTask p kd id now now) parent) →
    map_Forall P (tasks (touchOrCreate l (ledgerKey p kd id) now p kd id parent))).
  { intros p kd id parent Hnew k r. rewrite touchOrCreate_lookup.
    case_decide; [|apply Hl]. subst k. intros [= <-].
    destruct (tasks l !! _) eqn:E; [apply Ht, Hl, E|apply Hnew]. }
  assert (Hdel : ∀ key, map_Forall P (tasks (deleteKey l key))).
  { intros key. by apply map_Forall_delete. }
  assert (Hwhere : ∀ p, map_Forall P (tasks (deleteWhere l p))).
  { intros p k r. rewrite deleteWhere_lookup. destruct (tasks l !! k) eqn:E; [|done].
    case_match; [done|]. intros [= <-]. by apply Hl. }
  unfold applyEvent. repeat case_match; breflect; auto.
Qed.

Lemma pruneLocked_inv (P : string → taskRecord → Prop) l now :
  map_Forall P (tasks l) → map_Forall P (tasks (pruneLocked l now)).
Proof.
  intros Hl k r. rewrite pruneLocked_lookup. destruct (tasks l !! k) eqn:E; [|done].
  case_match; [done|]. intros [= <-]. by apply Hl.
Qed.

(** ** Keys *)

Lemma ledgerKey_inj p p' kd kd' id id' :
  ValidProvider p = true → ValidProvider p' = true →
  ValidTaskKind kd = true → ValidTaskKind kd' = true →
  ledgerKey p kd id = ledgerKey p' kd' id' → p = p' ∧ kd = kd' ∧ id = id'.
Proof.
  rewrite !ValidProvider_true, !ValidTaskKind_true.
  intros [-> | ->] [-> | ->] [-> | ->] [-> | ->]; cbv; intros H;
    first [discriminate H | injection H as ->; done].
Qed.

(** ** The invariant *)

(** A record is stored under its own key, belongs to a supported provider, and
    its session identifier is its parent's, extended for a subagent. *)
Definition record_ok (k : string) (r : taskRecord) : Prop :=
  k = taskKey (Task r) ∧ ValidProvider (at_Provider (Task r)) = true ∧ Parent r ≠ "" ∧
  (at_Kind (Task r) = TaskMain ∧ at_SessionID (Task r) = Parent r ∨
   at_Kind (Task r) = TaskSub ∧ ∃ id, id ≠ "" ∧ at_SessionID (Task r) = Parent r +:+ ":" +:+ id).

Definition ledger_ok (l : Ledger) : Prop := 0 < ttl l ∧ map_Forall record_ok (tasks l).

Lemma record_ok_kind k r : record_ok k r → ValidTaskKind (at_Kind (Task r)) = true.
Proof.
  intros (_ & _ & _ & H). apply ValidTaskKind_true.
  destruct H as [[-> _]|[-> _]]; auto.
Qed.

Lemma record_ok_main now ev :
  ValidProvider (ev_Provider ev) = true → ev_SessionID ev ≠ "" →
  record_ok (taskKey (Task (mainRecord now ev))) (mainRecord now ev).
Proof. intros Hp Hs. split_and!; [done..|by left]. Qed.

Lemma record_ok_sub now ev :
  ValidProvider (ev_Provider ev) = true → ev_SessionID ev ≠ "" →
  record_ok (taskKey (Task (subRecord now ev))) (subRecord now ev).
Proof.
  intros Hp Hs. split_and!; [done..|]. right. split; [done|].
  exists (if bool_decide (TrimSpace (ev_TaskID ev) = "") then "unknown" else TrimSpace (ev_TaskID ev)).
  split; [by case_bool_decide|done].
Qed.

Lemma record_ok_touch now k r : record_ok k r → record_ok k (touch now r).
Proof. done. Qed.

Lemma NewLedger_ok d : ledger_ok (NewLedger d).
Proof.
  split; [|apply map_Forall_empty]. simpl. destruct (Z.leb_spec d 0); [done|lia].
Qed.

Lemma pruneLocked_ok l now : ledger_ok l → ledger_ok (pruneLocked l now).
Proof. intros [? ?]. split; [done|by apply pruneLocked_inv]. Qed.

(** The events [Apply] acts on. *)
Definition accepted (ev : Event) : Prop :=
  ev_Probe ev = false ∧ ValidProvider (ev_Provider ev) = true.

Lemma Apply_accepted l clock ev :
  accepted ev →
  Apply l clock ev =
  match eventTime (ttl l) clock ev with
  | None => l
  | Some now => applyEvent (pruneLocked l now) now ev
  end.
Proof.
  intros [Hp Hv]. apply ValidProvider_true in Hv. unfold Apply. rewrite Hp. simpl.
  destruct Hv as [-> | ->]; done.
Qed.

Lemma Apply_rejected l clock ev : ¬ accepted ev → Apply l clock ev = l.
Proof.
  unfold accepted, Apply, ValidProvider. intros H.
  destruct (ev_Probe ev); [done|]. simpl.
  do 2 case_bool_decide; simpl; try done; destruct H; done.
Qed.

Lemma accepted_dec ev : accepted ev ∨ ¬ accepted ev.
Proof.
  unfold accepted. destruct (ev_Probe ev), (ValidProvider (ev_Provider ev)); auto;
    right; by intros [? ?].
Qed.

Lemma Apply_ok l clock ev : ledger_ok l → ledger_ok (Apply l clock ev).
Proof.
  intros Hl. destruct (accepted_dec ev) as [Ha|Ha]; [|by rewrite Apply_rejected].
  rewrite Apply_accepted by done. destruct (eventTime _ _ _) as [now|]; [|done].
  destruct (pruneLocked_ok l now Hl) as [Ht Hl']. split; [by rewrite applyEvent_ttl|].
  destruct Ha as [_ Hv]. apply applyEvent_inv; eauto using record_ok_main, record_ok_sub.
Qed.

Lemma Snapshot_ok l clock : ledger_ok l → ledger_ok (Snapshot l clock).2.
Proof. apply pruneLocked_ok. Qed.

#[export] Hint Resolve NewLedger_ok pruneLocked_ok Apply_ok Snapshot_ok record_ok_kind : qmon.

(** ** Specification of [Apply] on records

    What an event means for a known task, and the task it starts, said in
    terms of providers, kinds and sessions rather than of map keys. *)

Definition is_task (p : ProviderName) (kd : TaskKind) (id : string) (r : taskRecord) : bool :=
  bool_decide (at_Provider (Task r) = p) && bool_decide (at_Kind (Task r) = kd) &&
  bool_decide (at_SessionID (Task r) = id).

Definition hasTaskID (ev : Event) : bool := negb (bool_decide (TrimSpace (ev_TaskID ev) = "")).

(** The event ends the task. *)
Definition ends (ev : Event) (r : taskRecord) : bool :=
  let name := ev_Name ev in
  if bool_decide (name = "Stop") || bool_decide (name = "StopFailure") then
    is_task (ev_Provider ev) TaskMain (ev_SessionID ev) r
  else if bool_decide (name = "SessionEnd") then
    bool_decide (at_Provider (Task r) = ev_Provider ev) && bool_decide (Parent r = ev_SessionID ev)
  else if bool_decide (name = "SubagentStop") then
    if hasTaskID ev then is_task (ev_Provider ev) TaskSub (subTaskID ev) r
    else bool_decide (at_Provider (Task r) = ev_Provider ev) && bool_decide (at_Kind (Task r) = TaskSub) &&
         bool_decide (Parent r = ev_SessionID ev)
  else false.

(** The event shows that the task is still running. *)
Definition continues (ev : Event) (r : taskRecord) : bool :=
  let name := ev_Name ev in
  if bool_decide (name = "UserPromptSubmit") then
    negb (bool_decide (ev_SessionID ev = "")) && is_task (ev_Provider ev) TaskMain (ev_SessionID ev) r
  else if bool_decide (name = "SubagentStart") then
    negb (bool_decide (ev_SessionID ev = "")) && is_task (ev_Provider ev) TaskSub (subTaskID ev) r
  else if bool_decide (name = "PostToolUse") then
    is_task (ev_Provider ev) TaskMain (ev_SessionID ev) r ||
    (hasTaskID ev && is_task (ev_Provider ev) TaskSub (subTaskID ev) r)
  else false.

(** The task the event starts. *)
Definition begins (now : Time) (ev : Event) : option taskRecord :=
  if bool_decide (ev_SessionID ev = "") then None
  else if bool_decide (ev_Name ev = "UserPromptSubmit") then Some (mainRecord now ev)
  else if bool_decide (ev_Name ev = "SubagentStart") then Some (subRecord now ev)
  else None.

Definition after (now : Time) (ev : Event) (k : string) (o : option taskRecord) : option taskRecord :=
  match o with
  | Some r => if ends ev r then None else if continues ev r then Some (touch now r) else Some r
  | None =>
    r ← begins now ev;
    if bool_decide (taskKey (Task r) = k) then Some r else None
  end.

Lemma decide_key {A} p kd id k r (a b : A) :
  record_ok k r → ValidProvider p = true → ValidTaskKind kd = true →
  (if decide (ledgerKey p kd id = k) then a else b) = if is_task p kd id r then a else b.
Proof.
  intros Hr Hp Hk. pose proof (record_ok_kind _ _ Hr) as Hkr. destruct Hr as (-> & Hpr & _).
  unfold is_task, taskKey. case_decide as Hkey.
  - apply ledgerKey_inj in Hkey as (<- & <- & <-); [|done..]. by rewrite !bool_decide_eq_true_2.
  - repeat case_bool_decide; simpl; try done. by subst.
Qed.

Lemma touch_is_task now p kd id r : is_task p kd id (touch now r) = is_task p kd id r.
Proof. done. Qed.

(** The names the switch distinguishes. *)
Inductive name_case (n : string) : Prop :=
| is_Prompt : n = "UserPromptSubmit" → name_case n
| is_Tool : n = "PostToolUse" → name_case n
| is_Stop : n = "Stop" ∨ n = "StopFailure" → name_case n
| is_End : n = "SessionEnd" → name_case n
| is_SubStart : n = "SubagentStart" → name_case n
| is_SubStop : n = "SubagentStop" → name_case n
| is_Other : n ∉ ["UserPromptSubmit"; "PostToolUse"; "Stop"; "StopFailure"; "SessionEnd";
                   "SubagentStart"; "SubagentStop"] → name_case n.

Lemma name_cases n : name_case n.
Proof.
  destruct (decide (n ∈ ["UserPromptSubmit"; "PostToolUse"; "Stop"; "StopFailure"; "SessionEnd";
                          "SubagentStart"; "SubagentStop"])) as [H|H]; [|by apply is_Other].
  rewrite !elem_of_cons, elem_of_nil in H.
  destruct H as [?|[?|[?|[?|[?|[?|[?|[]]]]]]]];
    eauto using is_Prompt, is_Tool, is_Stop, is_End, is_SubStart, is_SubStop.
Qed.

(** Decide the comparisons of an event name that is known. *)
Ltac name_simpl :=
  repeat match goal with
  | |- context [bool_decide (?n = ?s)] =>
      first [rewrite (bool_decide_eq_true_2 (n = s)) by congruence
            |rewrite (bool_decide_eq_false_2 (n = s)) by (set_solver || congruence)]
  end; cbn [orb].

Lemma applyEvent_lookup l now ev k :
  map_Forall record_ok (tasks l) → ValidProvider (ev_Provider ev) = true →
  tasks (applyEvent l now ev) !! k = after now ev k (tasks l !! k).
Proof.
  intros Hl Hp.
  assert (Hm : ValidTaskKind TaskMain = true) by done.
  assert (Hs : ValidTaskKind TaskSub = true) by done.
  unfold applyEvent, after, ends, continues, begins. fold (hasTaskID ev).
  destruct (name_cases (ev_Name ev)) as [E|E|[E|E]|E|E|E|E]; rewrite ?E; name_simpl.
  - (* UserPromptSubmit *)
    case_bool_decide; simpl; [by destruct (tasks l !! k)|].
    rewrite touchOrCreate_lookup. destruct (tasks l !! k) as [r|] eqn:Hk.
    + rewrite (decide_key _ _ _ _ r) by (done || by apply Hl). done.
    + unfold taskKey. simpl. case_decide; case_bool_decide; done.
  - (* PostToolUse *)
    assert (Hb : ((r ← (if bool_decide (ev_SessionID ev = "") then None else None);
             if bool_decide (taskKey (Task r) = k) then Some r else None) : option taskRecord) = None)
      by by case_bool_decide.
    rewrite Hb. clear Hb.
    destruct (hasTaskID ev); rewrite !touchIfPresent_lookup;
      (destruct (tasks l !! k) as [r|] eqn:Hk; [|by repeat case_decide]);
      pose proof (Hl _ _ Hk) as Hr;
      rewrite !(decide_key _ _ _ _ r) by done;
      [|by destruct (is_task _ TaskMain _ _)].
    destruct (is_task _ TaskMain _ _) eqn:E1, (is_task _ TaskSub _ _) eqn:E2; try done.
  - (* Stop *)
    rewrite deleteKey_lookup. destruct (tasks l !! k) as [r|] eqn:Hk.
    + rewrite (decide_key _ _ _ _ r) by (done || by apply Hl). done.
    + case_decide; case_bool_decide; done.
  - (* StopFailure *)
    rewrite deleteKey_lookup. destruct (tasks l !! k) as [r|] eqn:Hk.
    + rewrite (decide_key _ _ _ _ r) by (done || by apply Hl). done.
    + case_decide; case_bool_decide; done.
  - (* SessionEnd *)
    rewrite deleteWhere_lookup. destruct (tasks l !! k) as [r|] eqn:Hk; [done|].
    by case_bool_decide.
  - (* SubagentStart *)
    case_bool_decide; simpl; [by destruct (tasks l !! k)|].
    rewrite touchOrCreate_lookup. destruct (tasks l !! k) as [r|] eqn:Hk.
    + rewrite (decide_key _ _ _ _ r) by (done || by apply Hl). done.
    + unfold taskKey. simpl. case_decide; case_bool_decide; done.
  - (* SubagentStop *)
    destruct (hasTaskID ev).
    + rewrite deleteKey_lookup. destruct (tasks l !! k) as [r|] eqn:Hk.
      * rewrite (decide_key _ _ _ _ r) by (done || by apply Hl). done.
      * case_decide; case_bool_decide; done.
    + rewrite deleteWhere_lookup. destruct (tasks l !! k) as [r|] eqn:Hk; [done|].
      by case_bool_decide.
  - (* other names *)
    destruct (tasks l !! k); [done|]. by case_bool_decide.
Qed.

(** ** Snapshots *)

Lemma str_compare_antisym s t :
  Stdlib.Strings.String.compare s t = CompOpp (Stdlib.Strings.String.compare t s).
Proof. apply Stdlib.Strings.String.compare_antisym. Qed.

#[export] Instance task_le_total : Total task_le.
Proof.
  intros t u. unfold task_le, str_lt, Stdlib.Strings.String.ltb.
  rewrite (str_compare_antisym (taskKey u)).
  destruct (Stdlib.Strings.String.compare (taskKey t) (taskKey u)); auto.
Qed.

Lemma Snapshot_perm l clock :
  (Snapshot l clock).1 ≡ₚ Task <$> (map_to_list (tasks (pruneLocked l clock))).*2.
Proof. unfold Snapshot. simpl. apply merge_sort_Permutation. Qed.

Lemma Snapshot_elem l clock t :
  t ∈ (Snapshot l clock).1 ↔
  ∃ k r, tasks l !! k = Some r ∧ Task r = t ∧ clock - ttl l <= at_LastSeenAt t.
Proof.
  rewrite Snapshot_perm, list_elem_of_fmap. split.
  - intros (r & -> & ([k r'] & -> & Hk)%list_elem_of_fmap).
    apply elem_of_map_to_list in Hk. rewrite pruneLocked_lookup in Hk. simpl.
    destruct (tasks l !! k) as [r|] eqn:E; [|done]. case_match; [done|].
    injection Hk as <-. exists k, r. breflect. split_and!; done.
  - intros (k & r & Hk & <- & Ht). exists r. split; [done|].
    apply list_elem_of_fmap. exists (k, r). split; [done|].
    apply elem_of_map_to_list. rewrite pruneLocked_lookup, Hk.
    by assert ((at_LastSeenAt (Task r) <? clock - ttl l) = false) as -> by (apply Z.ltb_ge; lia).
Qed.

Lemma NoDup_fmap_on {A B} (f : A → B) (l : list A) :
  (∀ x y, x ∈ l → y ∈ l → f x = f y → x = y) → NoDup l → NoDup (f <$> l).
Proof.
  intros Hf Hl. induction Hl as [|x l Hx Hl IH]; simpl; [constructor|]. constructor.
  - intros (y & E & Hy)%list_elem_of_fmap. apply Hx.
    rewrite (Hf x y); [done|set_solver..|done].
  - apply IH. intros a b Ha Hb. apply Hf; set_solver.
Qed.

(** The keys of a snapshot are those of the map, so they are distinct. *)
Lemma Snapshot_keys l clock :
  ledger_ok l → NoDup (taskKey <$> (Snapshot l clock).1).
Proof.
  intros [_ Hl]. rewrite Snapshot_perm.
  rewrite <-!list_fmap_compose. apply NoDup_fmap_on; [|apply NoDup_map_to_list].
  intros [k r] [k' r'] Hk Hk' E. simpl in E.
  apply elem_of_map_to_list in Hk. apply elem_of_map_to_list in Hk'.
  assert (Hok : map_Forall record_ok (tasks (pruneLocked l clock))) by by apply pruneLocked_inv.
  pose proof (proj1 (Hok _ _ Hk)) as H1. pose proof (proj1 (Hok _ _ Hk')) as H2.
  assert (k = k') by congruence. subst k'. congruence.
Qed.

Lemma Snapshot_sorted l clock : Sorted task_le (Snapshot l clock).1.
Proof. unfold Snapshot. simpl. apply Sorted_merge_sort, _. Qed.

(** ** Histories *)

(** A history applies events at clock readings. *)
Definition applyAll (l : Ledger) (h : list (Time * Event)) : Ledger :=
  foldl (λ l ce, Apply l ce.1 ce.2) l h.

Lemma applyAll_ok l h : ledger_ok l → ledger_ok (applyAll l h).
Proof.
  revert l. induction h as [|[c ev] h IH]; intros l Hl; [done|]. simpl. apply IH. by apply Apply_ok.
Qed.

Lemma applyAll_ttl l h : ttl (applyAll l h) = ttl l.
Proof.
  revert l. induction h as [|[c ev] h IH]; intros l; [done|]. simpl.
  rewrite IH. apply Apply_ttl.
Qed.

Lemma eventTime_le d clock ev now : eventTime d clock ev = Some now → now <= clock + Minute.
Proof.
  unfold eventTime, Minute, Second, Add. repeat case_match; try done; intros [= <-]; time_simpl; lia.
Qed.

(** No last-seen time is ahead of the clocks of the history by more than a minute. *)
Lemma applyAll_seen l h T :
  Forall (λ ce, ce.1 <= T) h →
  map_Forall (λ _ r, at_LastSeenAt (Task r) <= T + Minute) (tasks l) →
  map_Forall (λ _ r, at_LastSeenAt (Task r) <= T + Minute) (tasks (applyAll l h)).
Proof.
  revert l. induction h as [|[c ev] h IH]; intros l Hh Hl; [done|].
  apply Forall_cons in Hh as [Hc Hh]. simpl in *. apply IH; [done|].
  destruct (accepted_dec ev) as [Ha|Ha]; [|by rewrite Apply_rejected].
  rewrite Apply_accepted by done. destruct (eventTime _ _ _) as [now|] eqn:E; [|done].
  apply eventTime_le in E.
  apply applyEvent_inv; simpl; try lia. by apply pruneLocked_inv.
Qed.

(** ** Properties *)

(** C26. [Apply] implements its record-level specification: on a well-formed
    ledger, after an accepted event with effective time [now], each task that
    is not outside the TTL is gone if the event ends it, has its last-seen time
    set to [now] (and its start kept) if the event continues it, and is
    unchanged otherwise; a prompt or a subagent start of an unknown task adds
    exactly that task. *)
Theorem Apply_spec (l : Ledger) (clock now : Time) (ev : Event) (k : string)
    (Hl : ledger_ok l) (Hev : accepted ev) (Hnow : eventTime (ttl l) clock ev = Some now) :
  tasks (Apply l clock ev) !! k =
  after now ev k
    (r ← tasks l !! k; if at_LastSeenAt (Task r) <? now - ttl l then None else Some r).
Proof.
  rewrite Apply_accepted, Hnow by done.
  rewrite applyEvent_lookup; [|apply pruneLocked_inv, Hl|apply Hev].
  rewrite pruneLocked_lookup. by destruct (tasks l !! k).
Qed.

Definition demo_event (name session task : string) (at_ : Time) : Event :=
  mkEvent ProviderCodex name session task at_ false.

Definition demo_ledger : Ledger :=
  applyAll (NewLedger 0)
    [(10 * Second, demo_event "UserPromptSubmit" "s" "" zeroTime);
     (20 * Second, demo_event "SubagentStart" "s" "a" zeroTime)].

Lemma Apply_spec_witness :
  let ev := demo_event "Stop" "s" "" zeroTime in
  let k := ledgerKey ProviderCodex TaskMain "s" in
  accepted ev ∧ is_Some (tasks demo_ledger !! k) ∧
  tasks (Apply demo_ledger (30 * Second) ev) !! k = None.
Proof.
  intros ev k. split; [done|]. split; [vm_compute; eauto|].
  rewrite (Apply_spec demo_ledger (30 * Second) (30 * Second) ev k).
  - vm_compute. reflexivity.
  - apply applyAll_ok, NewLedger_ok.
  - done.
  - vm_compute. reflexivity.
Defined.

(** A snapshot of a well-formed ledger is complete and canonical: it lists
    exactly the tasks seen within the TTL, each under a key no other listed
    task has, in increasing key order, and the ledger stays well formed. *)
Theorem Snapshot_canonical (l : Ledger) (clock : Time) (Hl : ledger_ok l) :
  (∀ t, t ∈ (Snapshot l clock).1 ↔
     ∃ k r, tasks l !! k = Some r ∧ Task r = t ∧ clock - ttl l <= at_LastSeenAt t) ∧
  NoDup (taskKey <$> (Snapshot l clock).1) ∧
  Sorted task_le (Snapshot l clock).1 ∧
  ledger_ok (Snapshot l clock).2.
Proof.
  split; [intros t; apply Snapshot_elem|]. split; [by apply Snapshot_keys|].
  split; [apply Snapshot_sorted|by apply Snapshot_ok].
Qed.

Lemma Snapshot_canonical_witness :
  at_SessionID <$> (Snapshot demo_ledger (30 * Second)).1 = ["s"; "s:a"] ∧
  NoDup (taskKey <$> (Snapshot demo_ledger (30 * Second)).1).
Proof.
  split; [vm_compute; reflexivity|].
  apply (Snapshot_canonical demo_ledger (30 * Second)). apply applyAll_ok, NewLedger_ok.
Defined.

(** No phantom tasks: whatever events were applied, with whatever
    timestamps and however many stop events were lost, once the clock has
    passed the last application by more than the TTL and the one-minute
    tolerance, a snapshot reports no task at all. *)
Theorem Ledger_no_phantoms (d : Duration) (h : list (Time * Event)) (T clock : Time)
    (Hh : Forall (λ ce, ce.1 <= T) h) (Hclock : T + Minute + ttl (NewLedger d) < clock) :
  (Snapshot (applyAll (NewLedger d) h) clock).1 = [].
Proof.
  destruct ((Snapshot (applyAll (NewLedger d) h) clock).1) as [|t ts] eqn:E; [done|].
  assert (Ht : t ∈ (Snapshot (applyAll (NewLedger d) h) clock).1) by (rewrite E; constructor).
  apply Snapshot_elem in Ht as (k & r & Hk & <- & Ht). rewrite applyAll_ttl in Ht.
  pose proof (applyAll_seen (NewLedger d) h T Hh (map_Forall_empty _) _ _ Hk). simpl in *. lia.
Qed.

Lemma Ledger_no_phantoms_witness :
  (Snapshot demo_ledger (17 * Minute)).1 = [].
Proof.
  apply (Ledger_no_phantoms 0 _ (20 * Second) (17 * Minute)).
  - repeat (constructor; [vm_compute; discriminate|]). constructor.
  - vm_compute. reflexivity.
Defined.
