(* ===== verification/Validate.v ===== *)
(** * internal/server: report validation

    [ValidateAgentReport], [validateWindow], [validAgentID] and
    [validSessionID] of [server.go].  The theorem of this file is that the
    validator accepts exactly the reports of a declarative specification, so
    acceptance does not depend on the iteration order of the Providers map. *)

From S2P Require Import Prelude GoTime GoText GoFloat Model.

Definition MaxFutureSkew : Duration := 5 * Minute.
Definition MaxReportAge : Duration := 15 * Minute.

(** The error messages, by what they say. *)
Inductive WindowFault :=
| UsedOutOfRange | RemainingOutOfRange | SumNotHundred | NullResetUsed | ZeroReset.

Inductive TaskFault :=
| BadProvider | BadKind | BadSession | TimesRequired | SeenBeforeStart | TooFarInFuture | DuplicateTask.

Inductive ValidationError :=
| UnsupportedSchema (v : Z)
| BadAgentID
| SentAtRequired | SentAtFuture | SentAtOld
| ProvidersRequired | TasksRequired | TooManyTasks
| UnsupportedProvider (p : ProviderName)
| MetadataTooLong (p : ProviderName)
| ObservedAtRequired (p : ProviderName)
| ObservedAtFuture (p : ProviderName)
| WindowInvalid (name : string) (f : WindowFault)
| TaskInvalid (i : Z) (f : TaskFault).

#[global] Instance WindowFault_eq_dec : EqDecision WindowFault.
Proof. solve_decision. Defined.
#[global] Instance TaskFault_eq_dec : EqDecision TaskFault.
Proof. solve_decision. Defined.
#[global] Instance ValidationError_eq_dec : EqDecision ValidationError.
Proof. solve_decision. Defined.

(** [validAgentID]: 1-64 bytes, every rune a letter, a digit, dot, underscore
    or hyphen. *)
Definition agentIDRune (r : Z) : bool :=
  is_lower r || is_upper r || is_digit r || (r =? 46) || (r =? 95) || (r =? 45).

Definition validAgentID (value : string) : bool :=
  if (len value =? 0) || (64 <? len value) then false
  else forallb agentIDRune (runes value).

Definition validSessionID (value : string) : bool :=
  if (len value =? 0) || (256 <? len value) then false
  else forallb (λ r, negb (IsControl r)) (runes value).

Definition percentOutOfRange (x : float64) : bool :=
  IsNaN x || IsInf x || f_lt x f_zero || f_lt f_hundred x.

Definition validateWindow (window : option LimitWindow) : result WindowFault unit :=
  match window with
  | None => Ok tt
  | Some w =>
    _ ← refuse (percentOutOfRange (UsedPercent w)) UsedOutOfRange;
    _ ← refuse (percentOutOfRange (RemainingPercent w)) RemainingOutOfRange;
    _ ← refuse (f_lt f_cent (f_abs (f_sub (f_add (UsedPercent w) (RemainingPercent w)) f_hundred)))
               SumNotHundred;
    match ResetsAt w with
    | None =>
      refuse (negb (f_eq (UsedPercent w) f_zero) || negb (f_eq (RemainingPercent w) f_hundred))
             NullResetUsed
    | Some t => refuse (IsZero t) ZeroReset
    end
  end.

(** [fmt.Errorf("%s ...", name)]. *)
Definition named (name : string) (m : result WindowFault unit) : result ValidationError unit :=
  match m with Ok u => Ok u | Err f => Err (WindowInvalid name f) end.

(** The body of the loop over [report.Providers]. *)
Definition validateProvider (now sentAt : Time) (kv : ProviderName * ProviderReport) (_ : unit)
    : result ValidationError unit :=
  let '(provider, r) := kv in
  _ ← refuse (negb (bool_decide (provider = ProviderCodex)) && negb (bool_decide (provider = ProviderClaude)))
             (UnsupportedProvider provider);
  _ ← refuse ((64 <? len (pr_AuthState r)) || (128 <? len (pr_Plan r)) ||
              (128 <? len (pr_Source r)) || (128 <? len (pr_ErrorCode r)))
             (MetadataTooLong provider);
  _ ← (if IsZero (pr_ObservedAt r)
       then refuse (bool_decide (FiveHour (pr_Windows r) ≠ None) || bool_decide (SevenDay (pr_Windows r) ≠ None))
                   (ObservedAtRequired provider)
       else refuse (After (pr_ObservedAt r) (Add sentAt MaxFutureSkew) ||
                    After (pr_ObservedAt r) (Add now MaxFutureSkew))
                   (ObservedAtFuture provider));
  _ ← named (provider +:+ " fiveHour") (validateWindow (FiveHour (pr_Windows r)));
  named (provider +:+ " sevenDay") (validateWindow (SevenDay (pr_Windows r))).

(** The key of the [seen] set. *)
Definition seenKey (t : ActiveTask) : string := at_Provider t +:+ nul +:+ at_SessionID t.

(** The checks of one task, before the duplicate check. *)
Definition validateTask (now sentAt : Time) (t : ActiveTask) : result TaskFault unit :=
  _ ← refuse (negb (bool_decide (at_Provider t = ProviderCodex)) &&
              negb (bool_decide (at_Provider t = ProviderClaude))) BadProvider;
  _ ← refuse (negb (bool_decide (at_Kind t = TaskMain)) && negb (bool_decide (at_Kind t = TaskSub))) BadKind;
  _ ← refuse (negb (validSessionID (at_SessionID t))) BadSession;
  _ ← refuse (IsZero (at_StartedAt t) || IsZero (at_LastSeenAt t)) TimesRequired;
  _ ← refuse (Before (at_LastSeenAt t) (at_StartedAt t)) SeenBeforeStart;
  refuse (After (at_StartedAt t) (Add now MaxFutureSkew) || After (at_LastSeenAt t) (Add now MaxFutureSkew) ||
          After (at_StartedAt t) (Add sentAt MaxFutureSkew) || After (at_LastSeenAt t) (Add sentAt MaxFutureSkew))
         TooFarInFuture.

(** The loop over [report.ActiveTasks], from index [i]. *)
Fixpoint validateTasks (now sentAt : Time) (i : Z) (seen : gset string) (ts : list ActiveTask)
    : result ValidationError unit :=
  match ts with
  | [] => Ok tt
  | t :: ts =>
    match validateTask now sentAt t with
    | Err f => Err (TaskInvalid i f)
    | Ok _ =>
      if bool_decide (seenKey t ∈ seen) then Err (TaskInvalid i DuplicateTask)
      else validateTasks now sentAt (i + 1) ({[seenKey t]} ∪ seen) ts
    end
  end.

(** Go ranges over the Providers map in any order; here the entries are taken in
    the order of the finite map.  Which entry's error comes first depends on
    that order, whether there is one does not. *)
Definition ValidateAgentReport (report : AgentReport) (now : Time) : result ValidationError unit :=
  _ ← refuse (negb (ar_SchemaVersion report =? SchemaVersion)) (UnsupportedSchema (ar_SchemaVersion report));
  _ ← refuse (negb (validAgentID (ar_AgentID report))) BadAgentID;
  _ ← refuse (IsZero (ar_SentAt report)) SentAtRequired;
  _ ← refuse (After (ar_SentAt report) (Add now MaxFutureSkew)) SentAtFuture;
  _ ← refuse (Before (ar_SentAt report) (Add now (- MaxReportAge))) SentAtOld;
  match ar_Providers report with
  | None => Err ProvidersRequired
  | Some providers =>
    match ar_ActiveTasks report with
    | None => Err TasksRequired
    | Some ts =>
      _ ← refuse (256 <? Z.of_nat (length ts)) TooManyTasks;
      _ ← iterM (validateProvider now (ar_SentAt report)) (map_to_list providers) tt;
      validateTasks now (ar_SentAt report) 0 ∅ ts
    end
  end.

(** ** The specification *)

Definition window_ok (w : LimitWindow) : Prop :=
  percent (UsedPercent w) ∧ percent (RemainingPercent w) ∧
  f_lt f_cent (f_abs (f_sub (f_add (UsedPercent w) (RemainingPercent w)) f_hundred)) = false ∧
  match ResetsAt w with
  | None => f_eq (UsedPercent w) f_zero = true ∧ f_eq (RemainingPercent w) f_hundred = true
  | Some t => t ≠ zeroTime
  end.

Definition windows_ok (ws : ProviderWindows) : Prop :=
  (∀ w, FiveHour ws = Some w → window_ok w) ∧ (∀ w, SevenDay ws = Some w → window_ok w).

Definition provider_ok (now sentAt : Time) (p : ProviderName) (r : ProviderReport) : Prop :=
  (p = ProviderCodex ∨ p = ProviderClaude) ∧
  len (pr_AuthState r) <= 64 ∧ len (pr_Plan r) <= 128 ∧ len (pr_Source r) <= 128 ∧
  len (pr_ErrorCode r) <= 128 ∧
  (pr_ObservedAt r = zeroTime → pr_Windows r = noWindows) ∧
  (pr_ObservedAt r ≠ zeroTime →
     pr_ObservedAt r <= sentAt + MaxFutureSkew ∧ pr_ObservedAt r <= now + MaxFutureSkew) ∧
  windows_ok (pr_Windows r).

Definition task_ok (now sentAt : Time) (t : ActiveTask) : Prop :=
  (at_Provider t = ProviderCodex ∨ at_Provider t = ProviderClaude) ∧
  (at_Kind t = TaskMain ∨ at_Kind t = TaskSub) ∧
  validSessionID (at_SessionID t) = true ∧
  at_StartedAt t ≠ zeroTime ∧ at_LastSeenAt t ≠ zeroTime ∧
  at_StartedAt t <= at_LastSeenAt t ∧
  at_LastSeenAt t <= now + MaxFutureSkew ∧ at_LastSeenAt t <= sentAt + MaxFutureSkew.

Definition report_ok (report : AgentReport) (now : Time) : Prop :=
  ar_SchemaVersion report = 1 ∧
  validAgentID (ar_AgentID report) = true ∧
  ar_SentAt report ≠ zeroTime ∧
  now - MaxReportAge <= ar_SentAt report <= now + MaxFutureSkew ∧
  ∃ providers ts,
    ar_Providers report = Some providers ∧ ar_ActiveTasks report = Some ts ∧
    (length ts ≤ 256)%nat ∧
    map_Forall (provider_ok now (ar_SentAt report)) providers ∧
    Forall (task_ok now (ar_SentAt report)) ts ∧
    NoDup ((λ t, (at_Provider t, at_SessionID t)) <$> ts).

(** ** Acceptance is the specification *)

Lemma percentOutOfRange_false x : percentOutOfRange x = false ↔ percent x.
Proof.
  unfold percentOutOfRange, percent. rewrite !orb_false_iff. split.
  - intros [[[HN HI] H0] H1]. split_and!; [done|by apply f_lt_false_le..].
  - intros (HN & H0 & H1). split_and!; try done; [|by apply f_le_lt_false..].
    destruct x as [|[]| |]; done.
Qed.

Lemma validateWindow_Ok w : validateWindow (Some w) = Ok tt ↔ window_ok w.
Proof.
  unfold validateWindow, window_ok. rewrite !refuse_bind_Ok, !percentOutOfRange_false.
  destruct (ResetsAt w) as [t|]; rewrite refuse_Ok; [by rewrite IsZero_false|].
  by rewrite orb_false_iff, !negb_false_iff.
Qed.

Lemma named_Ok name m : named name m = Ok tt ↔ m = Ok tt.
Proof. destruct m as [[]|]; done. Qed.

Lemma validateWindow_opt o : validateWindow o = Ok tt ↔ ∀ w, o = Some w → window_ok w.
Proof.
  destruct o as [w|]; [|done]. rewrite validateWindow_Ok.
  split; [by intros ? ? [= <-]|auto].
Qed.

Lemma not_two (p a b : string) :
  negb (bool_decide (p = a)) && negb (bool_decide (p = b)) = false ↔ p = a ∨ p = b.
Proof. by rewrite andb_false_iff, !negb_false_iff, !bool_decide_eq_true. Qed.

Lemma observed_Ok now sentAt p r :
  (if IsZero (pr_ObservedAt r)
   then refuse (bool_decide (FiveHour (pr_Windows r) ≠ None) || bool_decide (SevenDay (pr_Windows r) ≠ None))
               (ObservedAtRequired p)
   else refuse (After (pr_ObservedAt r) (Add sentAt MaxFutureSkew) ||
                After (pr_ObservedAt r) (Add now MaxFutureSkew)) (ObservedAtFuture p)) = Ok tt ↔
  (pr_ObservedAt r = zeroTime → pr_Windows r = noWindows) ∧
  (pr_ObservedAt r ≠ zeroTime →
     pr_ObservedAt r <= sentAt + MaxFutureSkew ∧ pr_ObservedAt r <= now + MaxFutureSkew).
Proof.
  destruct (IsZero (pr_ObservedAt r)) eqn:Hz; time_simpl; rewrite refuse_Ok, orb_false_iff.
  - rewrite !bool_decide_not, !negb_false_iff, !bool_decide_eq_true. destruct (pr_Windows r) as [a b]. simpl. split.
    + intros [-> ->]. done.
    + intros [Hw _]. by specialize (Hw Hz) as [= -> ->].
  - rewrite !After_false. unfold Add. split; [done|]. intros [_ Ho]. by apply Ho.
Qed.

Lemma validateProvider_Ok now sentAt p r :
  validateProvider now sentAt (p, r) tt = Ok tt ↔ provider_ok now sentAt p r.
Proof.
  unfold validateProvider, provider_ok, windows_ok.
  rewrite !refuse_bind_Ok, not_two, !orb_false_iff, !Z.ltb_ge, <-!validateWindow_opt. split.
  - intros (Hp & Hlen & ([] & Ho & ([] & H5%named_Ok & H7%named_Ok)%bind_Ok)%bind_Ok).
    apply observed_Ok in Ho. destruct_and!. split_and!; try done.
  - intros (Hp & H1 & H2 & H3 & H4 & Ho1 & Ho2 & H5 & H7).
    split_and!; try done. apply bind_Ok. exists tt. split; [by apply observed_Ok|].
    apply bind_Ok. exists tt. by rewrite !named_Ok.
Qed.

Lemma validateTask_Ok now sentAt t : validateTask now sentAt t = Ok tt ↔ task_ok now sentAt t.
Proof.
  unfold validateTask, task_ok. rewrite !refuse_bind_Ok, refuse_Ok, !not_two, negb_false_iff,
    !orb_false_iff, !IsZero_false, Before_false, !After_false.
  unfold Add. split; intros; destruct_and?; split_and?; try done; lia.
Qed.

Lemma iterM_unit_Ok {E A} (f : A → unit → result E unit) l :
  iterM f l tt = Ok tt ↔ Forall (λ x, f x tt = Ok tt) l.
Proof.
  induction l as [|x l IH]; simpl; [done|]. rewrite Forall_cons, bind_Ok, <-IH. split.
  - intros ([] & ? & ?). done.
  - intros [? ?]. by exists tt.
Qed.

Lemma seenKey_inj now sentAt t u :
  task_ok now sentAt t → task_ok now sentAt u →
  seenKey t = seenKey u ↔ (at_Provider t, at_SessionID t) = (at_Provider u, at_SessionID u).
Proof.
  intros (Ht & _) (Hu & _). unfold seenKey.
  destruct Ht as [-> | ->], Hu as [-> | ->]; cbv; split; intros H;
    first [discriminate H | injection H as ->; done].
Qed.

Lemma validateTasks_Ok now sentAt i seen ts :
  validateTasks now sentAt i seen ts = Ok tt ↔
  Forall (task_ok now sentAt) ts ∧ NoDup (seenKey <$> ts) ∧ (∀ t, t ∈ ts → seenKey t ∉ seen).
Proof.
  revert i seen. induction ts as [|t ts IH]; intros i seen; simpl.
  { split; [|done]. intros _. split_and!; [constructor|constructor|set_solver]. }
  rewrite Forall_cons, NoDup_cons. destruct (validateTask now sentAt t) as [[]|f] eqn:E.
  - apply validateTask_Ok in E. case_bool_decide as Hs.
    + split; [done|]. intros (_ & _ & H). destruct (H t); [set_solver|done].
    + rewrite IH. split.
      * intros (H1 & H2 & H3). split_and!; try done; [|set_solver].
        intros (u & Hu & Hin)%list_elem_of_fmap. apply (H3 u Hin). set_solver.
      * intros ((_ & H1) & (H2 & H3) & H4). split_and!; try done.
        intros u Hu. rewrite elem_of_union, elem_of_singleton. intros [Heq|Hin].
        -- apply H2. rewrite <-Heq. by apply list_elem_of_fmap_2.
        -- by apply (H4 u); [set_solver|].
  - split; [done|]. intros ((Ht & _) & _). apply validateTask_Ok in Ht. congruence.
Qed.

Lemma NoDup_fmap_iff {A B C} (f : A → B) (g : A → C) (l : list A) :
  (∀ x y, x ∈ l → y ∈ l → f x = f y ↔ g x = g y) → NoDup (f <$> l) ↔ NoDup (g <$> l).
Proof.
  induction l as [|x l IH]; intros Hfg; simpl; [by split; constructor|].
  rewrite !NoDup_cons, IH by (intros; apply Hfg; set_solver).
  assert (f x ∈ f <$> l ↔ g x ∈ g <$> l) as ->; [|done].
  rewrite !list_elem_of_fmap. split; intros (y & E & Hy); exists y; (split; [|done]);
    apply Hfg; set_solver.
Qed.

Lemma validate_report_ok (report : AgentReport) (now : Time) :
  ValidateAgentReport report now = Ok tt ↔ report_ok report now.
Proof.
  unfold ValidateAgentReport, report_ok.
  rewrite !refuse_bind_Ok, !negb_false_iff, Z.eqb_eq, IsZero_false, After_false, Before_false.
  unfold Add. destruct (ar_Providers report) as [ps|] eqn:Hp; [|split; [by intros (?&?&?&?&?&?)|by intros (?&?&?&?&?&?&?&?)]].
  destruct (ar_ActiveTasks report) as [ts|] eqn:Ht; [|naive_solver].
  rewrite refuse_bind_Ok, bind_Ok, Z.ltb_ge.
  setoid_rewrite validateTasks_Ok.
  assert (Hps : iterM (validateProvider now (ar_SentAt report)) (map_to_list ps) tt = Ok tt ↔
                map_Forall (provider_ok now (ar_SentAt report)) ps).
  { rewrite iterM_unit_Ok, map_Forall_to_list. apply Forall_iff. intros [p r]. simpl.
    apply validateProvider_Ok. }
  assert (Hnd : Forall (task_ok now (ar_SentAt report)) ts →
                NoDup (seenKey <$> ts) ↔ NoDup ((λ t, (at_Provider t, at_SessionID t)) <$> ts)).
  { intros Hok. rewrite Forall_forall in Hok. apply NoDup_fmap_iff. intros x y Hx Hy.
    eapply seenKey_inj; eauto. }
  split.
  - intros (Hs & Ha & Hz & Hf & Ho & Hn & [] & Hi & Hok & Hk & _).
    apply Hps in Hi. apply Hnd in Hk; [|done].
    split_and!; [done..|lia|lia|]. exists ps, ts. split_and!; try done. lia.
  - intros (Hs & Ha & Hz & [Ho Hf] & ps' & ts' & [= <-] & [= <-] & Hn & Hi & Hok & Hk).
    apply Hps in Hi. apply Hnd in Hk; [|done].
    split_and!; [done..|lia|lia|lia|]. exists tt. split_and!; done.
Qed.

(** C15. The validator accepts a report exactly when the report satisfies the
    declarative specification [report_ok]; in particular acceptance does not
    depend on the order in which the Providers map is iterated. *)
Theorem ValidateAgentReport_iff (report : AgentReport) (now : Time) :
  ValidateAgentReport report now = Ok tt ↔ report_ok report now.
Proof. apply validate_report_ok. Qed.
