(* ===== verification/Store.v ===== *)
(** * internal/store: the SQLite state

    [store.go].  The database is a record of its four tables, each a finite
    map from the primary key to the other columns; the constraints of the
    schema (primary keys, UNIQUE, CHECK, REFERENCES) are tested by every
    INSERT.  The store opens one connection, so statements and transactions do
    not interleave.  Failures of the database engine itself (I/O, a cancelled
    context) are not modelled: a statement fails here only when it violates a
    constraint.  Random bytes and the wall clock are arguments. *)

From S2P Require Import Prelude GoTime GoText GoFloat Digest Model Validate.

Definition AgentOnlineWindow : Duration := 45 * Second.
Definition TaskTTL : Duration := 15 * Minute.
Definition ProviderFreshWindow : Duration := 5 * Minute.

Abbreviation TokenScope := string (only parsing).
Definition ScopeAgentWrite : TokenScope := "agent:write".
Definition ScopeDisplayRead : TokenScope := "display:read".

(** [TokenScope.Valid]. *)
Definition Valid (s : TokenScope) : bool :=
  bool_decide (s = ScopeAgentWrite) || bool_decide (s = ScopeDisplayRead).

(** The errors of this package, by what they say. *)
Inductive StoreError :=
| InvalidScope | AgentIDRequired | AgentIDForbidden | InvalidAgentID | LabelTooLong
| RandomFailed | InsertTokenFailed
| ErrInvalidToken | ErrTokenNotFound | ErrStaleReport
| EncodeWindowsFailed (p : ProviderName)
| InsertReportFailed (p : ProviderName)
| InsertTaskFailed.

#[global] Instance StoreError_eq_dec : EqDecision StoreError.
Proof. solve_decision. Defined.

Record CreateTokenRequest := mkCreateTokenRequest {
  rq_Scope : TokenScope; rq_AgentID : string; rq_Label : string }.

Record TokenRecord := mkTokenRecord {
  tr_ID : string;
  tr_Scope : TokenScope;
  tr_AgentID : string;
  tr_Label : string;
  tr_CreatedAt : Time;
  tr_RevokedAt : option Time;
  tr_LastUsedAt : option Time
}.

Record CreatedToken := mkCreatedToken { ct_Record : TokenRecord; ct_RawToken : string }.

#[global] Instance TokenRecord_eq_dec : EqDecision TokenRecord.
Proof. solve_decision. Defined.

(** ** The schema *)

(** A row of [tokens], without its key [id]. *)
Record tokenRow := mkTokenRow {
  tk_digest : string;
  tk_scope : string;
  tk_agent_id : option string;
  tk_label : string;
  tk_created_at_ns : Z;
  tk_revoked_at_ns : option Z;
  tk_last_used_at_ns : option Z
}.

(** A row of [agents], keyed by [agent_id]. *)
Record agentRow := mkAgentRow { ag_report_sent_at_ns : Z; ag_last_report_at_ns : Z }.

(** A row of [provider_reports], keyed by [(agent_id, provider)].  The blob
    [windows_json] is kept as the value it encodes. *)
Record providerRow := mkProviderRow {
  pv_observed_at_ns : Z;
  pv_auth_state : string;
  pv_plan : string;
  pv_source : string;
  pv_windows_json : ProviderWindows;
  pv_error_code : string
}.

(** A row of [active_tasks], keyed by [(agent_id, provider, session_id)]. *)
Record taskRow := mkTaskRow { tw_kind : string; tw_started_at_ns : Z; tw_last_seen_at_ns : Z }.

Record DB := mkDB {
  tokens : gmap string tokenRow;
  agents : gmap string agentRow;
  provider_reports : gmap (string * string) providerRow;
  active_tasks : gmap (string * string * string) taskRow
}.

#[global] Instance tokenRow_eq_dec : EqDecision tokenRow.
Proof. solve_decision. Defined.
#[global] Instance agentRow_eq_dec : EqDecision agentRow.
Proof. solve_decision. Defined.
#[global] Instance providerRow_eq_dec : EqDecision providerRow.
Proof. solve_decision. Defined.
#[global] Instance taskRow_eq_dec : EqDecision taskRow.
Proof. solve_decision. Defined.

Definition emptyDB : DB := mkDB ∅ ∅ ∅ ∅.

Definition setTokens (db : DB) (t : gmap string tokenRow) : DB :=
  mkDB t (agents db) (provider_reports db) (active_tasks db).

(** The CHECK constraints of [tokens]. *)
Definition tokenCheck (r : tokenRow) : bool :=
  (len (tk_digest r) =? 32) && Valid (tk_scope r) &&
  match tk_agent_id r with
  | Some a => bool_decide (tk_scope r = ScopeAgentWrite) && (0 <? len a)
  | None => bool_decide (tk_scope r = ScopeDisplayRead)
  end.

(** INSERT INTO tokens: PRIMARY KEY(id), UNIQUE(digest) and the checks. *)
Definition insertToken (db : DB) (id : string) (r : tokenRow) : option DB :=
  if bool_decide (tokens db !! id = None) &&
     forallb (λ kv, negb (bool_decide (tk_digest kv.2 = tk_digest r))) (map_to_list (tokens db)) &&
     tokenCheck r
  then Some (setTokens db (<[id := r]> (tokens db)))
  else None.

(** ** Tokens *)

Definition validAgentID (value : string) : bool :=
  if (len value =? 0) || (64 <? len value) then false
  else forallb agentIDRune (runes value).

(** [randomString(size)] on the bytes [rand.Read] delivered, if it did. *)
Definition randomString (random : option (list Z)) : result StoreError string :=
  match random with Some b => Ok (b64_encode b) | None => Err RandomFailed end.

(** [CreateToken], with the bytes of the two random strings and the clock. *)
Definition CreateToken (db : DB) (req : CreateTokenRequest) (secret idBytes : option (list Z)) (now : Time)
    : result StoreError (CreatedToken * DB) :=
  _ ← refuse (negb (Valid (rq_Scope req))) InvalidScope;
  let agentID := TrimSpace (rq_AgentID req) in
  _ ← refuse (bool_decide (rq_Scope req = ScopeAgentWrite) && bool_decide (agentID = "")) AgentIDRequired;
  _ ← refuse (bool_decide (rq_Scope req = ScopeDisplayRead) && negb (bool_decide (agentID = ""))) AgentIDForbidden;
  _ ← refuse (negb (bool_decide (agentID = "")) && negb (validAgentID agentID)) InvalidAgentID;
  _ ← refuse (200 <? len (rq_Label req)) LabelTooLong;
  rawSecret ← randomString secret;
  let rawToken := "qmon_" +:+ rawSecret in
  idPart ← randomString idBytes;
  let id := "tok_" +:+ idPart in
  let digest := Sum256 rawToken in
  let row := mkTokenRow digest (rq_Scope req)
               (if bool_decide (agentID = "") then None else Some agentID)
               (rq_Label req) (UnixNano now) None None in
  match insertToken db id row with
  | None => Err InsertTokenFailed
  | Some db' =>
    Ok (mkCreatedToken (mkTokenRecord id (rq_Scope req) agentID (rq_Label req) now None None) rawToken, db')
  end.

(** UPDATE tokens SET revoked_at_ns = ? WHERE id = ? AND revoked_at_ns IS NULL. *)
Definition RevokeToken (db : DB) (id : string) (now : Time) : result StoreError unit * DB :=
  match tokens db !! id with
  | Some (mkTokenRow d s a lb c None u) =>
    (Ok tt, setTokens db (<[id := mkTokenRow d s a lb c (Some (UnixNano now)) u]> (tokens db)))
  | _ => (Err ErrTokenNotFound, db)
  end.

(** COALESCE(agent_id, '') and the other columns of a token, as a record. *)
Definition tokenRecordOf (id : string) (r : tokenRow) (withRevoked : bool) : TokenRecord :=
  mkTokenRecord id (tk_scope r) (default "" (tk_agent_id r)) (tk_label r)
    (UnixFromNano (tk_created_at_ns r))
    (if withRevoked then UnixFromNano <$> tk_revoked_at_ns r else None)
    (UnixFromNano <$> tk_last_used_at_ns r).

(** ORDER BY created_at_ns, id. *)
Definition tokenOrder (a b : string * tokenRow) : Prop :=
  tk_created_at_ns a.2 < tk_created_at_ns b.2 ∨
  (tk_created_at_ns a.2 = tk_created_at_ns b.2 ∧ str_lt b.1 a.1 = false).
#[global] Instance tokenOrder_dec a b : Decision (tokenOrder a b).
Proof. unfold tokenOrder. apply _. Defined.

Definition ListTokens (db : DB) : list TokenRecord :=
  (λ kv, tokenRecordOf kv.1 kv.2 true) <$> merge_sort tokenOrder (map_to_list (tokens db)).

(** The rows [AuthenticateToken] iterates over:
    WHERE scope = ? AND revoked_at_ns IS NULL. *)
Definition activeTokens (db : DB) (scope : TokenScope) : list (string * tokenRow) :=
  filter (λ kv : string * tokenRow, tk_scope kv.2 = scope ∧ tk_revoked_at_ns kv.2 = None)
    (map_to_list (tokens db)).

(** The loop: every row is compared, and the last match is kept. *)
Definition compareAll (want : string) (rows : list (string * tokenRow)) : Z * option (string * tokenRow) :=
  foldl (λ acc kv,
    if bool_decide (tk_digest kv.2 = want) then (acc.1 + 1, Some kv) else acc) (0, None) rows.

Definition useToken (db : DB) (id : string) (ns : Z) : DB :=
  setTokens db (alter (λ r, mkTokenRow (tk_digest r) (tk_scope r) (tk_agent_id r) (tk_label r)
                              (tk_created_at_ns r) (tk_revoked_at_ns r) (Some ns)) id (tokens db)).

Definition AuthenticateToken (db : DB) (raw : string) (scope : TokenScope) (now : Time)
    : result StoreError TokenRecord * DB :=
  if negb (Valid scope) || (len raw <? 16) || (256 <? len raw) then (Err ErrInvalidToken, db)
  else
    let '(matchedCount, matched) := compareAll (Sum256 raw) (activeTokens db scope) in
    if negb (matchedCount =? 1) then (Err ErrInvalidToken, db)
    else match matched with
    | None => (Err ErrInvalidToken, db)
    | Some (id, r) =>
      let rec := tokenRecordOf id r false in
      (Ok (mkTokenRecord (tr_ID rec) (tr_Scope rec) (tr_AgentID rec) (tr_Label rec)
             (tr_CreatedAt rec) (tr_RevokedAt rec) (Some now)),
       useToken db id (UnixNano now))
    end.

(** ** Reports *)

(** [json.Marshal] of the windows fails on NaN, on infinities and on instants
    whose year RFC 3339 cannot express; otherwise [json.Unmarshal] gives the
    same windows back.  A reset is an instant here and its year the one in UTC;
    [MarshalJSON] takes the year in the offset the time was parsed with, which
    differs for an instant less than a day from the first or the last year. *)
Definition encodableWindow (o : option LimitWindow) : bool :=
  match o with
  | None => true
  | Some w =>
    negb (IsNaN (UsedPercent w)) && negb (IsInf (UsedPercent w)) &&
    negb (IsNaN (RemainingPercent w)) && negb (IsInf (RemainingPercent w)) &&
    match ResetsAt w with None => true | Some t => json_time t end
  end.
Definition encodable (ws : ProviderWindows) : bool :=
  encodableWindow (FiveHour ws) && encodableWindow (SevenDay ws).

(** INSERT INTO agents ... ON CONFLICT DO UPDATE ... WHERE excluded is newer:
    the number of affected rows and the new table. *)
Definition upsertAgent (a : gmap string agentRow) (id : string) (sent received : Z)
    : Z * gmap string agentRow :=
  match a !! id with
  | None => (1, <[id := mkAgentRow sent received]> a)
  | Some row =>
    if ag_report_sent_at_ns row <? sent then (1, <[id := mkAgentRow sent received]> a) else (0, a)
  end.

(** DELETE FROM provider_reports (active_tasks) WHERE agent_id = ?. *)
Definition clearReports (id : string) (m : gmap (string * string) providerRow)
    : gmap (string * string) providerRow :=
  filter (λ kv : string * string * providerRow, kv.1.1 ≠ id) m.
Definition clearTasks (id : string) (m : gmap (string * string * string) taskRow)
    : gmap (string * string * string) taskRow :=
  filter (λ kv : string * string * string * taskRow, kv.1.1.1 ≠ id) m.

Definition observedNano (t : Time) : Z := if IsZero t then 0 else UnixNano t.

Definition providerRowOf (r : ProviderReport) : providerRow :=
  mkProviderRow (observedNano (pr_ObservedAt r)) (pr_AuthState r) (pr_Plan r) (pr_Source r)
    (pr_Windows r) (pr_ErrorCode r).

(** INSERT INTO provider_reports: REFERENCES agents, CHECK(provider), PRIMARY KEY. *)
Definition insertProvider (db : DB) (agent provider : string) (r : providerRow) : option DB :=
  if bool_decide (is_Some (agents db !! agent)) && ValidProvider provider &&
     bool_decide (provider_reports db !! (agent, provider) = None)
  then Some (mkDB (tokens db) (agents db) (<[(agent, provider) := r]> (provider_reports db)) (active_tasks db))
  else None.

Definition replaceProvider (agent : string) (kv : ProviderName * ProviderReport) (db : DB)
    : result StoreError DB :=
  let '(provider, r) := kv in
  _ ← refuse (negb (encodable (pr_Windows r))) (EncodeWindowsFailed provider);
  match insertProvider db agent provider (providerRowOf r) with
  | None => Err (InsertReportFailed provider)
  | Some db' => Ok db'
  end.

Definition taskRowOf (t : ActiveTask) : taskRow :=
  mkTaskRow (at_Kind t) (UnixNano (at_StartedAt t)) (UnixNano (at_LastSeenAt t)).

(** INSERT INTO active_tasks: REFERENCES agents, the two CHECKs, PRIMARY KEY. *)
Definition insertTask (agent : string) (t : ActiveTask) (db : DB) : result StoreError DB :=
  let key := (agent, at_Provider t, at_SessionID t) in
  if bool_decide (is_Some (agents db !! agent)) && ValidProvider (at_Provider t) &&
     ValidTaskKind (at_Kind t) && bool_decide (active_tasks db !! key = None)
  then Ok (mkDB (tokens db) (agents db) (provider_reports db) (<[key := taskRowOf t]> (active_tasks db)))
  else Err InsertTaskFailed.

Definition providersOf (report : AgentReport) : gmap ProviderName ProviderReport :=
  default ∅ (ar_Providers report).
Definition tasksOf (report : AgentReport) : list ActiveTask := default [] (ar_ActiveTasks report).

(** The statements of the transaction, the Providers map iterated in the order
    [ps]. *)
Definition reportTransaction (db : DB) (report : AgentReport) (receivedAt : Time)
    (ps : list (ProviderName * ProviderReport)) : result StoreError DB :=
  let id := ar_AgentID report in
  let '(n, a) := upsertAgent (agents db) id (UnixNano (ar_SentAt report)) (UnixNano receivedAt) in
  _ ← refuse (n =? 0) ErrStaleReport;
  let db := mkDB (tokens db) a (clearReports id (provider_reports db)) (active_tasks db) in
  db ← iterM (replaceProvider id) ps db;
  let db := mkDB (tokens db) (agents db) (provider_reports db) (clearTasks id (active_tasks db)) in
  iterM (insertTask id) (tasksOf report) db.

(** Commit on success, roll back on any error. *)
Definition ReplaceAgentReport (db : DB) (report : AgentReport) (receivedAt : Time)
    : result StoreError unit * DB :=
  match reportTransaction db report receivedAt (map_to_list (providersOf report)) with
  | Ok db' => (Ok tt, db')
  | Err e => (Err e, db)
  end.

(** ** The display snapshot *)

Definition unavailableProvider : ProviderSnapshot :=
  mkProviderSnapshot None FreshnessUnavailable false "" "" noWindows.

(** SELECT COUNT over agents, and SUM of the rows at or past the threshold. *)
Definition loadAgentSummary (db : DB) (now : Time) : AgentSummary :=
  let threshold := UnixNano (Add now (- AgentOnlineWindow)) in
  let rows := (map_to_list (agents db)).*2 in
  mkAgentSummary
    (Z.of_nat (length (filter (λ r, threshold <= ag_last_report_at_ns r) rows)))
    (Z.of_nat (length rows)).

(** ORDER BY observed_at_ns DESC, agent_id ASC. *)
Definition latestOrder (a b : string * string * providerRow) : Prop :=
  pv_observed_at_ns b.2 < pv_observed_at_ns a.2 ∨
  (pv_observed_at_ns a.2 = pv_observed_at_ns b.2 ∧ str_lt b.1.1 a.1.1 = false).
#[global] Instance latestOrder_dec a b : Decision (latestOrder a b).
Proof. unfold latestOrder. apply _. Defined.

(** WHERE provider = ? AND observed_at_ns > 0. *)
Definition usableReports (db : DB) (provider : ProviderName) : list (string * string * providerRow) :=
  filter (λ kv : string * string * providerRow, kv.1.2 = provider ∧ 0 < pv_observed_at_ns kv.2)
    (map_to_list (provider_reports db)).

Definition snapshotOfRow (r : providerRow) (now : Time) : ProviderSnapshot :=
  let observedAt := UnixFromNano (pv_observed_at_ns r) in
  let windows := pv_windows_json r in
  let freshness :=
    match FiveHour windows, SevenDay windows with
    | None, None => FreshnessUnavailable
    | _, _ => if ProviderFreshWindow <? Sub now observedAt then FreshnessStale else FreshnessFresh
    end in
  mkProviderSnapshot (Some observedAt) freshness
    (bool_decide (pv_auth_state r = "unauthenticated") || bool_decide (pv_error_code r = "not_authenticated"))
    (pv_plan r) (pv_source r) windows.

(** The result, and whether a row was found. *)
Definition loadLatestProvider (db : DB) (provider : ProviderName) (now : Time) : ProviderSnapshot * bool :=
  match merge_sort latestOrder (usableReports db provider) with
  | [] => (unavailableProvider, false)
  | row :: _ => (snapshotOfRow row.2 now, true)
  end.

(** One row of the task query: its provider and kind. *)
Definition countTask (row : string * string) (s : TaskSummary) : TaskSummary :=
  let bump (c : TaskCount) : TaskCount :=
    if bool_decide (row.2 = TaskMain) then mkTaskCount (tc_Main c + 1) (tc_Sub c)
    else if bool_decide (row.2 = TaskSub) then mkTaskCount (tc_Main c) (tc_Sub c + 1)
    else c in
  if bool_decide (row.1 = ProviderCodex) then
    mkTaskSummary (bump (ts_Codex s)) (ts_Claude s) (bump (ts_Total s))
  else if bool_decide (row.1 = ProviderClaude) then
    mkTaskSummary (ts_Codex s) (bump (ts_Claude s)) (bump (ts_Total s))
  else s.

(** active_tasks JOIN agents WHERE the agent is online and the task is live. *)
Definition liveTask (db : DB) (now : Time) (kv : string * string * string * taskRow) : Prop :=
  match agents db !! kv.1.1.1 with
  | None => False
  | Some a =>
    UnixNano (Add now (- AgentOnlineWindow)) <= ag_last_report_at_ns a ∧
    UnixNano (Add now (- TaskTTL)) <= tw_last_seen_at_ns kv.2
  end.
#[global] Instance liveTask_dec db now kv : Decision (liveTask db now kv).
Proof. unfold liveTask. destruct (agents db !! _); apply _. Defined.

Definition liveTasks (db : DB) (now : Time) : list (string * string * string * taskRow) :=
  filter (liveTask db now) (map_to_list (active_tasks db)).

Definition zeroSummary : TaskSummary :=
  mkTaskSummary (mkTaskCount 0 0) (mkTaskCount 0 0) (mkTaskCount 0 0).

Definition loadTaskSummary (db : DB) (now : Time) : TaskSummary :=
  foldl (λ s kv, countTask (kv.1.1.2, tw_kind kv.2) s) zeroSummary (liveTasks db now).

(** The warning of one provider. *)
Definition providerWarnings (provider : ProviderName) (p : ProviderSnapshot) : list string :=
  if ps_LoginRequired p then [provider +:+ "_login_required"]
  else if negb (bool_decide (ps_Freshness p = FreshnessFresh))
  then [provider +:+ "_" +:+ ps_Freshness p]
  else [].

(** The entry of one provider: what the database has, or unavailable. *)
Definition providerEntry (db : DB) (provider : ProviderName) (now : Time) : ProviderSnapshot :=
  let '(p, found) := loadLatestProvider db provider now in
  if found then p else unavailableProvider.

(** The snapshot is four queries outside a transaction: each sees the database
    as it is when it runs, and a report can be stored between two of them. *)
Definition BuildDisplaySnapshotFrom (atAgents atCodex atClaude atTasks : DB) (now : Time) : DisplaySnapshot :=
  let codex := providerEntry atCodex ProviderCodex now in
  let claude := providerEntry atClaude ProviderClaude now in
  mkDisplaySnapshot SchemaVersion now
    (<[ProviderCodex := codex]> (<[ProviderClaude := claude]> ∅))
    (loadTaskSummary atTasks now)
    (loadAgentSummary atAgents now)
    (providerWarnings ProviderCodex codex ++ providerWarnings ProviderClaude claude).

(** When nothing is stored meanwhile. *)
Definition BuildDisplaySnapshot (db : DB) (now : Time) : DisplaySnapshot := BuildDisplaySnapshotFrom db db db db now.
