(* ===== verification/StoreTokens.v ===== *)
(** * internal/store: the invariant of the database, and tokens

    [db_ok] is what the schema's constraints guarantee between statements.
    On top of it: what [AuthenticateToken] accepts, that a created token
    authenticates, and that a revoked one never does again, whatever
    operations follow. *)

From S2P Require Import Prelude GoTime GoText GoFloat Digest Model Validate Store.

(** What the rows are, in the words of the schema, without the code that
    tests them. *)
Definition token_ok (r : tokenRow) : Prop :=
  len (tk_digest r) = 32 ∧
  ((tk_scope r = "agent:write" ∧ ∃ a, tk_agent_id r = Some a ∧ a ≠ "") ∨
   (tk_scope r = "display:read" ∧ tk_agent_id r = None)).

Definition finite (f : float64) : Prop := IsNaN f = false ∧ IsInf f = false.

Definition window_json (w : LimitWindow) : Prop :=
  finite (UsedPercent w) ∧ finite (RemainingPercent w) ∧
  ∀ t, ResetsAt w = Some t → minJSONTime <= t < maxJSONTime.

Definition report_row_ok (provider : string) (r : providerRow) : Prop :=
  (provider = "codex" ∨ provider = "claude") ∧
  (∀ w, FiveHour (pv_windows_json r) = Some w ∨ SevenDay (pv_windows_json r) = Some w → window_json w).

Definition task_row_ok (provider : string) (r : taskRow) : Prop :=
  (provider = "codex" ∨ provider = "claude") ∧ (tw_kind r = "main" ∨ tw_kind r = "sub").

Lemma tokenCheck_ok r : tokenCheck r = true ↔ token_ok r.
Proof.
  unfold tokenCheck, token_ok, Valid. rewrite !andb_true_iff, orb_true_iff, Z.eqb_eq, !bool_decide_eq_true.
  unfold ScopeAgentWrite, ScopeDisplayRead. destruct (tk_agent_id r) as [a|].
  - rewrite andb_true_iff, bool_decide_eq_true, Z.ltb_lt. split.
    + intros [[Hd _] [Hs Ha]]. split; [done|]. left. split; [done|]. exists a. split; [done|]. by intros ->.
    + intros [Hd [[Hs (a' & [= <-] & Ha)]|[_ [=]]]]. split; [auto|]. split; [done|].
      destruct a as [|c a]; [done|]. unfold len. cbn. lia.
  - rewrite bool_decide_eq_true. split; [intros [[Hd _] Hs]; auto|].
    intros [Hd [[_ (a & [=] & _)]|[Hs _]]]. auto.
Qed.

Lemma encodableWindow_ok o : encodableWindow o = true ↔ ∀ w, o = Some w → window_json w.
Proof.
  destruct o as [w|]; [|by split]. cbn [encodableWindow]. unfold window_json, finite.
  rewrite !andb_true_iff, !negb_true_iff. split.
  - intros [[[[H1 H2] H3] H4] H5] w' [= <-]. split_and!; [done..|]. intros t Ht. rewrite Ht in H5.
    unfold json_time in H5. lia.
  - intros H. destruct (H w eq_refl) as ([H1 H2] & [H3 H4] & H5). split_and!; [done..|].
    destruct (ResetsAt w) as [t|]; [|done]. specialize (H5 t eq_refl). unfold json_time. lia.
Qed.

Lemma report_row_ok_iff provider r :
  report_row_ok provider r ↔ ValidProvider provider = true ∧ encodable (pv_windows_json r) = true.
Proof.
  unfold report_row_ok, encodable. rewrite ValidProvider_true, andb_true_iff, !encodableWindow_ok. naive_solver.
Qed.

Lemma task_row_ok_iff provider r :
  task_row_ok provider r ↔ ValidProvider provider = true ∧ ValidTaskKind (tw_kind r) = true.
Proof. by rewrite ValidProvider_true, ValidTaskKind_true. Qed.

Record db_ok (db : DB) : Prop := mk_db_ok {
  ok_check : map_Forall (λ _ r, token_ok r) (tokens db);
  ok_unique i j ri rj :
    tokens db !! i = Some ri → tokens db !! j = Some rj → tk_digest ri = tk_digest rj → i = j;
  ok_reports : map_Forall (λ k r, is_Some (agents db !! k.1) ∧ report_row_ok k.2 r) (provider_reports db);
  ok_tasks : map_Forall (λ k r, is_Some (agents db !! k.1.1) ∧ task_row_ok k.1.2 r) (active_tasks db)
}.

Lemma emptyDB_ok : db_ok emptyDB.
Proof. split; try apply map_Forall_empty. simpl. intros i j ri rj Hi. by rewrite lookup_empty in Hi. Qed.

(** Only the token table changes: the rest of the invariant carries over. *)
Lemma setTokens_ok db t :
  db_ok db → map_Forall (λ _ r, token_ok r) t →
  (∀ i j ri rj, t !! i = Some ri → t !! j = Some rj → tk_digest ri = tk_digest rj → i = j) →
  db_ok (setTokens db t).
Proof. intros [_ _ Hr Ht] Hc Hu. by split. Qed.

(** ** Insertion *)

Lemma insertToken_Some db id r db' :
  insertToken db id r = Some db' ↔
  tokens db !! id = None ∧ (∀ j rj, tokens db !! j = Some rj → tk_digest rj ≠ tk_digest r) ∧
  tokenCheck r = true ∧ db' = setTokens db (<[id := r]> (tokens db)).
Proof.
  unfold insertToken. destruct (_ && _ && _) eqn:E.
  - apply andb_true_iff in E as [[E1 E2]%andb_true_iff E3]. apply bool_decide_eq_true in E1.
    rewrite forallb_forall in E2. split; [intros [= <-]; split_and!; try done|by intros (_ & _ & _ & ->)].
    intros j rj Hj Heq. specialize (E2 (j, rj)). rewrite negb_true_iff, bool_decide_eq_false in E2.
    apply E2; [|done]. apply list_elem_of_In, elem_of_map_to_list. done.
  - split; [done|]. intros (H1 & H2 & H3 & _). exfalso. apply Bool.not_true_iff_false in E. apply E.
    rewrite !andb_true_iff, bool_decide_eq_true, forallb_forall. split_and!; try done.
    intros [j rj] Hj%list_elem_of_In%elem_of_map_to_list. rewrite negb_true_iff, bool_decide_eq_false.
    by apply H2 with j.
Qed.

Lemma insertToken_ok db id r db' : db_ok db → insertToken db id r = Some db' → db_ok db'.
Proof.
  intros Hok (Hn & Hd & Hc & ->)%insertToken_Some. apply setTokens_ok; [done| |].
  - apply map_Forall_insert_2; [by apply tokenCheck_ok|apply Hok].
  - intros i j ri rj. rewrite !lookup_insert_Some.
    intros [[<- <-]|[Hi Hri]] [[<- <-]|[Hj Hrj]] Heq; try done.
    + by destruct (Hd j rj).
    + by destruct (Hd i ri).
    + by apply (ok_unique _ Hok i j ri rj).
Qed.

Lemma CreateToken_Ok db req s i now ct db' :
  CreateToken db req s i now = Ok (ct, db') →
  ∃ sb ib, s = Some sb ∧ i = Some ib ∧
  let agentID := TrimSpace (rq_AgentID req) in
  ct_RawToken ct = "qmon_" +:+ b64_encode sb ∧
  ct_Record ct = mkTokenRecord ("tok_" +:+ b64_encode ib) (rq_Scope req) agentID (rq_Label req) now None None ∧
  (Valid (rq_Scope req) = true ∧ (agentID = "" ∨ validAgentID agentID = true) ∧ len (rq_Label req) <= 200) ∧
  insertToken db (tr_ID (ct_Record ct))
    (mkTokenRow (Sum256 (ct_RawToken ct)) (rq_Scope req)
       (if bool_decide (agentID = "") then None else Some agentID) (rq_Label req) (UnixNano now) None None)
    = Some db'.
Proof.
  unfold CreateToken, randomString. intros H. ok_inv.
  destruct s as [sb|], i as [ib|]; try done. ok_inv. rewrite negb_false_iff in *.
  destruct (insertToken _ _ _) eqn:E; [|done]. ok_inv. exists sb, ib. simpl. split_and!; try done; [|by breflect].
  destruct (bool_decide_reflect (TrimSpace (rq_AgentID req) = "")) as [Ha|Ha]; [by left|right].
  destruct (validAgentID (TrimSpace (rq_AgentID req))); done.
Qed.

Lemma CreateToken_ok db req s i now ct db' :
  db_ok db → CreateToken db req s i now = Ok (ct, db') → db_ok db'.
Proof. intros Hok (sb & ib & _ & _ & _ & _ & _ & H)%CreateToken_Ok. by eapply insertToken_ok. Qed.

(** ** In-place updates *)

(** A row update that keeps the digest, the scope and the agent. *)
Definition same_identity (r r' : tokenRow) : Prop :=
  tk_digest r' = tk_digest r ∧ tk_scope r' = tk_scope r ∧ tk_agent_id r' = tk_agent_id r.

Lemma token_ok_identity r r' : same_identity r r' → token_ok r → token_ok r'.
Proof. unfold token_ok. by intros (-> & -> & ->). Qed.

Lemma alter_ok db id f :
  (∀ r, same_identity r (f r)) → db_ok db → db_ok (setTokens db (alter f id (tokens db))).
Proof.
  intros Hf Hok.
  assert (H : ∀ i r, alter f id (tokens db) !! i = Some r →
                     ∃ r0, tokens db !! i = Some r0 ∧ same_identity r0 r).
  { intros i r. destruct (decide (i = id)) as [->|Hne].
    - rewrite lookup_alter_eq. intros (r0 & H & ->)%fmap_Some. eauto.
    - rewrite lookup_alter_ne by done. by exists r. }
  apply setTokens_ok; [done| |].
  - intros i r (r0 & Hr0 & Hs)%H. apply (token_ok_identity _ _ Hs). by apply (ok_check _ Hok) in Hr0.
  - intros i j ri rj (ri0 & Hi & Hsi)%H (rj0 & Hj & Hsj)%H Heq.
    apply (ok_unique _ Hok i j ri0 rj0); [done..|]. destruct Hsi as [<- _], Hsj as [<- _]. done.
Qed.

Lemma useToken_ok db id ns : db_ok db → db_ok (useToken db id ns).
Proof. apply alter_ok. done. Qed.

Definition revokedRow (ns : Z) (r : tokenRow) : tokenRow :=
  mkTokenRow (tk_digest r) (tk_scope r) (tk_agent_id r) (tk_label r) (tk_created_at_ns r)
    (Some ns) (tk_last_used_at_ns r).

(** [RevokeToken] changes the [revoked_at_ns] of an active row, and nothing else. *)
Lemma RevokeToken_cases db id now :
  (∃ r, tokens db !! id = Some r ∧ tk_revoked_at_ns r = None ∧
        RevokeToken db id now =
          (Ok tt, setTokens db (alter (revokedRow (UnixNano now)) id (tokens db)))) ∨
  ((∀ r, tokens db !! id = Some r → tk_revoked_at_ns r ≠ None) ∧
   RevokeToken db id now = (Err ErrTokenNotFound, db)).
Proof.
  unfold RevokeToken. destruct (tokens db !! id) as [[d s a lb c [v|] u]|] eqn:E.
  - right. split; [|done]. by intros r [= <-].
  - left. eexists. split_and!; [done..|]. do 2 f_equal. apply map_eq. intros j.
    destruct (decide (id = j)) as [<-|Hne].
    + by rewrite lookup_insert_eq, lookup_alter_eq, E.
    + by rewrite lookup_insert_ne, lookup_alter_ne.
  - right. done.
Qed.

Lemma RevokeToken_ok db id now : db_ok db → db_ok (RevokeToken db id now).2.
Proof.
  destruct (RevokeToken_cases db id now) as [(r & _ & _ & ->)|[_ ->]]; simpl; [|done].
  apply alter_ok. done.
Qed.

(** ** Authentication *)

(** The row [id], [r] is what the bearer value [raw] stands for. *)
Definition bearer (db : DB) (raw : string) (scope : TokenScope) (id : string) (r : tokenRow) : Prop :=
  Valid scope = true ∧ 16 <= len raw <= 256 ∧
  tokens db !! id = Some r ∧ tk_scope r = scope ∧ tk_revoked_at_ns r = None ∧
  tk_digest r = Sum256 raw.

Definition matches (want : string) (kv : string * tokenRow) : Prop := tk_digest kv.2 = want.
#[global] Instance matches_dec want kv : Decision (matches want kv).
Proof. unfold matches. apply _. Defined.

Lemma compareAll_spec want rows :
  compareAll want rows =
  (Z.of_nat (length (filter (matches want) rows)), last (filter (matches want) rows)).
Proof.
  unfold compareAll. induction rows as [|kv rows IH] using rev_ind; [done|].
  rewrite foldl_app, IH, filter_app. simpl. rewrite filter_cons, filter_nil. unfold matches at 3.
  case_decide; case_bool_decide; try done.
  - rewrite length_app, last_snoc. simpl. f_equal. lia.
  - by rewrite app_nil_r.
Qed.

Lemma at_most_one {A} (l : list A) :
  NoDup l → (∀ x y, x ∈ l → y ∈ l → x = y) → l = [] ∨ ∃ x, l = [x].
Proof.
  destruct l as [|x [|y l]]; [by left|by right; exists x|]. intros Hnd Hall.
  assert (x = y) as -> by (apply Hall; set_solver). inversion Hnd; set_solver.
Qed.

(** The rows of a scope that match a digest: none, or the only one. *)
Lemma matching_rows db want scope :
  db_ok db →
  let rows := filter (matches want) (activeTokens db scope) in
  (rows = [] ∧ ∀ id r, tokens db !! id = Some r → tk_scope r = scope →
                       tk_revoked_at_ns r = None → tk_digest r ≠ want) ∨
  ∃ id r, rows = [(id, r)] ∧ tokens db !! id = Some r ∧ tk_scope r = scope ∧
          tk_revoked_at_ns r = None ∧ tk_digest r = want.
Proof.
  intros Hok rows.
  assert (Hin : ∀ id r, (id, r) ∈ rows ↔ tk_digest r = want ∧ (tk_scope r = scope ∧ tk_revoked_at_ns r = None) ∧
                                         tokens db !! id = Some r).
  { intros id r. unfold rows, activeTokens. rewrite !list_elem_of_filter, elem_of_map_to_list. done. }
  destruct (at_most_one rows) as [E|[[id r] E]].
  - unfold rows, activeTokens. do 2 apply NoDup_filter. apply NoDup_map_to_list.
  - intros [i ri] [j rj] (Hdi & _ & Hi)%Hin (Hdj & _ & Hj)%Hin.
    assert (i = j) as -> by (apply (ok_unique _ Hok i j ri rj); congruence). congruence.
  - left. split; [done|]. intros id r Hr Hs Hv Hd.
    assert ((id, r) ∈ rows) as Hrows by (apply Hin; done). rewrite E in Hrows. set_solver.
  - right. exists id, r. assert ((id, r) ∈ rows) as Hrows by (rewrite E; set_solver).
    apply Hin in Hrows as (? & [? ?] & ?). done.
Qed.

Lemma AuthenticateToken_cases db raw scope now :
  db_ok db →
  (∃ id r, bearer db raw scope id r ∧
     AuthenticateToken db raw scope now =
       (Ok (mkTokenRecord id scope (default "" (tk_agent_id r)) (tk_label r)
              (UnixFromNano (tk_created_at_ns r)) None (Some now)),
        useToken db id (UnixNano now))) ∨
  ((∀ id r, ¬ bearer db raw scope id r) ∧
   AuthenticateToken db raw scope now = (Err ErrInvalidToken, db)).
Proof.
  intros Hok. unfold AuthenticateToken, bearer.
  destruct (negb (Valid scope) || (len raw <? 16) || (256 <? len raw)) eqn:E.
  - right. split; [|done]. intros id r (Hv & Hl & _). rewrite Hv in E.
    rewrite !orb_true_iff, !Z.ltb_lt in E. destruct E as [[?|?]|?]; [done|lia|lia].
  - breflect. rewrite compareAll_spec.
    destruct (matching_rows db (Sum256 raw) scope Hok) as [[-> Hno]|(id & r & -> & Hr & Hs & Hv & Hd)].
    + right. split; [|done]. intros id r (_ & _ & Hr & Hs & Hv & Hd). by apply (Hno id r).
    + left. exists id, r. split; [split_and!; done|]. simpl. by subst scope.
Qed.

(** ** What the token operations promise *)

(** C6. [AuthenticateToken] accepts a raw value exactly when it has 16 to 256
    bytes, the scope is one of the two and the SHA-256 digest of the value is
    that of an unrevoked token of this scope.  On success it
    returns that token's identity and changes nothing but its last-use time;
    on failure it returns [ErrInvalidToken] and changes nothing. *)
Theorem AuthenticateToken_spec (db db' : DB) (raw : string) (scope : TokenScope) (now : Time)
    (res : result StoreError TokenRecord)
    (Hok : db_ok db) (Hrun : AuthenticateToken db raw scope now = (res, db')) :
  match res with
  | Ok rec => ∃ r, bearer db raw scope (tr_ID rec) r ∧
      tr_Scope rec = scope ∧ tr_AgentID rec = default "" (tk_agent_id r) ∧
      (tr_AgentID rec = "" ↔ scope = ScopeDisplayRead) ∧
      (∀ id r', bearer db raw scope id r' → id = tr_ID rec) ∧
      (∃ r', tokens db' = <[tr_ID rec := r']> (tokens db) ∧ same_identity r r' ∧
             tk_revoked_at_ns r' = None ∧ tk_last_used_at_ns r' = Some (UnixNano now)) ∧
      agents db' = agents db ∧ provider_reports db' = provider_reports db ∧
      active_tasks db' = active_tasks db
  | Err e => e = ErrInvalidToken ∧ db' = db ∧ ∀ id r, ¬ bearer db raw scope id r
  end.
Proof.
  destruct (AuthenticateToken_cases db raw scope now Hok) as [(id & r & Hb & Hrun')|[Hno Hrun']];
    rewrite Hrun in Hrun'; injection Hrun' as -> ->; [|done].
  pose proof Hb as (_ & _ & Hr & Hs & Hv & Hd).
  exists r. simpl. split; [done|]. split; [done|]. split; [done|]. split; [|split; [|split; [|done]]].
  - apply (ok_check _ Hok) in Hr as [_ [[Hw (a & -> & Ha)]|[Hw ->]]]; subst scope; rewrite Hw; cbn; [|done].
    unfold ScopeDisplayRead. split; [by intros ->|discriminate].
  - intros j rj (_ & _ & Hj & _ & _ & Hdj). apply (ok_unique _ Hok j id rj r); congruence.
  - exists (mkTokenRow (tk_digest r) (tk_scope r) (tk_agent_id r) (tk_label r) (tk_created_at_ns r)
              (tk_revoked_at_ns r) (Some (UnixNano now))).
    split; [|done]. apply map_eq. intros j. destruct (decide (id = j)) as [<-|Hne].
    + by rewrite lookup_alter_eq, lookup_insert_eq, Hr.
    + by rewrite lookup_alter_ne, lookup_insert_ne.
Qed.

(** The bytes 0, 1, 2, ... stand for a secret in the examples. *)
Definition demo_secret : list Z := seqZ 0 32.
Definition demo_id : list Z := seqZ 100 12.
Definition demo_raw : string := "qmon_" +:+ b64_encode demo_secret.
Definition demo_db : DB :=
  match CreateToken emptyDB (mkCreateTokenRequest ScopeAgentWrite " mac-1 " "laptop")
          (Some demo_secret) (Some demo_id) 1000 with
  | Ok (_, db) => db
  | Err _ => emptyDB
  end.

Lemma demo_db_ok : db_ok demo_db.
Proof.
  unfold demo_db. destruct (CreateToken emptyDB _ _ _ _) as [[ct db]|e] eqn:E; [|apply emptyDB_ok].
  eapply CreateToken_ok; [apply emptyDB_ok|exact E].
Qed.

Lemma AuthenticateToken_spec_witness :
  ∃ rec db', AuthenticateToken demo_db demo_raw ScopeAgentWrite 2000 = (Ok rec, db') ∧
             tr_AgentID rec = "mac-1" ∧ bearer demo_db demo_raw ScopeAgentWrite (tr_ID rec)
               (mkTokenRow (Sum256 demo_raw) ScopeAgentWrite (Some "mac-1") "laptop" 1000 None None).
Proof.
  destruct (AuthenticateToken demo_db demo_raw ScopeAgentWrite 2000) as [res db'] eqn:E.
  pose proof (AuthenticateToken_spec demo_db db' demo_raw ScopeAgentWrite 2000 res demo_db_ok E) as H.
  assert (Hres : res = (AuthenticateToken demo_db demo_raw ScopeAgentWrite 2000).1) by (by rewrite E).
  vm_compute in Hres. subst res. destruct H as (r & Hb & _).
  eexists _, db'. split; [done|]. split; [done|].
  pose proof Hb as (_ & _ & Hr & _). vm_compute in Hr. injection Hr as <-. exact Hb.
Defined.

Lemma len_rawToken b : length b = 32%nat → len ("qmon_" +:+ b64_encode b) = 48.
Proof.
  intros Hb. pose proof (length_b64_encode b) as Hl. rewrite Hb in Hl. unfold len.
  change (Stdlib.Strings.String.length ("qmon_" +:+ b64_encode b))
    with (5 + Stdlib.Strings.String.length (b64_encode b))%nat.
  by rewrite Hl.
Qed.

(** A token that was inserted is a bearer of its own raw value. *)
Lemma CreateToken_bearer db req s i now ct db' :
  length (default [] s) = 32%nat → CreateToken db req s i now = Ok (ct, db') →
  ∃ r, bearer db' (ct_RawToken ct) (rq_Scope req) (tr_ID (ct_Record ct)) r ∧
       tk_agent_id r = if bool_decide (TrimSpace (rq_AgentID req) = "") then None else Some (TrimSpace (rq_AgentID req)).
Proof.
  intros Hs (sb & ib & -> & -> & Hraw & Hrec & [Hv _] & (Hn & Hd & Hc & ->)%insertToken_Some)%CreateToken_Ok.
  eexists. split; [|shelve]. unfold bearer. simpl. rewrite Hraw at 1 2. rewrite (len_rawToken sb) by done.
  split; [done|]. split; [lia|]. split; [apply lookup_insert_eq|done].
  Unshelve. done.
Qed.

(** A token that was just created authenticates under its own scope, with
    the identity it was created for, and under no other scope. *)
Theorem CreateToken_authenticates (db db' : DB) (req : CreateTokenRequest) (s i : option (list Z))
    (now later : Time) (ct : CreatedToken)
    (Hok : db_ok db) (Hs : length (default [] s) = 32%nat)
    (Hrun : CreateToken db req s i now = Ok (ct, db')) :
  (∃ created, (AuthenticateToken db' (ct_RawToken ct) (rq_Scope req) later).1 =
     Ok (mkTokenRecord (tr_ID (ct_Record ct)) (rq_Scope req) (TrimSpace (rq_AgentID req))
           (rq_Label req) created None (Some later)) ∧ (nano_range now → created = now)) ∧
  (∀ scope, scope ≠ rq_Scope req →
     AuthenticateToken db' (ct_RawToken ct) scope later = (Err ErrInvalidToken, db')).
Proof.
  assert (Hok' : db_ok db') by (by eapply CreateToken_ok).
  destruct (CreateToken_bearer _ _ _ _ _ _ _ Hs Hrun) as (r & Hb & Hag).
  pose proof Hb as (_ & _ & Hr & _ & _ & Hd).
  assert (Huniq : ∀ scope id r', bearer db' (ct_RawToken ct) scope id r' →
                                 id = tr_ID (ct_Record ct) ∧ r' = r).
  { intros scope id r' (_ & _ & Hr' & _ & _ & Hd').
    assert (id = tr_ID (ct_Record ct)) as -> by (apply (ok_unique _ Hok' _ _ r' r); congruence).
    split; congruence. }
  apply CreateToken_Ok in Hrun as (sb & ib & _ & _ & _ & Hrec & _ & (_ & _ & _ & Hdb)%insertToken_Some).
  rewrite Hdb in Hr. simpl in Hr. rewrite lookup_insert_eq in Hr. injection Hr as <-.
  split.
  - destruct (AuthenticateToken_cases db' (ct_RawToken ct) (rq_Scope req) later Hok')
      as [(id & r & Hb' & ->)|[Hno _]]; [|by destruct (Hno _ _ Hb)].
    apply Huniq in Hb' as [-> ->]. exists (UnixFromNano (UnixNano now)). simpl. split.
    + case_bool_decide as E; [by rewrite E|done].
    + apply UnixNano_id.
  - intros scope Hne. destruct (AuthenticateToken_cases db' (ct_RawToken ct) scope later Hok')
      as [(id & r & Hb' & _)|[_ ->]]; [|done].
    pose proof Hb' as (_ & _ & _ & Hsc & _). apply Huniq in Hb' as [_ ->]. by subst scope.
Qed.

Lemma CreateToken_authenticates_witness :
  (AuthenticateToken demo_db demo_raw ScopeDisplayRead 2000).1 = Err ErrInvalidToken.
Proof.
  destruct (CreateToken emptyDB (mkCreateTokenRequest ScopeAgentWrite " mac-1 " "laptop")
              (Some demo_secret) (Some demo_id) 1000) as [[ct db]|e] eqn:E;
    [|vm_compute in E; discriminate E].
  assert (Hdb : demo_db = db) by (unfold demo_db; by rewrite E).
  assert (Hraw : ct_RawToken ct = demo_raw) by (vm_compute in E; injection E as <- _; done).
  destruct (CreateToken_authenticates emptyDB db _ (Some demo_secret) _ 1000 2000 ct emptyDB_ok eq_refl E) as [_ H].
  rewrite Hdb, <-Hraw. rewrite (H ScopeDisplayRead); [done|]. intros Heq. discriminate Heq.
Defined.
