(* ===== verification/StoreReports.v ===== *)
(** * internal/store: agent reports

    [ReplaceAgentReport] against its specification [reported]: one report
    replaces one agent's rows, all or nothing, whatever the iteration order of
    the Providers map; a report that passed validation can only be refused
    for being stale or for a reset instant JSON cannot express; and reports
    delivered in any order leave each agent's newest one in the tables. *)

From S2P Require Import Prelude GoTime GoText GoFloat Digest Model Validate Store StoreTokens.

(** ** The specification *)

Definition newer (db : DB) (agent : string) (sent : Z) : Prop :=
  ∀ row, agents db !! agent = Some row → ag_report_sent_at_ns row < sent.

Definition provider_storable (kv : ProviderName * ProviderReport) : Prop :=
  encodable (pr_Windows kv.2) = true ∧ ValidProvider kv.1 = true.
Definition task_storable (t : ActiveTask) : Prop :=
  ValidProvider (at_Provider t) = true ∧ ValidTaskKind (at_Kind t) = true.
Definition task_id (t : ActiveTask) : string * string := (at_Provider t, at_SessionID t).

Definition content_ok (report : AgentReport) : Prop :=
  Forall provider_storable (map_to_list (providersOf report)) ∧
  Forall task_storable (tasksOf report) ∧ NoDup (task_id <$> tasksOf report).

Definition storable (db : DB) (report : AgentReport) : Prop :=
  newer db (ar_AgentID report) (UnixNano (ar_SentAt report)) ∧ content_ok report.

(** The rows of a report, by provider and by task. *)
Definition providerTable (report : AgentReport) : gmap string providerRow :=
  providerRowOf <$> providersOf report.
Definition taskTable (report : AgentReport) : gmap (string * string) taskRow :=
  list_to_map ((λ t, (task_id t, taskRowOf t)) <$> tasksOf report).

Definition taskKeyOf (agent : string) (k : string * string) : string * string * string :=
  (agent, k.1, k.2).

Definition reported (db : DB) (report : AgentReport) (receivedAt : Time) : DB :=
  let id := ar_AgentID report in
  mkDB (tokens db)
    (<[id := mkAgentRow (UnixNano (ar_SentAt report)) (UnixNano receivedAt)]> (agents db))
    (kmap (pair id) (providerTable report) ∪ clearReports id (provider_reports db))
    (kmap (taskKeyOf id) (taskTable report) ∪ clearTasks id (active_tasks db)).

#[global] Instance task_storable_dec t : Decision (task_storable t).
Proof. unfold task_storable. apply _. Defined.
#[global] Instance provider_storable_dec kv : Decision (provider_storable kv).
Proof. unfold provider_storable. apply _. Defined.
#[global] Instance content_ok_dec report : Decision (content_ok report).
Proof. unfold content_ok. apply _. Defined.
#[global] Instance newer_dec db agent sent : Decision (newer db agent sent).
Proof.
  unfold newer. destruct (agents db !! agent) as [row|].
  - destruct (decide (ag_report_sent_at_ns row < sent)) as [H|H]; [left|right]; naive_solver.
  - by left.
Defined.
#[global] Instance storable_dec db report : Decision (storable db report).
Proof. unfold storable. apply _. Defined.
#[global] Instance taskKeyOf_inj a : Inj (=) (=) (taskKeyOf a).
Proof. by intros [p s] [p' s'] [= -> ->]. Qed.

(** ** The rows of [reported], one by one *)

Lemma clearReports_lookup id m a p :
  clearReports id m !! (a, p) = if decide (a = id) then None else m !! (a, p).
Proof.
  unfold clearReports. rewrite map_lookup_filter. case_decide as E.
  - destruct (m !! (a, p)); [|done]. simpl. by rewrite option_guard_False by (intros Hne; by apply Hne).
  - destruct (m !! (a, p)); [|done]. simpl. by rewrite option_guard_True by done.
Qed.

Lemma clearTasks_lookup id m a p s :
  clearTasks id m !! (a, p, s) = if decide (a = id) then None else m !! (a, p, s).
Proof.
  unfold clearTasks. rewrite map_lookup_filter. case_decide as E.
  - destruct (m !! (a, p, s)); [|done]. simpl. by rewrite option_guard_False by (intros Hne; by apply Hne).
  - destruct (m !! (a, p, s)); [|done]. simpl. by rewrite option_guard_True by done.
Qed.

Lemma reported_reports db report rcv a p :
  provider_reports (reported db report rcv) !! (a, p) =
  if decide (a = ar_AgentID report) then providerTable report !! p else provider_reports db !! (a, p).
Proof.
  simpl. rewrite lookup_union, clearReports_lookup. case_decide as E.
  - subst a. rewrite lookup_kmap by apply _. by rewrite (right_id_L None (∪)).
  - rewrite (proj2 (lookup_kmap_None (pair _) _ _)); [by rewrite (left_id_L None (∪))|].
    by intros q [= -> ->].
Qed.

Lemma reported_tasks db report rcv a p s :
  active_tasks (reported db report rcv) !! (a, p, s) =
  if decide (a = ar_AgentID report) then taskTable report !! (p, s) else active_tasks db !! (a, p, s).
Proof.
  simpl. rewrite lookup_union, clearTasks_lookup. case_decide as E.
  - subst a. change (ar_AgentID report, p, s) with (taskKeyOf (ar_AgentID report) (p, s)).
    rewrite lookup_kmap by apply _. by rewrite (right_id_L None (∪)).
  - rewrite (proj2 (lookup_kmap_None (taskKeyOf _) _ _)); [by rewrite (left_id_L None (∪))|].
    by intros q [= -> ->].
Qed.

Lemma taskTable_Some report k row :
  taskTable report !! k = Some row → ∃ t, t ∈ tasksOf report ∧ task_id t = k ∧ taskRowOf t = row.
Proof.
  intros (t & Heq & Ht)%elem_of_list_to_map_2%list_elem_of_fmap. injection Heq as -> ->. eauto.
Qed.

(** ** The transaction implements the specification *)

Definition withReports (db : DB) (m : gmap (string * string) providerRow) : DB :=
  mkDB (tokens db) (agents db) m (active_tasks db).
Definition withTasks (db : DB) (m : gmap (string * string * string) taskRow) : DB :=
  mkDB (tokens db) (agents db) (provider_reports db) m.

Lemma replaceProvider_Ok id kv db db' :
  is_Some (agents db !! id) →
  replaceProvider id kv db = Ok db' ↔
  provider_storable kv ∧ provider_reports db !! (id, kv.1) = None ∧
  db' = withReports db (<[(id, kv.1) := providerRowOf kv.2]> (provider_reports db)).
Proof.
  intros Hid. destruct kv as [p r]. unfold replaceProvider, insertProvider, provider_storable.
  rewrite refuse_bind_Ok, negb_false_iff. simpl. rewrite (bool_decide_true (is_Some _)) by done.
  destruct (ValidProvider p); simpl; [|naive_solver].
  case_bool_decide; naive_solver.
Qed.

Lemma insertTask_Ok id t db db' :
  is_Some (agents db !! id) →
  insertTask id t db = Ok db' ↔
  task_storable t ∧ active_tasks db !! taskKeyOf id (task_id t) = None ∧
  db' = withTasks db (<[taskKeyOf id (task_id t) := taskRowOf t]> (active_tasks db)).
Proof.
  intros Hid. unfold insertTask, task_storable, taskKeyOf, task_id. simpl.
  rewrite (bool_decide_true (is_Some _)) by done. simpl.
  destruct (ValidProvider _); simpl; [|naive_solver].
  destruct (ValidTaskKind _); simpl; [|naive_solver].
  case_bool_decide; naive_solver.
Qed.

Lemma insert_providers id ps db db' :
  is_Some (agents db !! id) →
  iterM (replaceProvider id) ps db = Ok db' ↔
  Forall provider_storable ps ∧ NoDup ((λ kv : ProviderName * ProviderReport, (id, kv.1)) <$> ps) ∧
  (∀ kv, kv ∈ ps → provider_reports db !! (id, kv.1) = None) ∧
  db' = withReports db
    (rows (λ kv : ProviderName * ProviderReport, (id, kv.1)) (λ kv, providerRowOf kv.2) ps ∪ provider_reports db).
Proof.
  apply (iterM_inserts (replaceProvider id) provider_reports withReports provider_storable
           (λ kv, (id, kv.1)) (λ kv, providerRowOf kv.2) (λ db, is_Some (agents db !! id)));
    try done; [by intros []|]. intros kv s s'. apply replaceProvider_Ok.
Qed.

Lemma insert_tasks id ts db db' :
  is_Some (agents db !! id) →
  iterM (insertTask id) ts db = Ok db' ↔
  Forall task_storable ts ∧ NoDup ((λ t, taskKeyOf id (task_id t)) <$> ts) ∧
  (∀ t, t ∈ ts → active_tasks db !! taskKeyOf id (task_id t) = None) ∧
  db' = withTasks db (rows (λ t, taskKeyOf id (task_id t)) taskRowOf ts ∪ active_tasks db).
Proof.
  apply (iterM_inserts (insertTask id) active_tasks withTasks task_storable
           (λ t, taskKeyOf id (task_id t)) taskRowOf (λ db, is_Some (agents db !! id)));
    try done; [by intros []|]. intros t s s'. apply insertTask_Ok.
Qed.

(** The rows inserted one by one are the tables of the specification. *)
Lemma provider_keys_NoDup (id : string) report ps :
  ps ≡ₚ map_to_list (providersOf report) →
  NoDup ((λ kv : ProviderName * ProviderReport, (id, kv.1)) <$> ps).
Proof.
  intros ->. change (λ kv : ProviderName * ProviderReport, (id, kv.1))
    with (pair id ∘ (fst : ProviderName * ProviderReport → ProviderName)).
  rewrite list_fmap_compose. apply NoDup_fmap_2; [apply _|]. apply NoDup_fst_map_to_list.
Qed.

Lemma task_keys_NoDup (id : string) ts :
  NoDup ((λ t, taskKeyOf id (task_id t)) <$> ts) ↔ NoDup (task_id <$> ts).
Proof.
  change (λ t, taskKeyOf id (task_id t)) with (taskKeyOf id ∘ task_id).
  rewrite list_fmap_compose. split; [apply NoDup_fmap_1|apply NoDup_fmap_2, _].
Qed.

Lemma rows_providers (id : string) report ps :
  ps ≡ₚ map_to_list (providersOf report) →
  rows (λ kv : ProviderName * ProviderReport, (id, kv.1)) (λ kv, providerRowOf kv.2) ps =
  kmap (pair id) (providerTable report).
Proof.
  intros Hp. unfold rows, providerTable, kmap. apply list_to_map_proper.
  - rewrite <-list_fmap_compose. by eapply (provider_keys_NoDup id).
  - rewrite map_to_list_fmap, Hp, <-list_fmap_compose. done.
Qed.

Lemma rows_tasks (id : string) report :
  NoDup (task_id <$> tasksOf report) →
  rows (λ t, taskKeyOf id (task_id t)) taskRowOf (tasksOf report) = kmap (taskKeyOf id) (taskTable report).
Proof.
  intros Hnd. unfold rows, taskTable, kmap. apply list_to_map_proper.
  - rewrite <-list_fmap_compose. by apply (task_keys_NoDup id).
  - rewrite map_to_list_to_map by by rewrite <-list_fmap_compose.
    by rewrite <-list_fmap_compose.
Qed.

Lemma upsertAgent_newer db id sent received :
  let '(n, a) := upsertAgent (agents db) id sent received in
  (n =? 0) = negb (bool_decide (newer db id sent)) ∧
  (newer db id sent → a = <[id := mkAgentRow sent received]> (agents db)).
Proof.
  unfold upsertAgent. case_bool_decide as Hn; unfold newer in *.
  - destruct (agents db !! id) as [r0|]; [|done]. by rewrite (proj2 (Z.ltb_lt _ _) (Hn _ eq_refl)).
  - destruct (agents db !! id) as [r0|]; [|naive_solver].
    destruct (_ <? _) eqn:El; breflect; [|naive_solver].
    exfalso. apply Hn. by intros row [= <-].
Qed.

Lemma transaction_reported db db' report rcv ps :
  ps ≡ₚ map_to_list (providersOf report) →
  reportTransaction db report rcv ps = Ok db' ↔ storable db report ∧ db' = reported db report rcv.
Proof.
  intros Hp. unfold reportTransaction, storable, content_ok.
  set (id := ar_AgentID report).
  pose proof (upsertAgent_newer db id (UnixNano (ar_SentAt report)) (UnixNano rcv)) as Hup.
  destruct (upsertAgent _ _ _ _) as [n a]. destruct Hup as [Hn Ha].
  rewrite refuse_bind_Ok, bind_Ok, Hn, negb_false_iff, bool_decide_eq_true.
  split.
  - intros (Hnew & db1 & H1 & H2). rewrite (Ha Hnew) in H1.
    apply insert_providers in H1 as (Hps & _ & _ & ->); [|simpl; rewrite lookup_insert_eq; eauto].
    apply insert_tasks in H2 as (Hts & Hnd & _ & ->); [|simpl; rewrite lookup_insert_eq; eauto].
    apply task_keys_NoDup in Hnd. rewrite Hp in Hps. split; [done|].
    unfold withTasks, withReports, reported. simpl.
    by rewrite (rows_providers id report), rows_tasks by done.
  - intros [(Hnew & Hps & Hts & Hnd) ->]. split; [done|]. rewrite (Ha Hnew).
    eexists. split.
    + apply insert_providers; [simpl; rewrite lookup_insert_eq; eauto|]. split; [by rewrite Hp|].
      split; [by eapply provider_keys_NoDup|]. split; [|reflexivity].
      intros kv _. simpl. by rewrite clearReports_lookup, decide_True.
    + apply insert_tasks; [simpl; rewrite lookup_insert_eq; eauto|]. split; [done|].
      split; [by apply task_keys_NoDup|]. split.
      * intros t _. unfold taskKeyOf. simpl. by rewrite clearTasks_lookup, decide_True.
      * unfold withTasks, withReports, reported. simpl.
        by rewrite (rows_providers id report), rows_tasks by done.
Qed.

Lemma ReplaceAgentReport_cases db report rcv :
  (storable db report ∧ ReplaceAgentReport db report rcv = (Ok tt, reported db report rcv)) ∨
  (¬ storable db report ∧ ∃ e, ReplaceAgentReport db report rcv = (Err e, db) ∧
     reportTransaction db report rcv (map_to_list (providersOf report)) = Err e).
Proof.
  unfold ReplaceAgentReport.
  destruct (reportTransaction db report rcv _) as [db'|e] eqn:E.
  - apply transaction_reported in E as [Hs ->]; [by left|done].
  - right. split; [|by exists e]. intros Hs.
    assert (reportTransaction db report rcv (map_to_list (providersOf report)) = Ok (reported db report rcv))
      by by apply transaction_reported. congruence.
Qed.

Lemma transaction_stale db report rcv ps :
  ¬ newer db (ar_AgentID report) (UnixNano (ar_SentAt report)) →
  reportTransaction db report rcv ps = Err ErrStaleReport.
Proof.
  intros Hn. unfold reportTransaction.
  pose proof (upsertAgent_newer db (ar_AgentID report) (UnixNano (ar_SentAt report)) (UnixNano rcv)) as Hup.
  destruct (upsertAgent _ _ _ _) as [n a]. destruct Hup as [Hup _].
  by rewrite Hup, bool_decide_false.
Qed.

(** ** Preservation of the invariant *)

Lemma providersOf_storable report p r :
  content_ok report → providersOf report !! p = Some r → provider_storable (p, r).
Proof. intros (Hp & _) Hr. rewrite Forall_forall in Hp. by apply Hp, elem_of_map_to_list. Qed.

Lemma reported_ok db report rcv : db_ok db → content_ok report → db_ok (reported db report rcv).
Proof.
  intros Hok Hc. split; [apply Hok|apply Hok| |].
  - intros [a p] r. rewrite reported_reports. simpl. case_decide as E.
    + subst a. rewrite lookup_insert_eq. unfold providerTable. rewrite lookup_fmap.
      intros (r0 & Hr0 & ->)%fmap_Some. destruct (providersOf_storable _ _ _ Hc Hr0). rewrite report_row_ok_iff. eauto.
    + rewrite lookup_insert_ne by done. apply (ok_reports _ Hok (a, p)).
  - intros [[a p] s] r. rewrite reported_tasks. simpl. case_decide as E.
    + subst a. rewrite lookup_insert_eq. intros (t & Ht & [= <- <-] & <-)%taskTable_Some.
      destruct Hc as (_ & Hts & _). rewrite Forall_forall in Hts. destruct (Hts t Ht). rewrite task_row_ok_iff. simpl. eauto.
    + rewrite lookup_insert_ne by done. apply (ok_tasks _ Hok (a, p, s)).
Qed.

Lemma ReplaceAgentReport_ok db report rcv : db_ok db → db_ok (ReplaceAgentReport db report rcv).2.
Proof.
  intros Hok. destruct (ReplaceAgentReport_cases db report rcv) as [[[_ Hc] ->]|[_ (e & -> & _)]]; [|done].
  by apply reported_ok.
Qed.

(** ** Delivery of many reports *)

Definition deliver (db : DB) (x : AgentReport * Time) : DB := (ReplaceAgentReport db x.1 x.2).2.

Lemma deliver_cases db x :
  (storable db x.1 ∧ deliver db x = reported db x.1 x.2) ∨ (¬ storable db x.1 ∧ deliver db x = db).
Proof.
  unfold deliver. destruct (ReplaceAgentReport_cases db x.1 x.2) as [[? ->]|[? (e & -> & _)]]; eauto.
Qed.

(** The tables show exactly the report [r] for its agent. *)
Definition shows (db : DB) (r : AgentReport) : Prop :=
  (∃ rcv, agents db !! ar_AgentID r = Some (mkAgentRow (UnixNano (ar_SentAt r)) rcv)) ∧
  (∀ p, provider_reports db !! (ar_AgentID r, p) = providerTable r !! p) ∧
  (∀ p s, active_tasks db !! (ar_AgentID r, p, s) = taskTable r !! (p, s)).

Lemma reported_shows db r rcv : shows (reported db r rcv) r.
Proof.
  split; [|split].
  - exists (UnixNano rcv). apply lookup_insert_eq.
  - intros p. by rewrite reported_reports, decide_True.
  - intros p s. by rewrite reported_tasks, decide_True.
Qed.

Lemma deliver_newer db x agent sent :
  newer db agent sent → (ar_AgentID x.1 = agent → UnixNano (ar_SentAt x.1) < sent) →
  newer (deliver db x) agent sent.
Proof.
  intros Hn Hx. destruct (deliver_cases db x) as [[_ ->]|[_ ->]]; [|done].
  unfold newer. simpl. intros row [[Ha <-]|[_ H]]%lookup_insert_Some; [by apply Hx|by apply Hn].
Qed.

Lemma deliver_keeps db x r :
  shows db r → (ar_AgentID x.1 = ar_AgentID r → UnixNano (ar_SentAt x.1) <= UnixNano (ar_SentAt r)) →
  shows (deliver db x) r.
Proof.
  intros Hs Hx. destruct (deliver_cases db x) as [[[Hn _] ->]|[_ ->]]; [|done].
  destruct Hs as ((rcv & Ha) & Hp & Ht).
  assert (Hne : ar_AgentID r ≠ ar_AgentID x.1).
  { intros E. rewrite <-E in Hn. specialize (Hn _ Ha). simpl in Hn. specialize (Hx (eq_sym E)). lia. }
  split; [|split].
  - exists rcv. simpl. by rewrite lookup_insert_ne.
  - intros p. by rewrite reported_reports, decide_False.
  - intros p s. by rewrite reported_tasks, decide_False.
Qed.

Lemma deliver_all_newer l db agent sent :
  newer db agent sent → (∀ x, x ∈ l → ar_AgentID x.1 = agent → UnixNano (ar_SentAt x.1) < sent) →
  newer (foldl deliver db l) agent sent.
Proof.
  revert db. induction l as [|x l IH]; intros db Hn Hl; [done|]. simpl. apply IH; [|set_solver].
  apply deliver_newer; [done|]. apply Hl. set_solver.
Qed.

Lemma deliver_all_keeps l db r :
  shows db r →
  (∀ x, x ∈ l → ar_AgentID x.1 = ar_AgentID r → UnixNano (ar_SentAt x.1) <= UnixNano (ar_SentAt r)) →
  shows (foldl deliver db l) r.
Proof.
  revert db. induction l as [|x l IH]; intros db Hs Hl; [done|]. simpl. apply IH; [|set_solver].
  apply deliver_keeps; [done|]. apply Hl. set_solver.
Qed.

Lemma first_delivery (l : list (AgentReport * Time)) r :
  r ∈ l.*1 → ∃ l1 t l2, l = l1 ++ (r, t) :: l2 ∧ r ∉ l1.*1.
Proof.
  induction l as [|[r' t] l IH]; [set_solver|]. destruct (decide (r' = r)) as [->|Hne].
  - intros _. exists [], t, l. split; [done|set_solver].
  - intros Hin. destruct IH as (l1 & t1 & l2 & -> & Hl1); [set_solver|].
    exists ((r', t) :: l1), t1, l2. split; [done|set_solver].
Qed.

(** ** What a stored report may fail on *)

Lemma provider_ok_storable now sent p r :
  provider_ok now sent p r → ValidProvider p = true.
Proof. intros [Hp _]. by apply ValidProvider_true. Qed.

(** A window the validator accepts is encodable unless its reset is out of range. *)
Lemma window_ok_encodable o :
  (∀ w, o = Some w → window_ok w) → encodableWindow o = false →
  ∃ w t, o = Some w ∧ ResetsAt w = Some t ∧ json_time t = false.
Proof.
  destruct o as [w|]; [|done]. intros Hw. destruct (Hw w eq_refl) as ((Hu & Hu0 & Hu1) & (Hr & Hr0 & Hr1) & _ & _).
  unfold encodableWindow. rewrite Hu, Hr.
  assert (IsInf (UsedPercent w) = false) as -> by (destruct (UsedPercent w) as [|[]| |]; done).
  assert (IsInf (RemainingPercent w) = false) as -> by (destruct (RemainingPercent w) as [|[]| |]; done).
  simpl. destruct (ResetsAt w) as [t|] eqn:E; [|done]. eauto.
Qed.

Definition reset_out_of_range (ws : ProviderWindows) : Prop :=
  ∃ w t, (FiveHour ws = Some w ∨ SevenDay ws = Some w) ∧ ResetsAt w = Some t ∧ json_time t = false.

Lemma windows_ok_encodable ws : windows_ok ws → encodable ws = false → reset_out_of_range ws.
Proof.
  intros [H5 H7] He. unfold encodable in He. apply andb_false_iff in He as [He|He];
    apply window_ok_encodable in He as (w & t & ? & ? & ?); try done; exists w, t; eauto.
Qed.

(** An insertion of valid providers into cleared rows fails only on encoding. *)
Lemma insert_providers_Err id ps db e :
  is_Some (agents db !! id) → Forall (λ kv, ValidProvider kv.1 = true) ps → NoDup ps.*1 →
  (∀ kv, kv ∈ ps → provider_reports db !! (id, kv.1) = None) →
  iterM (replaceProvider id) ps db = Err e →
  ∃ p r, (p, r) ∈ ps ∧ e = EncodeWindowsFailed p ∧ encodable (pr_Windows r) = false.
Proof.
  intros Hid. revert db Hid. induction ps as [|[p r] ps IH]; intros db Hid Hv Hnd Hf; [done|]. cbn [iterM].
  apply Forall_cons in Hv as [Hp Hv]. apply NoDup_cons in Hnd as [Hni Hnd].
  intros [He|(db1 & H1 & H2)]%bind_Err.
  - destruct (encodable (pr_Windows r)) eqn:Ee.
    + exfalso. assert (replaceProvider id (p, r) db =
        Ok (withReports db (<[(id, p) := providerRowOf r]> (provider_reports db)))); [|congruence].
      apply replaceProvider_Ok; [done|]. split; [done|]. split; [|done]. apply (Hf (p, r)). set_solver.
    + unfold replaceProvider in He. rewrite Ee in He. injection He as <-. exists p, r. set_solver.
  - apply replaceProvider_Ok in H1 as (_ & _ & ->); [|done].
    destruct (IH (withReports db (<[(id, p) := providerRowOf r]> (provider_reports db))) Hid Hv Hnd) with (2 := H2) as (p' & r' & Hin & ? & ?).
    + intros [p' r'] Hin. simpl. rewrite lookup_insert_ne; [apply (Hf (p', r')); set_solver|].
      intros [= ->]. apply Hni. by apply (list_elem_of_fmap_2 fst) in Hin.
    + exists p', r'. set_solver.
Qed.

Lemma replaceProvider_Err id kv db e : replaceProvider id kv db = Err e → e ≠ ErrStaleReport.
Proof.
  destruct kv as [p r]. unfold replaceProvider. intros [He|([] & _ & He)]%bind_Err.
  - unfold refuse in He. case_in He; [|done]. by injection He as <-.
  - destruct (insertProvider _ _ _ _); [done|]. by injection He as <-.
Qed.

Lemma insertTask_Err id t db e : insertTask id t db = Err e → e = InsertTaskFailed.
Proof. unfold insertTask. case_match; [done|]. by intros [= <-]. Qed.

Lemma transaction_Err_newer db report rcv ps e :
  newer db (ar_AgentID report) (UnixNano (ar_SentAt report)) →
  reportTransaction db report rcv ps = Err e → e ≠ ErrStaleReport.
Proof.
  intros Hn. unfold reportTransaction.
  pose proof (upsertAgent_newer db (ar_AgentID report) (UnixNano (ar_SentAt report)) (UnixNano rcv)) as Hup.
  destruct (upsertAgent _ _ _ _) as [n a]. destruct Hup as [-> _]. rewrite bool_decide_true by done. simpl.
  intros [He|(db1 & _ & He)]%bind_Err.
  - by eapply (iterM_Err (λ e, e ≠ ErrStaleReport)), He; intros ???; apply replaceProvider_Err.
  - eapply (iterM_Err (λ e, e ≠ ErrStaleReport)), He. by intros ??? ->%insertTask_Err.
Qed.

(** ** What the report operations promise *)

(** C1. [ReplaceAgentReport] is atomic and complete: if the report is newer
    than the agent's last one and its content meets the schema, it replaces
    exactly that agent's rows by the report's; otherwise the database is
    unchanged, and the error is [ErrStaleReport] exactly when the report is
    not newer. *)
Theorem ReplaceAgentReport_atomic (db : DB) (report : AgentReport) (receivedAt : Time) :
  let outcome := ReplaceAgentReport db report receivedAt in
  (storable db report → outcome = (Ok tt, reported db report receivedAt)) ∧
  (¬ storable db report → ∃ e, outcome = (Err e, db)) ∧
  (outcome.1 = Err ErrStaleReport ↔ ¬ newer db (ar_AgentID report) (UnixNano (ar_SentAt report))).
Proof.
  intros outcome. unfold outcome.
  destruct (ReplaceAgentReport_cases db report receivedAt) as [[Hs ->]|(Hs & e & -> & He)].
  - split; [done|]. split; [done|]. split; [done|]. by destruct Hs.
  - split; [done|]. split; [eauto|]. simpl. split.
    + intros [= ->] Hn. by destruct (transaction_Err_newer _ _ _ _ _ Hn He).
    + intros Hn. rewrite transaction_stale in He by done. by injection He as <-.
Qed.

Definition demo_provider (obs : Time) : ProviderReport :=
  mkProviderReport obs "authenticated" "pro" "codex_app_server"
    (mkProviderWindows (Some (NewLimitWindow (f_of_Z 40) (obs + Hour))) None) "".
Definition demo_report (agent : string) (t : Time) : AgentReport :=
  mkAgentReport 1 agent t (Some {[ProviderCodex := demo_provider t; ProviderClaude := demo_provider (t - Minute)]})
    (Some [mkActiveTask ProviderCodex TaskMain "s1" (t - Minute) t;
           mkActiveTask ProviderClaude TaskSub "s2" (t - Minute) t]).

(** The result of the transaction does not depend on the unspecified order
    in which Go iterates over [report.Providers]: in every order it succeeds
    exactly on the storable reports, and with the same database. *)
Theorem ReplaceAgentReport_any_order (db : DB) (report : AgentReport) (receivedAt : Time)
    (order : list (ProviderName * ProviderReport))
    (Horder : order ≡ₚ map_to_list (providersOf report)) :
  (is_ok (reportTransaction db report receivedAt order) = true ↔ storable db report) ∧
  (∀ db', reportTransaction db report receivedAt order = Ok db' →
          ReplaceAgentReport db report receivedAt = (Ok tt, db')).
Proof.
  split.
  - rewrite is_ok_true. setoid_rewrite (transaction_reported db _ report receivedAt order Horder).
    naive_solver.
  - intros db' [Hs ->]%transaction_reported; [|done].
    by destruct (ReplaceAgentReport_cases db report receivedAt) as [[_ ->]|[? _]].
Qed.

Lemma ReplaceAgentReport_any_order_witness :
  let r := demo_report "mac-1" (1700000000 * Second) in
  is_ok (reportTransaction emptyDB r (1700000001 * Second) (reverse (map_to_list (providersOf r)))) = true.
Proof.
  intros r. apply (ReplaceAgentReport_any_order emptyDB r _ _ (reverse_Permutation _)).
  apply (bool_decide_unpack _). vm_compute. exact I.
Defined.

(** The content of a validated report meets the schema, encoding aside. *)
Lemma report_ok_content report now :
  report_ok report now →
  Forall (λ kv : ProviderName * ProviderReport, ValidProvider kv.1 = true) (map_to_list (providersOf report)) ∧
  Forall task_storable (tasksOf report) ∧ NoDup (task_id <$> tasksOf report) ∧
  (∀ p r, providersOf report !! p = Some r → windows_ok (pr_Windows r)).
Proof.
  intros (_ & _ & _ & _ & ps & ts & Hps & Hts & _ & Hp & Ht & Hnd).
  unfold providersOf, tasksOf. rewrite Hps, Hts. simpl. split; [|split; [|split; [done|]]].
  - rewrite Forall_forall. intros [p r] Hin%elem_of_map_to_list. eapply provider_ok_storable. by apply Hp.
  - eapply Forall_impl; [exact Ht|]. intros t (? & ? & _). split; [by apply ValidProvider_true|by apply ValidTaskKind_true].
  - intros p r Hr. by apply Hp in Hr as (_ & _ & _ & _ & _ & _ & _ & Hw).
Qed.

(** A report that passed validation is stored as a whole, unless it is not
    newer than the agent's last one or one of its reset instants lies outside
    the years JSON can express; no constraint of the schema can refuse it. *)
Theorem Validated_report_outcome (db db' : DB) (report : AgentReport) (now receivedAt : Time)
    (res : result StoreError unit)
    (Hvalid : ValidateAgentReport report now = Ok tt)
    (Hrun : ReplaceAgentReport db report receivedAt = (res, db')) :
  match res with
  | Ok _ => db' = reported db report receivedAt ∧
            newer db (ar_AgentID report) (UnixNano (ar_SentAt report))
  | Err e => db' = db ∧
      ((e = ErrStaleReport ∧ ¬ newer db (ar_AgentID report) (UnixNano (ar_SentAt report))) ∨
       ∃ p r, e = EncodeWindowsFailed p ∧ providersOf report !! p = Some r ∧
              reset_out_of_range (pr_Windows r))
  end.
Proof.
  apply validate_report_ok, report_ok_content in Hvalid as (Hps & Hts & Hnd & Hw).
  destruct (ReplaceAgentReport_cases db report receivedAt) as [[[Hn Hc] Hrun']|(Hs & e & Hrun' & He)];
    rewrite Hrun in Hrun'; injection Hrun' as -> ->; [done|]. split; [done|].
  destruct (decide (newer db (ar_AgentID report) (UnixNano (ar_SentAt report)))) as [Hn|Hn].
  - right. unfold reportTransaction in He.
    pose proof (upsertAgent_newer db (ar_AgentID report) (UnixNano (ar_SentAt report)) (UnixNano receivedAt)) as Hup.
    destruct (upsertAgent _ _ _ _) as [n a]. destruct Hup as [Hz Ha].
    rewrite Hz, bool_decide_true, (Ha Hn) in He by done. simpl in He.
    apply bind_Err in He as [He|(db1 & H1 & He)].
    + apply insert_providers_Err in He as (p & r & Hin%elem_of_map_to_list & -> & Henc).
      * exists p, r. split; [done|]. split; [done|]. apply windows_ok_encodable; [|done]. by apply (Hw p).
      * simpl. rewrite lookup_insert_eq. eauto.
      * done.
      * apply NoDup_fst_map_to_list.
      * intros kv _. simpl. by rewrite clearReports_lookup, decide_True.
    + exfalso. apply insert_providers in H1 as (_ & _ & _ & ->); [|simpl; rewrite lookup_insert_eq; eauto].
      refine (_ (proj2 (insert_tasks _ _ _ _ _) (conj Hts (conj (proj2 (task_keys_NoDup _ _) Hnd) (conj _ eq_refl))))).
      * intros Hok. rewrite He in Hok. discriminate Hok.
      * simpl. rewrite lookup_insert_eq. eauto.
      * intros t _. unfold taskKeyOf. simpl. by rewrite clearTasks_lookup, decide_True.
  - left. rewrite transaction_stale in He by done. by injection He as <-.
Qed.

Lemma Validated_report_outcome_witness :
  let r := demo_report "mac-1" (1700000000 * Second) in
  (ReplaceAgentReport emptyDB r (1700000001 * Second)).2 = reported emptyDB r (1700000001 * Second).
Proof.
  intros r. destruct (ReplaceAgentReport emptyDB r (1700000001 * Second)) as [res db'] eqn:E.
  assert (Hv : ValidateAgentReport r (1700000001 * Second) = Ok tt) by (vm_compute; reflexivity).
  pose proof (Validated_report_outcome emptyDB db' r _ _ res Hv E) as H.
  assert (Hres : is_ok res = is_ok (ReplaceAgentReport emptyDB r (1700000001 * Second)).1) by (by rewrite E).
  vm_compute in Hres. destruct res as [u|e]; [|discriminate Hres]. exact (proj1 H).
Defined.

(** C3. Reports may be delivered late, twice or out of order: once its newest
    report is among the delivered ones, an agent's rows are exactly that
    report's, whatever else was delivered before or after it. *)
Theorem Reports_converge (db : DB) (l : list (AgentReport * Time)) (r : AgentReport)
    (Hin : r ∈ l.*1) (Hc : content_ok r)
    (Hdb : newer db (ar_AgentID r) (UnixNano (ar_SentAt r)))
    (Hnewest : ∀ r', r' ∈ l.*1 → ar_AgentID r' = ar_AgentID r →
                     r' = r ∨ UnixNano (ar_SentAt r') < UnixNano (ar_SentAt r)) :
  shows (foldl deliver db l) r.
Proof.
  destruct (first_delivery l r Hin) as (l1 & t & l2 & -> & Hl1).
  rewrite foldl_app. simpl. apply deliver_all_keeps.
  - destruct (deliver_cases (foldl deliver db l1) (r, t)) as [[_ ->]|[Hs _]]; [apply reported_shows|].
    exfalso. apply Hs. split; [|done]. apply deliver_all_newer; [done|].
    intros x Hx Ha. destruct (Hnewest x.1) as [E| ]; [|done| |done].
    + rewrite fmap_app. apply elem_of_app. left. by apply list_elem_of_fmap_2.
    + exfalso. apply Hl1. rewrite <-E. by apply list_elem_of_fmap_2.
  - intros x Hx Ha. destruct (Hnewest x.1) as [-> | ]; [|done|lia|lia].
    rewrite fmap_app. apply elem_of_app. right. simpl. right. by apply list_elem_of_fmap_2.
Qed.

Lemma Reports_converge_witness :
  let t := 1700000000 * Second in
  let old := demo_report "mac-1" t in
  let new := demo_report "mac-1" (t + Second) in
  let other := demo_report "pc-2" (t + Minute) in
  shows (foldl deliver emptyDB [(new, t + Second); (old, t + Second); (other, t + Minute); (new, t + Hour)]) new.
Proof.
  intros t old new other. apply Reports_converge.
  - simpl. left.
  - apply (bool_decide_unpack _). vm_compute. exact I.
  - intros row H. discriminate H.
  - intros r' Hr'. simpl in Hr'. repeat (apply elem_of_cons in Hr' as [->|Hr']).
    + intros _. left. reflexivity.
    + intros _. right. vm_compute. reflexivity.
    + intros H. discriminate H.
    + intros _. left. reflexivity.
    + apply elem_of_nil in Hr'. destruct Hr'.
Defined.
