(* ===== verification/StoreHistory.v ===== *)
(** * internal/store: histories of operations

    The store's operations in any sequence: the invariant holds throughout,
    and a revoked token stays dead. *)

From S2P Require Import Prelude GoTime GoText GoFloat Digest Model Validate Store StoreTokens StoreReports.

(** One call on the store that may change it. *)
Inductive storeOp :=
| OpCreate (req : CreateTokenRequest) (secret idBytes : option (list Z)) (now : Time)
| OpRevoke (id : string) (now : Time)
| OpAuthenticate (raw : string) (scope : TokenScope) (now : Time)
| OpReport (report : AgentReport) (receivedAt : Time).

Definition storeStep (db : DB) (op : storeOp) : DB :=
  match op with
  | OpCreate req s i now => match CreateToken db req s i now with Ok (_, db') => db' | Err _ => db end
  | OpRevoke id now => (RevokeToken db id now).2
  | OpAuthenticate raw scope now => (AuthenticateToken db raw scope now).2
  | OpReport report receivedAt => (ReplaceAgentReport db report receivedAt).2
  end.

Definition storeRun : DB → list storeOp → DB := foldl storeStep.

Lemma storeStep_ok db op : db_ok db → db_ok (storeStep db op).
Proof.
  intros Hok. destruct op as [req s i now|id now|raw scope now|report rcv]; simpl.
  - destruct (CreateToken db req s i now) as [[ct db']|e] eqn:E; [by eapply CreateToken_ok|done].
  - by apply RevokeToken_ok.
  - destruct (AuthenticateToken_cases db raw scope now Hok) as [(id & r & _ & ->)|[_ ->]]; [|done].
    by apply useToken_ok.
  - by apply ReplaceAgentReport_ok.
Qed.

Lemma run_ok db ops : db_ok db → db_ok (storeRun db ops).
Proof. revert db. induction ops as [|op ops IH]; intros db Hok; [done|]. by apply IH, storeStep_ok. Qed.

(** What a step does to a token row: it stays, with its digest and scope, and
    once revoked it stays revoked. *)
Definition later_row (r r' : tokenRow) : Prop :=
  same_identity r r' ∧ (tk_revoked_at_ns r ≠ None → tk_revoked_at_ns r' = tk_revoked_at_ns r).

Lemma later_row_refl r : later_row r r.
Proof. done. Qed.

Lemma storeStep_row db op id r :
  db_ok db → tokens db !! id = Some r → ∃ r', tokens (storeStep db op) !! id = Some r' ∧ later_row r r'.
Proof.
  intros Hok Hr. pose proof (later_row_refl r) as Href.
  destruct op as [req s i now|id' now|raw scope now|report rcv]; simpl.
  - destruct (CreateToken db req s i now) as [[ct db']|e] eqn:E; [|eauto].
    apply CreateToken_Ok in E as (sb & ib & _ & _ & _ & _ & _ & (Hn & _ & _ & ->)%insertToken_Some).
    exists r. split; [|done]. simpl. rewrite lookup_insert_ne; [done|congruence].
  - destruct (RevokeToken_cases db id' now) as [(r0 & Hr0 & Hv & ->)|[_ ->]]; simpl; [|eauto].
    destruct (decide (id' = id)) as [->|Hne].
    + rewrite lookup_alter_eq, Hr. simpl. eexists. split; [done|]. split; [done|]. congruence.
    + rewrite lookup_alter_ne by done. eauto.
  - destruct (AuthenticateToken_cases db raw scope now Hok) as [(id' & r0 & _ & ->)|[_ ->]]; simpl; [|eauto].
    destruct (decide (id' = id)) as [->|Hne].
    + rewrite lookup_alter_eq, Hr. simpl. eexists. split; [done|]. done.
    + rewrite lookup_alter_ne by done. eauto.
  - destruct (ReplaceAgentReport_cases db report rcv) as [[_ ->]|[_ (e & -> & _)]]; simpl; eauto.
Qed.

Lemma run_row db ops id r :
  db_ok db → tokens db !! id = Some r → ∃ r', tokens (storeRun db ops) !! id = Some r' ∧ later_row r r'.
Proof.
  revert db r. induction ops as [|op ops IH]; intros db r Hok Hr; [by exists r|].
  destruct (storeStep_row db op id r Hok Hr) as (r1 & Hr1 & [(? & ? & ?) Hv1]).
  destruct (IH (storeStep db op) r1) as (r2 & Hr2 & [(? & ? & ?) Hv2]); [by apply storeStep_ok|done|].
  exists r2. split; [done|]. split; [split_and!; congruence|].
  intros Hv. rewrite Hv2; [by apply Hv1|]. by rewrite Hv1.
Qed.

(** ** What a token was issued with *)

(** The identifiers of agents. *)
Definition agent_name (a : string) : Prop :=
  1 <= len a <= 64 ∧
  ∀ c, c ∈ Stdlib.Strings.String.list_ascii_of_string a →
    97 <= zb c <= 122 ∨ 65 <= zb c <= 90 ∨ 48 <= zb c <= 57 ∨ c ∈ ["."%char; "_"%char; "-"%char].

Lemma validAgentID_name a : validAgentID a = true → agent_name a.
Proof.
  unfold validAgentID, agent_name. destruct (_ || _) eqn:E; [done|]. apply orb_false_iff in E as [E1 E2].
  intros Hr. split; [pose proof (Z.eqb_neq (len a) 0); unfold len in *; lia|]. intros c Hc.
  rewrite (runes_ascii agentIDRune a) in Hr; [|intros r; unfold agentIDRune, is_upper, is_lower, is_digit, within; lia|done].
  rewrite forallb_forall in Hr. specialize (Hr (zb c) ltac:(apply list_elem_of_In; by apply list_elem_of_fmap_2)).
  unfold agentIDRune, is_upper, is_lower, is_digit, within in Hr.
  assert (zb c = 46 ∨ zb c = 95 ∨ zb c = 45 ∨ (97 <= zb c <= 122 ∨ 65 <= zb c <= 90 ∨ 48 <= zb c <= 57)) as Hcases by lia.
  destruct Hcases as [H|[H|[H|H]]]; [| | |tauto].
  all: right; right; right; destruct c as [[] [] [] [] [] [] [] []]; try discriminate H; set_solver.
Qed.

(** The identifier, the digest, the agent and the label of a row that
    [CreateToken] made. *)
Definition issued (id : string) (r : tokenRow) : Prop :=
  (∃ secret idBytes, id = "tok_" +:+ b64_encode idBytes ∧ tk_digest r = Sum256 ("qmon_" +:+ b64_encode secret)) ∧
  (∀ a, tk_agent_id r = Some a → agent_name a) ∧ len (tk_label r) <= 200.

Lemma storeStep_issued db op :
  db_ok db → map_Forall issued (tokens db) → map_Forall issued (tokens (storeStep db op)).
Proof.
  intros Hok H. assert (Halter : ∀ f id, (∀ r, issued id r → issued id (f r)) →
      map_Forall issued (tokens (setTokens db (alter f id (tokens db))))).
  { intros f id Hf i r. simpl. intros [(-> & r0 & Hr & ->)|[_ Hr]]%lookup_alter_Some; [apply Hf|]; by apply H. }
  destruct op as [req s i now|id' now|raw scope now|report rcv]; simpl.
  - destruct (CreateToken db req s i now) as [[ct db']|e] eqn:E; [|done].
    apply CreateToken_Ok in E as (sb & ib & _ & _ & Hraw & Hrec & (_ & Hagent & Hlabel) & (_ & _ & _ & ->)%insertToken_Some).
    simpl. apply map_Forall_insert_2; [|done]. rewrite Hrec, Hraw. cbn [tr_ID]. split; [by exists sb, ib|]. cbn [tk_agent_id tk_label].
    split; [|done]. intros a. case_bool_decide as Ha; [done|]. intros [= <-]. apply validAgentID_name. by destruct Hagent.
  - destruct (RevokeToken_cases db id' now) as [(r0 & _ & _ & ->)|[_ ->]]; [|done]. by apply Halter.
  - destruct (AuthenticateToken_cases db raw scope now Hok) as [(id' & r0 & _ & ->)|[_ ->]]; [|done]. by apply Halter.
  - destruct (ReplaceAgentReport_cases db report rcv) as [[_ ->]|[_ (e & -> & _)]]; done.
Qed.

Lemma run_issued db ops : db_ok db → map_Forall issued (tokens db) → map_Forall issued (tokens (storeRun db ops)).
Proof.
  revert db. induction ops as [|op ops IH]; intros db Hok H; [done|].
  by apply IH; [apply storeStep_ok|apply storeStep_issued].
Qed.

(** C39. What the store's operations keep true: after any sequence of them on
    an empty database, every token row has a digest of 32 bytes that no other
    row has and that is the one of a [qmon_] value, an identifier [tok_...], a
    label of at most 200 bytes, and either the scope agent:write with an agent
    identifier of 1 to 64 letters, digits, dots, underscores and hyphens, or
    the scope display:read without an agent; every provider and task row
    belongs to an agent in the table, to one of the two providers and, for
    tasks, to one of the two kinds; and every stored window holds finite
    percentages and a reset that JSON can express. *)
Theorem storeRun_ok (ops : list storeOp) :
  let db := storeRun emptyDB ops in
  (∀ id r, tokens db !! id = Some r →
     len (tk_digest r) = 32 ∧
     ((tk_scope r = "agent:write" ∧ ∃ a, tk_agent_id r = Some a ∧ agent_name a) ∨
      (tk_scope r = "display:read" ∧ tk_agent_id r = None)) ∧
     (∃ secret idBytes, id = "tok_" +:+ b64_encode idBytes ∧ tk_digest r = Sum256 ("qmon_" +:+ b64_encode secret)) ∧
     len (tk_label r) <= 200 ∧
     (∀ id' r', tokens db !! id' = Some r' → tk_digest r' = tk_digest r → id' = id)) ∧
  (∀ agent provider r, provider_reports db !! (agent, provider) = Some r →
     is_Some (agents db !! agent) ∧ report_row_ok provider r) ∧
  (∀ agent provider session r, active_tasks db !! (agent, provider, session) = Some r →
     is_Some (agents db !! agent) ∧ task_row_ok provider r).
Proof.
  intros db. pose proof (run_ok emptyDB ops emptyDB_ok) as Hok. pose proof (run_issued emptyDB ops emptyDB_ok (map_Forall_empty _)) as Hi.
  split; [|split].
  - intros id r Hr. destruct (ok_check _ Hok id r Hr) as [Hd Hs]. destruct (Hi id r Hr) as (Hid & Hag & Hl).
    split_and!; [done| |done|done|].
    + destruct Hs as [(Hs & a & Ha & _)|Hs]; [left; eauto|by right].
    + intros id' r' Hr' Heq. by apply (ok_unique _ Hok id' id r' r).
  - intros agent provider r Hr. exact (ok_reports _ Hok (agent, provider) r Hr).
  - intros agent provider session r Hr. exact (ok_tasks _ Hok (agent, provider, session) r Hr).
Qed.

(** C5. Revocation is final: once [RevokeToken] has succeeded on a token, no
    later sequence of operations makes a raw value of that token authenticate
    again, under any scope. *)
Theorem Revoked_forever (db db' : DB) (ops : list storeOp) (id raw : string) (scope scope' : TokenScope)
    (r : tokenRow) (now later : Time)
    (Hok : db_ok db) (Hb : bearer db raw scope id r)
    (Hrevoke : RevokeToken db id now = (Ok tt, db')) :
  AuthenticateToken (storeRun db' ops) raw scope' later = (Err ErrInvalidToken, storeRun db' ops).
Proof.
  assert (Hok' : db_ok db') by (change db' with (Ok tt : result StoreError unit, db').2; rewrite <-Hrevoke; by apply RevokeToken_ok).
  destruct Hb as (_ & _ & Hr & _ & _ & Hd).
  assert (H1 : tokens db' !! id = Some (revokedRow (UnixNano now) r)).
  { destruct (RevokeToken_cases db id now) as [(r0 & Hr0 & _ & E)|[_ E]]; rewrite Hrevoke in E; [|done].
    injection E as ->. simpl. by rewrite lookup_alter_eq, Hr. }
  destruct (run_row db' ops id _ Hok' H1) as (r2 & Hr2 & [(Hd2 & _) Hv2]).
  destruct (AuthenticateToken_cases (storeRun db' ops) raw scope' later (run_ok _ ops Hok'))
    as [(id' & r' & (_ & _ & Hr' & _ & Hv & Hd') & _)|[_ ->]]; [|done].
  exfalso. assert (id' = id) as ->.
  { apply (ok_unique _ (run_ok _ ops Hok') id' id r' r2); [done..|]. rewrite Hd', Hd2. simpl. by rewrite Hd. }
  rewrite Hr2 in Hr'. injection Hr' as <-. by rewrite Hv2 in Hv.
Qed.

Lemma Revoked_forever_witness :
  ∃ id, (RevokeToken demo_db id 3000).1 = Ok tt ∧
    (AuthenticateToken
       (storeRun (RevokeToken demo_db id 3000).2
          [OpAuthenticate demo_raw ScopeAgentWrite 4000;
           OpCreate (mkCreateTokenRequest ScopeAgentWrite "mac-1" "again") (Some demo_secret) (Some (seqZ 7 12)) 5000])
       demo_raw ScopeAgentWrite 6000).1 = Err ErrInvalidToken.
Proof.
  exists ("tok_" +:+ b64_encode demo_id).
  set (id := "tok_" +:+ b64_encode demo_id).
  assert (Hrow : tokens demo_db !! id = Some
    (mkTokenRow (Sum256 demo_raw) ScopeAgentWrite (Some "mac-1") "laptop" 1000 None None))
    by (vm_compute; reflexivity).
  assert (Hb : bearer demo_db demo_raw ScopeAgentWrite id
    (mkTokenRow (Sum256 demo_raw) ScopeAgentWrite (Some "mac-1") "laptop" 1000 None None)).
  { split; [reflexivity|]. split; [vm_compute; split; discriminate|]. split; [exact Hrow|]. split; [reflexivity|].
    split; reflexivity. }
  destruct (RevokeToken demo_db id 3000) as [res db'] eqn:E.
  assert (Hres : res = (RevokeToken demo_db id 3000).1) by (rewrite E; reflexivity).
  vm_compute in Hres. subst res. split; [reflexivity|]. cbn [snd].
  rewrite (Revoked_forever demo_db db' _ id demo_raw ScopeAgentWrite ScopeAgentWrite _ 3000 6000 demo_db_ok Hb E).
  reflexivity.
Defined.
