(* ===== verification/StoreSnapshot.v ===== *)
(** * internal/store: the display snapshot

    What [BuildDisplaySnapshot] shows: for each provider the most recent
    observation of any agent with its freshness, the counts of the tasks that
    are live on agents that are online, and a warning for each provider whose
    numbers cannot be trusted. *)

From S2P Require Import Prelude GoTime GoText GoFloat Digest Model Validate Store StoreTokens StoreReports.

(** ** The latest provider row *)

Lemma latestOrder_le a b :
  latestOrder a b ↔ pv_observed_at_ns b.2 < pv_observed_at_ns a.2 ∨
    (pv_observed_at_ns a.2 = pv_observed_at_ns b.2 ∧ str_le a.1.1 b.1.1).
Proof. done. Qed.

#[global] Instance latestOrder_total : Total latestOrder.
Proof.
  intros a b. rewrite !latestOrder_le. destruct (total str_le a.1.1 b.1.1),
    (Z.lt_trichotomy (pv_observed_at_ns a.2) (pv_observed_at_ns b.2)) as [?|[?|?]]; auto.
Qed.

#[global] Instance latestOrder_trans : Transitive latestOrder.
Proof.
  intros a b c. rewrite !latestOrder_le.
  intros [?|[? H1]] [?|[? H2]]; [left; lia..|]. right. split; [lia|by etrans].
Qed.

(** The row the display shows for a provider. *)
Definition latest (db : DB) (provider : ProviderName) (a : string) (r : providerRow) : Prop :=
  provider_reports db !! (a, provider) = Some r ∧ 0 < pv_observed_at_ns r ∧
  ∀ a' r', provider_reports db !! (a', provider) = Some r' →
    pv_observed_at_ns r' < pv_observed_at_ns r ∨
    (pv_observed_at_ns r' = pv_observed_at_ns r ∧ str_le a a').

Lemma usableReports_elem db provider k r :
  (k, r) ∈ usableReports db provider ↔
  provider_reports db !! k = Some r ∧ k.2 = provider ∧ 0 < pv_observed_at_ns r.
Proof. unfold usableReports. rewrite list_elem_of_filter, elem_of_map_to_list. simpl. tauto. Qed.

Lemma loadLatestProvider_cases db provider now :
  (loadLatestProvider db provider now = (unavailableProvider, false) ∧
   ∀ a r, provider_reports db !! (a, provider) = Some r → pv_observed_at_ns r <= 0) ∨
  ∃ a r, loadLatestProvider db provider now = (snapshotOfRow r now, true) ∧ latest db provider a r.
Proof.
  unfold loadLatestProvider.
  pose proof (merge_sort_Permutation latestOrder (usableReports db provider)) as Hp.
  pose proof (StronglySorted_merge_sort latestOrder (usableReports db provider)) as Hs.
  destruct (merge_sort latestOrder _) as [|[[a p] r] l].
  - left. split; [done|]. intros a r Hr. apply Z.nlt_ge. intros Hpos.
    apply Permutation_nil_l in Hp. symmetry in Hp. assert ((a, provider, r) ∈ usableReports db provider) as Hin
      by (by apply usableReports_elem). destruct (usableReports db provider); [set_solver|done].
  - right. exists a, r. split; [done|].
    assert (Hin : (a, p, r) ∈ usableReports db provider) by (rewrite <-Hp; set_solver).
    apply usableReports_elem in Hin as (Hr & Heq & Hpos). simpl in Heq. subst p.
    split; [done|]. split; [done|]. intros a' r' Hr'.
    destruct (decide (0 < pv_observed_at_ns r')) as [Hpos'|]; [|lia].
    assert (Hin : (a', provider, r') ∈ (a, provider, r) :: l) by (rewrite Hp; by apply usableReports_elem).
    apply elem_of_cons in Hin as [[= -> ->]|Hin]; [right; split; [done|by destruct (total str_le a a)]|].
    apply StronglySorted_inv in Hs as [_ Hall]. rewrite Forall_forall in Hall.
    specialize (Hall _ Hin). apply latestOrder_le in Hall. simpl in Hall.
    destruct Hall as [?|[? ?]]; [by left|by right].
Qed.

(** The database that a provider's query sees. *)
Definition queried (atCodex atClaude : DB) (provider : ProviderName) : DB :=
  if bool_decide (provider = ProviderCodex) then atCodex else atClaude.

Lemma providers_from atAgents atCodex atClaude atTasks now provider :
  ds_Providers (BuildDisplaySnapshotFrom atAgents atCodex atClaude atTasks now) !! provider =
  if ValidProvider provider then Some (providerEntry (queried atCodex atClaude provider) provider now) else None.
Proof.
  unfold ValidProvider, queried. simpl.
  destruct (decide (provider = ProviderCodex)) as [->|H1]; [done|].
  destruct (decide (provider = ProviderClaude)) as [->|H2]; [done|].
  rewrite !bool_decide_false by done. by rewrite !lookup_insert_ne, lookup_empty by done.
Qed.

Lemma providers_lookup db now provider :
  ds_Providers (BuildDisplaySnapshot db now) !! provider =
  if ValidProvider provider then Some (providerEntry db provider now) else None.
Proof. unfold BuildDisplaySnapshot. rewrite providers_from. unfold queried. by destruct (bool_decide _). Qed.

(** ** Task counts *)

Definition num (p : ProviderName) (k : TaskKind) (l : list (string * string * string * taskRow)) : Z :=
  Z.of_nat (length (filter (λ kv, kv.1.1.2 = p ∧ tw_kind kv.2 = k) l)).

Lemma num_snoc p k l kv :
  num p k (l ++ [kv]) = num p k l + (if decide (kv.1.1.2 = p ∧ tw_kind kv.2 = k) then 1 else 0).
Proof. unfold num. rewrite filter_app, length_app, filter_cons, filter_nil. case_decide; simpl; lia. Qed.

Lemma loadTaskSummary_num db now :
  let l := liveTasks db now in
  let both k := num ProviderCodex k l + num ProviderClaude k l in
  loadTaskSummary db now =
  mkTaskSummary (mkTaskCount (num ProviderCodex TaskMain l) (num ProviderCodex TaskSub l))
                (mkTaskCount (num ProviderClaude TaskMain l) (num ProviderClaude TaskSub l))
                (mkTaskCount (both TaskMain) (both TaskSub)).
Proof.
  unfold loadTaskSummary. cbv zeta. induction (liveTasks db now) as [|kv l IH] using rev_ind; [done|].
  rewrite foldl_app, !num_snoc. cbn [foldl]. rewrite IH. unfold countTask. simpl.
  destruct kv as [[[a p] s] r]. simpl. destruct r as [k st ls]. simpl.
  destruct (decide (p = ProviderCodex)) as [->|Hp1].
  { destruct (decide (k = TaskMain)) as [->|Hk1]; [f_equal; f_equal; simpl; lia|].
    rewrite (bool_decide_false (k = TaskMain)) by done.
    destruct (decide (k = TaskSub)) as [->|Hk2]; [f_equal; f_equal; simpl; lia|].
    rewrite (bool_decide_false (k = TaskSub)) by done. simpl.
    rewrite !(decide_False (P := _ ∧ _)) by naive_solver. f_equal; f_equal; lia. }
  rewrite (bool_decide_false (p = ProviderCodex)) by done.
  destruct (decide (p = ProviderClaude)) as [->|Hp2].
  { destruct (decide (k = TaskMain)) as [->|Hk1]; [f_equal; f_equal; simpl; lia|].
    rewrite (bool_decide_false (k = TaskMain)) by done.
    destruct (decide (k = TaskSub)) as [->|Hk2]; [f_equal; f_equal; simpl; lia|].
    rewrite (bool_decide_false (k = TaskSub)) by done. simpl.
    rewrite !(decide_False (P := _ ∧ _)) by naive_solver. f_equal; f_equal; lia. }
  rewrite (bool_decide_false (p = ProviderClaude)) by done.
  rewrite !(decide_False (P := _ ∧ _)) by naive_solver. f_equal; f_equal; lia.
Qed.

(** With the schema's checks every row falls in one of the four classes. *)
Lemma num_total l :
  (∀ kv, kv ∈ l → ValidProvider kv.1.1.2 = true ∧ ValidTaskKind (tw_kind kv.2) = true) →
  num ProviderCodex TaskMain l + num ProviderCodex TaskSub l +
  num ProviderClaude TaskMain l + num ProviderClaude TaskSub l = Z.of_nat (length l).
Proof.
  induction l as [|kv l IH] using rev_ind; intros Hl; [done|].
  rewrite !num_snoc, length_app. simpl.
  rewrite Nat2Z.inj_add, <-IH by (intros; apply Hl; set_solver).
  destruct (Hl kv) as [Hp Hk]; [set_solver|].
  apply ValidProvider_true in Hp. apply ValidTaskKind_true in Hk.
  destruct Hp as [-> | ->], Hk as [-> | ->]; simpl; lia.
Qed.

Lemma liveTasks_elem db now k r :
  (k, r) ∈ liveTasks db now ↔
  active_tasks db !! k = Some r ∧ ∃ a, agents db !! k.1.1 = Some a ∧
    UnixNano (now - AgentOnlineWindow) <= ag_last_report_at_ns a ∧
    UnixNano (now - TaskTTL) <= tw_last_seen_at_ns r.
Proof.
  unfold liveTasks. rewrite list_elem_of_filter, elem_of_map_to_list. unfold liveTask, Add. simpl.
  destruct (agents db !! k.1.1) as [a|]; naive_solver.
Qed.

Lemma online_le_total {A} (P : A → Prop) `{∀ x, Decision (P x)} (l : list A) :
  (length (filter P l) ≤ length l)%nat.
Proof. apply length_filter. Qed.

(** ** What the snapshot promises *)

(** When the numbers of a provider may be shown as current. *)
Definition current (s : ProviderSnapshot) (now : Time) : Prop :=
  ps_Windows s ≠ noWindows ∧ ∃ t, ps_ObservedAt s = Some t ∧ now - t <= ProviderFreshWindow.

Lemma snapshotOfRow_freshness r now :
  let s := snapshotOfRow r now in
  (ps_Freshness s = FreshnessFresh ↔ current s now) ∧
  (ps_Freshness s = FreshnessUnavailable ↔ ps_Windows s = noWindows) ∧
  (ps_Freshness s = FreshnessFresh ∨ ps_Freshness s = FreshnessStale ∨ ps_Freshness s = FreshnessUnavailable).
Proof.
  unfold snapshotOfRow, current, UnixFromNano. simpl.
  assert (Hsub : (ProviderFreshWindow <? Sub now (pv_observed_at_ns r)) = false ↔
                 now - pv_observed_at_ns r <= ProviderFreshWindow).
  { rewrite Z.ltb_ge. rewrite <-!Z.nlt_ge. by rewrite Sub_gt by done. }
  assert (H : (pv_windows_json r = noWindows) ∨
              (pv_windows_json r ≠ noWindows ∧ ∀ {A} (x y : A),
                 match FiveHour (pv_windows_json r), SevenDay (pv_windows_json r) with
                 | None, None => x | _, _ => y end = y)).
  { destruct (pv_windows_json r) as [[w5|] [w7|]]; [right..|by left]; by split. }
  destruct H as [-> | [Hne Hm]].
  { split; [split; [intros [=]|by intros [[] _]]|]. split; [done|by auto]. }
  rewrite Hm. destruct (ProviderFreshWindow <? _) eqn:E.
  - split; [|split; [split; [intros [=]|done]|by auto]].
    split; [intros [=]|]. intros (_ & t & [= <-] & Ht). apply Hsub in Ht. congruence.
  - split; [|split; [split; [intros [=]|done]|by auto]].
    split; [|done]. intros _. split; [done|]. eexists. split; [done|]. by apply Hsub.
Qed.

(** C16. For each provider the snapshot shows the newest usable observation of
    any agent (ties go to the smallest agent ID) in the database as that
    provider's query finds it, whatever is stored between the queries, and
    "unavailable" when there is none; it is marked fresh exactly when it has a
    window and was observed at most five minutes ago. *)
Theorem BuildDisplaySnapshot_latest (atAgents atCodex atClaude atTasks : DB) (now : Time) (provider : ProviderName)
    (Hp : provider = ProviderCodex ∨ provider = ProviderClaude) :
  let db := queried atCodex atClaude provider in
  ∃ s, ds_Providers (BuildDisplaySnapshotFrom atAgents atCodex atClaude atTasks now) !! provider = Some s ∧
  (ps_Freshness s = FreshnessFresh ↔ current s now) ∧
  ((s = unavailableProvider ∧
    ∀ a r, provider_reports db !! (a, provider) = Some r → pv_observed_at_ns r <= 0) ∨
   (∃ a r, s = snapshotOfRow r now ∧ latest db provider a r)).
Proof.
  intros db. exists (providerEntry db provider now). rewrite providers_from, (proj2 (ValidProvider_true _) Hp).
  split; [done|]. unfold providerEntry.
  destruct (loadLatestProvider_cases db provider now) as [[-> Hno]|(a & r & -> & Hl)].
  - split; [|by left]. split; [done|]. intros [[] _]. done.
  - split; [apply snapshotOfRow_freshness|]. right. by exists a, r.
Qed.

Lemma BuildDisplaySnapshot_latest_witness :
  let t := 1700000000 * Second in
  let db := foldl deliver emptyDB [(demo_report "mac-1" t, t); (demo_report "pc-2" (t - Minute), t)] in
  ∃ s, ds_Providers (BuildDisplaySnapshot db t) !! ProviderCodex = Some s ∧ ps_Freshness s = FreshnessFresh ∧
       current s t.
Proof.
  intros t db. destruct (BuildDisplaySnapshot_latest db db db db t ProviderCodex (or_introl eq_refl)) as (s & Hs & Hf & _).
  exists s. split; [exact Hs|]. assert (E : ps_Freshness s = FreshnessFresh).
  { vm_compute in Hs. injection Hs as <-. reflexivity. }
  split; [exact E|]. apply Hf. exact E.
Defined.

(** The task counts of the snapshot are the numbers of live tasks of each
    provider and kind; the totals are their sums, and on a well-formed
    database every live task is counted exactly once.  A task is live when its
    agent reported within 45 s and the task was seen within 15 min. *)
Theorem BuildDisplaySnapshot_tasks (db : DB) (now : Time) (Hok : db_ok db) :
  let s := ds_Tasks (BuildDisplaySnapshot db now) in
  let count p k := Z.of_nat (length (filter (λ kv, kv.1.1.2 = p ∧ tw_kind kv.2 = k) (liveTasks db now))) in
  ts_Codex s = mkTaskCount (count ProviderCodex TaskMain) (count ProviderCodex TaskSub) ∧
  ts_Claude s = mkTaskCount (count ProviderClaude TaskMain) (count ProviderClaude TaskSub) ∧
  ts_Total s = mkTaskCount (tc_Main (ts_Codex s) + tc_Main (ts_Claude s))
                           (tc_Sub (ts_Codex s) + tc_Sub (ts_Claude s)) ∧
  tc_Main (ts_Total s) + tc_Sub (ts_Total s) = Z.of_nat (length (liveTasks db now)) ∧
  (∀ k r, (k, r) ∈ liveTasks db now ↔
     active_tasks db !! k = Some r ∧ ∃ a, agents db !! k.1.1 = Some a ∧
       UnixNano (now - 45 * Second) <= ag_last_report_at_ns a ∧
       UnixNano (now - 15 * Minute) <= tw_last_seen_at_ns r).
Proof.
  cbv zeta. cbn [BuildDisplaySnapshot BuildDisplaySnapshotFrom ds_Tasks]. rewrite loadTaskSummary_num. cbn [ts_Codex ts_Claude ts_Total].
  split; [done|]. split; [done|]. split; [done|]. split; [|apply liveTasks_elem].
  simpl. rewrite <-num_total; [lia|]. intros [k r] (Hr & _)%liveTasks_elem. apply task_row_ok_iff. exact (proj2 (ok_tasks _ Hok _ _ Hr)).
Qed.

Lemma BuildDisplaySnapshot_tasks_witness :
  let t := 1700000000 * Second in
  let db := foldl deliver emptyDB [(demo_report "mac-1" t, t); (demo_report "pc-2" (t - Minute), t - Minute)] in
  Z.of_nat (length (liveTasks db t)) = 2.
Proof.
  intros t db. assert (Hok : db_ok db).
  { unfold db. simpl. unfold deliver. do 2 apply ReplaceAgentReport_ok. apply emptyDB_ok. }
  destruct (BuildDisplaySnapshot_tasks db t Hok) as (_ & _ & _ & H & _). rewrite <-H. vm_compute. reflexivity.
Defined.

(** The snapshot always has exactly the two providers, counts online agents
    within all agents, and warns about a provider exactly when it needs a
    login or its numbers are not fresh, at most one warning per provider. *)
Theorem BuildDisplaySnapshot_shape (db : DB) (now : Time) :
  let s := BuildDisplaySnapshot db now in
  dom (ds_Providers s) = {[ProviderCodex; ProviderClaude]} ∧
  0 <= as_Online (ds_Agents s) <= as_Total (ds_Agents s) ∧
  as_Total (ds_Agents s) = Z.of_nat (size (agents db)) ∧
  (length (ds_Warnings s) ≤ 2)%nat ∧
  (ds_Warnings s = [] ↔
   ∀ p q, ds_Providers s !! p = Some q → ps_LoginRequired q = false ∧ ps_Freshness q = FreshnessFresh).
Proof.
  cbv zeta. split; [|split; [|split; [|split]]].
  - simpl. rewrite !dom_insert_L, dom_empty_L. set_solver.
  - simpl. split; [lia|]. apply Nat2Z.inj_le, length_filter.
  - simpl. by rewrite length_fmap, length_map_to_list.
  - simpl. rewrite length_app. unfold providerWarnings. repeat case_match; simpl; lia.
  - assert (Hw : ∀ p q, providerWarnings p q = [] ↔ ps_LoginRequired q = false ∧ ps_Freshness q = FreshnessFresh).
    { intros p q. unfold providerWarnings. destruct (ps_LoginRequired q); [naive_solver|].
      case_bool_decide; naive_solver. }
    cbn [BuildDisplaySnapshot BuildDisplaySnapshotFrom ds_Warnings]. rewrite app_nil, !Hw. split.
    + intros [H1 H2] p q. rewrite providers_lookup. destruct (ValidProvider p) eqn:Hv; [|done].
      intros [= <-]. apply ValidProvider_true in Hv as [-> | ->]; [exact H1|exact H2].
    + intros H. split; [apply (H ProviderCodex)|apply (H ProviderClaude)]; by rewrite providers_lookup.
Qed.

(** [UnixNano] wraps: a report whose observation lies 2^64 ns (584 years)
    before an acceptable one passes the same validation and is stored as that
    later observation, so it is shown as fresh and outranks true ones. *)
Theorem Ancient_observation_wraps (now sentAt : Time) (p : ProviderName) (r : ProviderReport)
    (Hz : pr_ObservedAt r ≠ zeroTime) (Hz' : pr_ObservedAt r - 2 ^ 64 ≠ zeroTime)
    (Hv : validateProvider now sentAt (p, r) tt = Ok tt) :
  let ancient := mkProviderReport (pr_ObservedAt r - 2 ^ 64) (pr_AuthState r) (pr_Plan r) (pr_Source r)
                   (pr_Windows r) (pr_ErrorCode r) in
  validateProvider now sentAt (p, ancient) tt = Ok tt ∧ providerRowOf ancient = providerRowOf r.
Proof.
  intros ancient. split.
  - apply validateProvider_Ok. apply validateProvider_Ok in Hv.
    destruct Hv as (H1 & H2 & H3 & H4 & H5 & _ & H7 & H8). specialize (H7 Hz) as [H7a H7b].
    unfold provider_ok. simpl. repeat (split; [done|]). split; [|done].
    intros _. split; lia.
  - unfold providerRowOf, observedNano. simpl.
    rewrite (proj2 (IsZero_false _) Hz), (proj2 (IsZero_false _) Hz'). f_equal.
    unfold UnixNano, wrap64. f_equal.
    replace (pr_ObservedAt r - 2 ^ 64 + 2 ^ 63) with (pr_ObservedAt r + 2 ^ 63 + (-1) * 2 ^ 64) by lia.
    by rewrite Z.mod_add by done.
Qed.

Lemma Ancient_observation_wraps_witness :
  let t := 1700000000 * Second in
  providerRowOf (demo_provider (t - 2 ^ 64)) =
    mkProviderRow t "authenticated" "pro" "codex_app_server" (pr_Windows (demo_provider (t - 2 ^ 64))) "" ∧
  validateProvider t t (ProviderCodex, mkProviderReport (t - 2 ^ 64) "authenticated" "pro" "codex_app_server"
     (pr_Windows (demo_provider t)) "") tt = Ok tt.
Proof.
  intros t. split; [vm_compute; reflexivity|].
  apply (Ancient_observation_wraps t t ProviderCodex (demo_provider t)).
  - vm_compute. discriminate.
  - vm_compute. discriminate.
  - vm_compute. reflexivity.
Defined.
