(* ===== verification/Migrate.v ===== *)
(** * internal/store: opening a database and its migrations

    [Open], [configure] and [migrate] of [store.go] on the contents of a
    database file.  Every call to the database is numbered; an oracle decides
    which of them fail, and whether a commit that reports a failure has taken
    effect.  A migration is its list of statements; the columns and constraints
    of the tables are those of [Store]. *)

From S2P Require Import Prelude GoTime GoText Store.

(** The statements of the migrations. *)
Inductive statement := CreateTable (name : string) | CreateIndex (name table : string).

Definition migration : Type := list statement.

(** The migrations of this program. *)
Definition migrations : list migration :=
  [[CreateTable "tokens"; CreateIndex "tokens_scope_active_idx" "tokens";
    CreateTable "agents";
    CreateTable "provider_reports"; CreateIndex "provider_latest_idx" "provider_reports";
    CreateTable "active_tasks"; CreateIndex "active_tasks_live_idx" "active_tasks"]].

(** A database file: the names its schema defines, the rows of
    [schema_migrations] (version and time) and those of the other tables. *)
Record file := mkFile {
  fl_schema : gset string;
  fl_applied : gmap Z Z;
  fl_rows : DB
}.

Inductive OpenError :=
| DatabasePathRequired | NotOpened | NotConfigured (pragma : string)
| MigrationTable | MigrationVersion | NewerSchema (version : Z)
| MigrationBegin (i : Z) | MigrationApply (i : Z) | MigrationCommit (i : Z).

#[global] Instance OpenError_eq_dec : EqDecision OpenError.
Proof. solve_decision. Defined.

(** A name is defined once; an index needs its table. *)
Definition execStatement (schema : gset string) (s : statement) : option (gset string) :=
  match s with
  | CreateTable name => if decide (name ∈ schema) then None else Some ({[name]} ∪ schema)
  | CreateIndex name table => if decide ((name ∉ schema) ∧ table ∈ schema) then Some ({[name]} ∪ schema) else None
  end.

Fixpoint execAll (schema : gset string) (l : migration) : option (gset string) :=
  match l with [] => Some schema | s :: l => schema ← execStatement schema s; execAll schema l end.

(** [SELECT COALESCE(MAX(version), 0)]. *)
Definition maxVersion (m : gmap Z Z) : Z := map_fold (λ v _ acc, Z.max v acc) 0 m.

(** The two statements of a migration's transaction. *)
Definition applyMigration (f : file) (i : Z) (l : migration) (now : Time) : option file :=
  schema ← execAll (fl_schema f) l;
  if decide (is_Some (fl_applied f !! i)) then None
  else Some (mkFile schema (<[i := UnixNano now]> (fl_applied f)) (fl_rows f)).

(** ** Effects *)

Record session := mkSession { ss_file : file; ss_calls : nat }.

Definition IO (A : Type) : Type := session → result OpenError A * session.
#[global] Instance IO_ret : MRet IO := λ A a s, (Ok a, s).
#[global] Instance IO_bind : MBind IO := λ A B f m s,
  match m s with (Ok a, s) => f a s | (Err e, s) => (Err e, s) end.

Definition throw {A} (e : OpenError) : IO A := λ s, (Err e, s).
Definition withFile {A} (g : file → IO A) : IO A := λ s, g (ss_file s) s.

Section calls.
Context (fails commits : nat → bool).

(** A call that only can fail, and one that also changes the file. *)
Definition exec (e : OpenError) (g : file → file) : IO unit := λ s,
  if fails (ss_calls s) then (Err e, mkSession (ss_file s) (S (ss_calls s)))
  else (Ok tt, mkSession (g (ss_file s)) (S (ss_calls s))).

(** A commit that fails may have been carried out. *)
Definition commit (i : Z) (f : file) : IO unit := λ s,
  let n := ss_calls s in
  if fails n then (Err (MigrationCommit i), mkSession (if commits n then f else ss_file s) (S n))
  else (Ok tt, mkSession f (S n)).

Section open.
Context (migrations : list migration).

(** The loop of [migrate], from version [i]; a transaction works on a copy. *)
Fixpoint migrateFrom (i : Z) (l : list migration) (now : Time) : IO unit :=
  match l with
  | [] => mret tt
  | m :: l =>
    _ ← exec (MigrationBegin (i + 1)) id;
    _ ← exec (MigrationApply (i + 1)) id;
    _ ← exec (MigrationApply (i + 1)) id;
    _ ← withFile (λ f,
      match applyMigration f (i + 1) m now with
      | None => throw (MigrationApply (i + 1))
      | Some f => commit (i + 1) f
      end);
    migrateFrom (i + 1) l now
  end.

Definition migrate (now : Time) : IO unit :=
  _ ← exec MigrationTable (λ f, mkFile ({["schema_migrations"]} ∪ fl_schema f) (fl_applied f) (fl_rows f));
  _ ← exec MigrationVersion id;
  withFile (λ f,
    let version := maxVersion (fl_applied f) in
    if Z.of_nat (length migrations) <? version then throw (NewerSchema version)
    else migrateFrom version (drop (Z.to_nat version) migrations) now).

Definition pragmas (path : string) : list string :=
  ["PRAGMA foreign_keys = ON"; "PRAGMA busy_timeout = 5000"; "PRAGMA synchronous = NORMAL"] ++
  (if bool_decide (path = ":memory:") then [] else ["PRAGMA journal_mode = WAL"]).

Fixpoint configureAll (l : list string) : IO unit :=
  match l with [] => mret tt | p :: l => _ ← exec (NotConfigured p) id; configureAll l end.
Definition configure (path : string) : IO unit := configureAll (pragmas path).

Definition Open (path : string) (now : Time) : IO unit :=
  if bool_decide (TrimSpace path = "") then throw DatabasePathRequired
  else
    _ ← exec NotOpened id;
    _ ← configure path;
    migrate now.
End open.
End calls.

(** A file that does not exist yet. *)
Definition newFile : file := mkFile ∅ ∅ emptyDB.

Definition noFaults (n : nat) : bool := false.

Example open_new :
  let '(r, s) := Open noFaults noFaults migrations "q.db" 5 (mkSession newFile 0) in
  r = Ok tt ∧ fl_applied (ss_file s) = {[1 := 5]} ∧
  (Open noFaults noFaults migrations "q.db" 6 (mkSession (ss_file s) 0)).2 = mkSession (ss_file s) 7.
Proof. vm_compute. split_and!; reflexivity. Qed.
