(* ===== verification/MigrateFacts.v ===== *)
(** * Migrations: interrupted openings and upgrades

    What every run of [Open] leaves in a file, whichever of its calls fail. *)

From S2P Require Import Prelude GoTime GoText Store Migrate.

Definition base : gset string := {["schema_migrations"]}.

(** [l] are the migrations up to version [v], all recorded and all done. *)
Definition recorded (f : file) (v : nat) : Prop := ∀ i, is_Some (fl_applied f !! i) ↔ 1 <= i <= Z.of_nat v.
Definition complete (ms : list migration) (f : file) (v : nat) : Prop :=
  recorded f v ∧ execAll base (concat (take v ms)) = Some (fl_schema f).

(** What an opening can leave: [complete] at some version, or nothing at all. *)
Definition at_version (ms : list migration) (f : file) (v : nat) : Prop :=
  complete ms f v ∨ v = O ∧ recorded f O ∧ fl_schema f = ∅.

(** What later openings never change. *)
Definition kept (v : nat) (f f' : file) : Prop :=
  fl_rows f' = fl_rows f ∧ ∀ i, i <= Z.of_nat v → fl_applied f' !! i = fl_applied f !! i.

Lemma kept_trans v v' f f1 f2 : (v <= v')%nat → kept v f f1 → kept v' f1 f2 → kept v f f2.
Proof. intros Hv [Hr Ha] [Hr' Ha']. split; [congruence|]. intros i Hi. rewrite Ha', Ha by lia. done. Qed.

Lemma kept_refl v f : kept v f f.
Proof. done. Qed.

(** ** Versions and schemas *)

Lemma maxVersion_spec (m : gmap Z Z) :
  (∀ i, is_Some (m !! i) → i <= maxVersion m) ∧ (maxVersion m = 0 ∨ is_Some (m !! maxVersion m)) ∧ 0 <= maxVersion m.
Proof.
  unfold maxVersion.
  apply (map_fold_weak_ind (λ acc m, (∀ i, is_Some (m !! i) → i <= acc) ∧ (acc = 0 ∨ is_Some (m !! acc)) ∧ 0 <= acc)).
  - split_and!; [|by left|done]. intros i [x Hx]. by rewrite lookup_empty in Hx.
  - intros i x m' acc Hi (H1 & H2 & H3). split_and!; [| |lia].
    + intros j Hj. destruct (decide (i = j)) as [->|Hne]; [lia|]. rewrite lookup_insert_ne in Hj by done. apply H1 in Hj. lia.
    + destruct (Z.le_gt_cases i acc) as [Hle|Hgt].
      * rewrite Z.max_r by lia. destruct H2 as [H2|H2]; [by left|right]. rewrite lookup_insert_ne; [done|].
        intros ->. rewrite Hi in H2. by destruct H2.
      * rewrite Z.max_l by lia. right. rewrite lookup_insert_eq. by eexists.
Qed.

Lemma maxVersion_recorded f v : recorded f v → maxVersion (fl_applied f) = Z.of_nat v.
Proof.
  intros Hr. destruct (maxVersion_spec (fl_applied f)) as (H1 & H2 & H3).
  assert (maxVersion (fl_applied f) <= Z.of_nat v) by (destruct H2 as [->|H2]; [lia|]; apply Hr in H2; lia).
  destruct v as [|v]; [lia|]. assert (Z.of_nat (S v) <= maxVersion (fl_applied f)) by (apply H1, Hr; lia). lia.
Qed.

Lemma execAll_app s l l' : execAll s (l ++ l') = (s' ← execAll s l; execAll s' l').
Proof. revert s. induction l as [|x l IH]; intros s; [done|]. cbn. destruct (execStatement s x); [apply IH|done]. Qed.

Lemma execAll_grows s l s' : execAll s l = Some s' → s ⊆ s'.
Proof.
  revert s. induction l as [|x l IH]; intros s; [by intros [= ->]|]. cbn.
  destruct (execStatement s x) as [s1|] eqn:E; [|done]. intros H%IH. etransitivity; [|done].
  destruct x; cbn in E; case_decide; simplify_eq; set_solver.
Qed.

Section upgrades.
Context (ms : list migration) (Hvalid : is_Some (execAll base (concat ms))).

Lemma take_runs v : is_Some (execAll base (concat (take v ms))).
Proof.
  destruct Hvalid as [s H]. rewrite <- (take_drop v ms), concat_app, execAll_app in H.
  destruct (execAll base (concat (take v ms))); [by eexists|done].
Qed.

(** The next migration applies to a complete file, and leaves a complete one. *)
Lemma applyMigration_next f v m now :
  complete ms f v → ms !! v = Some m →
  ∃ f', applyMigration f (Z.of_nat v + 1) m now = Some f' ∧ complete ms f' (S v) ∧ kept v f f'.
Proof.
  intros [Hrec Hs] Hm. destruct (take_runs (S v)) as [s' Hs']. pose proof Hs' as Hs1.
  rewrite (take_S_r _ _ _ Hm), concat_app, execAll_app, Hs in Hs1. cbn in Hs1. rewrite app_nil_r in Hs1.
  unfold applyMigration. rewrite Hs1. cbn [mbind option_bind].
  rewrite decide_False by (intros ?%Hrec; lia). eexists. split; [done|]. split; [split; [|done]|split; [done|]].
  - intros i. cbn [fl_applied]. destruct (decide (i = Z.of_nat v + 1)) as [->|Hne].
    + rewrite lookup_insert_eq. split; [lia|by eexists].
    + rewrite lookup_insert_ne by done. rewrite (Hrec i). lia.
  - intros i Hi. cbn [fl_applied]. rewrite lookup_insert_ne by lia. done.
Qed.

Lemma migrateFrom_spec fails commits k now l v s r s' :
  l = drop v (take k ms) → (v <= k <= length ms)%nat → complete ms (ss_file s) v →
  migrateFrom fails commits (Z.of_nat v) l now s = (r, s') →
  (∃ v', (v <= v' <= k)%nat ∧ complete ms (ss_file s') v' ∧ kept v (ss_file s) (ss_file s') ∧ (r = Ok tt → v' = k)) ∧
  ((∀ n, fails n = false) → r = Ok tt).
Proof.
  revert v s. induction l as [|m l IH]; intros v s Hl Hk Hc Hrun.
  - injection Hrun as <- <-. split; [|done]. exists v. split_and!; [lia..|done|done|]. intros _.
    apply (f_equal length) in Hl. rewrite length_drop, length_take in Hl. cbn in Hl. lia.
  - assert (Hm : ms !! v = Some m ∧ l = drop (S v) (take k ms)).
    { assert (Hv : take k ms !! v = Some m) by (rewrite <- (Nat.add_0_r v), <- lookup_drop, <- Hl; done).
      split; [by apply lookup_take_Some in Hv as [? _]|]. rewrite (drop_S _ _ _ Hv) in Hl. by injection Hl. }
    destruct Hm as [Hm Hl']. pose proof (lookup_lt_Some _ _ _ Hm) as Hlt.
    assert (Hvk : (v < k)%nat).
    { apply (f_equal length) in Hl. rewrite length_drop, length_take in Hl. cbn in Hl. lia. }
    destruct (applyMigration_next (ss_file s) v m now Hc Hm) as (f' & Hf' & Hc' & Hk').
    cbn [migrateFrom] in Hrun. unfold mbind, IO_bind, exec, withFile, commit, throw in Hrun.
    destruct (fails (ss_calls s)) eqn:F0; [injection Hrun as <- <-; split; [|intros F; by rewrite F in F0]|].
    { by exists v; split_and!; [lia..|done|done|]. }
    cbn [ss_file ss_calls id] in Hrun.
    destruct (fails (S (ss_calls s))) eqn:F1; [injection Hrun as <- <-; split; [|intros F; by rewrite F in F1]|].
    { by exists v; split_and!; [lia..|done|done|]. }
    cbn [ss_file ss_calls id] in Hrun.
    destruct (fails (S (S (ss_calls s)))) eqn:F2; [injection Hrun as <- <-; split; [|intros F; by rewrite F in F2]|].
    { by exists v; split_and!; [lia..|done|done|]. }
    cbn [ss_file ss_calls id] in Hrun. rewrite Hf' in Hrun. cbn [ss_file ss_calls] in Hrun.
    destruct (fails (S (S (S (ss_calls s))))) eqn:F3; [injection Hrun as <- <-; split; [|intros F; by rewrite F in F3]|].
    { destruct (commits _); [exists (S v)|exists v]; split_and!; try lia; done. }
    replace (Z.of_nat v + 1) with (Z.of_nat (S v)) in Hrun by lia.
    eapply IH in Hrun; [|done|lia|done]. destruct Hrun as [(v' & Hv' & Hcv & Hkv & Hr) Hgood]. split; [|done].
    exists v'. split_and!; [lia..|done| |done]. eapply kept_trans; [|done..]. lia.
Qed.

(** The calls before the migrations leave the file alone. *)
Lemma configureAll_spec fails l s r s' :
  configureAll fails l s = (r, s') → ss_file s' = ss_file s ∧ ((∀ n, fails n = false) → r = Ok tt).
Proof.
  revert s. induction l as [|x l IH]; intros s; cbn [configureAll]; [by intros [= <- <-]|].
  unfold mbind, IO_bind, exec. destruct (fails (ss_calls s)) eqn:F.
  - intros [= <- <-]. split; [done|]. intros H. by rewrite H in F.
  - intros H%IH. done.
Qed.

(** The table of the migrations is created, or is there already. *)
Lemma at_version_table f v :
  at_version ms f v →
  let f' := mkFile (base ∪ fl_schema f) (fl_applied f) (fl_rows f) in complete ms f' v ∧ ((0 < v)%nat → f' = f).
Proof.
  intros [[Hrec Hs]|(-> & Hrec & Hs)]; cbn zeta.
  - assert (E : base ∪ fl_schema f = fl_schema f) by (apply execAll_grows in Hs; set_solver).
    rewrite E. split; [done|]. by destruct f.
  - split; [|lia]. split; [done|]. cbn. rewrite Hs. by rewrite (right_id_L ∅ (∪)).
Qed.

Lemma complete_at f v : complete ms f v → at_version ms f v.
Proof. by left. Qed.

(** What an opening by a program with [k] migrations does to a file at version
    [v]; [good] says that no call failed. *)
Definition opened (k v : nat) (good : Prop) (f f' : file) (r : result OpenError unit) : Prop :=
  (∃ v', (v <= v' <= v `max` k)%nat ∧ at_version ms f' v' ∧ kept v f f' ∧ ((v <= k)%nat → r = Ok tt → v' = k) ∧ (r = Ok tt → complete ms f' v')) ∧
  ((k < v)%nat → r ≠ Ok tt ∧ f' = f) ∧
  (good → r = if decide (v <= k)%nat then Ok tt else Err (NewerSchema (Z.of_nat v))).

Lemma opened_failed k v (good : Prop) f e : at_version ms f v → ¬ good → opened k v good f f (Err e).
Proof. intros Hat Hbad. split_and!; [exists v; split_and!; [lia|lia|done..]|done|done]. Qed.

Lemma migrate_spec fails commits k now v s r s' :
  (k <= length ms)%nat → at_version ms (ss_file s) v → migrate fails commits (take k ms) now s = (r, s') →
  opened k v (∀ n, fails n = false) (ss_file s) (ss_file s') r.
Proof.
  intros Hkl Hat Hrun. destruct (at_version_table _ _ Hat) as [Hc Hsame]. cbn zeta in *.
  unfold migrate, mbind, IO_bind, exec, withFile, throw in Hrun.
  destruct (fails (ss_calls s)) eqn:F0; [injection Hrun as <- <-; apply opened_failed; [done|intros F; by rewrite F in F0]|].
  cbn [ss_file ss_calls] in Hrun. fold base in Hrun.
  set (f1 := mkFile (base ∪ fl_schema (ss_file s)) (fl_applied (ss_file s)) (fl_rows (ss_file s))) in *.
  assert (Hk1 : kept v (ss_file s) f1) by done.
  destruct (fails (S (ss_calls s))) eqn:F1; [injection Hrun as <- <-|].
  { split_and!; [|intros Hlt; split; [done|apply Hsame; lia]|intros F; by rewrite F in F1].
    exists v; split_and!; [lia|lia|by apply complete_at|done..]. }
  cbn [ss_file ss_calls id] in Hrun. rewrite (maxVersion_recorded f1 v) in Hrun by apply Hc.
  rewrite length_take, Nat.min_l in Hrun by lia. destruct (Z.ltb_spec (Z.of_nat k) (Z.of_nat v)) as [Hlt|Hge].
  - injection Hrun as <- <-. split_and!; [|intros _; split; [done|apply Hsame; lia]|rewrite decide_False by lia; done].
    exists v; split_and!; [lia|lia|by apply complete_at|done..].
  - rewrite Nat2Z.id in Hrun. eapply migrateFrom_spec in Hrun; [|done|lia|done].
    destruct Hrun as [(v' & Hv' & Hc' & Hk' & Hr) Hgood]. split_and!; [|lia|rewrite decide_True by lia; done].
    exists v'. split_and!; [lia|lia|by apply complete_at|by eapply kept_trans|auto|done].
Qed.

Lemma Open_spec fails commits k path now v s r s' :
  (k <= length ms)%nat → TrimSpace path ≠ "" → at_version ms (ss_file s) v →
  Open fails commits (take k ms) path now s = (r, s') →
  opened k v (∀ n, fails n = false) (ss_file s) (ss_file s') r.
Proof.
  intros Hkl Hpath Hat Hrun. unfold Open in Hrun. rewrite bool_decide_false in Hrun by done.
  unfold mbind, IO_bind, exec, configure in Hrun.
  destruct (fails (ss_calls s)) eqn:F0; [injection Hrun as <- <-; apply opened_failed; [done|intros F; by rewrite F in F0]|].
  destruct (configureAll fails (pragmas path) _) as [[[]|e] s1] eqn:E; apply configureAll_spec in E as [E Hgood]; cbn [ss_file id] in E.
  - rewrite <- E. rewrite <- E in Hat. by eapply migrate_spec.
  - injection Hrun as <- <-. rewrite E. apply opened_failed; [done|]. intros F. by specialize (Hgood F).
Qed.
End upgrades.

(** ** Histories of openings *)

(** One opening: by a program that has the first migrations, with its faults. *)
Record attempt := mkAttempt { at_migrations : nat; at_path : string; at_fails : nat → bool; at_commits : nat → bool; at_now : Time }.

Definition attempt_ok (ms : list migration) (a : attempt) : Prop := (at_migrations a <= length ms)%nat ∧ TrimSpace (at_path a) ≠ "".

Definition afterOpen (ms : list migration) (f : file) (a : attempt) : file :=
  ss_file (Open (at_fails a) (at_commits a) (take (at_migrations a) ms) (at_path a) (at_now a) (mkSession f 0)).2.

Lemma history_at ms history f v :
  is_Some (execAll base (concat ms)) → Forall (attempt_ok ms) history → at_version ms f v →
  ∃ v', at_version ms (foldl (afterOpen ms) f history) v' ∧ (v <= v')%nat ∧ kept v f (foldl (afterOpen ms) f history).
Proof.
  intros Hvalid Hh. revert f v. induction Hh as [|a history [Hk Hp] Hh IH]; intros f v Hat; [by exists v|].
  cbn [foldl]. unfold afterOpen at 2 4. destruct (Open _ _ _ _ _ _) as [r s'] eqn:E. cbn [snd].
  eapply (Open_spec ms Hvalid) in E; [|done..|exact Hat]. destruct E as [(v1 & [Hv1 _] & Hat1 & Hk1 & _) _].
  destruct (IH _ _ Hat1) as (v' & Hat' & Hv' & Hk'). exists v'. split_and!; [done|lia|by eapply kept_trans].
Qed.

(** C23. Opening a database is safe to interrupt and to repeat: after any history
    of openings of a new file, by older and newer versions of the program,
    with any call failing and any failed commit carried out or not, the file
    holds exactly the migrations it has recorded, each applied once, and its
    rows are untouched.  The next opening without faults by a program that knows
    at least these succeeds and completes the rest, without running or
    recording any of them again; an older program refuses the file and leaves
    it as it is. *)
Theorem Open_upgrades (ms : list migration) (history : list attempt) (rows : DB)
    (Hvalid : is_Some (execAll base (concat ms))) (Hh : Forall (attempt_ok ms) history) :
  let f := foldl (afterOpen ms) (mkFile ∅ ∅ rows) history in
  ∃ v, at_version ms f v ∧ fl_rows f = rows ∧
  ∀ k path commits now, (k <= length ms)%nat → TrimSpace path ≠ "" →
    let '(r, s) := Open noFaults commits (take k ms) path now (mkSession f 0) in
    if decide (v <= k)%nat
    then r = Ok tt ∧ complete ms (ss_file s) k ∧ kept v f (ss_file s)
    else r = Err (NewerSchema (Z.of_nat v)) ∧ ss_file s = f.
Proof.
  cbn zeta. assert (Hnew : at_version ms (mkFile ∅ ∅ rows) O).
  { right. split_and!; [done| |done]. intros i. cbn. rewrite lookup_empty. split; [by intros [? ?]|lia]. }
  destruct (history_at ms history _ O Hvalid Hh Hnew) as (v & Hat & _ & [Hrows _]).
  exists v. split_and!; [done|done|]. intros k path commits now Hk Hpath.
  destruct (Open _ _ _ _ _ _) as [r s'] eqn:E.
  eapply (Open_spec ms Hvalid) in E; [|done..|exact Hat]. destruct E as [(v' & _ & _ & Hkept & Hv' & Hc) [Hold Hgood]].
  specialize (Hgood (λ _, eq_refl)). case_decide as Hle; subst r.
  - split_and!; [done| |done]. rewrite <- (Hv' Hle eq_refl). by apply Hc.
  - split; [done|]. apply Hold. lia.
Qed.

(** An upgrade of the program that adds an index, after a first start whose
    commit failed and one that the new version made. *)
Definition demo_migrations : list migration := migrations ++ [[CreateIndex "agents_last_idx" "agents"]].
Definition demo_history : list attempt :=
  [mkAttempt 1 "q.db" (λ n, bool_decide (n = 10)%nat) (λ _, false) 5; mkAttempt 2 "q.db" (λ _, false) (λ _, false) 6].

Lemma Open_upgrades_witness :
  let f := foldl (afterOpen demo_migrations) newFile demo_history in
  fl_applied f = <[1 := 6]> {[2 := 6]} ∧
  (Open noFaults noFaults migrations "q.db" 7 (mkSession f 0)).1 = Err (NewerSchema 2).
Proof.
  cbn zeta. split; [vm_compute; reflexivity|].
  destruct (Open_upgrades demo_migrations demo_history emptyDB) as (v & Hat & _ & H).
  - apply (bool_decide_unpack _). vm_compute. exact I.
  - repeat (apply Forall_cons; split; [split; [cbn; lia|done]|]). by apply Forall_nil.
  - assert (Hv : Z.of_nat v = 2).
    { destruct Hat as [[Hrec _]|(-> & _ & Hs)]; [|exfalso; revert Hs; apply (bool_decide_unpack _); vm_compute; exact I].
      apply maxVersion_recorded in Hrec. rewrite <- Hrec. vm_compute. reflexivity. }
    specialize (H 1%nat "q.db" noFaults 7 ltac:(cbn; lia) ltac:(done)).
    change (take 1 demo_migrations) with migrations in H.
    destruct (Open noFaults noFaults migrations "q.db" 7 _) as [r s]. rewrite decide_False in H by lia.
    destruct H as [-> _]. rewrite Hv. reflexivity.
Defined.
