(* ===== verification/Version.v ===== *)
(** * internal/firmware: versions

    [ParseVersion] and [Version.Compare] of [firmware.go].  The grammar is the
    canonical one: every version has one spelling, so equal spellings and
    equal versions are the same thing, and [Compare] is a total order. *)

From S2P Require Import Prelude GoText Digest.

(** The fields are [uint64], with values below 2^32 after parsing. *)
Record Version := mkVersion { Major : Z; Minor : Z; Patch : Z }.

#[global] Instance Version_eq_dec : EqDecision Version.
Proof. solve_decision. Defined.

(** The four messages, all wrapping [ErrInvalidVersion]. *)
Inductive VersionError := NotThreeParts | NotCanonical | HasMetadata | OutOfRange.

#[global] Instance VersionError_eq_dec : EqDecision VersionError.
Proof. solve_decision. Defined.

Definition codes (s : string) : list Z := zb <$> Stdlib.Strings.String.list_ascii_of_string s.

(** The number a list of decimal digits denotes. *)
Definition decimal (l : list Z) : Z := foldl (λ acc d, 10 * acc + d) 0 l.

(** [strconv.ParseUint(s, 10, bits)]. *)
Definition ParseUint (s : string) (bits : Z) : option Z :=
  if bool_decide (s = "") || negb (forallb is_digit (codes s)) then None
  else
    let v := decimal ((λ c, c - 48) <$> codes s) in
    if v <? 2 ^ bits then Some v else None.

(** The body of the loop over the parts. *)
Definition parseComponent (part : string) : result VersionError Z :=
  _ ← refuse (bool_decide (part = "") || ((1 <? len part) && HasPrefix part "0")) NotCanonical;
  _ ← refuse (negb (forallb is_digit (runes part))) HasMetadata;
  match ParseUint part 32 with Some v => Ok v | None => Err OutOfRange end.

Definition dot : ascii := "."%char.

Definition ParseVersion (value : string) : result VersionError Version :=
  match Split dot value with
  | [a; b; c] =>
    major ← parseComponent a;
    minor ← parseComponent b;
    patch ← parseComponent c;
    Ok (mkVersion major minor patch)
  | _ => Err NotThreeParts
  end.

(** The loop over the three components. *)
Fixpoint compareLoop (ls rs : list Z) : Z :=
  match ls, rs with
  | l :: ls, r :: rs => if l <? r then -1 else if r <? l then 1 else compareLoop ls rs
  | _, _ => 0
  end.
Definition Compare (v other : Version) : Z :=
  compareLoop [Major v; Minor v; Patch v] [Major other; Minor other; Patch other].

(** ** The reference printer *)

Fixpoint digits (fuel : nat) (n : Z) : list Z :=
  match fuel with
  | O => []
  | S fuel => if n <? 10 then [n] else digits fuel (n / 10) ++ [n mod 10]
  end.
(** Ten digits are enough for 32 bits. *)
Definition showNat (n : Z) : string := string_of_bytes ((λ d, d + 48) <$> digits 10 n).
Definition showVersion (v : Version) : string :=
  showNat (Major v) +:+ String dot (showNat (Minor v) +:+ String dot (showNat (Patch v))).

Definition version_ok (v : Version) : Prop :=
  0 <= Major v < 2 ^ 32 ∧ 0 <= Minor v < 2 ^ 32 ∧ 0 <= Patch v < 2 ^ 32.

(** ** Decimal numbers *)

#[local] Ltac Zify.zify_post_hook ::= Z.to_euclidean_division_equations.

Definition digit (d : Z) : Prop := 0 <= d <= 9.
Definition canonical (l : list Z) : Prop := Forall digit l ∧ l ≠ [] ∧ (head l = Some 0 → l = [0]).

Lemma decimal_snoc l d : decimal (l ++ [d]) = 10 * decimal l + d.
Proof. unfold decimal. by rewrite foldl_app. Qed.

Lemma digit_one d : 0 <= d <= 9 → Forall digit [d].
Proof. intros Hd. by constructor. Qed.

Lemma digit_snoc l d : Forall digit (l ++ [d]) → Forall digit l ∧ 0 <= d <= 9.
Proof. intros [Hl Hd]%Forall_app. split; [done|]. by apply Forall_cons in Hd as [Hd _]. Qed.

Lemma decimal_nonneg l : Forall digit l → 0 <= decimal l.
Proof.
  induction l as [|d l IH] using rev_ind; [done|].
  intros [Hl Hd]%digit_snoc. rewrite decimal_snoc.
  specialize (IH Hl). lia.
Qed.

Lemma canonical_snoc e l d :
  canonical ((e :: l) ++ [d]) → canonical (e :: l) ∧ e :: l ≠ [0] ∧ 0 <= d <= 9.
Proof.
  intros ([Hl Hd]%digit_snoc & _ & Hz).
  assert (He : e ≠ 0).
  { intros ->. specialize (Hz eq_refl). simpl in Hz. injection Hz as Hz. by destruct l. }
  split; [|by split; [intros [= -> ->]|]]. split; [done|]. split; [done|]. by intros [= ->].
Qed.

Lemma decimal_pos l : canonical l → l ≠ [0] → 0 < decimal l.
Proof.
  induction l as [|d l IH] using rev_ind; [by intros (_ & ? & _)|]. intros Hc Hn0. rewrite decimal_snoc.
  destruct l as [|e l].
  - destruct Hc as ([_ Hd]%digit_snoc & _ & _). assert (d ≠ 0) by (intros ->; done).
    change (decimal []) with 0. lia.
  - apply canonical_snoc in Hc as (Hc & Hne & Hd). specialize (IH Hc Hne). lia.
Qed.

Lemma digits_step fuel n : 10 <= n → digits (S fuel) n = digits fuel (n / 10) ++ [n mod 10].
Proof. intros Hn. simpl. by rewrite (proj2 (Z.ltb_ge _ _)) by lia. Qed.

Lemma pow10_succ n : 10 ^ Z.of_nat (S n) = 10 * 10 ^ Z.of_nat n.
Proof. rewrite Nat2Z.inj_succ, Z.pow_succ_r; lia. Qed.

Lemma digits_decimal fuel n :
  0 <= n < 10 ^ Z.of_nat (S fuel) → canonical (digits (S fuel) n) ∧ decimal (digits (S fuel) n) = n.
Proof.
  revert n. induction fuel as [|fuel IH]; intros n Hn; rewrite pow10_succ in Hn;
    (destruct (Z.ltb_spec n 10) as [Hlt|Hge];
      [cbn [digits]; rewrite (proj2 (Z.ltb_lt _ _)) by lia;
       split; [split; [apply digit_one; lia|by split; [|intros [= ->]]]|by unfold decimal]|]).
  { change (10 ^ Z.of_nat 0) with 1 in Hn. lia. }
  rewrite digits_step by done.
  destruct (IH (n / 10)) as [(Hd & Hne & Hz) Hv]; [lia|].
  split; [|rewrite decimal_snoc; lia]. split; [|split].
  - apply Forall_app. split; [done|]. apply digit_one. lia.
  - by destruct (digits (S fuel) (n / 10)).
  - destruct (digits (S fuel) (n / 10)) as [|e l] eqn:E; [done|]. intros [= ->].
    specialize (Hz eq_refl) as [= ->]. unfold decimal in Hv. simpl in Hv. lia.
Qed.

Lemma decimal_digits fuel l :
  canonical l → decimal l < 10 ^ Z.of_nat (S fuel) → digits (S fuel) (decimal l) = l.
Proof.
  revert l. induction fuel as [|fuel IH]; intros l; destruct l as [|d l _] using rev_ind;
    try (by intros (_ & ? & _)); intros Hc Hv; rewrite pow10_succ in Hv; rewrite decimal_snoc in *;
    (destruct l as [|e l];
      [destruct Hc as ([_ Hd]%digit_snoc & _ & _); change (decimal []) with 0; simpl;
       by rewrite (proj2 (Z.ltb_lt _ _)) by lia|]);
    apply canonical_snoc in Hc as (Hc & Hne & Hd); pose proof (decimal_pos _ Hc Hne) as Hpos.
  { change (10 ^ Z.of_nat 0) with 1 in Hv. lia. }
  rewrite digits_step by lia.
  replace ((10 * decimal (e :: l) + d) / 10) with (decimal (e :: l)) by lia.
  replace ((10 * decimal (e :: l) + d) mod 10) with d by lia.
  rewrite IH; [done..|]. lia.
Qed.

(** ** Spellings of numbers *)

Lemma codes_string_of_bytes l :
  Forall (λ c, 0 <= c < 256) l → codes (string_of_bytes l) = l.
Proof.
  unfold codes, string_of_bytes. induction 1 as [|c l Hc Hl IH]; [done|].
  cbn. f_equal; [|exact IH]. unfold zb, chr. rewrite Stdlib.Strings.Ascii.N_ascii_embedding; lia.
Qed.

Lemma string_of_bytes_codes s : string_of_bytes (codes s) = s.
Proof.
  unfold codes, string_of_bytes. induction s as [|a s IH]; [done|].
  cbn. f_equal; [apply chr_zb|exact IH].
Qed.

Lemma is_digit_ascii : ascii_only is_digit.
Proof. intros r Hr. unfold is_digit, within in Hr. breflect. lia. Qed.

(** The spelling a canonical list of digits has. *)
Definition spell (l : list Z) : string := string_of_bytes ((λ d, d + 48) <$> l).

Lemma codes_spell l : Forall digit l → codes (spell l) = (λ d, d + 48) <$> l.
Proof.
  intros Hl. apply codes_string_of_bytes. apply Forall_fmap. eapply Forall_impl; [exact Hl|].
  intros d Hd. unfold digit in Hd. simpl. lia.
Qed.

Lemma spell_digits l :
  Forall digit l → forallb is_digit (codes (spell l)) = true ∧ (λ c, c - 48) <$> codes (spell l) = l.
Proof.
  intros Hl. rewrite codes_spell by done. split.
  - rewrite forallb_forall. intros c (d & -> & Hd)%list_elem_of_In%list_elem_of_fmap.
    rewrite Forall_forall in Hl. specialize (Hl d Hd). unfold digit in Hl. unfold is_digit, within. lia.
  - rewrite <-list_fmap_compose. rewrite <-(list_fmap_id l) at 2. apply list_fmap_ext. intros i d _. simpl. lia.
Qed.

(** A digit string is the spelling of its digits. *)
Lemma digits_spell s :
  forallb is_digit (codes s) = true → Forall digit ((λ c, c - 48) <$> codes s) ∧ s = spell ((λ c, c - 48) <$> codes s).
Proof.
  intros Hs. rewrite forallb_forall in Hs. split.
  - apply Forall_fmap, Forall_forall. intros c Hc%list_elem_of_In. specialize (Hs c Hc).
    unfold is_digit, within in Hs. breflect. simpl. unfold digit. lia.
  - unfold spell. rewrite <-list_fmap_compose.
    assert ((λ d, d + 48) ∘ (λ c, c - 48) <$> codes s = codes s) as ->.
    { rewrite <-(list_fmap_id (codes s)) at 2. apply list_fmap_ext. intros i c _. simpl. lia. }
    by rewrite string_of_bytes_codes.
Qed.

Lemma runes_digits s :
  forallb is_digit (runes s) = true ↔ forallb is_digit (codes s) = true.
Proof.
  split; intros Hs.
  - by rewrite (runes_ascii is_digit s is_digit_ascii Hs) in Hs.
  - induction s as [|a s IH]; [done|]. cbn in Hs. apply andb_true_iff in Hs as [Ha Hs].
    unfold runes in *. simpl. pose proof (is_digit_ascii _ Ha) as Hlt.
    rewrite (proj2 (Z.ltb_lt _ _)) by lia. rewrite fmap_cons. cbn [forallb fst]. by rewrite Ha, IH.
Qed.

Lemma spell_head l : Forall digit l → HasPrefix (spell l) "0" = bool_decide (head l = Some 0).
Proof.
  destruct l as [|d l]; [done|]. intros [Hd _]%Forall_cons. unfold digit in Hd.
  unfold HasPrefix, spell, string_of_bytes. cbn.
  assert (d = 0 ∨ d = 1 ∨ d = 2 ∨ d = 3 ∨ d = 4 ∨ d = 5 ∨ d = 6 ∨ d = 7 ∨ d = 8 ∨ d = 9) as H by lia.
  repeat (destruct H as [->|H]; [by destruct l|]). subst d. by destruct l.
Qed.

Lemma len_spell l : len (spell l) = Z.of_nat (length l).
Proof. unfold len, spell. by rewrite length_string_of_bytes, length_fmap. Qed.

(** A component parses to the number it spells, and only canonical spellings
    of 32-bit numbers parse. *)
Lemma parseComponent_Ok s v :
  parseComponent s = Ok v ↔ ∃ l, canonical l ∧ s = spell l ∧ decimal l = v ∧ v < 2 ^ 32.
Proof.
  unfold parseComponent, ParseUint. rewrite !refuse_bind_Ok, negb_false_iff, runes_digits. split.
  - intros (Hc & Hd & H). apply orb_false_iff in Hc as [Hne Hz]. rewrite Hne, Hd in H. simpl in H.
    apply bool_decide_eq_false in Hne.
    destruct (digits_spell s Hd) as [Hl Hs]. set (l := (λ c, c - 48) <$> codes s) in *.
    destruct (Z.ltb_spec (decimal l) (2 ^ 32)); [|done]. injection H as <-.
    exists l. split; [|done]. split; [done|]. split; [intros E; apply Hne; by rewrite Hs, E|].
    rewrite Hs, len_spell, spell_head in Hz by done. intros Hh.
    rewrite bool_decide_true, andb_true_r in Hz by done. apply Z.ltb_ge in Hz.
    destruct l as [|d [|e l]]; simpl in *; [done|by injection Hh as ->|lia].
  - intros (l & (Hl & Hne & Hz) & -> & <- & Hv). destruct (spell_digits l Hl) as [Hd Hcodes].
    assert (Hsne : spell l ≠ "") by by destruct l.
    rewrite (bool_decide_false (spell l = "")) by done. split; [|split; [done|]].
    + simpl. rewrite len_spell, spell_head by done. case_bool_decide as E; [|by rewrite andb_false_r].
      by rewrite (Hz E).
    + rewrite Hd, Hcodes. simpl. by rewrite (proj2 (Z.ltb_lt _ _)).
Qed.

Lemma parseComponent_showNat n s : parseComponent s = Ok n ↔ 0 <= n < 2 ^ 32 ∧ s = showNat n.
Proof.
  rewrite parseComponent_Ok. unfold showNat. change (string_of_bytes ((λ d, d + 48) <$> digits 10 n)) with (spell (digits 10 n)).
  split.
  - intros (l & Hc & -> & <- & Hv). split; [split; [apply decimal_nonneg, Hc|done]|].
    rewrite decimal_digits; [done..|]. eapply Z.lt_trans; [exact Hv|done].
  - intros [Hn ->]. destruct (digits_decimal 9 n) as [Hc Hv].
    { split; [lia|]. eapply Z.lt_trans; [apply Hn|done]. }
    exists (digits 10 n). by split; [|split; [|split; [|lia]]].
Qed.

(** ** Dotted strings *)

(** The words of a split, put back together. *)
Fixpoint join (sep : ascii) (ws : list string) : string :=
  match ws with
  | [] => ""
  | [w] => w
  | w :: ws => w +:+ String sep (join sep ws)
  end.

Lemma Split_ne sep s : Split sep s ≠ [].
Proof. destruct s as [|a s]; simpl; [done|]. case_bool_decide; [done|]. by destruct (Split sep s). Qed.

Lemma join_Split sep s : join sep (Split sep s) = s.
Proof.
  induction s as [|a s IH]; [done|]. simpl. pose proof (Split_ne sep s). case_bool_decide as E.
  - subst a. destruct (Split sep s) as [|w ws]; [done|]. simpl in *. by rewrite IH.
  - destruct (Split sep s) as [|w [|w' ws]]; [done| |]; simpl in *; by rewrite <-IH.
Qed.

Lemma Split_plain sep w : has_byte sep w = false → Split sep w = [w].
Proof.
  induction w as [|a w IH]; [done|]. simpl. intros [Ha Hw]%orb_false_iff. by rewrite Ha, IH.
Qed.

Lemma Split_cons sep w s : has_byte sep w = false → Split sep (w +:+ String sep s) = w :: Split sep s.
Proof.
  induction w as [|a w IH]; [simpl; intros _; by rewrite bool_decide_true|].
  simpl. intros [Ha Hw]%orb_false_iff. rewrite Ha.
  change (Split sep (w +:+ String sep s)) with (Split sep (w +:+ String sep s)). by rewrite (IH Hw).
Qed.

Lemma spell_no_dot l : Forall digit l → has_byte dot (spell l) = false.
Proof.
  induction 1 as [|d l Hd Hl IH]; [done|]. unfold digit in Hd.
  change (spell (d :: l)) with (String (chr (d + 48)) (spell l)). simpl. rewrite IH, orb_false_r.
  apply bool_decide_eq_false. intros E. apply (f_equal zb) in E. unfold zb, chr in E.
  rewrite Stdlib.Strings.Ascii.N_ascii_embedding in E by lia. simpl in E. lia.
Qed.

Lemma showNat_no_dot n : 0 <= n < 2 ^ 32 → has_byte dot (showNat n) = false.
Proof.
  intros Hn. apply (spell_no_dot (digits 10 n)). destruct (digits_decimal 9 n) as [[Hd _] _]; [|done].
  split; [lia|]. eapply Z.lt_trans; [apply Hn|done].
Qed.

(** The parser accepts exactly the printed forms. *)
Lemma ParseVersion_show s v : ParseVersion s = Ok v ↔ version_ok v ∧ s = showVersion v.
Proof.
  unfold ParseVersion, showVersion, version_ok. split.
  - pose proof (join_Split dot s) as Hj. destruct (Split dot s) as [|a [|b [|c [|]]]]; try done.
    intros H. ok_inv. rewrite !parseComponent_showNat in *. destruct_and!. subst. simpl. done.
  - destruct v as [x y z]. cbn [Major Minor Patch]. intros [(Hx & Hy & Hz) ->].
    rewrite !Split_cons, Split_plain by (apply showNat_no_dot; assumption).
    rewrite (proj2 (parseComponent_showNat x _) (conj Hx eq_refl)). simpl.
    rewrite (proj2 (parseComponent_showNat y _) (conj Hy eq_refl)). simpl.
    by rewrite (proj2 (parseComponent_showNat z _) (conj Hz eq_refl)).
Qed.

Lemma ParseVersion_inj s t v : ParseVersion s = Ok v → ParseVersion t = Ok v → s = t.
Proof. by intros [_ ->]%ParseVersion_show [_ ->]%ParseVersion_show. Qed.

(** ** The order *)

Definition version_lt (v w : Version) : Prop :=
  Major v < Major w ∨ (Major v = Major w ∧
   (Minor v < Minor w ∨ (Minor v = Minor w ∧ Patch v < Patch w))).

Lemma Compare_cases v w :
  (Compare v w = -1 ∧ version_lt v w) ∨ (Compare v w = 0 ∧ v = w) ∨ (Compare v w = 1 ∧ version_lt w v).
Proof.
  destruct v as [a b c], w as [a' b' c']. unfold Compare, version_lt. simpl.
  destruct (Z.ltb_spec a a'); [left; lia|]. destruct (Z.ltb_spec a' a); [right; right; lia|].
  destruct (Z.ltb_spec b b'); [left; lia|]. destruct (Z.ltb_spec b' b); [right; right; lia|].
  destruct (Z.ltb_spec c c'); [left; lia|]. destruct (Z.ltb_spec c' c); [right; right; lia|].
  right. left. split; [done|]. f_equal; lia.
Qed.

Lemma version_lt_trans u v w : version_lt u v → version_lt v w → version_lt u w.
Proof. unfold version_lt. lia. Qed.
Lemma version_lt_irrefl v : ¬ version_lt v v.
Proof. unfold version_lt. lia. Qed.

Lemma Compare_newer v w : (Compare v w <=? 0) = false ↔ version_lt w v.
Proof.
  destruct (Compare_cases v w) as [[-> H]|[[-> H]|[-> H]]]; simpl; split; try done; intros H'.
  - by destruct (version_lt_irrefl v (version_lt_trans _ _ _ H H')).
  - subst w. by destruct (version_lt_irrefl v).
Qed.

(** Parsing and printing are inverse: [ParseVersion] accepts exactly the
    strings MAJOR.MINOR.PATCH of canonical decimal 32-bit numbers, and returns
    the version they spell, so a version has one spelling. *)
Theorem ParseVersion_roundtrip (s : string) (v : Version) :
  ParseVersion s = Ok v ↔ version_ok v ∧ s = showVersion v.
Proof. apply ParseVersion_show. Qed.

(** [Compare] is the lexicographic order, as a three-way comparison: it
    returns 0 exactly on equal versions, is antisymmetric, and orders by the
    first component that differs. *)
Theorem Compare_lexicographic (v w : Version) :
  Compare w v = - Compare v w ∧ (Compare v w = 0 ↔ v = w) ∧ (Compare v w = -1 ↔ version_lt v w) ∧
  (∀ u, Compare u v = -1 → Compare v w = -1 → Compare u w = -1).
Proof.
  assert (Hlt : ∀ x y, Compare x y = -1 ↔ version_lt x y).
  { intros x y. destruct (Compare_cases x y) as [[-> H]|[[-> H]|[-> H]]]; split; try done; intros H'.
    - subst y. by destruct (version_lt_irrefl x).
    - by destruct (version_lt_irrefl x (version_lt_trans _ _ _ H' H)). }
  split; [|split; [|split; [apply Hlt|]]].
  - destruct (Compare_cases v w) as [[-> H]|[[-> H]|[-> H]]].
    + destruct (Compare_cases w v) as [[E H']|[[E H']|[E H']]]; rewrite E; [|subst w|done].
      * by destruct (version_lt_irrefl v (version_lt_trans _ _ _ H H')).
      * by destruct (version_lt_irrefl v).
    + subst w. destruct (Compare_cases v v) as [[_ H']|[[-> _]|[_ H']]]; [|done|]; by destruct (version_lt_irrefl v).
    + by apply Hlt.
  - destruct (Compare_cases v w) as [[-> H]|[[-> H]|[-> H]]]; [|done|]; (split; [done|]);
      intros ->; by destruct (version_lt_irrefl w).
  - intros u. rewrite !Hlt. apply version_lt_trans.
Qed.
