(* ===== verification/GoDurationFacts.v ===== *)
(** * Facts about [time.ParseDuration]

    What is written as a sequence of numbers with units is read back as the
    sum of the parts. *)

From S2P Require Import Prelude GoTime GoText GoTextFacts GoDate GoFloat GoStrconv GoDuration Version.

(** The units, as they are written. *)
Inductive durationUnit := UNano | UMicro | UMilli | USecond | UMinute | UHour.
Definition unitName (u : durationUnit) : string :=
  match u with UNano => "ns" | UMicro => "us" | UMilli => "ms" | USecond => "s" | UMinute => "m" | UHour => "h" end.
Definition unitLength (u : durationUnit) : Duration :=
  match u with UNano => 1 | UMicro => 1000 | UMilli => Millisecond | USecond => Second | UMinute => Minute | UHour => Hour end.

(** A part is the digits of a number and a unit. *)
Abbreviation durationPart_ := (list Z * durationUnit)%type.
Definition part_ok (p : durationPart_) : Prop := Forall digit p.1 ∧ p.1 ≠ [].
Definition partValue (p : durationPart_) : Z := decimal p.1 * unitLength p.2.

Fixpoint writeDuration (parts : list durationPart_) : string :=
  match parts with [] => "" | (ds, u) :: parts => spell ds +:+ (unitName u +:+ writeDuration parts) end.
Definition totalDuration (parts : list durationPart_) : Z := foldr (λ p acc, partValue p + acc) 0 parts.

(** ** Numbers and units *)

Lemma digitOf_chr d : digit d → digitOf (chr (d + 48)) = Some d.
Proof.
  unfold digit. intros Hd. unfold digitOf. rewrite zb_chr by lia. replace (d + 48 - 48) with d by lia.
  unfold within. by rewrite !(proj2 (Z.leb_le _ _)) by lia.
Qed.

Definition starts_digit (s : string) : bool :=
  match s with String a _ => bool_decide (is_Some (digitOf a)) | EmptyString => false end.

Lemma foldl_decimal_ge l x : Forall digit l → 0 <= x → x <= foldl (λ acc d, 10 * acc + d) x l.
Proof.
  intros Hl. revert x. induction Hl as [|d l Hd Hl IH]; intros x Hx; [done|]. cbn [foldl]. unfold digit in Hd.
  specialize (IH (10 * x + d)). lia.
Qed.

Lemma leadingInt_spell l x rest :
  Forall digit l → starts_digit rest = false → 0 <= x <= limit →
  leadingInt x (spell l +:+ rest) =
  (let v := foldl (λ acc d, 10 * acc + d) x l in if v <=? limit then Some (v, rest) else None).
Proof.
  intros Hl Hrest. revert x. induction Hl as [|d l Hd Hl IH]; intros x Hx.
  - cbn [foldl]. rewrite (proj2 (Z.leb_le x limit)) by lia. change (spell [] +:+ rest) with rest.
    destruct rest as [|a rest]; [done|]. cbn [starts_digit] in Hrest. apply bool_decide_eq_false in Hrest. cbn [leadingInt].
    destruct (digitOf a); [|done]. destruct Hrest. by eexists.
  - change (spell (d :: l)) with (String (chr (d + 48)) (spell l)). rewrite str_app_cons. cbn [leadingInt foldl].
    rewrite digitOf_chr by done. unfold digit in Hd. change (limit / 10) with 922337203685477580.
    pose proof (foldl_decimal_ge l (10 * x + d) Hl ltac:(lia)) as Hge. cbv zeta.
    destruct (Z.ltb_spec 922337203685477580 x) as [Hlt|Hle].
    + rewrite (proj2 (Z.leb_gt _ limit)); [done|]. unfold limit in *. lia.
    + assert (E : wrapU64 (x * 10 + d) = 10 * x + d) by (unfold wrapU64; rewrite Z.mod_small; lia). rewrite E.
      destruct (Z.ltb_spec limit (10 * x + d)) as [Hlt|Hle'].
      * rewrite (proj2 (Z.leb_gt _ limit)) by lia. done.
      * apply IH. lia.
Qed.

Lemma unitText_name u rest :
  rest = "" ∨ starts_digit rest = true → unitText (unitName u +:+ rest) = (unitName u, rest).
Proof.
  intros Hr.
  assert (H : unitText rest = ("", rest)).
  { destruct rest as [|a rest]; [done|]. destruct Hr as [Hr|Hr]; [done|]. cbn [starts_digit] in Hr. cbn [unitText].
    by rewrite Hr, orb_true_r. }
  destruct u; cbn [unitName]; rewrite !str_app_cons; change ("" +:+ rest) with rest; cbn [unitText]; by rewrite H.
Qed.

Lemma unitValue_name u : unitValue (unitName u) = Some (unitLength u).
Proof. by destruct u. Qed.

Lemma unitLength_pos u : 1 <= unitLength u.
Proof. by destruct u. Qed.

Lemma writeDuration_starts parts :
  Forall part_ok parts → writeDuration parts = "" ∨ starts_digit (writeDuration parts) = true.
Proof.
  destruct 1 as [|[ds u] parts [Hd Hne] _]; [by left|]. right. cbn [writeDuration fst] in *.
  destruct Hd as [|d ds Hd Hds]; [done|]. change (spell (d :: ds)) with (String (chr (d + 48)) (spell ds)).
  rewrite str_app_cons. cbn [starts_digit]. rewrite digitOf_chr by done. by apply bool_decide_eq_true.
Qed.

Lemma unit_no_digit u rest : starts_digit (unitName u +:+ rest) = false.
Proof. by destruct u. Qed.

(** ** One part, and all of them *)

Lemma spell_length ds rest : ds ≠ [] → len rest < len (spell ds +:+ rest).
Proof.
  intros Hne. rewrite len_app, len_spell. destruct ds as [|d ds]; [done|]. cbn [length]. lia.
Qed.

Lemma durationPart_write p rest :
  part_ok p → rest = "" ∨ starts_digit rest = true →
  durationPart (spell p.1 +:+ (unitName p.2 +:+ rest)) =
  if partValue p <=? limit then Some (partValue p, rest) else None.
Proof.
  intros [Hd Hne] Hrest. destruct p as [ds u]. unfold partValue. cbn [fst snd] in *.
  pose proof (leadingInt_spell ds 0 (unitName u +:+ rest) Hd (unit_no_digit u rest) ltac:(unfold limit; lia)) as Hi.
  pose proof (spell_length ds (unitName u +:+ rest) Hne) as Hlen.
  pose proof (unitText_name u rest Hrest) as Hu. pose proof (unitLength_pos u) as Hpos.
  pose proof (decimal_nonneg ds Hd) as Hv.
  remember (unitName u +:+ rest) as tail eqn:Etail.
  assert (Htail : ∃ a t, tail = String a t ∧ a ≠ "."%char) by (subst tail; destruct u; eexists _, _; (split; [reflexivity|done])).
  destruct Htail as (ta & tt' & Ht & Hdot).
  destruct Hd as [|d ds Hd Hds]; [done|].
  change (spell (d :: ds)) with (String (chr (d + 48)) (spell ds)) in *. rewrite str_app_cons in *. unfold durationPart.
  rewrite digitOf_chr by done. rewrite (bool_decide_true (is_Some (Some d))) by by eexists. rewrite orb_true_r. cbn [negb].
  rewrite Hi. fold (decimal (d :: ds)). cbv zeta. destruct (Z.leb_spec (decimal (d :: ds)) limit) as [Hle|Hgt].
  - cbn [mbind option_bind]. rewrite bool_decide_false by lia. cbn [negb andb]. rewrite Ht at 1. rewrite (bool_decide_false (ta = "."%char)) by done.
    cbn [andb negb]. rewrite Hu. rewrite bool_decide_false by (by destruct u). rewrite unitValue_name. cbn [mbind option_bind].
    rewrite Z.ltb_irrefl.
    destruct (Z.ltb_spec (limit / unitLength u) (decimal (d :: ds))) as [Hlt|Hge];
      destruct (Z.leb_spec (decimal (d :: ds) * unitLength u) limit) as [Hle'|Hgt']; try done; exfalso.
    + apply Z.lt_nge in Hlt. apply Hlt. apply Z.div_le_lower_bound; lia.
    + pose proof (Z.mul_div_le limit (unitLength u) ltac:(lia)). nia.
  - cbn [mbind option_bind]. rewrite (proj2 (Z.leb_gt _ limit)); [done|]. nia.
Qed.

Lemma totalDuration_nonneg parts : Forall part_ok parts → 0 <= totalDuration parts.
Proof.
  induction 1 as [|p parts [Hd _] _ IH]; [done|].
  change (0 <= partValue p + totalDuration parts). unfold partValue.
  pose proof (decimal_nonneg _ Hd). pose proof (unitLength_pos p.2). nia.
Qed.

Lemma writeDuration_fuel parts : Forall part_ok parts → (length parts <= Stdlib.Strings.String.length (writeDuration parts))%nat.
Proof.
  induction 1 as [|[ds u] parts [Hd Hne] _ IH]; [done|]. cbn [writeDuration length]. rewrite !str_length_app.
  destruct u; cbn; lia.
Qed.

(** Every turn of the loop uses up a part: the length of the text is enough. *)
Lemma durationLoop_fuel parts fuel d :
  Forall part_ok parts → (length parts <= fuel)%nat → 0 <= d → d + totalDuration parts <= limit →
  durationLoop fuel d (writeDuration parts) = Some (d + totalDuration parts).
Proof.
  intros Hp. revert fuel d. induction Hp as [|p parts Hok Hp IH]; intros fuel d Hf Hd Ht.
  - cbn. rewrite Z.add_0_r. by destruct fuel.
  - destruct fuel as [|fuel]; [cbn in Hf; lia|]. change (totalDuration (p :: parts)) with (partValue p + totalDuration parts) in *.
    pose proof (totalDuration_nonneg parts Hp) as Hn.
    assert (Hv : 0 <= partValue p).
    { unfold partValue. pose proof (decimal_nonneg _ (proj1 Hok)). pose proof (unitLength_pos p.2). nia. }
    pose proof (durationPart_write p (writeDuration parts) Hok (writeDuration_starts parts Hp)) as Hpart.
    rewrite (proj2 (Z.leb_le _ limit)) in Hpart by lia.
    change (writeDuration (p :: parts)) with (let (ds, u) := p in spell ds +:+ (unitName u +:+ writeDuration parts)).
    destruct p as [ds u]. cbn [fst snd] in *.
    destruct (spell ds +:+ (unitName u +:+ writeDuration parts)) as [|a t] eqn:Es; [by cbn in Hpart|].
    cbn [durationLoop]. rewrite Hpart. cbn [mbind option_bind].
    assert (E : wrapU64 (d + partValue (ds, u)) = d + partValue (ds, u)) by (unfold wrapU64, limit in *; rewrite Z.mod_small; lia).
    rewrite E, (proj2 (Z.ltb_ge limit _)) by lia. rewrite IH by (cbn in Hf; lia). f_equal. lia.
Qed.

Lemma ParseDuration_write parts :
  Forall part_ok parts → parts ≠ [] → totalDuration parts <= max_int64 →
  ParseDuration (writeDuration parts) = Some (totalDuration parts).
Proof.
  intros Hp Hne Ht. unfold ParseDuration.
  assert (Hs : sign (writeDuration parts) = (false, writeDuration parts) ∧ writeDuration parts ≠ "0" ∧ writeDuration parts ≠ "").
  { destruct Hp as [|[ds u] parts [Hd Hn] _]; [done|]. cbn [writeDuration fst snd] in *. destruct Hd as [|d ds Hd Hds]; [done|].
    change (spell (d :: ds)) with (String (chr (d + 48)) (spell ds)). rewrite str_app_cons. unfold sign. unfold digit in Hd.
    split_and!; [|intros [= _ E]; destruct ds; [by destruct u|done]|done].
    rewrite !bool_decide_false; [done|..]; intros E; apply (f_equal zb) in E; rewrite zb_chr in E by lia;
      change (zb "-"%char) with 45 in E; change (zb "+"%char) with 43 in E; lia. }
  destruct Hs as (-> & H0 & He). rewrite !bool_decide_false by done.
  rewrite durationLoop_fuel; [|done|by apply writeDuration_fuel|done|unfold limit, max_int64 in *; lia].
  cbn [mbind option_bind]. rewrite (proj2 (Z.ltb_ge max_int64 _)) by lia. done.
Qed.
