(* ===== verification/Firmware.v ===== *)
(** * internal/firmware: the published image

    [firmware.go] over a model of the firmware directory.  A file is its bytes,
    or, for a manifest, the value its JSON text decodes to together with the
    text's size.  [Publish] is written in a small monad whose state records
    every intermediate directory: a crash can leave any of them behind, and
    each file-system call may fail, as an oracle decides.  The publication
    lock serialises publishers, so one publication runs at a time. *)

From S2P Require Import Prelude GoTime GoText Digest Version.

Definition SchemaVersion : Z := 1.
Definition BoardE32R28T : string := "e32r28t".
Definition ManifestName : string := "manifest.json".
Definition MaxImageSize : Z := 0x1e0000.
Definition maxManifestSize : Z := 4096.

Record Manifest := mkManifest {
  mf_SchemaVersion : Z;
  mf_Board : string;
  mf_Version : string;
  mf_PublishedAt : Time;
  mf_SizeBytes : Z;
  mf_SHA256 : string
}.

#[global] Instance Manifest_eq_dec : EqDecision Manifest.
Proof. solve_decision. Defined.

Inductive InvalidManifest :=
| BadSchema (v : Z) | BadBoard (b : string) | BadVersion (e : VersionError)
| PublishedAtRequired | SizeOutsideSlot | BadDigest
| BadFile | DecodeFailed | ImageMissing | ImageSizeDiffers.

Inductive FirmwareError :=
| ErrNotFound
| ErrInvalidManifest (why : InvalidManifest)
| ErrInvalidVersion (why : VersionError)
| ErrVersionNotNewer (current : string)
| ErrImageTooLarge
| ErrHashMismatch
| DirectoryRequired | UnsupportedBoard (b : string) | FileRequired
| SourceNotRegular | SourceEmpty | AlreadyExists (name : string) | SourceChanged
| Canceled
| EncodeFailed
| CallFailed (what : string).

#[global] Instance InvalidManifest_eq_dec : EqDecision InvalidManifest.
Proof. solve_decision. Defined.
#[global] Instance FirmwareError_eq_dec : EqDecision FirmwareError.
Proof. solve_decision. Defined.

(** ** Validation *)

(** [hex.DecodeString] succeeds on an even number of hexadecimal digits. *)
Definition hex_char (c : Z) : bool := is_digit c || within 97 102 c || within 65 70 c.
Definition hex_decodable (s : string) : bool :=
  Nat.even (Stdlib.Strings.String.length s) && forallb hex_char (codes s).

Definition validSHA256 (value : string) : bool :=
  if negb (len value =? 64) then false
  else if negb (forallb (λ c, is_digit c || within 97 102 c) (runes value)) then false
  else hex_decodable value.

(** [Manifest.Validate]. *)
Definition Validate (manifest : Manifest) : result FirmwareError unit :=
  _ ← refuse (negb (mf_SchemaVersion manifest =? SchemaVersion))
             (ErrInvalidManifest (BadSchema (mf_SchemaVersion manifest)));
  _ ← refuse (negb (bool_decide (mf_Board manifest = BoardE32R28T)))
             (ErrInvalidManifest (BadBoard (mf_Board manifest)));
  _ ← match ParseVersion (mf_Version manifest) with
      | Err e => Err (ErrInvalidManifest (BadVersion e))
      | Ok _ => Ok tt
      end;
  _ ← refuse (IsZero (mf_PublishedAt manifest)) (ErrInvalidManifest PublishedAtRequired);
  _ ← refuse ((mf_SizeBytes manifest <=? 0) || (MaxImageSize <? mf_SizeBytes manifest))
             (ErrInvalidManifest SizeOutsideSlot);
  refuse (negb (validSHA256 (mf_SHA256 manifest))) (ErrInvalidManifest BadDigest).

Definition ImageName (board version : string) : string := board +:+ "-" +:+ version +:+ ".bin".

(** ** The directory *)

Inductive content :=
| Bytes (b : string)
| Json (size : Z) (value : option Manifest).   (* [None]: not one manifest object *)

Record file := mkFile { regular : bool; data : content }.

Abbreviation Dir := (gmap string file).

Definition fileSize (f : file) : Z := match data f with Bytes b => len b | Json n _ => n end.

(** [LoadManifest], on a directory name and what the directory holds. *)
Definition LoadManifest (directory : string) (d : Dir) : result FirmwareError Manifest :=
  if bool_decide (TrimSpace directory = "") then Err ErrNotFound
  else match d !! ManifestName with
  | None => Err ErrNotFound
  | Some f =>
    _ ← refuse (negb (regular f) || (fileSize f <=? 0) || (maxManifestSize <? fileSize f)) (ErrInvalidManifest BadFile);
    match data f with
    | Json _ (Some manifest) => _ ← Validate manifest; Ok manifest
    | _ => Err (ErrInvalidManifest DecodeFailed)
    end
  end.

(** [hashReader]: reads of 32 KiB, the context consulted before each. *)
Fixpoint take (n : nat) (s : string) : string :=
  match n, s with S n, String a s => String a (take n s) | _, _ => "" end.
Fixpoint drop (n : nat) (s : string) : string :=
  match n, s with S n, String _ s => drop n s | _, s => s end.
Definition bufferSize : nat := Z.to_nat 32768.

(** [acc] is what the hasher has been given, [total] its length. *)
Fixpoint hashLoop (canceled : nat → bool) (fuel : nat) (i : nat) (rest acc : string) (total : Z)
    : option (string * Z) :=
  match fuel with
  | O => None
  | S fuel =>
    if canceled i then None
    else if bool_decide (rest = "") then Some (hex_encode (Sum256 acc), total)
    else
      let chunk := take bufferSize rest in
      hashLoop canceled fuel (S i) (drop bufferSize rest) (acc +:+ chunk) (total + len chunk)
  end.
Definition hashReader (canceled : nat → bool) (bytes : string) : result FirmwareError (string * Z) :=
  match hashLoop canceled (S (Stdlib.Strings.String.length bytes)) 0 bytes "" 0 with
  | Some r => Ok r
  | None => Err Canceled
  end.

(** The bytes a reader of the file gets. *)
Definition readable (f : file) : string := match data f with Bytes b => b | Json _ _ => "" end.

(** [OpenVerifiedImage]: the bytes it will stream, and the manifest. *)
Definition OpenVerifiedImage (canceled : nat → bool) (directory version : string) (d : Dir)
    : result FirmwareError (string * Manifest) :=
  _ ← match ParseVersion version with Err _ => Err ErrNotFound | Ok _ => Ok tt end;
  manifest ← LoadManifest directory d;
  _ ← refuse (negb (bool_decide (mf_Version manifest = version))) ErrNotFound;
  match d !! ImageName (mf_Board manifest) (mf_Version manifest) with
  | None => Err (ErrInvalidManifest ImageMissing)
  | Some f =>
    _ ← refuse (negb (regular f) || negb (fileSize f =? mf_SizeBytes manifest)) (ErrInvalidManifest ImageSizeDiffers);
    r ← hashReader canceled (readable f);
    let '(digest, n) := r in
    _ ← refuse (negb (n =? mf_SizeBytes manifest) || negb (bool_decide (digest = mf_SHA256 manifest))) ErrHashMismatch;
    Ok (readable f, manifest)
  end.

(** ** File-system calls *)

Record World := mkWorld {
  dir : Dir;
  seen : list Dir;         (* every directory since the start, newest first *)
  calls : nat;
  imageInstalled : bool;
  publicationCommitted : bool
}.

Definition IO (A : Type) : Type := World → result FirmwareError A * World.
#[global] Instance io_ret : MRet IO := λ A a w, (Ok a, w).
#[global] Instance io_bind : MBind IO := λ A B k m w,
  match m w with (Ok a, w') => k a w' | (Err e, w') => (Err e, w') end.

Definition fail {A} (e : FirmwareError) : IO A := λ w, (Err e, w).
Definition lift {A} (m : result FirmwareError A) : IO A := λ w, (m, w).
Definition getDir : IO Dir := λ w, (Ok (dir w), w).

Definition goto (w : World) (d : Dir) : World :=
  mkWorld d (d :: seen w) (S (calls w)) (imageInstalled w) (publicationCommitted w).
Definition setInstalled : IO unit := λ w, (Ok tt, mkWorld (dir w) (seen w) (calls w) true (publicationCommitted w)).
Definition setCommitted : IO unit := λ w, (Ok tt, mkWorld (dir w) (seen w) (calls w) (imageInstalled w) true).

Section calls.
Context (fails : nat → bool).

(** A call that leaves directory [d'] behind when it works, and [junk] when it does not. *)
Definition call (what : string) (d' junk : Dir → Dir) : IO unit := λ w,
  if fails (calls w) then (Err (CallFailed what), goto w (junk (dir w)))
  else (Ok tt, goto w (d' (dir w))).

(** A call that does not change the directory. *)
Definition probe (what : string) : IO unit := call what id id.

Definition create (what name : string) : IO unit :=
  call what <[name := mkFile true (Bytes "")]> id.
Definition write (what name : string) (c : content) (partial : string) : IO unit :=
  call what <[name := mkFile true c]> <[name := mkFile true (Bytes partial)]>.
Definition remove (what name : string) : IO unit := call what (delete name) id.

Definition renamed (a b : string) (d : Dir) : Dir :=
  match d !! a with Some f => <[b := f]> (delete a d) | None => d end.
Definition rename (what a b : string) : IO unit := λ w,
  match dir w !! a with
  | None => (Err (CallFailed what), goto w (dir w))
  | Some _ => call what (renamed a b) id w
  end.

(** A deferred function: it runs whatever the body returned, and its own
    errors are ignored. *)
Definition deferring {A} (cleanup : IO unit) (body : IO A) : IO A := λ w,
  let '(r, w1) := body w in (r, (cleanup w1).2).
Definition ignoring (m : IO unit) : IO unit := λ w, (Ok tt, (m w).2).

(** ** Publish *)

(** The file to publish: whether it is regular, the size [Stat] gave, and the
    bytes that were then read. *)
Record Source := mkSource { src_regular : bool; src_size : Z; src_bytes : string }.

Record PublishOptions := mkPublishOptions {
  po_Directory : string;
  po_Board : string;
  po_Version : string;
  po_SourcePath : string;
  po_PublishedAt : Time
}.

(** What the surroundings provide: the file behind [SourcePath], the clock,
    the two names [CreateTemp] invents, the size of the marshalled manifest,
    the partial content an interrupted write leaves, and the context. *)
Record Env := mkEnv {
  env_source : option Source;
  env_now : Time;
  env_imageTemp : string;
  env_manifestTemp : string;
  env_payloadSize : Z;
  env_partial : string;
  env_canceled : nat → bool
}.

Definition LockName : string := ".publish.lock".

(** [acquirePublishLock]: the lock file is created, made private and locked. *)
Definition acquirePublishLock : IO unit :=
  _ ← call "open lock file"
        (λ d, if bool_decide (is_Some (d !! LockName)) then d else <[LockName := mkFile true (Bytes "")]> d) id;
  _ ← probe "chmod lock file";
  probe "flock".

Definition truncateSecond (t : Time) : Time := t - (t - zeroTime) mod Second.

(** The digests are compared, the manifest is staged. *)
Definition stageManifest (env : Env) (opts : PublishOptions) (publishedAt : Time) (written : Z) (digest : string)
    : IO Manifest :=
  let manifest := mkManifest SchemaVersion (po_Board opts) (po_Version opts) publishedAt written digest in
  _ ← lift (Validate manifest);
  _ ← (if json_time publishedAt then mret tt else fail EncodeFailed);
  _ ← create "create manifest staging file" (env_manifestTemp env);
  mret manifest.

Definition commit (env : Env) (targetName : string) (manifest : Manifest) : IO Manifest :=
  _ ← probe "secure manifest staging file";
  _ ← write "write manifest staging file" (env_manifestTemp env)
            (Json (env_payloadSize env) (Some manifest)) (env_partial env);
  _ ← probe "sync manifest staging file";
  _ ← probe "close manifest staging file";
  _ ← rename "install firmware image" (env_imageTemp env) targetName;
  _ ← setInstalled;
  _ ← probe "sync installed firmware image";
  _ ← rename "commit firmware manifest" (env_manifestTemp env) ManifestName;
  _ ← setCommitted;
  _ ← probe "sync committed firmware manifest";
  mret manifest.

(** [io.LimitReader(source, MaxImageSize+1)]. *)
Definition limited (s : string) : string := take (Z.to_nat (MaxImageSize + 1)) s.

(** The staged image: copied, synced, read back and compared. *)
Definition stageImage (env : Env) (source : Source) : IO (Z * string) :=
  _ ← probe "secure firmware staging file";
  let copied := limited (src_bytes source) in
  _ ← write "copy firmware image" (env_imageTemp env) (Bytes copied) (env_partial env);
  let written := len copied in
  _ ← lift (refuse (MaxImageSize <? written) ErrImageTooLarge);
  _ ← lift (refuse ((written <=? 0) || negb (written =? src_size source)) SourceChanged);
  let stagedDigest := hex_encode (Sum256 copied) in
  _ ← probe "sync firmware staging file";
  _ ← probe "rewind firmware staging file";
  d ← getDir;
  r ← lift (hashReader (env_canceled env) (from_option readable "" (d !! env_imageTemp env)));
  let '(verifiedDigest, verifiedSize) := r in
  _ ← lift (refuse (negb (verifiedSize =? written) || negb (bool_decide (verifiedDigest = stagedDigest))) ErrHashMismatch);
  _ ← probe "close firmware staging file";
  mret (written, stagedDigest).

(** The deferred clean-up of the staged image. *)
Definition removeUncommitted (targetName : string) : IO unit := λ w,
  if imageInstalled w && negb (publicationCommitted w)
  then ignoring (remove "remove firmware image" targetName) w
  else (Ok tt, w).
Definition imageCleanup (env : Env) (targetName : string) : IO unit :=
  _ ← ignoring (remove "remove firmware staging file" (env_imageTemp env));
  removeUncommitted targetName.

(** The version check against the current manifest, under the lock. *)
Definition checkNewer (directory : string) (version : Version) (d : Dir) : result FirmwareError unit :=
  match LoadManifest directory d with
  | Ok current =>
    match ParseVersion (mf_Version current) with
    | Err e => Err (ErrInvalidVersion e)
    | Ok currentVersion => refuse (Compare version currentVersion <=? 0) (ErrVersionNotNewer (mf_Version current))
    end
  | Err ErrNotFound => Ok tt
  | Err e => Err e
  end.

(** From the source file to the commit, with the lock held. *)
Definition publishLocked (env : Env) (opts : PublishOptions) (version : Version) (publishedAt : Time)
    : IO Manifest :=
  d ← getDir;
  _ ← lift (checkNewer (po_Directory opts) version d);
  _ ← probe "open firmware file";
  source ← match env_source env with Some s => mret s | None => fail (CallFailed "open firmware file") end;
  _ ← probe "inspect firmware file";
  _ ← lift (refuse (negb (src_regular source)) SourceNotRegular);
  _ ← lift (refuse (src_size source <=? 0) SourceEmpty);
  _ ← lift (refuse (MaxImageSize <? src_size source) ErrImageTooLarge);
  let targetName := ImageName (po_Board opts) (po_Version opts) in
  _ ← probe "inspect firmware target";
  d ← getDir;
  _ ← lift (refuse (bool_decide (is_Some (d !! targetName))) (AlreadyExists targetName));
  _ ← create "create firmware staging file" (env_imageTemp env);
  deferring (imageCleanup env targetName) (
    r ← stageImage env source;
    let '(written, digest) := r in
    manifest ← stageManifest env opts publishedAt written digest;
    deferring (ignoring (remove "remove manifest staging file" (env_manifestTemp env)))
      (commit env targetName manifest)).

Definition Publish (env : Env) (opts : PublishOptions) : IO Manifest :=
  _ ← lift (refuse (bool_decide (TrimSpace (po_Directory opts) = "")) DirectoryRequired);
  _ ← lift (refuse (negb (bool_decide (po_Board opts = BoardE32R28T))) (UnsupportedBoard (po_Board opts)));
  version ← lift (match ParseVersion (po_Version opts) with Err e => Err (ErrInvalidVersion e) | Ok v => Ok v end);
  _ ← lift (refuse (bool_decide (TrimSpace (po_SourcePath opts) = "")) FileRequired);
  let publishedAt := truncateSecond (if IsZero (po_PublishedAt opts) then env_now env else po_PublishedAt opts) in
  _ ← probe "create firmware directory";
  _ ← probe "secure firmware directory";
  _ ← acquirePublishLock;
  publishLocked env opts version publishedAt.

End calls.

Definition startWorld (d : Dir) : World := mkWorld d [d] 0 false false.
