(* ===== verification/FirmwareFacts.v ===== *)
(** * internal/firmware: what readers can observe

    [hashReader] computes the digest of the whole file; an image that opens is
    exactly what its manifest promises; and a publication is atomic for
    readers: whatever call fails and wherever the process dies, every
    directory it leaves shows either the old image or the complete new one. *)

From S2P Require Import Prelude GoTime GoText GoTextFacts Digest Version Firmware.

(** ** Reading in chunks *)

Lemma take_drop n s : take n s +:+ drop n s = s.
Proof.
  revert s. induction n as [|n IH]; intros s; [by destruct s|]. destruct s as [|a s]; [done|].
  cbn [take drop]. rewrite str_app_cons. f_equal. apply IH.
Qed.

Lemma drop_length n s :
  Stdlib.Strings.String.length (drop (S n) s) = (Stdlib.Strings.String.length s - S n)%nat.
Proof.
  revert s. induction n as [|n IH]; intros [|a s]; try done.
  - simpl. lia.
  - change (drop (S (S n)) (String a s)) with (drop (S n) s). rewrite IH. simpl. lia.
Qed.

Lemma hashLoop_spec fuel : ∀ i rest acc total,
  (Stdlib.Strings.String.length rest < fuel)%nat →
  hashLoop (λ _, false) fuel i rest acc total =
  Some (hex_encode (Sum256 (acc +:+ rest)), total + len rest).
Proof.
  induction fuel as [|fuel IH]; intros i rest acc total Hf; [lia|].
  cbn [hashLoop]. case_bool_decide as E.
  - subst rest. rewrite str_app_nil. do 2 f_equal. unfold len. simpl. lia.
  - rewrite IH.
    + rewrite <- str_app_assoc, take_drop, <-Z.add_assoc, <-len_app, take_drop. done.
    + unfold bufferSize. change (Z.to_nat 32768) with (S (Z.to_nat 32767)). rewrite drop_length.
      destruct rest as [|a rest]; [done|]. simpl in *. lia.
Qed.

Lemma hashReader_complete bytes :
  hashReader (λ _, false) bytes = Ok (hex_encode (Sum256 bytes), len bytes).
Proof. unfold hashReader. rewrite hashLoop_spec by lia. done. Qed.

(** A read that is not cut short gives the same answer whatever the context. *)
Lemma hashLoop_canceled c fuel : ∀ i rest acc total r,
  hashLoop c fuel i rest acc total = Some r → hashLoop (λ _, false) fuel i rest acc total = Some r.
Proof.
  induction fuel as [|fuel IH]; intros i rest acc total r; [done|]. cbn [hashLoop].
  destruct (c i); [done|]. case_bool_decide; [done|]. apply IH.
Qed.

Lemma hashReader_Ok c bytes r : hashReader c bytes = Ok r → r = (hex_encode (Sum256 bytes), len bytes).
Proof.
  unfold hashReader. destruct (hashLoop c _ _ _ _ _) as [r'|] eqn:E; [|done]. intros [= ->].
  apply hashLoop_canceled in E. rewrite hashLoop_spec in E by lia. by injection E.
Qed.

(** ** Names *)

Lemma str_app_inj_r (s t u : string) : s +:+ u = t +:+ u → s = t.
Proof.
  intros H. assert (Hl : Stdlib.Strings.String.length s = Stdlib.Strings.String.length t).
  { apply (f_equal Stdlib.Strings.String.length) in H. rewrite !str_length_app in H. lia. }
  revert t H Hl. induction s as [|a s IH]; intros [|b t] H Hl; try done.
  rewrite !str_app_cons in H. injection H as -> H. f_equal. apply IH; [done|]. by injection Hl.
Qed.

Lemma ImageName_inj b v v' : ImageName b v = ImageName b v' → v = v'.
Proof.
  unfold ImageName. intros H.
  assert (H' : (v +:+ ".bin") = (v' +:+ ".bin")); [|by apply str_app_inj_r in H'].
  induction b as [|a b IH]; rewrite ?str_app_cons in H; injection H as H; auto.
Qed.

(** The names [CreateTemp] gives start with a dot, which no name readers use does. *)
Definition hidden (name : string) : Prop := HasPrefix name "." = true.

Lemma hidden_not_manifest n : hidden n → n ≠ ManifestName.
Proof. by intros H ->. Qed.
Lemma hidden_not_image n v : hidden n → n ≠ ImageName BoardE32R28T v.
Proof. by intros H ->. Qed.

(** ** An image that opens is what its manifest promises *)

Lemma LoadManifest_Ok directory d m :
  LoadManifest directory d = Ok m →
  Validate m = Ok tt ∧ ∃ n, d !! ManifestName = Some (mkFile true (Json n (Some m))) ∧ 0 < n <= maxManifestSize.
Proof.
  unfold LoadManifest. case_bool_decide; [done|].
  destruct (d !! ManifestName) as [[rg [b|n [m'|]]]|]; try done.
  - intros H'. ok_inv. done.
  - intros H'. ok_inv. simpl in *. ok_inv. breflect. unfold fileSize in *. simpl in *. subst rg. split; [done|]. exists n. split; [done|lia].
  - intros H'. ok_inv. simpl in *. done.
Qed.

Lemma Validate_Ok m :
  Validate m = Ok tt ↔
  mf_SchemaVersion m = 1 ∧ mf_Board m = BoardE32R28T ∧ (∃ v, ParseVersion (mf_Version m) = Ok v) ∧
  mf_PublishedAt m ≠ zeroTime ∧ 0 < mf_SizeBytes m <= MaxImageSize ∧ validSHA256 (mf_SHA256 m) = true.
Proof.
  unfold Validate. rewrite !refuse_bind_Ok, !negb_false_iff, Z.eqb_eq, bool_decide_eq_true. split.
  - intros (Hs & Hb & H). apply bind_Ok in H as ([] & Hv & H). ok_inv. time_simpl. breflect.
    destruct (ParseVersion _) eqn:E; [|done]. split_and!; eauto; lia.
  - intros (Hs & Hb & (v & Hv) & Ht & Hz & Hd). rewrite Hv. simpl.
    rewrite (proj2 (IsZero_false _) Ht), Hd. simpl.
    rewrite (proj2 (Z.leb_gt _ _)), (proj2 (Z.ltb_ge _ _)) by lia. done.
Qed.

Lemma opened_image_ok (canceled : nat → bool) (directory version bytes : string) (d : Dir)
    (m : Manifest) (Hopen : OpenVerifiedImage canceled directory version d = Ok (bytes, m)) :
  LoadManifest directory d = Ok m ∧ mf_Version m = version ∧ mf_Board m = BoardE32R28T ∧
  len bytes = mf_SizeBytes m ∧ 0 < len bytes <= MaxImageSize ∧ hex_encode (Sum256 bytes) = mf_SHA256 m ∧
  ∃ f, d !! ImageName BoardE32R28T version = Some f ∧ readable f = bytes.
Proof.
  unfold OpenVerifiedImage in Hopen. ok_inv. breflect.
  match goal with H : LoadManifest _ _ = Ok ?m' |- _ =>
    rename H into Hm; rename m' into m'; pose proof (LoadManifest_Ok _ _ _ Hm) as [(_ & Hb & _ & _ & Hz & _)%Validate_Ok _] end.
  destruct (d !! ImageName _ _) as [f|] eqn:Hf; [|done]. ok_inv.
  match goal with H : hashReader _ _ = Ok _ |- _ => apply hashReader_Ok in H; subst end.
  ok_inv. breflect. rewrite Hb in Hf. split_and!; try done; try lia. by exists f.
Qed.

Lemma opened_image canceled directory version d bytes m :
  OpenVerifiedImage canceled directory version d = Ok (bytes, m) →
  hex_encode (Sum256 bytes) = mf_SHA256 m ∧ len bytes = mf_SizeBytes m ∧ mf_Version m = version.
Proof. intros H. apply opened_image_ok in H as (_ & ? & _ & ? & _ & ? & _). done. Qed.

(** When [OpenVerifiedImage] returns a stream, the stream is the file named
    by the current, valid manifest, the manifest's version is the one asked
    for, and size and SHA-256 of the bytes are those of the manifest. *)
Theorem OpenVerifiedImage_sound (canceled : nat → bool) (directory version bytes : string) (d : Dir)
    (m : Manifest) (Hopen : OpenVerifiedImage canceled directory version d = Ok (bytes, m)) :
  LoadManifest directory d = Ok m ∧ mf_Version m = version ∧ mf_Board m = BoardE32R28T ∧
  len bytes = mf_SizeBytes m ∧ 0 < len bytes <= MaxImageSize ∧ hex_encode (Sum256 bytes) = mf_SHA256 m ∧
  ∃ f, d !! ImageName BoardE32R28T version = Some f ∧ readable f = bytes.
Proof. by apply (opened_image_ok canceled). Qed.

(** ** Reasoning about calls *)

(** What holds after running [m] from [w]. *)
Definition wp {A} (m : IO A) (w : World) (Q : result FirmwareError A → World → Prop) : Prop :=
  Q (m w).1 (m w).2.

Lemma wp_bind {A B} (m : IO A) (k : A → IO B) w Q :
  wp m w (λ r w', match r with Ok a => wp (k a) w' Q | Err e => Q (Err e) w' end) → wp (m ≫= k) w Q.
Proof.
  unfold wp. change ((m ≫= k) w) with (match m w with (Ok a, w') => k a w' | (Err e, w') => (Err e, w') end).
  by destruct (m w) as [[a|e] w'].
Qed.

Lemma wp_mono {A} (m : IO A) w (Q Q' : result FirmwareError A → World → Prop) :
  wp m w Q → (∀ r w', Q r w' → Q' r w') → wp m w Q'.
Proof. unfold wp. auto. Qed.

Lemma wp_call fails what d' junk w (Q : result FirmwareError unit → World → Prop) :
  Q (Err (CallFailed what)) (goto w (junk (dir w))) → Q (Ok tt) (goto w (d' (dir w))) →
  wp (call fails what d' junk) w Q.
Proof. unfold wp, call. by destruct (fails (calls w)). Qed.

Lemma wp_ret {A} (a : A) w (Q : result FirmwareError A → World → Prop) :
  Q (Ok a) w → wp (mret a) w Q.
Proof. done. Qed.

Lemma wp_getDir w (Q : result FirmwareError Dir → World → Prop) :
  Q (Ok (dir w)) w → wp getDir w Q.
Proof. done. Qed.

Lemma wp_lift {A} (r : result FirmwareError A) w Q : Q r w → wp (lift r) w Q.
Proof. done. Qed.

Lemma wp_deferring {A} (cleanup : IO unit) (body : IO A) w Q :
  wp body w (λ r w', wp cleanup w' (λ _ w'', Q r w'')) → wp (deferring cleanup body) w Q.
Proof. unfold wp, deferring. by destruct (body w). Qed.

Lemma wp_ignoring m w (Q : result FirmwareError unit → World → Prop) :
  wp m w (λ _ w', Q (Ok tt) w') → wp (ignoring m) w Q.
Proof. done. Qed.

(** ** The publication *)

Section publish.
Context (fails : nat → bool) (env : Env) (opts : PublishOptions) (d0 : Dir).
Let target : string := ImageName (po_Board opts) (po_Version opts).

(** The names [CreateTemp] invents are hidden and new. *)
Definition env_ok : Prop :=
  hidden (env_imageTemp env) ∧ hidden (env_manifestTemp env) ∧ env_imageTemp env ≠ env_manifestTemp env ∧
  0 < env_payloadSize env <= maxManifestSize.
Context (Henv : env_ok) (Hboard : po_Board opts = BoardE32R28T).

(** The version check succeeded on the directory as it was. *)
Definition newer_ok : Prop :=
  ∃ v, ParseVersion (po_Version opts) = Ok v ∧ checkNewer (po_Directory opts) v d0 = Ok tt.

(** Names the publication may write without a reader noticing: the image's own
    name only once the version is known to be new. *)
Definition private (n : string) : Prop := hidden n ∨ (n = target ∧ newer_ok).

(** A directory that shows readers what [d0] does. *)
Definition agree (d : Dir) : Prop := ∀ n, ¬ private n → d !! n = d0 !! n.

(** A directory in which the new image is published. *)
Definition published (m : Manifest) (bytes : string) (d : Dir) : Prop :=
  d !! ManifestName = Some (mkFile true (Json (env_payloadSize env) (Some m))) ∧
  d !! target = Some (mkFile true (Bytes bytes)).

(** What is published, as the options and the source determine it. *)
Definition faithful (m : Manifest) (bytes : string) : Prop :=
  Validate m = Ok tt ∧ mf_Version m = po_Version opts ∧
  mf_SizeBytes m = len bytes ∧ mf_SHA256 m = hex_encode (Sum256 bytes) ∧
  ∃ src, env_source env = Some src ∧ bytes = src_bytes src ∧ src_size src = len bytes.

(** Before the commit: nothing is visible, nothing is installed. *)
Definition before (w : World) : Prop :=
  Forall agree (seen w) ∧ agree (dir w) ∧ publicationCommitted w = false.

(** At any time: every directory so far is one of the two, and the flag tells
    which one the current directory is. *)
Definition safe (w : World) : Prop :=
  Forall (λ d, agree d ∨ ∃ m bytes, faithful m bytes ∧ published m bytes d) (seen w) ∧
  (publicationCommitted w = false → agree (dir w)) ∧
  (publicationCommitted w = true → ∃ m bytes, faithful m bytes ∧ published m bytes (dir w)).

Lemma before_safe w : before w → safe w.
Proof.
  intros (Hs & Hd & Hc). split; [|split; [done|by rewrite Hc]].
  eapply Forall_impl; [exact Hs|]. by left.
Qed.

Lemma target_private : newer_ok → private target.
Proof. by right. Qed.

Lemma manifest_public : ¬ private ManifestName.
Proof. intros [H|[H _]]; [done|]. unfold target in H. by rewrite Hboard in H. Qed.

Lemma agree_insert n f d : private n → agree d → agree (<[n := f]> d).
Proof. intros Hn Hd n' Hn'. rewrite lookup_insert_ne by (by intros ->). by apply Hd. Qed.

Lemma agree_delete n d : private n → agree d → agree (delete n d).
Proof. intros Hn Hd n' Hn'. rewrite lookup_delete_ne by (by intros ->). by apply Hd. Qed.

Lemma agree_renamed a b d : private a → private b → agree d → agree (renamed a b d).
Proof.
  intros Ha Hb Hd. unfold renamed. destruct (d !! a); [|done]. apply agree_insert, agree_delete; done.
Qed.

Lemma before_goto w d : before w → agree d → before (goto w d).
Proof. intros (Hs & Hd & Hc) Hd'. split; [by constructor|done]. Qed.

Lemma temps_private : private (env_imageTemp env) ∧ private (env_manifestTemp env).
Proof. destruct Henv as (? & ? & _). by split; left. Qed.

Lemma wp_probe what w (Q : result FirmwareError unit → World → Prop) :
  Q (Err (CallFailed what)) (goto w (dir w)) → Q (Ok tt) (goto w (dir w)) → wp (probe fails what) w Q.
Proof. intros He Hk. by apply (wp_call fails what id id). Qed.

(** A probe before the commit: the rest runs on the same directory. *)
Lemma before_probe {A} what (k : unit → IO A) w Q :
  before w →
  (∀ e w', before w' → Q (Err e) w') →
  (∀ w', before w' → dir w' = dir w → imageInstalled w' = imageInstalled w → wp (k tt) w' Q) →
  wp (probe fails what ≫= k) w Q.
Proof.
  intros Hb He Hk. apply wp_bind, wp_probe.
  - apply He, before_goto; [done|apply Hb].
  - apply Hk; [|done..]. apply before_goto; [done|apply Hb].
Qed.

Lemma before_lift {A B} (r : result FirmwareError A) (k : A → IO B) w Q :
  before w → (∀ e w', before w' → Q (Err e) w') → (∀ a, r = Ok a → wp (k a) w Q) →
  wp (lift r ≫= k) w Q.
Proof. intros Hb He Hk. apply wp_bind, wp_lift. destruct r as [a|e]; [by apply Hk|by apply He]. Qed.

Lemma before_write {A} what n c partial (k : unit → IO A) w Q :
  private n → before w →
  (∀ e w', before w' → Q (Err e) w') →
  (∀ w', before w' → dir w' = <[n := mkFile true c]> (dir w) → imageInstalled w' = imageInstalled w → wp (k tt) w' Q) →
  wp (write fails what n c partial ≫= k) w Q.
Proof.
  intros Hn Hb He Hk. pose proof Hb as (_ & Hd & _). apply wp_bind, wp_call.
  - apply He, before_goto; [done|by apply agree_insert].
  - apply Hk; [|done..]. apply before_goto; [done|by apply agree_insert].
Qed.

Lemma before_create {A} what n (k : unit → IO A) w Q :
  private n → before w →
  (∀ e w', before w' → Q (Err e) w') →
  (∀ w', before w' → dir w' = <[n := mkFile true (Bytes "")]> (dir w) →
         imageInstalled w' = imageInstalled w → wp (k tt) w' Q) →
  wp (create fails what n ≫= k) w Q.
Proof.
  intros Hn Hb He Hk. pose proof Hb as (_ & Hd & _). apply wp_bind, wp_call.
  - by apply He, before_goto.
  - apply Hk; [|done..]. apply before_goto; [done|by apply agree_insert].
Qed.

(** Staging the image. *)
Lemma stageImage_wp source w :
  before w →
  wp (stageImage fails env source) w (λ r w', before w' ∧
    ∀ n digest, r = Ok (n, digest) →
      let copied := limited (src_bytes source) in
      dir w' !! env_imageTemp env = Some (mkFile true (Bytes copied)) ∧
      n = len copied ∧ digest = hex_encode (Sum256 copied) ∧ len copied <= MaxImageSize ∧ src_size source = len copied).
Proof.
  intros Hb. unfold stageImage. generalize (limited (src_bytes source)) as copied. intros copied.
  destruct temps_private as [Ht _].
  apply before_probe; [done|by intros|]. intros w1 Hb1 Hd1 _.
  apply before_write; [done..|by intros|]. intros w2 Hb2 Hd2 _.
  apply before_lift; [done|by intros|]. intros [] Hsz.
  apply before_lift; [done|by intros|]. intros [] Hch.
  apply before_probe; [done|by intros|]. intros w3 Hb3 Hd3 _.
  apply before_probe; [done|by intros|]. intros w4 Hb4 Hd4 _.
  apply wp_bind, wp_getDir. apply before_lift; [done|by intros|]. intros [digest n] Hh.
  apply before_lift; [done|by intros|]. intros [] Hm.
  apply before_probe; [done|by intros|]. intros w5 Hb5 Hd5 _. apply wp_ret. split; [done|].
  intros n' digest' [= <- <-]. cbv zeta. rewrite !refuse_Ok in *. breflect.
  rewrite Hd5, Hd4, Hd3, Hd2, lookup_insert_eq. split_and!; done.
Qed.

(** Staging the manifest. *)
Lemma stageManifest_wp publishedAt written digest w :
  before w →
  wp (stageManifest fails env opts publishedAt written digest) w (λ r w', before w' ∧
    ∀ m, r = Ok m →
      m = mkManifest SchemaVersion (po_Board opts) (po_Version opts) publishedAt written digest ∧
      Validate m = Ok tt ∧ dir w' !! env_imageTemp env = dir w !! env_imageTemp env).
Proof.
  intros Hb. unfold stageManifest. destruct temps_private as [_ Ht].
  apply before_lift; [done|by intros|]. intros [] Hv.
  destruct (json_time publishedAt); [|by split].
  apply wp_bind, wp_ret. apply before_create; [done..|by intros|]. intros w' Hb' Hd' _.
  apply wp_ret. split; [done|]. intros m [= <-]. split; [done|]. split; [done|].
  rewrite Hd', lookup_insert_ne; [done|]. destruct Henv as (_ & _ & Hne & _). done.
Qed.

(** A rename of two hidden or target names. *)
Lemma before_rename {A} what a b (k : unit → IO A) w Q :
  private a → private b → before w →
  (∀ e w', before w' → Q (Err e) w') →
  (∀ f w', before w' → dir w !! a = Some f → dir w' = <[b := f]> (delete a (dir w)) → wp (k tt) w' Q) →
  wp (rename fails what a b ≫= k) w Q.
Proof.
  intros Ha Hb Hw He Hk. pose proof Hw as (_ & Hd & _). apply wp_bind. unfold rename, wp.
  destruct (dir w !! a) as [f|] eqn:E; [|by apply He, before_goto].
  apply wp_call; [by apply He, before_goto|].
  apply (Hk f); [apply before_goto; [done|by apply agree_renamed]|done|].
  simpl. unfold renamed. by rewrite E.
Qed.

Lemma before_setInstalled {A} (k : unit → IO A) w Q :
  before w → (∀ w', before w' → dir w' = dir w → wp (k tt) w' Q) → wp (setInstalled ≫= k) w Q.
Proof. intros Hb Hk. apply wp_bind. unfold wp. apply Hk; done. Qed.

(** The commit of a staged publication. *)
Lemma commit_wp m bytes w :
  newer_ok → before w → faithful m bytes → dir w !! env_imageTemp env = Some (mkFile true (Bytes bytes)) →
  wp (commit fails env target m) w (λ r w', safe w' ∧
    ∀ m', r = Ok m' → m' = m ∧ publicationCommitted w' = true ∧ published m bytes (dir w')).
Proof.
  intros Hnew Hb Hf Hi. unfold commit. destruct temps_private as [Hpi Hpm].
  destruct Henv as (Hhi & Hhm & Hne & _).
  assert (Herr : ∀ e w', before w' →
    safe w' ∧ ∀ m', (Err e : result FirmwareError Manifest) = Ok m' →
      m' = m ∧ publicationCommitted w' = true ∧ published m bytes (dir w'))
    by (intros e w' Hw'; split; [by apply before_safe|done]).
  apply before_probe; [done..|]. intros w1 Hb1 Hd1 _.
  apply before_write; [done..|]. intros w2 Hb2 Hd2 _.
  apply before_probe; [done..|]. intros w3 Hb3 Hd3 _.
  apply before_probe; [done..|]. intros w4 Hb4 Hd4 _.
  apply before_rename; [done|by apply target_private|done..|]. intros f w5 Hb5 Hf5 Hd5.
  assert (Hf' : f = mkFile true (Bytes bytes)).
  { rewrite Hd4, Hd3, Hd2, lookup_insert_ne, Hd1, Hi in Hf5 by done. by injection Hf5. }
  apply before_setInstalled; [done|]. intros w6 Hb6 Hd6.
  apply before_probe; [done..|]. intros w7 Hb7 Hd7 _.
  assert (Hm7 : dir w7 !! env_manifestTemp env = Some (mkFile true (Json (env_payloadSize env) (Some m)))).
  { rewrite Hd7, Hd6, Hd5, lookup_insert_ne by (intros E; rewrite <-E in *;
      apply (hidden_not_image _ (po_Version opts)) in Hhm; apply Hhm; rewrite <-Hboard; done).
    rewrite lookup_delete_ne by done. by rewrite Hd4, Hd3, Hd2, lookup_insert_eq. }
  assert (Ht7 : dir w7 !! target = Some (mkFile true (Bytes bytes))).
  { by rewrite Hd7, Hd6, Hd5, lookup_insert_eq, Hf'. }
  pose proof Hb7 as (Hs7 & Ha7 & Hc7).
  apply wp_bind. unfold rename, wp. rewrite Hm7. apply wp_call; [by apply Herr, before_goto|].
  set (d8 := renamed (env_manifestTemp env) ManifestName (dir w7)).
  assert (Hp8 : published m bytes d8).
  { unfold d8, renamed. rewrite Hm7. split; [apply lookup_insert_eq|].
    rewrite lookup_insert_ne by (unfold target; by rewrite Hboard).
    rewrite lookup_delete_ne; [done|]. intros E. apply (hidden_not_image _ (po_Version opts)) in Hhm.
    apply Hhm. rewrite E. unfold target. by rewrite Hboard. }
  assert (Hsafe : Forall (λ d, agree d ∨ ∃ m bytes, faithful m bytes ∧ published m bytes d) (seen w7)).
  { eapply Forall_impl; [exact Hs7|]. by left. }
  assert (Hw8 : ∀ l, Forall (λ d, agree d ∨ ∃ m bytes, faithful m bytes ∧ published m bytes d) l →
     Forall (λ d, agree d ∨ ∃ m bytes, faithful m bytes ∧ published m bytes d) (d8 :: l)).
  { intros l Hl. constructor; [|done]. right. by exists m, bytes. }
  apply wp_bind. unfold wp. simpl. apply wp_bind, wp_probe.
  - split; [|done]. split; [by apply Hw8, Hw8|]. split; [done|]. intros _. by exists m, bytes.
  - apply wp_ret. split; [|by intros m' [= <-]]. split; [by apply Hw8, Hw8|]. split; [done|].
    intros _. by exists m, bytes.
Qed.

(** The clean-ups keep what readers see. *)
Lemma safe_goto w d :
  safe w → (publicationCommitted w = false → agree d) →
  (publicationCommitted w = true → ∀ m bytes, published m bytes (dir w) → published m bytes d) →
  safe (goto w d).
Proof.
  intros (Hs & Hf & Ht) Hd0 Hd1.
  assert (Hd : publicationCommitted w = true → ∃ m bytes, faithful m bytes ∧ published m bytes d).
  { intros Hc. destruct (Ht Hc) as (m & bytes & ? & ?). exists m, bytes. auto. }
  split; [|done]. constructor; [|done].
  destruct (publicationCommitted w); [right; by apply Hd|left; by apply Hd0].
Qed.

Definition keeps (w w' : World) : Prop :=
  safe w' ∧ publicationCommitted w' = publicationCommitted w ∧
  (publicationCommitted w = true → ∀ m bytes, published m bytes (dir w) → published m bytes (dir w')).

Lemma keeps_goto w d :
  safe w → (publicationCommitted w = false → agree d) →
  (publicationCommitted w = true → ∀ m bytes, published m bytes (dir w) → published m bytes d) →
  keeps w (goto w d).
Proof. intros Hs H0 H1. split; [by apply safe_goto|done]. Qed.

Lemma keeps_trans w1 w2 w3 : keeps w1 w2 → keeps w2 w3 → keeps w1 w3.
Proof.
  intros (_ & Hc1 & Hp1) (Hs2 & Hc2 & Hp2). split; [done|]. split; [congruence|].
  intros Hc m bytes Hm. apply Hp2; [congruence|auto].
Qed.

Lemma remove_hidden_safe what n w :
  hidden n → safe w → wp (ignoring (remove fails what n)) w (λ r w', r = Ok tt ∧ keeps w w').
Proof.
  intros Hn Hs. apply wp_ignoring, wp_call; (split; [done|]).
  - apply keeps_goto; [done|apply Hs|done].
  - apply keeps_goto; [done| |].
    + intros Hc. apply agree_delete; [by left|]. by apply Hs.
    + intros Hc m bytes [Hm Ht]. split; rewrite lookup_delete_ne; try done.
      * by intros ->.
      * intros ->. unfold target in Hn. by rewrite Hboard in Hn.
Qed.

Lemma imageCleanup_safe w :
  newer_ok → safe w → wp (imageCleanup fails env target) w (λ _ w', keeps w w').
Proof.
  intros Hnew Hs. destruct Henv as (Hhi & _). apply wp_bind.
  eapply wp_mono; [by apply remove_hidden_safe|]. intros r w1 (-> & Hk1).
  eapply (wp_mono _ _ (λ _ w', keeps w1 w')); [|intros ? w2; by apply keeps_trans].
  pose proof Hk1 as (Hs1 & _). unfold removeUncommitted, wp.
  destruct (imageInstalled w1 && negb (publicationCommitted w1)) eqn:E; [|by split].
  breflect. change (wp (ignoring (remove fails "remove firmware image" target)) w1 (λ _ w', keeps w1 w')).
  apply wp_ignoring, wp_call; apply keeps_goto; try done; [apply Hs1| |congruence].
  intros Hc. apply agree_delete; [by apply target_private|]. by apply Hs1.
Qed.

Lemma take_short n s : len (take (S n) s) <= Z.of_nat n → take (S n) s = s.
Proof.
  revert s. induction n as [|n IH]; intros [|a s] Hl; try done.
  change (take (S (S n)) (String a s)) with (String a (take (S n) s)) in *. f_equal. apply IH.
  rewrite len_cons in Hl. lia.
Qed.

Lemma limited_short s : len (limited s) <= MaxImageSize → limited s = s.
Proof.
  unfold limited. replace (Z.to_nat (MaxImageSize + 1)) with (S (Z.to_nat MaxImageSize))
    by (unfold MaxImageSize; lia).
  intros Hl. apply take_short. unfold MaxImageSize in *. lia.
Qed.

(** What is known when [Publish] returns. *)
Definition done_ok (publishedAt : Time) (r : result FirmwareError Manifest) (w : World) : Prop :=
  safe w ∧ ∀ m, r = Ok m → publicationCommitted w = true ∧ mf_PublishedAt m = publishedAt ∧
    newer_ok ∧ ∃ bytes, faithful m bytes ∧ published m bytes (dir w).

Lemma agree_manifest directory d : agree d → LoadManifest directory d = LoadManifest directory d0.
Proof. intros Hd. unfold LoadManifest. by rewrite (Hd ManifestName manifest_public). Qed.

(** The whole publication, with the lock held. *)
Lemma publishLocked_wp version publishedAt w :
  ParseVersion (po_Version opts) = Ok version →
  before w → wp (publishLocked fails env opts version publishedAt) w (done_ok publishedAt).
Proof.
  intros Hver Hb. unfold publishLocked. destruct temps_private as [Hpi Hpm].
  assert (Herr : ∀ e w', before w' → done_ok publishedAt (Err e) w')
    by (intros e w' Hw'; split; [by apply before_safe|done]).
  apply wp_bind, wp_getDir. apply before_lift; [done..|]. intros [] Hnew.
  assert (Hnewer : newer_ok).
  { exists version. split; [done|]. unfold checkNewer in *. by rewrite agree_manifest in Hnew by apply Hb. }
  apply before_probe; [done..|]. intros w1 Hb1 Hd1 _.
  destruct (env_source env) as [source|] eqn:Hsrc; [|by apply Herr].
  apply wp_bind, wp_ret.
  apply before_probe; [done..|]. intros w2 Hb2 Hd2 _.
  apply before_lift; [done..|]. intros [] _. apply before_lift; [done..|]. intros [] _.
  apply before_lift; [done..|]. intros [] _.
  apply before_probe; [done..|]. intros w3 Hb3 Hd3 _.
  apply wp_bind, wp_getDir. apply before_lift; [done..|]. intros [] _.
  apply before_create; [done..|]. intros w4 Hb4 Hd4 _.
  apply wp_deferring. fold target.
  assert (Hkeep : ∀ r w' w'', keeps w' w'' → done_ok publishedAt r w' → done_ok publishedAt r w'').
  { intros r w' w'' (Hs & Hc & Hp) (_ & Hr). split; [done|]. intros m Hm.
    destruct (Hr m Hm) as (Hc' & Ht & Hn & bytes & Hf & Hpub). rewrite Hc. do 3 (split; [done|]).
    exists bytes. split; [done|]. by apply Hp. }
  eapply (wp_mono _ _ (done_ok publishedAt)); [|intros r w' Hr; eapply wp_mono;
    [apply imageCleanup_safe; [done|by destruct Hr]|intros ? w'' Hk; exact (Hkeep r w' w'' Hk Hr)]].
  apply wp_bind. eapply wp_mono; [by apply stageImage_wp|].
  intros [[written digest]|e] w5 [Hb5 Hst]; [|by apply Herr].
  destruct (Hst _ _ eq_refl) as (Hi5 & -> & -> & Hmax & Hsz). rewrite (limited_short _ Hmax) in *.
  apply wp_bind. eapply wp_mono; [by apply stageManifest_wp|].
  intros [m|e] w6 [Hb6 Hm6]; [|by apply Herr].
  destruct (Hm6 _ eq_refl) as (Hm & Hv & Hi6). rewrite Hi5 in Hi6.
  assert (Hf : faithful m (src_bytes source)).
  { rewrite Hm in *. split; [done|]. split; [done|]. split; [done|]. split; [done|]. by exists source. }
  apply wp_deferring. eapply wp_mono; [by apply commit_wp|]. intros r w7 [Hs7 Hr7].
  eapply wp_mono; [apply remove_hidden_safe; [apply Henv|done]|]. intros ? w8 [_ Hk8].
  eapply Hkeep; [done|]. split; [done|]. intros m' Hm'. destruct (Hr7 m' Hm') as (-> & Hc & Hp).
  split; [done|]. split; [by rewrite Hm|]. split; [done|]. by exists (src_bytes source).
Qed.

(** ** What readers see *)

Definition same_view (directory : string) (d d' : Dir) : Prop :=
  LoadManifest directory d' = LoadManifest directory d ∧
  ∀ c v, OpenVerifiedImage c directory v d' = OpenVerifiedImage c directory v d.

Definition new_view (directory : string) (m : Manifest) (bytes : string) (d : Dir) : Prop :=
  LoadManifest directory d = Ok m ∧
  OpenVerifiedImage (λ _, false) directory (mf_Version m) d = Ok (bytes, m) ∧
  ∀ c v, v ≠ mf_Version m → OpenVerifiedImage c directory v d = Err ErrNotFound.

Lemma old_image_public old :
  LoadManifest (po_Directory opts) d0 = Ok old → ¬ private (ImageName (mf_Board old) (mf_Version old)).
Proof.
  intros Hold. pose proof (LoadManifest_Ok _ _ _ Hold) as [(_ & Hb & (v & Hv) & _)%Validate_Ok _].
  rewrite Hb. intros [Hh|[Heq (v' & Hv' & Hnew)]]; [done|].
  unfold target in Heq. rewrite Hboard in Heq. apply ImageName_inj in Heq.
  unfold checkNewer in Hnew. rewrite Hold, Hv in Hnew. rewrite Heq, Hv' in Hv. injection Hv as ->.
  apply refuse_Ok, Compare_newer in Hnew. by apply version_lt_irrefl in Hnew.
Qed.

Lemma agree_same_view d : agree d → same_view (po_Directory opts) d0 d.
Proof.
  intros Hd. split; [by apply agree_manifest|]. intros c v. unfold OpenVerifiedImage.
  rewrite agree_manifest by done. destruct (ParseVersion v); [|done]. cbn [mbind result_bind].
  destruct (LoadManifest (po_Directory opts) d0) as [old|] eqn:Hold; [|done]. cbn [mbind result_bind].
  by rewrite (Hd _ (old_image_public old Hold)).
Qed.

Lemma published_new_view m bytes d :
  TrimSpace (po_Directory opts) ≠ "" → faithful m bytes → published m bytes d →
  new_view (po_Directory opts) m bytes d.
Proof.
  intros Hdir (Hv & Hver & Hsz & Hsha & _) [Hm Ht]. destruct Henv as (_ & _ & _ & Hp).
  assert (Hload : LoadManifest (po_Directory opts) d = Ok m).
  { unfold LoadManifest. rewrite bool_decide_false, Hm by done. unfold fileSize. simpl.
    rewrite (proj2 (Z.leb_gt _ _)), (proj2 (Z.ltb_ge _ _)) by lia. simpl. by rewrite Hv. }
  apply Validate_Ok in Hv as (_ & Hb & (v & Hpv) & _).
  split; [done|]. split.
  - unfold OpenVerifiedImage. rewrite Hpv, Hload. cbn [mbind result_bind]. rewrite bool_decide_true by done.
    simpl. rewrite Hb, Hver, <-Hboard. fold target. rewrite Ht. unfold fileSize, readable. simpl.
    rewrite Hsz, Z.eqb_refl. simpl. rewrite hashReader_complete. simpl.
    by rewrite Z.eqb_refl, Hsha, bool_decide_true.
  - intros c v' Hne. unfold OpenVerifiedImage. rewrite Hload.
    destruct (ParseVersion v'); [|done]. cbn [mbind result_bind]. by rewrite bool_decide_false.
Qed.

Lemma acquirePublishLock_wp w Q :
  before w → (∀ e w', before w' → Q (Err e) w') → (∀ w', before w' → Q (Ok tt) w') →
  wp (acquirePublishLock fails) w Q.
Proof.
  intros Hb He Hk. pose proof Hb as (_ & Hd & _). apply wp_bind, wp_call; [by apply He, before_goto|].
  assert (Hb1 : before (goto w (if bool_decide (is_Some (dir w !! LockName)) then dir w
                                else <[LockName := mkFile true (Bytes "")]> (dir w)))).
  { apply before_goto; [done|]. case_bool_decide; [done|]. apply agree_insert; [by left|done]. }
  apply before_probe; [done..|]. intros w2 Hb2 _ _. apply wp_probe.
  - apply He, before_goto; [done|apply Hb2].
  - apply Hk, before_goto; [done|apply Hb2].
Qed.

Lemma Publish_wp :
  wp (Publish fails env opts) (startWorld d0)
    (λ r w, (TrimSpace (po_Directory opts) = "" → r = Err DirectoryRequired ∧ w = startWorld d0) ∧
      done_ok (truncateSecond (if IsZero (po_PublishedAt opts) then env_now env else po_PublishedAt opts)) r w).
Proof.
  unfold Publish. set (publishedAt := truncateSecond _).
  assert (Hb : before (startWorld d0)) by (split; [by constructor|done]).
  assert (Herr : ∀ e w, before w → done_ok publishedAt (Err e) w)
    by (intros e w Hw; split; [by apply before_safe|done]).
  destruct (decide (TrimSpace (po_Directory opts) = "")) as [Hdir|Hdir].
  { rewrite (bool_decide_true (TrimSpace (po_Directory opts) = _)) by done. split; [intros _; split; reflexivity|]. by apply Herr. }
  rewrite (bool_decide_false (TrimSpace (po_Directory opts) = _)) by done.
  eapply (wp_mono _ _ (done_ok publishedAt)); [|by intros r w Hr].
  apply before_lift; [done..|]. intros [] _. apply before_lift; [done..|]. intros [] _.
  apply before_lift; [done..|]. intros version Hver.
  assert (Hver' : ParseVersion (po_Version opts) = Ok version) by (destruct (ParseVersion (po_Version opts)); [by injection Hver as ->|done]).
  apply before_lift; [done..|]. intros [] _.
  apply before_probe; [done..|]. intros w1 Hb1 _ _. apply before_probe; [done..|]. intros w2 Hb2 _ _.
  apply wp_bind. apply acquirePublishLock_wp; [done|by intros; apply Herr|].
  intros w3 Hb3. by apply publishLocked_wp.
Qed.
End publish.

Lemma startWorld_only d d' : d' ∈ dir (startWorld d) :: seen (startWorld d) → d' = d.
Proof. simpl. rewrite !elem_of_cons, elem_of_nil. tauto. Qed.

(** C4. Publishing is atomic for readers, whichever calls fail and wherever the
    process dies: every directory it passes through shows exactly what the old
    one did, or the complete new image, whose manifest carries the size and
    digest of the source's bytes.  When it reports success the new image is
    what readers see, and its version is strictly newer than the old one. *)
Theorem Publish_atomic (fails : nat → bool) (env : Env) (opts : PublishOptions) (d : Dir)
    (r : result FirmwareError Manifest) (w : World)
    (Henv : env_ok env) (Hrun : Publish fails env opts (startWorld d) = (r, w)) :
  (∀ d', d' ∈ dir w :: seen w →
     same_view (po_Directory opts) d d' ∨
     ∃ m bytes, faithful env opts m bytes ∧ new_view (po_Directory opts) m bytes d') ∧
  (∀ m, r = Ok m →
     (∃ bytes, faithful env opts m bytes ∧ new_view (po_Directory opts) m bytes (dir w)) ∧
     (∀ old v, LoadManifest (po_Directory opts) d = Ok old → ParseVersion (mf_Version m) = Ok v →
        ∃ u, ParseVersion (mf_Version old) = Ok u ∧ version_lt u v)).
Proof.
  destruct (decide (po_Board opts = BoardE32R28T)) as [Hboard|Hboard].
  2:{ assert (H : ∃ e, (r, w) = (Err e, startWorld d)).
      { rewrite <-Hrun. unfold Publish. destruct (bool_decide (TrimSpace (po_Directory opts) = "")); [by exists DirectoryRequired|].
        rewrite (bool_decide_false (po_Board opts = BoardE32R28T)) by done. by exists (UnsupportedBoard (po_Board opts)). }
      destruct H as (e & [= -> ->]). split; [|done].
      intros d' ->%startWorld_only. left. by split. }
  pose proof (Publish_wp fails env opts d Henv Hboard) as Hwp. unfold wp in Hwp. rewrite Hrun in Hwp.
  destruct Hwp as [Hblank [(Hseen & Hun & Hco) Hok]]. simpl in *.
  destruct (decide (TrimSpace (po_Directory opts) = "")) as [Hdir|Hdir].
  { destruct (Hblank Hdir) as [-> ->]. split; [|done].
    intros d' ->%startWorld_only. left. by split. }
  assert (Hview : ∀ d', (agree opts d d' ∨ ∃ m bytes, faithful env opts m bytes ∧ published env opts m bytes d') →
    same_view (po_Directory opts) d d' ∨ ∃ m bytes, faithful env opts m bytes ∧ new_view (po_Directory opts) m bytes d').
  { intros d' [Ha|(m & bytes & Hf & Hp)]; [left; by apply agree_same_view|].
    right. exists m, bytes. split; [done|]. by apply (published_new_view env opts Henv Hboard). }
  split.
  - intros d' [->|Hin]%elem_of_cons; apply Hview.
    + destruct (publicationCommitted w); [right; by apply Hco|left; by apply Hun].
    + rewrite Forall_forall in Hseen. by apply Hseen.
  - intros m Hm. destruct (Hok m Hm) as (_ & _ & (v & Hv & Hnew) & bytes & Hf & Hp). split.
    + exists bytes. split; [done|]. by apply (published_new_view env opts Henv Hboard).
    + intros old v' Hold Hv'. destruct Hf as (_ & Hver & _). rewrite Hver, Hv in Hv'. injection Hv' as <-.
      unfold checkNewer in Hnew. rewrite Hold in Hnew.
      destruct (ParseVersion (mf_Version old)) as [u|] eqn:Hu; [|done].
      exists u. split; [done|]. by apply refuse_Ok, Compare_newer in Hnew.
Qed.

Definition demo_env : Env :=
  mkEnv (Some (mkSource true 5 "image")) (1700000000 * Second) ".image-1.tmp" ".manifest-1.tmp" 200 "im" (λ _, false).
Definition demo_opts (version : string) : PublishOptions :=
  mkPublishOptions "/srv/fw" BoardE32R28T version "build/fw.bin" zeroTime.

(** The directory after a first publication. *)
Definition demo_dir : Dir := dir (Publish (λ _, false) demo_env (demo_opts "1.2.3") (startWorld ∅)).2.

Lemma demo_env_ok : env_ok demo_env.
Proof.
  split; [reflexivity|]. split; [reflexivity|]. split; [intros H; discriminate H|]. vm_compute. split; congruence.
Qed.

(** A second publication, cut short at its commit: readers keep the first. *)
Lemma Publish_atomic_witness :
  ∃ r w, Publish (λ n, bool_decide (n = 19%nat)) demo_env (demo_opts "1.2.10") (startWorld demo_dir) = (r, w) ∧
  is_ok r = false ∧ is_ok (OpenVerifiedImage (λ _, false) "/srv/fw" "1.2.3" (dir w)) = true ∧
  (same_view "/srv/fw" demo_dir (dir w) ∨
   ∃ m bytes, faithful demo_env (demo_opts "1.2.10") m bytes ∧ new_view "/srv/fw" m bytes (dir w)).
Proof.
  set (fails := λ n, bool_decide (n = 19%nat)).
  assert (H1 : is_ok (Publish fails demo_env (demo_opts "1.2.10") (startWorld demo_dir)).1 = false)
    by (vm_compute; reflexivity).
  assert (H2 : is_ok (OpenVerifiedImage (λ _, false) "/srv/fw" "1.2.3"
                 (dir (Publish fails demo_env (demo_opts "1.2.10") (startWorld demo_dir)).2)) = true)
    by (vm_compute; reflexivity).
  destruct (Publish fails demo_env (demo_opts "1.2.10") (startWorld demo_dir)) as [r w] eqn:E.
  exists r, w. split; [reflexivity|]. split; [exact H1|]. split; [exact H2|].
  destruct (Publish_atomic fails demo_env (demo_opts "1.2.10") demo_dir r w demo_env_ok E) as [H _].
  apply (H (dir w)). left.
Defined.

Lemma OpenVerifiedImage_sound_witness :
  ∃ m, OpenVerifiedImage (λ _, false) "/srv/fw" "1.2.3" demo_dir = Ok ("image", m) ∧
       hex_encode (Sum256 "image") = mf_SHA256 m.
Proof.
  destruct (OpenVerifiedImage (λ _, false) "/srv/fw" "1.2.3" demo_dir) as [[b m]|e] eqn:E.
  - assert (Hb : b = "image") by (vm_compute in E; injection E as <- _; reflexivity). subst b.
    exists m. split; [reflexivity|].
    destruct (OpenVerifiedImage_sound (λ _, false) "/srv/fw" "1.2.3" "image" demo_dir m E) as (_ & _ & _ & _ & _ & H & _).
    exact H.
  - vm_compute in E. discriminate E.
Defined.
