(* ===== verification/Server.v ===== *)
(** * internal/server: authentication, routing and the handlers

    The rest of [server.go] over the limiter, the validator, the store and the
    firmware directory.  A request carries what the handlers read of it: its
    method, its path as it was sent, [Authorization] header, peer address, and what decoding its
    body as JSON gave.  A response is its status, its error code, its
    [Retry-After] and [WWW-Authenticate] headers and its payload.  The clock
    readings of one request are arguments.  Database failures other than those
    of [Store] are not modelled, and neither is an interrupted download. *)

From S2P Require Import Prelude GoTime GoText GoNet GoFloat Digest Model Limiter Validate Store Version Firmware.

Definition defaultAgentRequestsPerMinute : Z := 120.
Definition defaultDisplayRequestsPerMinute : Z := 120.
Definition defaultAuthAttemptsPerMinute : Z := 240.
Definition defaultGlobalAuthPerMinute : Z := 6000.
Definition defaultConcurrentAuth : Z := 8.

(** What decoding the body gave: [decoder.Decode], then [ensureJSONEOF]. *)
Inductive bodyError := BodyTooLarge | BodyInvalid | TrailingTooLarge | TrailingData.

Record Request := mkRequest {
  Method : string;
  Path : string;                 (* as it was sent, with its escapes *)
  Authorization : string;
  RemoteAddr : string;
  Body : result bodyError AgentReport
}.

Inductive payload :=
| NoPayload
| HealthPayload
| SnapshotPayload (s : DisplaySnapshot)
| ManifestPayload (m : Manifest)
| ImagePayload (bytes : string) (m : Manifest).

Record Response := mkResponse {
  Status : Z;
  Code : string;                 (* of the error body, "" when there is none *)
  RetryAfter : option Z;
  Challenge : bool;              (* WWW-Authenticate: Bearer *)
  Payload : payload
}.

Definition writeError (status : Z) (code : string) : Response := mkResponse status code None false NoPayload.
Definition writeJSON (p : payload) : Response := mkResponse 200 "" None false p.
Definition noContent : Response := mkResponse 204 "" None false NoPayload.
Definition rateLimited (seconds : Z) : Response := mkResponse 429 "rate_limited" (Some seconds) false NoPayload.
Definition unauthorized : Response := mkResponse 401 "unauthorized" None true NoPayload.

Record Config := mkConfig {
  cfg_AgentRequestsPerMinute : Z;
  cfg_DisplayRequestsPerMinute : Z;
  cfg_AuthAttemptsPerMinute : Z;
  cfg_GlobalAuthAttemptsPerMinute : Z;
  cfg_ConcurrentAuth : Z;
  cfg_FirmwareDir : string
}.

Record Server := mkServer {
  store : DB;
  firmwareFiles : Dir;
  firmwareDir : string;
  limiter : fixedWindowLimiter;
  agentRateLimit : Z;
  displayRateLimit : Z;
  authRateLimit : Z;
  globalAuthRateLimit : Z;
  authCapacity : Z;              (* cap(authSlots) *)
  authInUse : Z;                 (* len(authSlots) *)
  healthCheckedAt : Time;
  healthErr : bool
}.

Definition orDefault (v d : Z) : Z := if v <=? 0 then d else v.

Definition New (cfg : Config) (db : DB) (files : Dir) : Server :=
  mkServer db files (TrimSpace (cfg_FirmwareDir cfg)) (newFixedWindowLimiter Minute)
    (orDefault (cfg_AgentRequestsPerMinute cfg) defaultAgentRequestsPerMinute)
    (orDefault (cfg_DisplayRequestsPerMinute cfg) defaultDisplayRequestsPerMinute)
    (orDefault (cfg_AuthAttemptsPerMinute cfg) defaultAuthAttemptsPerMinute)
    (orDefault (cfg_GlobalAuthAttemptsPerMinute cfg) defaultGlobalAuthPerMinute)
    (orDefault (cfg_ConcurrentAuth cfg) defaultConcurrentAuth) 0 zeroTime false.

Definition setLimiter (s : Server) (l : fixedWindowLimiter) : Server :=
  mkServer (store s) (firmwareFiles s) (firmwareDir s) l (agentRateLimit s) (displayRateLimit s)
    (authRateLimit s) (globalAuthRateLimit s) (authCapacity s) (authInUse s) (healthCheckedAt s) (healthErr s).
Definition setInUse (s : Server) (n : Z) : Server :=
  mkServer (store s) (firmwareFiles s) (firmwareDir s) (limiter s) (agentRateLimit s) (displayRateLimit s)
    (authRateLimit s) (globalAuthRateLimit s) (authCapacity s) n (healthCheckedAt s) (healthErr s).
Definition setStore (s : Server) (db : DB) : Server :=
  mkServer db (firmwareFiles s) (firmwareDir s) (limiter s) (agentRateLimit s) (displayRateLimit s)
    (authRateLimit s) (globalAuthRateLimit s) (authCapacity s) (authInUse s) (healthCheckedAt s) (healthErr s).
Definition setHealth (s : Server) (t : Time) (e : bool) : Server :=
  mkServer (store s) (firmwareFiles s) (firmwareDir s) (limiter s) (agentRateLimit s) (displayRateLimit s)
    (authRateLimit s) (globalAuthRateLimit s) (authCapacity s) (authInUse s) t e.

(** ** Header parsing *)

Definition parseBearer (value : string) : string * bool :=
  match Fields value with
  | [p0; p1] =>
    if negb (EqualFold p0 "Bearer") || bool_decide (p1 = "") || (256 <? len p1) then ("", false)
    else (p1, true)
  | _ => ("", false)
  end.

Definition clientAddress (remoteAddr : string) : string :=
  match splitHost remoteAddr with
  | Some host => if bool_decide (host = "") then (if bool_decide (remoteAddr = "") then "unknown" else remoteAddr) else host
  | None => if bool_decide (remoteAddr = "") then "unknown" else remoteAddr
  end.

(** ** authenticate *)

Definition fingerprintOf (r : Request) : string :=
  let '(raw, bearerOK) := parseBearer (Authorization r) in
  if bearerOK then hex_encode (Stdlib.Strings.String.substring 0 12 (Sum256 raw)) else "malformed".

Definition attemptKey (r : Request) (scope : TokenScope) : string :=
  "auth:" +:+ scope +:+ ":" +:+ clientAddress (RemoteAddr r) +:+ ":" +:+ fingerprintOf r.

(** Up to the acquisition of a slot: it holds one when the result is [Ok]. *)
Definition authEnter (s : Server) (r : Request) (scope : TokenScope) (now : Time)
    : result Response unit * Server :=
  let '((allowed, retryAfter), l) := Allow (limiter s) "auth:global" now (globalAuthRateLimit s) in
  let s := setLimiter s l in
  if negb allowed then (Err (rateLimited (retryAfterSeconds retryAfter)), s)
  else
    let '((allowed, retryAfter), l) := Allow (limiter s) (attemptKey r scope) now (authRateLimit s) in
    let s := setLimiter s l in
    if negb allowed then (Err (rateLimited (retryAfterSeconds retryAfter)), s)
    else if authInUse s <? authCapacity s then (Ok tt, setInUse s (authInUse s + 1))
    else (Err (rateLimited 1), s).

(** With the slot held: the token, then its own limit; the deferred receive
    gives the slot back on every path. *)
Definition authLeave (s : Server) (r : Request) (scope : TokenScope) (limit : Z) (usedAt now : Time)
    : result Response TokenRecord * Server :=
  let '(raw, bearerOK) := parseBearer (Authorization r) in
  let release (s : Server) := setInUse s (authInUse s - 1) in
  if negb bearerOK then (Err unauthorized, release s)
  else
    match AuthenticateToken (store s) raw scope usedAt with
    | (Err _, db) => (Err unauthorized, release (setStore s db))
    | (Ok record, db) =>
      let s := setStore s db in
      let '((allowed, retryAfter), l) := Allow (limiter s) (scope +:+ ":" +:+ tr_ID record) now limit in
      let s := setLimiter s l in
      if negb allowed then (Err (rateLimited (retryAfterSeconds retryAfter)), release s)
      else (Ok record, release s)
    end.

(** The clock readings of one request, in the order they are taken. *)
Record Clock := mkClock { atEnter : Time; atUse : Time; atLimit : Time; atHandle : Time }.

Definition authenticate (s : Server) (r : Request) (scope : TokenScope) (limit : Z) (c : Clock)
    : result Response TokenRecord * Server :=
  match authEnter s r scope (atEnter c) with
  | (Err e, s) => (Err e, s)
  | (Ok _, s) => authLeave s r scope limit (atUse c) (atLimit c)
  end.

(** ** The handlers *)

(** [ping] is what the database answers, when it is asked. *)
Definition handleHealth (s : Server) (now : Time) (ping : bool) : Response * Server :=
  let s :=
    if IsZero (healthCheckedAt s) || (Second <=? Sub now (healthCheckedAt s)) || Before now (healthCheckedAt s)
    then setHealth s now (negb ping) else s in
  (if healthErr s then writeError 503 "unhealthy" else writeJSON HealthPayload, s).

Definition handleAgentReport (s : Server) (r : Request) (c : Clock) : Response * Server :=
  match authenticate s r ScopeAgentWrite (agentRateLimit s) c with
  | (Err e, s) => (e, s)
  | (Ok record, s) =>
    match Body r with
    | Err BodyTooLarge | Err TrailingTooLarge => (writeError 413 "body_too_large", s)
    | Err BodyInvalid | Err TrailingData => (writeError 400 "invalid_json", s)
    | Ok report =>
      if negb (bool_decide (tr_AgentID record = ar_AgentID report)) then (writeError 403 "agent_mismatch", s)
      else
        let now := atHandle c in
        match ValidateAgentReport report now with
        | Err _ => (writeError 400 "invalid_report", s)
        | Ok _ =>
          match ReplaceAgentReport (store s) report now with
          | (Err ErrStaleReport, db) => (writeError 409 "stale_report", setStore s db)
          | (Err _, db) => (writeError 500 "storage_error", setStore s db)
          | (Ok _, db) => (noContent, setStore s db)
          end
        end
    end
  end.

(** A request is one step: nothing is stored between the snapshot's queries
    ([BuildDisplaySnapshotFrom] is the case where something is). *)
Definition handleDisplaySnapshot (s : Server) (r : Request) (c : Clock) : Response * Server :=
  match authenticate s r ScopeDisplayRead (displayRateLimit s) c with
  | (Err e, s) => (e, s)
  | (Ok _, s) => (writeJSON (SnapshotPayload (BuildDisplaySnapshot (store s) (atHandle c))), s)
  end.

Definition writeFirmwareError (e : FirmwareError) : Response :=
  match e with
  | ErrNotFound => writeError 404 "firmware_not_found"
  | ErrInvalidManifest _ | ErrHashMismatch => writeError 503 "firmware_invalid"
  | _ => writeError 503 "firmware_unavailable"
  end.

Definition handleFirmwareManifest (s : Server) (r : Request) (c : Clock) : Response * Server :=
  match authenticate s r ScopeDisplayRead (displayRateLimit s) c with
  | (Err e, s) => (e, s)
  | (Ok _, s) =>
    match LoadManifest (firmwareDir s) (firmwareFiles s) with
    | Err e => (writeFirmwareError e, s)
    | Ok m => (writeJSON (ManifestPayload m), s)
    end
  end.

(** [strings.HasSuffix(s, ".bin")] with [strings.TrimSuffix]. *)
Fixpoint trimBin (s : string) : option string :=
  if bool_decide (s = ".bin") then Some ""
  else match s with
  | EmptyString => None
  | String a s => String a <$> trimBin s
  end.
(** [strings.Count(s, ".bin")]; occurrences cannot overlap. *)
Fixpoint countBin (s : string) : Z :=
  match s with
  | EmptyString => 0
  | String _ s' => (if HasPrefix s ".bin" then 1 else 0) + countBin s'
  end.

Definition handleFirmwareDownload (s : Server) (r : Request) (fileName : string) (canceled : nat → bool) (c : Clock)
    : Response * Server :=
  match authenticate s r ScopeDisplayRead (displayRateLimit s) c with
  | (Err e, s) => (e, s)
  | (Ok _, s) =>
    match trimBin fileName with
    | Some version =>
      if negb (countBin fileName =? 1) then (writeError 404 "firmware_not_found", s)
      else match OpenVerifiedImage canceled (firmwareDir s) version (firmwareFiles s) with
      | Err e => (writeFirmwareError e, s)
      | Ok (bytes, m) => (mkResponse 200 "" None false (ImagePayload bytes m), s)
      end
    | None => (writeError 404 "firmware_not_found", s)
    end
  end.

(** ** Routing *)

Inductive Route := RHealth | RReport | RSnapshot | RManifest | RDownload (file : string) | RNotFound | RNotAllowed.

(** The patterns given to the mux, on the segments of a path; a GET pattern also
    matches HEAD, and [{file}] neither an empty segment nor a slash. *)
Definition route (method : string) (segments : list string) : Route :=
  let get := bool_decide (method = "GET") || bool_decide (method = "HEAD") in
  let only (ok : bool) (h : Route) := if ok then h else RNotAllowed in
  match segments with
  | [e1] => if bool_decide (e1 = "healthz") then only get RHealth else RNotFound
  | [e1; e2; e3; e4] =>
    if bool_decide ([e1; e2; e3; e4] = ["api"; "v1"; "agent"; "report"])
    then only (bool_decide (method = "POST")) RReport
    else if bool_decide ([e1; e2; e3; e4] = ["api"; "v1"; "display"; "snapshot"]) then only get RSnapshot
    else RNotFound
  | [e1; e2; e3; e4; e5; e6] =>
    if bool_decide ([e1; e2; e3; e4; e5] = ["api"; "v1"; "display"; "firmware"; "e32r28t"]) && negb (bool_decide (e6 ∈ [""; "/"]))
    then only get (if bool_decide (e6 = "manifest") then RManifest else RDownload e6)
    else RNotFound
  | _ => RNotFound
  end.

(** What the surroundings of one request answer: its clock, the database's
    ping, and whether the client went away while an image was hashed. *)
Record Around := mkAround { clock : Clock; ping : bool; gone : nat → bool }.

(** net/http answers a path that cannot be decoded itself. *)
Definition ServeHTTP (s : Server) (r : Request) (env : Around) : Response * Server :=
  match PathUnescape (Path r) with
  | None => (writeError 400 "", s)
  | Some path =>
    if bool_decide (path = "") || negb (bool_decide (Clean path = path))
    then (writeError 404 "not_found", s)
    else match muxTarget (Method r) (Path r) with
    | MuxInvalid => (writeError 400 "", s)
    | MuxRedirect => (writeError 301 "", s)
    | MuxSegments segments =>
      match route (Method r) segments with
      | RHealth => handleHealth s (atHandle (clock env)) (ping env)
      | RReport => handleAgentReport s r (clock env)
      | RSnapshot => handleDisplaySnapshot s r (clock env)
      | RManifest => handleFirmwareManifest s r (clock env)
      | RDownload file => handleFirmwareDownload s r file (gone env) (clock env)
      | RNotFound => (writeError 404 "", s)
      | RNotAllowed => (writeError 405 "", s)
      end
    end
  end.
