(* ===== verification/ServerFacts.v ===== *)
(** * internal/server: who may do what

    The slots of [authenticate] under any interleaving of requests; what a
    response says about the token that was presented; and the whole path of an
    agent's report, from the created token to the stored rows. *)

From S2P Require Import Prelude GoTime GoText GoNet GoTextFacts GoFloat Digest Model Limiter Validate Store StoreTokens StoreReports Version Firmware FirmwareFacts Server.

(** ** The bearer header *)

Lemma fields_visible l cur :
  Forall visible l → cur ≠ "" ∨ l ≠ [] →
  fields_of ((λ c, (zb c, String c "")) <$> l) cur =
  [cur +:+ Stdlib.Strings.String.string_of_list_ascii l].
Proof.
  revert cur. induction l as [|a l IH]; intros cur Hl Hne; simpl.
  - destruct Hne as [Hne|]; [|done]. rewrite bool_decide_false by done. f_equal.
    induction cur as [|b cur IHc]; [done|]. rewrite str_app_cons. f_equal.
    destruct cur as [|c cur]; [done|]. by apply IHc.
  - apply Forall_cons in Hl as [Ha Hl].
    assert (IsSpace (zb a) = false) as ->.
    { unfold visible in Ha. unfold IsSpace, within. lia. }
    rewrite IH; [|done|].
    + f_equal. clear. induction cur as [|b cur IHc]; [done|]. rewrite !str_app_cons. f_equal. exact IHc.
    + left. by destruct cur.
Qed.

Lemma string_of_list_codes s :
  Stdlib.Strings.String.string_of_list_ascii (Stdlib.Strings.String.list_ascii_of_string s) = s.
Proof. apply Stdlib.Strings.String.string_of_list_ascii_of_string. Qed.

Lemma parseBearer_header w :
  w ≠ "" → len w <= 256 → Forall visible (Stdlib.Strings.String.list_ascii_of_string w) →
  parseBearer ("Bearer " +:+ w) = (w, true).
Proof.
  intros Hne Hlen Hv.
  assert (Hc : chunks w = (λ c, (zb c, String c "")) <$> Stdlib.Strings.String.list_ascii_of_string w).
  { apply ascii_chunks. by apply visible_ascii. }
  assert (Hf : Fields ("Bearer " +:+ w) = ["Bearer"; w]).
  { unfold Fields.
    change (chunks ("Bearer " +:+ w)) with
      ((66, "B") :: (101, "e") :: (97, "a") :: (114, "r") :: (101, "e") :: (114, "r") :: (32, " ") :: chunks w).
    rewrite Hc. simpl. f_equal. rewrite fields_visible; [|done|].
    - f_equal. apply string_of_list_codes.
    - right. by destruct w. }
  unfold parseBearer. rewrite Hf. rewrite bool_decide_false by done.
  by rewrite (proj2 (Z.ltb_ge _ _)).
Qed.

Lemma b64_char_visible d : visible (b64_char d).
Proof.
  unfold b64_char. assert (0 <= Z.land d 63 < 64).
  { change 63 with (Z.ones 6). rewrite Z.land_ones by lia. apply Z.mod_pos_bound. lia. }
  generalize dependent (Z.land d 63). clear d. intros d Hd.
  assert (H : forallb (λ d, match Stdlib.Strings.String.get (Z.to_nat d) b64_alphabet with
     | Some a => (33 <=? zb a) && (zb a <? 127) | None => false end) (seqZ 0 64) = true) by (vm_compute; reflexivity).
  rewrite forallb_forall in H. specialize (H d). destruct (Stdlib.Strings.String.get _ _).
  - unfold visible. enough ((33 <=? zb a) && (zb a <? 127) = true) by (breflect; lia).
    apply H, list_elem_of_In, elem_of_seqZ. lia.
  - exfalso. enough (false = true) by done. apply H, list_elem_of_In, elem_of_seqZ. lia.
Qed.

Lemma b64_visible l : Forall visible (Stdlib.Strings.String.list_ascii_of_string (b64_encode l)).
Proof.
  assert (H : ∀ n l, (length l ≤ n)%nat →
    Forall visible (Stdlib.Strings.String.list_ascii_of_string (b64_encode l))); [|by eapply H].
  clear l. induction n as [|n IH]; intros [|a [|b [|c l]]] Hn; simpl in Hn; try lia;
    cbn [b64_encode Stdlib.Strings.String.list_ascii_of_string];
    repeat (constructor; [apply b64_char_visible|]); try constructor.
  apply IH. lia.
Qed.

Lemma rawToken_header b :
  length b = 32%nat → parseBearer ("Bearer " +:+ ("qmon_" +:+ b64_encode b)) = ("qmon_" +:+ b64_encode b, true).
Proof.
  intros Hb. apply parseBearer_header; [done|rewrite len_rawToken by done; lia|].
  change (Stdlib.Strings.String.list_ascii_of_string ("qmon_" +:+ b64_encode b)) with
    ("q"%char :: "m"%char :: "o"%char :: "n"%char :: "_"%char ::
       Stdlib.Strings.String.list_ascii_of_string (b64_encode b)).
  repeat (constructor; [by unfold visible|]). apply b64_visible.
Qed.

(** ** The two halves of authenticate *)

Definition same_config (s s' : Server) : Prop :=
  firmwareFiles s' = firmwareFiles s ∧ firmwareDir s' = firmwareDir s ∧
  agentRateLimit s' = agentRateLimit s ∧ displayRateLimit s' = displayRateLimit s ∧
  authRateLimit s' = authRateLimit s ∧ globalAuthRateLimit s' = globalAuthRateLimit s ∧
  authCapacity s' = authCapacity s.

Lemma authEnter_cases s r scope now res s' :
  authEnter s r scope now = (res, s') →
  same_config s s' ∧ store s' = store s ∧
  ((res = Ok tt ∧ authInUse s < authCapacity s ∧ authInUse s' = authInUse s + 1) ∨
   (∃ n, res = Err (rateLimited n) ∧ authInUse s' = authInUse s)).
Proof.
  unfold authEnter. destruct (Allow _ _ _ _) as [[[] d1] l1]; simpl.
  2: { intros [= <- <-]. split; [done|]. split; [done|]. right. by eexists. }
  destruct (Allow _ _ _ _) as [[[] d2] l2]; simpl.
  2: { intros [= <- <-]. split; [done|]. split; [done|]. right. by eexists. }
  destruct (Z.ltb_spec (authInUse s) (authCapacity s)); intros [= <- <-];
    (split; [done|]; split; [done|]); [by left|right; by eexists].
Qed.

Lemma authLeave_cases s r scope limit usedAt now res s' :
  authLeave s r scope limit usedAt now = (res, s') →
  same_config s s' ∧ authInUse s' = authInUse s - 1 ∧
  match res with
  | Err e => (e = unauthorized ∨ ∃ n, e = rateLimited n)
  | Ok record =>
    (parseBearer (Authorization r)).2 = true ∧
    AuthenticateToken (store s) (parseBearer (Authorization r)).1 scope usedAt = (Ok record, store s')
  end ∧
  (store s' = store s ∨ ∃ record,
     AuthenticateToken (store s) (parseBearer (Authorization r)).1 scope usedAt = (Ok record, store s')).
Proof.
  unfold authLeave. destruct (parseBearer _) as [raw []] eqn:Hb; simpl.
  2: { intros [= <- <-]. split; [done|]. split; [done|]. split; by left. }
  destruct (AuthenticateToken (store s) raw scope usedAt) as [[record|e] db] eqn:Ha.
  - destruct (Allow _ _ _ _) as [[[] d1] l1]; simpl; intros [= <- <-].
    + split; [done|]. split; [done|]. split; [done|]. right. by exists record.
    + split; [done|]. split; [done|]. split; [right; by eexists|]. right. by exists record.
  - intros [= <- <-]. split; [done|]. split; [done|]. split; [by left|]. left. simpl.
    unfold AuthenticateToken in Ha. destruct (_ || _); [by injection Ha|].
    destruct (compareAll _ _) as [n m]. destruct (negb (n =? 1)); [by injection Ha|].
    destruct m as [[]|]; [done|by injection Ha].
Qed.

(** ** Concurrent requests *)

Record System := mkSystem {
  server : Server;
  holding : gmap Z (Request * TokenScope * Z)   (* requests between the two halves *)
}.

(** One atomic step of some request.  The limiter's mutex, the channel and the
    store's single connection make each of them atomic. *)
Inductive sysStep : System → System → Prop :=
| StepEnter sys id r scope limit now s' :
    holding sys !! id = None →
    authEnter (server sys) r scope now = (Ok tt, s') →
    sysStep sys (mkSystem s' (<[id := (r, scope, limit)]> (holding sys)))
| StepRefuse sys r scope now e s' :
    authEnter (server sys) r scope now = (Err e, s') →
    sysStep sys (mkSystem s' (holding sys))
| StepLeave sys id r scope limit usedAt now res s' :
    holding sys !! id = Some (r, scope, limit) →
    authLeave (server sys) r scope limit usedAt now = (res, s') →
    sysStep sys (mkSystem s' (delete id (holding sys)))
| StepReport sys report now :
    sysStep sys (mkSystem (setStore (server sys) (ReplaceAgentReport (store (server sys)) report now).2) (holding sys))
| StepHealth sys now ping :
    sysStep sys (mkSystem (handleHealth (server sys) now ping).2 (holding sys)).

Definition slots_ok (sys : System) : Prop :=
  authInUse (server sys) = Z.of_nat (size (holding sys)) ∧
  authInUse (server sys) <= authCapacity (server sys).

Lemma sysStep_slots sys sys' :
  sysStep sys sys' → slots_ok sys →
  slots_ok sys' ∧ authCapacity (server sys') = authCapacity (server sys).
Proof.
  intros Hstep [Hin Hcap]. unfold slots_ok.
  destruct Hstep as [sys id r scope limit now s' Hid H|sys r scope now e s' H|sys id r scope limit usedAt now res s' Hid H
    |sys report now|sys now ping]; simpl.
  - apply authEnter_cases in H as ((_ & _ & _ & _ & _ & _ & Hc) & _ & [(_ & Hlt & ->)|(n & [=] & _)]).
    rewrite map_size_insert_None by done. rewrite Hc. lia.
  - apply authEnter_cases in H as ((_ & _ & _ & _ & _ & _ & Hc) & _ & [([=] & _)|(n & _ & ->)]).
    rewrite Hc. lia.
  - apply authLeave_cases in H as ((_ & _ & _ & _ & _ & _ & Hc) & -> & _ & _). rewrite Hc.
    rewrite map_size_delete, Hid.
    assert (size (holding sys) ≠ 0%nat) by (intros Hz%map_size_empty_inv; by rewrite Hz, lookup_empty in Hid).
    lia.
  - done.
  - unfold handleHealth. destruct (_ || _); done.
Qed.

Lemma orDefault_pos v d : 0 < d → 0 < orDefault v d.
Proof. unfold orDefault. destruct (Z.leb_spec v 0); lia. Qed.

(** Under any interleaving of requests, reports and health checks, the
    requests between entering and leaving [authenticate] never exceed the
    configured capacity, and every slot is given back: the slots in use are
    exactly the requests that hold one. *)
Theorem Auth_slots_bounded (cfg : Config) (db : DB) (files : Dir) (sys : System)
    (Hrun : rtc sysStep (mkSystem (New cfg db files) ∅) sys) :
  authInUse (server sys) = Z.of_nat (size (holding sys)) ∧
  Z.of_nat (size (holding sys)) <= orDefault (cfg_ConcurrentAuth cfg) 8 ∧
  authCapacity (server sys) = orDefault (cfg_ConcurrentAuth cfg) 8.
Proof.
  assert (H : slots_ok sys ∧ authCapacity (server sys) = orDefault (cfg_ConcurrentAuth cfg) 8).
  { revert Hrun. apply (rtc_ind_r (λ sys, slots_ok sys ∧ authCapacity (server sys) = orDefault (cfg_ConcurrentAuth cfg) 8)).
    - split; [|done]. split; [done|]. simpl. pose proof (orDefault_pos (cfg_ConcurrentAuth cfg) 8). 
      unfold defaultConcurrentAuth. lia.
    - intros y z _ Hstep [Hok Hc]. destruct (sysStep_slots y z Hstep Hok) as [? E]. split; [done|]. by rewrite E. }
  destruct H as [[H1 H2] H3]. split_and!; [done|lia|done].
Qed.

(** ** Sequential requests *)

Lemma authenticate_cases s r scope limit c res s' :
  authenticate s r scope limit c = (res, s') →
  same_config s s' ∧ authInUse s' = authInUse s ∧
  (store s' = store s ∨ ∃ record,
     AuthenticateToken (store s) (parseBearer (Authorization r)).1 scope (atUse c) = (Ok record, store s')) ∧
  match res with
  | Err e => e = unauthorized ∨ ∃ n, e = rateLimited n
  | Ok record =>
    (parseBearer (Authorization r)).2 = true ∧
    AuthenticateToken (store s) (parseBearer (Authorization r)).1 scope (atUse c) = (Ok record, store s')
  end.
Proof.
  unfold authenticate. destruct (authEnter s r scope (atEnter c)) as [[[]|e] s1] eqn:E1.
  - apply authEnter_cases in E1 as (Hc1 & Hs1 & [(_ & _ & Hi1)|(n & [=] & _)]).
    intros E2. apply authLeave_cases in E2 as (Hc2 & Hi2 & Hres & Hst). rewrite Hs1 in *.
    split; [|split; [lia|done]].
    destruct Hc1 as (?&?&?&?&?&?&?), Hc2 as (?&?&?&?&?&?&?). split_and!; congruence.
  - intros [= <- <-]. apply authEnter_cases in E1 as (Hc1 & Hs1 & [([=] & _)|(n & [= ->] & Hi1)]).
    split; [done|]. split; [done|]. split; [by left|]. right. by exists n.
Qed.

(** Only the token table can differ after authentication. *)
Definition same_data (db db' : DB) : Prop :=
  agents db' = agents db ∧ provider_reports db' = provider_reports db ∧ active_tasks db' = active_tasks db.

Lemma AuthenticateToken_data db raw scope now res db' :
  AuthenticateToken db raw scope now = (res, db') → same_data db db'.
Proof.
  unfold AuthenticateToken. destruct (_ || _); [by intros [= <- <-]|].
  destruct (compareAll _ _) as [n m]. destruct (negb _); [by intros [= <- <-]|].
  destruct m as [[id r]|]; by intros [= <- <-].
Qed.

Lemma authenticate_data s r scope limit c res s' :
  authenticate s r scope limit c = (res, s') → same_data (store s) (store s').
Proof.
  intros (_ & _ & [->|(record & H)] & _)%authenticate_cases; [done|]. by eapply AuthenticateToken_data.
Qed.

(** The identity behind an authenticated request. *)
Definition presents (s : Server) (r : Request) (scope : TokenScope) (id : string) (row : tokenRow) : Prop :=
  ∃ raw, parseBearer (Authorization r) = (raw, true) ∧ bearer (store s) raw scope id row.

Lemma authenticate_presents s r scope limit c record s' :
  db_ok (store s) → authenticate s r scope limit c = (Ok record, s') →
  db_ok (store s') ∧
  ∃ row, presents s r scope (tr_ID record) row ∧ tr_AgentID record = default "" (tk_agent_id row).
Proof.
  intros Hok (_ & _ & _ & Hb & Ha)%authenticate_cases.
  destruct (parseBearer (Authorization r)) as [raw b] eqn:Hp. simpl in *. subst b.
  destruct (AuthenticateToken_cases (store s) raw scope (atUse c) Hok) as [(id & row & Hbr & E)|[_ E]];
    rewrite E in Ha; [|done]. injection Ha as <- <-. split; [by apply useToken_ok|].
  exists row. split; [|done]. by exists raw.
Qed.

Lemma agent_token_bound s r id row :
  db_ok (store s) → presents s r ScopeAgentWrite id row → ∃ a, tk_agent_id row = Some a ∧ a ≠ "".
Proof.
  intros Hok (raw & _ & _ & _ & Hr & Hs & _). apply (ok_check _ Hok) in Hr as [_ [[_ H]|[Hr _]]]; [exact H|].
  by rewrite Hs in Hr.
Qed.

Lemma report_isolated (s s' : Server) (r : Request) (c : Clock) (resp : Response)
    (Hok : db_ok (store s)) (Hrun : handleAgentReport s r c = (resp, s')) :
  (Status resp = 204 →
     ∃ report id row, Body r = Ok report ∧ presents s r ScopeAgentWrite id row ∧
       tk_agent_id row = Some (ar_AgentID report) ∧ report_ok report (atHandle c) ∧
       storable (store s) report ∧
       same_data (reported (store s) report (atHandle c)) (store s')) ∧
  (Status resp ≠ 204 → same_data (store s) (store s')) ∧
  authInUse s' = authInUse s ∧ db_ok (store s').
Proof.
  unfold handleAgentReport in Hrun.
  destruct (authenticate s r ScopeAgentWrite (agentRateLimit s) c) as [[record|e] s1] eqn:Ha.
  2: { injection Hrun as <- <-. pose proof (authenticate_data _ _ _ _ _ _ _ Ha) as Hd.
       apply authenticate_cases in Ha as (_ & Hi & Hst & He).
       split; [destruct He as [->|(n & ->)]; intros [=]|]. split; [done|]. split; [done|].
       destruct Hst as [->|(record & Hrec)]; [done|].
       destruct (AuthenticateToken_cases (store s) (parseBearer (Authorization r)).1 ScopeAgentWrite (atUse c) Hok)
         as [(id & row & _ & E)|[_ E]]; rewrite E in Hrec; [|done]. injection Hrec as _ <-. by apply useToken_ok. }
  pose proof (authenticate_data _ _ _ _ _ _ _ Ha) as Hd.
  pose proof (authenticate_presents _ _ _ _ _ _ _ Hok Ha) as (Hok1 & row & Hp & Hag).
  apply authenticate_cases in Ha as (_ & Hi & _).
  destruct (Body r) as [report|e] eqn:Hbody.
  2: { destruct e; injection Hrun as <- <-; (split; [intros [=]|done]). }
  case_bool_decide as Hid; simpl in Hrun; [|injection Hrun as <- <-; split; [intros [=]|done]].
  destruct (ValidateAgentReport report (atHandle c)) as [[]|ve] eqn:Hv;
    [|injection Hrun as <- <-; split; [intros [=]|done]].
  destruct (ReplaceAgentReport_cases (store s1) report (atHandle c)) as [[Hs E]|(Hs & e & E & _)]; rewrite E in Hrun.
  - injection Hrun as <- <-. split; [intros _|split; [intros []; done|split; [done|]]].
    + exists report, (tr_ID record), row. split; [done|]. split; [done|]. split; [|split; [by apply validate_report_ok|]].
      * destruct (agent_token_bound s r _ row Hok Hp) as (a & Hrow & _). rewrite Hrow in *. simpl in Hag. congruence.
      * destruct Hd as (Hda & Hdp & Hdt). destruct Hs as [Hn Hc]. split.
        -- split; [|done]. unfold newer in *. by rewrite Hda in Hn.
        -- unfold same_data, reported. simpl. by rewrite Hda, Hdp, Hdt.
    + simpl. apply reported_ok; [done|]. by destruct Hs.
  - destruct e; injection Hrun as <- <-; (split; [intros [=]|done]).
Qed.

Lemma handleAgentReport_payload s r c : Payload (handleAgentReport s r c).1 = NoPayload.
Proof.
  unfold handleAgentReport. destruct (authenticate _ _ _ _ _) as [[record|e] s1] eqn:Ha.
  - repeat case_match; done.
  - apply authenticate_cases in Ha as (_ & _ & _ & [->|(n & ->)]); done.
Qed.

(** C2. [handleAgentReport] answers 204 only to a request whose bearer value
    is an unrevoked agent token bound to the very agent the report names, for
    a report that satisfies the specification and is newer than the stored
    one; then that agent's rows become the report's.  With any other answer
    no agent, provider or task row changes. *)
Theorem handleAgentReport_isolated (s s' : Server) (r : Request) (c : Clock) (resp : Response)
    (Hok : db_ok (store s)) (Hrun : handleAgentReport s r c = (resp, s')) :
  (Status resp = 204 →
     ∃ report id row, Body r = Ok report ∧ presents s r ScopeAgentWrite id row ∧
       tk_agent_id row = Some (ar_AgentID report) ∧ report_ok report (atHandle c) ∧
       storable (store s) report ∧
       same_data (reported (store s) report (atHandle c)) (store s')) ∧
  (Status resp ≠ 204 → same_data (store s) (store s')) ∧
  authInUse s' = authInUse s ∧ db_ok (store s').
Proof. by apply (report_isolated s s' r c resp). Qed.

(** C13. No route leaks data without a display token: a response that carries
    the snapshot, the manifest or an image answers a request whose bearer
    value is an unrevoked display token, and the bytes of an image are the
    ones the published manifest promises.  No route keeps a slot, and only a
    204 changes an agent's rows. *)
Theorem ServeHTTP_guarded (s s' : Server) (r : Request) (env : Around) (resp : Response)
    (Hok : db_ok (store s)) (Hrun : ServeHTTP s r env = (resp, s')) :
  match Payload resp with
  | NoPayload | HealthPayload => True
  | SnapshotPayload _ | ManifestPayload _ => ∃ id row, presents s r ScopeDisplayRead id row
  | ImagePayload bytes m => (∃ id row, presents s r ScopeDisplayRead id row) ∧
      hex_encode (Sum256 bytes) = mf_SHA256 m ∧ len bytes = mf_SizeBytes m
  end ∧
  authInUse s' = authInUse s ∧ (Status resp ≠ 204 → same_data (store s) (store s')).
Proof.
  unfold ServeHTTP in Hrun. destruct (PathUnescape (Path r)) as [path|]; [|by injection Hrun as <- <-].
  destruct (_ || _); [by injection Hrun as <- <-|].
  destruct (muxTarget (Method r) (Path r)) as [| |segments]; [by injection Hrun as <- <-..|].
  assert (Hread : ∀ limit res s1, authenticate s r ScopeDisplayRead limit (clock env) = (res, s1) →
            same_data (store s) (store s1) ∧ authInUse s1 = authInUse s ∧
            match res with
            | Err e => Payload e = NoPayload
            | Ok _ => ∃ id row, presents s r ScopeDisplayRead id row
            end).
  { intros limit res s1 Ha. pose proof (authenticate_data _ _ _ _ _ _ _ Ha) as Hd.
    destruct res as [record|e].
    - pose proof (authenticate_presents _ _ _ _ _ _ _ Hok Ha) as (_ & row & Hp & _).
      apply authenticate_cases in Ha as (_ & Hi & _). split; [done|]. split; [done|]. by eexists _, _.
    - apply authenticate_cases in Ha as (_ & Hi & _ & He). split; [done|]. split; [done|].
      by destruct He as [->|(n & ->)]. }
  destruct (route (Method r) segments) as [| | | |file| |]; try (by injection Hrun as <- <-).
  - unfold handleHealth in Hrun. injection Hrun as <- <-.
    destruct (IsZero _ || _ || _); simpl; [destruct (ping env)|destruct (healthErr s)]; done.
  - pose proof (handleAgentReport_payload s r (clock env)) as Hp. rewrite Hrun in Hp. simpl in Hp. rewrite Hp.
    apply report_isolated in Hrun as (_ & Hd & Hi & _); [|done]. done.
  - unfold handleDisplaySnapshot in Hrun. destruct (authenticate _ _ _ _ _) as [res s1] eqn:Ha.
    apply Hread in Ha as (Hd & Hi & Hres). destruct res as [record|e]; injection Hrun as <- <-; [done|].
    by rewrite Hres.
  - unfold handleFirmwareManifest in Hrun. destruct (authenticate _ _ _ _ _) as [res s1] eqn:Ha.
    apply Hread in Ha as (Hd & Hi & Hres).
    destruct res as [record|e]; [|injection Hrun as <- <-; by rewrite Hres].
    destruct (LoadManifest _ _) as [m|e]; injection Hrun as <- <-; [done|]. split; [by destruct e|done].
  - unfold handleFirmwareDownload in Hrun. destruct (authenticate _ _ _ _ _) as [res s1] eqn:Ha.
    apply Hread in Ha as (Hd & Hi & Hres).
    destruct res as [record|e]; [|injection Hrun as <- <-; by rewrite Hres].
    destruct (trimBin file) as [version|]; [|by injection Hrun as <- <-].
    destruct (negb _); [by injection Hrun as <- <-|].
    destruct (OpenVerifiedImage _ _ _ _) as [[bytes m]|e] eqn:Ho; injection Hrun as <- <-;
      [|split; [by destruct e|done]].
    split; [|done]. apply opened_image in Ho as (? & ? & ?). done.
Qed.

(** ** The first request of a fresh server *)

Lemma prune_absent l now k : entries l !! k = None → entries (prune l now) !! k = None.
Proof.
  intros Hk. unfold prune. destruct (_ <? _); [done|]. simpl. apply map_lookup_filter_None. by left.
Qed.

Lemma Allow_absent l key now limit :
  entries l !! key = None →
  (Allow l key now limit).1 = (true, 0) ∧
  ∀ k, k ≠ key → entries l !! k = None → entries (Allow l key now limit).2 !! k = None.
Proof.
  intros Hn. unfold Allow. rewrite Hn. split; [done|]. intros k Hk Hkn. simpl.
  apply prune_absent. simpl. by rewrite lookup_insert_ne.
Qed.

Lemma authenticate_fresh s r scope limit c raw record db :
  entries (limiter s) = ∅ → authInUse s = 0 → 0 < authCapacity s →
  (scope = ScopeAgentWrite ∨ scope = ScopeDisplayRead) →
  parseBearer (Authorization r) = (raw, true) →
  AuthenticateToken (store s) raw scope (atUse c) = (Ok record, db) →
  ∃ s', authenticate s r scope limit c = (Ok record, s') ∧ store s' = db.
Proof.
  intros Hl Hu Hcap Hscope Hb Ha. unfold authenticate, authEnter, authLeave.
  assert (Hne : attemptKey r scope ≠ "auth:global" ∧ (scope +:+ ":" +:+ tr_ID record ≠ "auth:global") ∧
                scope +:+ ":" +:+ tr_ID record ≠ attemptKey r scope).
  { unfold attemptKey. destruct Hscope as [-> | ->]; (split; [done|split; done]). }
  destruct Hne as (Hne1 & Hne2 & Hne3).
  destruct (Allow_absent (limiter s) "auth:global" (atEnter c) (globalAuthRateLimit s)) as [H1 K1]; [by rewrite Hl|].
  destruct (Allow (limiter s) "auth:global" _ _) as [[a1 d1] l1]. simpl in H1, K1. injection H1 as -> ->. simpl.
  assert (Hl1 : ∀ k, k ≠ "auth:global" → entries l1 !! k = None) by (intros k Hk; apply K1; [done|by rewrite Hl]).
  destruct (Allow_absent l1 (attemptKey r scope) (atEnter c) (authRateLimit s)) as [H2 K2]; [by apply Hl1|].
  destruct (Allow l1 _ _ _) as [[a2 d2] l2]. simpl in H2, K2. injection H2 as -> ->. simpl.
  rewrite (proj2 (Z.ltb_lt _ _)) by lia. simpl. rewrite Hb. simpl. rewrite Ha.
  destruct (Allow_absent l2 (scope +:+ ":" +:+ tr_ID record) (atLimit c) limit) as [H3 _].
  { apply K2; [done|]. by apply Hl1. }
  destruct (Allow l2 _ _ _) as [[a3 d3] l3]. simpl in H3. injection H3 as -> ->. simpl. by eexists.
Qed.

Lemma handleAgentReport_accepts s r c record s1 report :
  authenticate s r ScopeAgentWrite (agentRateLimit s) c = (Ok record, s1) →
  Body r = Ok report → tr_AgentID record = ar_AgentID report →
  ValidateAgentReport report (atHandle c) = Ok tt → storable (store s1) report →
  handleAgentReport s r c = (noContent, setStore s1 (reported (store s1) report (atHandle c))).
Proof.
  intros Ha Hb Hid Hv Hs. unfold handleAgentReport. rewrite Ha, Hb, Hid, bool_decide_true, Hv by done. simpl.
  by destruct (ReplaceAgentReport_cases (store s1) report (atHandle c)) as [[_ ->]|[? _]].
Qed.

Definition reportPath : string := "/api/v1/agent/report".

Lemma ServeHTTP_report s header peer body env :
  ServeHTTP s (mkRequest "POST" reportPath header peer body) env =
  handleAgentReport s (mkRequest "POST" reportPath header peer body) (clock env).
Proof.
  unfold ServeHTTP. cbn [Path Method].
  assert (PathUnescape reportPath = Some reportPath) as -> by (vm_compute; reflexivity).
  assert (bool_decide (reportPath = "") || negb (bool_decide (Clean reportPath = reportPath)) = false) as ->
    by (vm_compute; reflexivity).
  assert (muxTarget "POST" reportPath = MuxSegments ["api"; "v1"; "agent"; "report"]) as -> by (vm_compute; reflexivity).
  done.
Qed.

Definition snapshotPath : string := "/api/v1/display/snapshot".

(** The snapshot does not depend on the tokens. *)
Lemma BuildDisplaySnapshot_data d d' now : same_data d d' → BuildDisplaySnapshot d' now = BuildDisplaySnapshot d now.
Proof.
  intros (Ha & Hr & Ht). destruct d as [t a r k], d' as [t' a' r' k']. cbn in *. by subst.
Qed.

(** On a server just started, a token of the display gets the snapshot. *)
Lemma fresh_display cfg d files raw id row peer body env :
  db_ok d → parseBearer ("Bearer " +:+ raw) = (raw, true) → bearer d raw ScopeDisplayRead id row →
  ∃ s', ServeHTTP (New cfg d files) (mkRequest "GET" snapshotPath ("Bearer " +:+ raw) peer body) env =
    (writeJSON (SnapshotPayload (BuildDisplaySnapshot d (atHandle (clock env)))), s').
Proof.
  intros Hok Hp Hb.
  destruct (AuthenticateToken_cases d raw ScopeDisplayRead (atUse (clock env)) Hok)
    as [(id' & row' & _ & Hauth)|[Hno _]]; [|by destruct (Hno _ _ Hb)].
  assert (Hcap : 0 < authCapacity (New cfg d files)) by by apply orDefault_pos.
  set (r := mkRequest "GET" snapshotPath ("Bearer " +:+ raw) peer body).
  destruct (authenticate_fresh (New cfg d files) r ScopeDisplayRead (displayRateLimit (New cfg d files))
              (clock env) raw _ _ eq_refl eq_refl Hcap (or_intror eq_refl) Hp Hauth) as (s1 & Ha & Hs1).
  exists s1. unfold ServeHTTP. cbn [Path Method r].
  assert (PathUnescape snapshotPath = Some snapshotPath) as -> by (vm_compute; reflexivity).
  assert (bool_decide (snapshotPath = "") || negb (bool_decide (Clean snapshotPath = snapshotPath)) = false) as ->
    by (vm_compute; reflexivity).
  assert (muxTarget "GET" snapshotPath = MuxSegments ["api"; "v1"; "display"; "snapshot"]) as -> by (vm_compute; reflexivity).
  change (route "GET" ["api"; "v1"; "display"; "snapshot"]) with RSnapshot.
  unfold handleDisplaySnapshot. rewrite Ha.
  rewrite (BuildDisplaySnapshot_data d (store s1)); [reflexivity|]. rewrite Hs1. exact (AuthenticateToken_data _ _ _ _ _ _ Hauth).
Qed.

Lemma created_token_reports (cfg : Config) (db db' : DB) (files : Dir) (req : CreateTokenRequest)
    (secret idBytes : option (list Z)) (created : Time) (ct : CreatedToken) (report : AgentReport)
    (peer : string) (env : Around)
    (Hok : db_ok db) (Hsecret : length (default [] secret) = 32%nat)
    (Hcreate : CreateToken db req secret idBytes created = Ok (ct, db'))
    (Hscope : rq_Scope req = ScopeAgentWrite)
    (Hagent : ar_AgentID report = TrimSpace (rq_AgentID req))
    (Hvalid : ValidateAgentReport report (atHandle (clock env)) = Ok tt)
    (Hstorable : storable db report) :
  let r := mkRequest "POST" reportPath ("Bearer " +:+ ct_RawToken ct) peer (Ok report) in
  ∃ s', ServeHTTP (New cfg db' files) r env = (noContent, s') ∧
        same_data (reported db report (atHandle (clock env))) (store s').
Proof.
  intros r. pose proof (CreateToken_ok _ _ _ _ _ _ _ Hok Hcreate) as Hok'.
  destruct (CreateToken_bearer _ _ _ _ _ _ _ Hsecret Hcreate) as (row & Hb & Hrow).
  pose proof Hcreate as Hc. apply CreateToken_Ok in Hc as (sb & ib & -> & _ & Hraw & Hrec & _ & Hins).
  apply insertToken_Some in Hins as (_ & _ & _ & Hdb).
  assert (Hparse : parseBearer (Authorization r) = (ct_RawToken ct, true)).
  { unfold r. simpl. rewrite Hraw. by apply rawToken_header. }
  destruct (AuthenticateToken_cases db' (ct_RawToken ct) ScopeAgentWrite (atUse (clock env)) Hok')
    as [(id & row' & Hb' & Hauth)|[Hno _]]; [|rewrite Hscope in Hb; by destruct (Hno _ _ Hb)].
  assert (Hcap : 0 < authCapacity (New cfg db' files)) by by apply orDefault_pos.
  destruct (authenticate_fresh (New cfg db' files) r ScopeAgentWrite (agentRateLimit (New cfg db' files))
              (clock env) (ct_RawToken ct) _ _ eq_refl eq_refl Hcap (or_introl eq_refl) Hparse Hauth) as (s1 & Ha & Hs1).
  assert (Hrow' : row' = row).
  { destruct Hb as (_ & _ & Hr & _ & _ & Hd), Hb' as (_ & _ & Hr' & _ & _ & Hd').
    assert (id = tr_ID (ct_Record ct)) as -> by (apply (ok_unique _ Hok' _ _ row' row); congruence). congruence. }
  subst row'. destruct Hstorable as [Hn Hcont]. unfold r. rewrite ServeHTTP_report. fold r.
  generalize dependent (New cfg db' files). intros s0 _ Ha.
  eexists. split.
  - eapply handleAgentReport_accepts; [exact Ha|done| |done|].
    + simpl. rewrite Hrow, Hagent. case_bool_decide as E; [by rewrite E|done].
    + split; [|done]. unfold newer in *. by rewrite Hs1, Hdb.
  - simpl. by rewrite Hs1, Hdb.
Qed.

(** The whole path: on a server just started over a database in which an
    agent token was just created, a request that carries the raw token as a
    bearer value and a valid report of that agent, newer than its stored one,
    is answered 204, and the agent's rows are then the report's. *)
Theorem Created_token_can_report (cfg : Config) (db db' : DB) (files : Dir) (req : CreateTokenRequest)
    (secret idBytes : option (list Z)) (created : Time) (ct : CreatedToken) (report : AgentReport)
    (peer : string) (env : Around)
    (Hok : db_ok db) (Hsecret : length (default [] secret) = 32%nat)
    (Hcreate : CreateToken db req secret idBytes created = Ok (ct, db'))
    (Hscope : rq_Scope req = ScopeAgentWrite)
    (Hagent : ar_AgentID report = TrimSpace (rq_AgentID req))
    (Hvalid : ValidateAgentReport report (atHandle (clock env)) = Ok tt)
    (Hstorable : storable db report) :
  let r := mkRequest "POST" reportPath ("Bearer " +:+ ct_RawToken ct) peer (Ok report) in
  ∃ s', ServeHTTP (New cfg db' files) r env = (noContent, s') ∧
        same_data (reported db report (atHandle (clock env))) (store s').
Proof. by apply (created_token_reports cfg db db' files req secret idBytes created). Qed.

Lemma Created_token_can_report_witness :
  let t := 1700000000 * Second in
  let env := mkAround (mkClock t t t t) true (λ _, false) in
  match CreateToken emptyDB (mkCreateTokenRequest ScopeAgentWrite " mac-1 " "laptop") (Some demo_secret) (Some demo_id) t with
  | Ok (ct, db) =>
    (ServeHTTP (New (mkConfig 0 0 0 0 0 "") db ∅)
       (mkRequest "POST" reportPath ("Bearer " +:+ ct_RawToken ct) "10.0.0.1:999"
          (Ok (demo_report "mac-1" t))) env).1 = noContent
  | Err _ => False
  end.
Proof.
  intros t env.
  destruct (CreateToken emptyDB (mkCreateTokenRequest ScopeAgentWrite " mac-1 " "laptop")
              (Some demo_secret) (Some demo_id) t) as [[ct db]|e] eqn:E; [|vm_compute in E; discriminate E].
  assert (Hst : storable emptyDB (demo_report "mac-1" t)) by (apply (bool_decide_unpack _); vm_compute; exact I).
  assert (Hv : ValidateAgentReport (demo_report "mac-1" t) (atHandle (clock env)) = Ok tt) by (vm_compute; reflexivity).
  assert (Hag : ar_AgentID (demo_report "mac-1" t) = TrimSpace (rq_AgentID (mkCreateTokenRequest ScopeAgentWrite " mac-1 " "laptop")))
    by (vm_compute; reflexivity).
  pose proof (Created_token_can_report (mkConfig 0 0 0 0 0 "") emptyDB db ∅
    (mkCreateTokenRequest ScopeAgentWrite " mac-1 " "laptop") (Some demo_secret) (Some demo_id) t ct
    (demo_report "mac-1" t) "10.0.0.1:999" env emptyDB_ok eq_refl E eq_refl Hag Hv Hst) as H.
  destruct H as (s' & H & _). cbv zeta in H. rewrite H. reflexivity.
Defined.

(** ** The health check *)

(** Whether the database is asked, and how often over a sequence of checks. *)
Definition asks (s : Server) (now : Time) : bool :=
  IsZero (healthCheckedAt s) || (Second <=? Sub now (healthCheckedAt s)) || Before now (healthCheckedAt s).
Fixpoint pings (s : Server) (ts : list (Time * bool)) : Z :=
  match ts with
  | [] => 0
  | (t, answer) :: ts => (if asks s t then 1 else 0) + pings (handleHealth s t answer).2 ts
  end.
Fixpoint between (t T : Time) (ts : list (Time * bool)) : Prop :=
  match ts with [] => t <= T | (u, _) :: ts => t <= u ∧ between u T ts end.

Lemma between_le t T ts : between t T ts → t <= T.
Proof. revert t. induction ts as [|[u b] ts IH]; intros t; simpl; [done|]. intros [? ?%IH]. lia. Qed.

Lemma handleHealth_checked s t answer :
  healthCheckedAt (handleHealth s t answer).2 = if asks s t then t else healthCheckedAt s.
Proof. unfold handleHealth. fold (asks s t). by destruct (asks s t). Qed.

Lemma pings_bound ts : ∀ s T,
  zeroTime < healthCheckedAt s → between (healthCheckedAt s) T ts →
  pings s ts * Second <= T - healthCheckedAt s.
Proof.
  induction ts as [|[t answer] ts IH]; intros s T Hz; cbn [pings between]; [lia|]. intros [Ht Hb].
  specialize (IH (handleHealth s t answer).2 T). rewrite handleHealth_checked in IH.
  destruct (asks s t) eqn:E.
  - assert (Second <= t - healthCheckedAt s).
    { unfold asks in E. apply orb_true_iff in E as [[E|E]%orb_true_iff|E]; time_simpl; [lia| |lia].
      apply Z.leb_le in E. by apply Sub_ge in E. }
    specialize (IH ltac:(lia) Hb). unfold Second in *. lia.
  - assert (Hb' : between (healthCheckedAt s) T ts).
    { destruct ts as [|[u b] ts]; simpl in *; [lia|]. split; [lia|apply Hb]. }
    specialize (IH Hz Hb'). unfold Second in *. lia.
Qed.

(** However often [/healthz] is polled, the database is asked at most once
    per second: over checks that start at [t] and end by [T], at most
    (T - t) / 1s + 1 times. *)
Theorem Health_ping_bound (s : Server) (t T : Time) (answer : bool) (ts : list (Time * bool))
    (Hs : healthCheckedAt s = zeroTime) (Ht : zeroTime < t) (Hts : between t T ts) :
  pings s ((t, answer) :: ts) <= (T - t) / Second + 1.
Proof.
  cbn [pings]. assert (asks s t = true) as -> by (unfold asks; by rewrite Hs).
  pose proof (pings_bound ts (handleHealth s t answer).2 T) as H. rewrite handleHealth_checked in H.
  assert (asks s t = true) as E by (unfold asks; by rewrite Hs). rewrite E in H.
  specialize (H Ht Hts). pose proof (Z.div_le_lower_bound (T - t) Second _ ltac:(done) ltac:(rewrite Z.mul_comm; exact H)). lia.
Qed.

Lemma Health_ping_bound_witness :
  pings (New (mkConfig 0 0 0 0 0 "") emptyDB ∅)
    ((0, true) :: [(Second / 2, true); (Second, false); (Second + 1, true); (2 * Second, true)]) <= 3.
Proof.
  apply (Health_ping_bound _ 0 (2 * Second) true); [reflexivity|reflexivity|].
  vm_compute. repeat split; discriminate.
Defined.

(** ** Witnesses *)

Definition demo_server : Server := New (mkConfig 0 0 0 0 0 "/srv/fw") demo_db demo_dir.
Definition demo_clock : Clock := mkClock 2000 2000 2000 (1700000000 * Second).
Definition demo_request : Request :=
  mkRequest "POST" reportPath ("Bearer " +:+ demo_raw) "10.0.0.1:999" (Ok (demo_report "mac-1" (1700000000 * Second))).

Lemma Auth_slots_bounded_witness :
  ∃ sys, rtc sysStep (mkSystem demo_server ∅) sys ∧ authInUse (server sys) = 1 ∧
         Z.of_nat (size (holding sys)) <= 8.
Proof.
  set (s1 := (authEnter demo_server demo_request ScopeAgentWrite 2000).2).
  set (sys := mkSystem s1 (<[7 := (demo_request, ScopeAgentWrite, 120)]> ∅)).
  assert (Hstep : sysStep (mkSystem demo_server ∅) sys).
  { apply (StepEnter (mkSystem demo_server ∅) 7 demo_request ScopeAgentWrite 120 2000 s1); [reflexivity|].
    assert (H : (authEnter demo_server demo_request ScopeAgentWrite 2000).1 = Ok tt) by (vm_compute; reflexivity).
    unfold s1. simpl server. destruct (authEnter _ _ _ _) as [res s']. simpl in *. by subst res. }
  exists sys. assert (Hr : rtc sysStep (mkSystem demo_server ∅) sys) by (by apply rtc_once).
  split; [exact Hr|]. split; [vm_compute; reflexivity|].
  destruct (Auth_slots_bounded (mkConfig 0 0 0 0 0 "/srv/fw") demo_db demo_dir sys Hr) as (_ & H & _).
  exact H.
Defined.

Lemma handleAgentReport_isolated_witness :
  ∃ report, Body demo_request = Ok report ∧ report_ok report (1700000000 * Second) ∧
    Status (handleAgentReport demo_server demo_request demo_clock).1 = 204.
Proof.
  assert (H204 : Status (handleAgentReport demo_server demo_request demo_clock).1 = 204) by (vm_compute; reflexivity).
  destruct (handleAgentReport demo_server demo_request demo_clock) as [resp s'] eqn:E. cbn [fst] in *.
  destruct (handleAgentReport_isolated demo_server s' demo_request demo_clock resp demo_db_ok E) as [H _].
  destruct (H H204) as (report & _ & _ & Hb & _ & _ & Hr & _).
  exists report. split; [exact Hb|]. split; [exact Hr|exact H204].
Defined.

Definition demo_display : DB :=
  match CreateToken demo_db (mkCreateTokenRequest ScopeDisplayRead "" "desk")
          (Some (seqZ 50 32)) (Some (seqZ 30 12)) 1000 with
  | Ok (_, db) => db
  | Err _ => demo_db
  end.

Lemma demo_display_ok : db_ok demo_display.
Proof.
  unfold demo_display. destruct (CreateToken demo_db _ _ _ _) as [[ct db]|e] eqn:E; [|apply demo_db_ok].
  eapply CreateToken_ok; [apply demo_db_ok|exact E].
Qed.

Lemma ServeHTTP_guarded_witness :
  let s := New (mkConfig 0 0 0 0 0 "/srv/fw") demo_display demo_dir in
  let r := mkRequest "GET" "/api/v1/display/firmware/e32r28t/1.2.3.bin"
             ("bearer  qmon_" +:+ b64_encode (seqZ 50 32)) "[::1]:80" (Err BodyInvalid) in
  ∃ id row, presents s r ScopeDisplayRead id row.
Proof.
  intros s r. set (env := mkAround demo_clock true (λ _, false)).
  destruct (ServeHTTP s r env) as [resp s'] eqn:E.
  pose proof (ServeHTTP_guarded s s' r env resp demo_display_ok E) as [H _].
  assert (Hp : match Payload (ServeHTTP s r env).1 with ImagePayload _ _ => true | _ => false end = true)
    by (vm_compute; reflexivity).
  rewrite E in Hp. cbn [fst] in Hp. destruct (Payload resp); try discriminate Hp. exact (proj1 H).
Defined.
