(* ===== verification/Codex.v ===== *)
(** * internal/collector: the Codex collector's decisions

    [codex.go]: how the answers of the local app-server become a provider
    report, and when a rejected access token makes [Collect] force one
    refresh.  The child process and its pipes are the answers [Attempt] an
    attempt gets; JSON decoding of those answers is not modelled. *)

From S2P Require Import Prelude GoTime GoText GoFloat Json Model.

Definition FiveHourMinutes : Z := 300.
Definition SevenDayMinutes : Z := 10080.

Record rateLimitWindow := mkRateLimitWindow {
  rw_UsedPercent : float64;
  rw_WindowDurationMin : option Z;
  rw_ResetsAt : option Z
}.

Record rateLimitSnapshot := mkRateLimitSnapshot {
  rs_LimitID : option string;
  rs_PlanType : option string;
  rs_Primary : option rateLimitWindow;
  rs_Secondary : option rateLimitWindow
}.

Record rateLimitsResponse := mkRateLimitsResponse {
  RateLimits : rateLimitSnapshot;
  RateLimitsByLimitID : gmap string rateLimitSnapshot
}.

(** The account's type and plan, when there is one. *)
Record accountResponse := mkAccountResponse {
  Account : option (string * string);
  RequiresOpenAIAuth : bool
}.

(** ** Plans *)

Definition compactPlan (plan : string) : string :=
  bytes_of (filter (λ c, is_lower c.1 || is_digit c.1 = true) (chunks (ToLower (TrimSpace plan)))).

Definition isCodexProPlan (plan : string) : bool :=
  bool_decide (compactPlan plan ∈ ["pro"; "chatgptpro"; "prolite"; "pro5"; "pro5x"; "pro20"; "pro20x"]).

Definition canonicalCodexPlan (plan : string) : string :=
  if bool_decide (compactPlan plan ∈ ["prolite"; "pro5"; "pro5x"]) then "pro5"
  else if bool_decide (compactPlan plan ∈ ["pro"; "chatgptpro"; "pro20"; "pro20x"]) then "pro20"
  else TrimSpace plan.

Definition selectCodexPlan (accountPlan rateLimitsPlan : string) : string :=
  let accountPlan := TrimSpace accountPlan in
  let rateLimitsPlan := TrimSpace rateLimitsPlan in
  if bool_decide (accountPlan = "") then canonicalCodexPlan rateLimitsPlan
  else if negb (bool_decide (rateLimitsPlan = "")) && isCodexProPlan accountPlan && isCodexProPlan rateLimitsPlan
  then canonicalCodexPlan rateLimitsPlan
  else canonicalCodexPlan accountPlan.

(** One round of the loop of [stableCodexPlan]. *)
Definition considerPlan (plan : string) (snapshot : rateLimitSnapshot) : string :=
  match rs_PlanType snapshot with
  | None => plan
  | Some p =>
    if bool_decide (p = "") then plan
    else if bool_decide (plan = "") || str_lt p plan then p else plan
  end.

(** [order] is the order in which Go iterates over the map. *)
Definition stableCodexPlan (limits : rateLimitsResponse) (order : list rateLimitSnapshot) : string :=
  match rs_PlanType (RateLimits limits) with
  | Some p => if bool_decide (p = "") then foldl considerPlan "" order else p
  | None => foldl considerPlan "" order
  end.

(** ** Windows *)

Definition normalizeWindow (used : float64) (resetsAt : Time) : LimitWindow :=
  let used := if f_lt used f_zero then f_zero else used in
  let used := if f_lt f_hundred used then f_hundred else used in
  mkLimitWindow used (f_sub f_hundred used) (Some resetsAt).

(** [None] is the zero [codexWindowChoice], whose [set] is false. *)
Record codexWindowChoice := mkChoice { window : LimitWindow; resets : Time; canonical : bool }.

(** [resets] is [*window.ResetsAt], which a choice always has. *)
Definition preferCodexWindow (candidate : codexWindowChoice) (current : option codexWindowChoice) : bool :=
  match current with
  | None => true
  | Some current =>
    if negb (Bool.eqb (canonical candidate) (canonical current)) then canonical candidate
    else if negb (f_eq (UsedPercent (window candidate)) (UsedPercent (window current)))
    then f_lt (UsedPercent (window current)) (UsedPercent (window candidate))
    else Before (resets candidate) (resets current)
  end.

(** The two destinations of [considerCodexSnapshot]. *)
Record choices := mkChoices { fiveHour : option codexWindowChoice; sevenDay : option codexWindowChoice }.

Definition candidateOf (w : rateLimitWindow) (seconds : Z) (isCanonical : bool) : codexWindowChoice :=
  mkChoice (normalizeWindow (rw_UsedPercent w) (UnixFromSec seconds)) (UnixFromSec seconds) isCanonical.

Definition considerWindow (isCanonical : bool) (c : choices) (o : option rateLimitWindow) : choices :=
  match o with
  | None => c
  | Some w =>
    match rw_WindowDurationMin w, rw_ResetsAt w with
    | Some minutes, Some seconds =>
      let candidate := candidateOf w seconds isCanonical in
      if minutes =? FiveHourMinutes then
        if preferCodexWindow candidate (fiveHour c) then mkChoices (Some candidate) (sevenDay c) else c
      else if minutes =? SevenDayMinutes then
        if preferCodexWindow candidate (sevenDay c) then mkChoices (fiveHour c) (Some candidate) else c
      else c
    | _, _ => c
    end
  end.

Definition considerCodexSnapshot (isCanonical : bool) (c : choices) (snapshot : rateLimitSnapshot) : choices :=
  foldl (considerWindow isCanonical) c [rs_Primary snapshot; rs_Secondary snapshot].

Definition chosen (limits : rateLimitsResponse) (order : list rateLimitSnapshot) : choices :=
  foldl (considerCodexSnapshot false)
    (considerCodexSnapshot true (mkChoices None None) (RateLimits limits)) order.

(** [normalizeCodex], the map of limits iterated in the order [order]. *)
Definition normalizeCodex (account : accountResponse) (limits : rateLimitsResponse)
    (order : list rateLimitSnapshot) (observedAt : Time) : ProviderReport :=
  let '(authState, plan) :=
    match Account account with
    | Some (_, planType) => ("authenticated", planType)
    | None => (if RequiresOpenAIAuth account then "unauthenticated" else "not-required", "")
    end in
  let c := chosen limits order in
  mkProviderReport observedAt authState (selectCodexPlan plan (stableCodexPlan limits order))
    "codex-app-server" (mkProviderWindows (window <$> fiveHour c) (window <$> sevenDay c)) "".

(** ** Refreshable errors *)

(** [data] is absent when the field is empty or does not decode. *)
Record rpcError := mkRpcError { re_Message : string; re_Data : option json }.

Fixpoint remove_byte (c : ascii) (s : string) : string :=
  match s with
  | EmptyString => EmptyString
  | String a s => if bool_decide (a = c) then remove_byte c s else String a (remove_byte c s)
  end.

(** The direct tests on one field of an object. *)
Definition refreshableField (key : string) (child : json) : bool :=
  let compactKey := ToLower (remove_byte "_" key) in
  if bool_decide (compactKey ∈ ["code"; "errorcode"; "type"]) then
    match child with
    | JString text => bool_decide (ToLower (TrimSpace text) ∈ ["token_expired"; "refresh_token_expired"; "invalid_token"; "invalid_grant"])
    | _ => false
    end
  else if bool_decide (compactKey ∈ ["httpstatus"; "status"; "statuscode"]) then
    match child with JNumber n => f_eq n (f_of_Z 401) | _ => false end
  else false.

Fixpoint codexAuthErrorDataIsRefreshable (value : json) : bool :=
  match value with
  | JObject fields =>
    (fix go (fields : list (string * json)) : bool :=
       match fields with
       | [] => false
       | (key, child) :: fields =>
         refreshableField key child || codexAuthErrorDataIsRefreshable child || go fields
       end) fields
  | JArray children =>
    (fix go (children : list json) : bool :=
       match children with
       | [] => false
       | child :: children => codexAuthErrorDataIsRefreshable child || go children
       end) children
  | JString s =>
    let text := ToLower s in
    Contains text "token_expired" || Contains text "invalid_grant"
  | _ => false
  end.

(** An error of an attempt: an app-server error it wraps, or none. *)
Definition callError : Type := option rpcError.

Definition isCodexRefreshableAuthError (err : callError) : bool :=
  match err with
  | None => false
  | Some appErr =>
    let message := ToLower (re_Message appErr) in
    if Contains message "token_expired" || Contains message "invalid_grant" ||
       Contains message "refresh token is expired" ||
       (Contains message "401 unauthorized" && Contains message "expired")
    then true
    else match re_Data appErr with
    | None => false
    | Some data => codexAuthErrorDataIsRefreshable data
    end
  end.

(** ** Collect *)

Definition unavailableReport (source code : string) (now : Time) : ProviderReport :=
  mkProviderReport now "unknown" "" source noWindows code.
Definition codexLoginRequiredReport (now : Time) : ProviderReport :=
  mkProviderReport now "unauthenticated" "" "codex-app-server" noWindows "not_authenticated".

(** What one attempt meets: starting the child, the two calls, whether a child
    that is told to stop exits before the context ends (a wait that fails is
    no app-server error; there is none when no child is left), and the
    iteration order and clock of the normalisation. *)
Record Attempt := mkAttempt {
  at_start : result callError unit;
  at_account : result callError accountResponse;
  at_limits : result callError rateLimitsResponse;
  at_exit : bool;
  at_order : gmap string rateLimitSnapshot → list rateLimitSnapshot;
  at_now : Time
}.

(** What [Collect] does to the child, in order. *)
Inductive action := Started | AccountRead (refreshToken : bool) | RateLimitsRead | Reset.

#[global] Instance action_eq_dec : EqDecision action.
Proof. solve_decision. Defined.

(** A report, and the error returned with it. *)
Definition outcome : Type := ProviderReport * option callError.

Definition collectAttempt (env : Attempt) (refreshToken : bool) : outcome * list action :=
  let failed code err := (unavailableReport "codex-app-server" code (at_now env), Some err) in
  match at_start env with
  | Err err => (failed "start_failed" err, [])
  | Ok _ =>
    match at_account env with
    | Err err => (failed "account_read_failed" err, [Started; AccountRead refreshToken])
    | Ok account =>
      if bool_decide (Account account = None) && RequiresOpenAIAuth account then
        (if at_exit env then (codexLoginRequiredReport (at_now env), None)
         else failed "account_read_failed" None,
         [Started; AccountRead refreshToken; Reset])
      else match at_limits env with
      | Err err => (failed "rate_limits_read_failed" err, [Started; AccountRead refreshToken; RateLimitsRead])
      | Ok limits =>
        ((normalizeCodex account limits (at_order env (RateLimitsByLimitID limits)) (at_now env), None),
         [Started; AccountRead refreshToken; RateLimitsRead])
      end
    end
  end.

(** [Collect]: [e1] is what the first attempt meets, [e2] the forced retry. *)
Definition Collect (e1 e2 : Attempt) : outcome * list action :=
  let '((report, err), t1) := collectAttempt e1 false in
  match err with
  | None => ((report, None), t1)
  | Some err =>
    let refreshable := isCodexRefreshableAuthError err in
    let t1 := t1 ++ [Reset] in
    if negb (at_exit e1) then ((report, Some None), t1)
    else if negb refreshable then ((report, Some err), t1)
    else
        let '((report, err), t2) := collectAttempt e2 true in
        match err with
        | None => ((report, None), t1 ++ t2)
        | Some err =>
          let retryWasAuthFailure := isCodexRefreshableAuthError err in
          let t := t1 ++ t2 ++ [Reset] in
          if negb (at_exit e2) then ((report, Some None), t)
          else if retryWasAuthFailure then ((codexLoginRequiredReport (at_now e2), None), t)
          else ((report, Some err), t)
        end
  end.
