(* ===== verification/CodexFacts.v ===== *)
(** * internal/collector: what the Codex report says

    The windows and the plan of [normalizeCodex] are characterised without
    mentioning an iteration order, so they do not depend on the one Go's map
    happens to use; percentages come out in range; and [Collect] refreshes a
    token at most once and never leaves a failed child running. *)

From S2P Require Import Prelude GoTime GoText GoFloat Json Model Validate Codex.

(** ** Places and zeros *)

Lemma place_inj x y :
  place x = place y → x = y ∨ ∃ s s', x = S754_zero s ∧ y = S754_zero s'.
Proof.
  destruct x as [sx|[]| |[] m e], y as [sy|[]| |[] n f]; simpl; intros H; try discriminate H; try (by left).
  - right. by exists sx, sy.
  - left. injection H as He Hm. f_equal; [exact Hm|lia].
  - left. injection H as He Hm. by subst.
Qed.

Lemma sub_hundred_zero s : f_sub f_hundred (S754_zero s) = f_hundred.
Proof. by destruct s. Qed.

Lemma place_sub x y : place x = place y → f_sub f_hundred x = f_sub f_hundred y.
Proof. intros [->|(s & s' & -> & ->)]%place_inj; [done|]. by rewrite !sub_hundred_zero. Qed.

(** ** normalizeWindow *)

Lemma normalizeWindow_used used t :
  IsNaN used = false → percent (UsedPercent (normalizeWindow used t)).
Proof.
  intros Hn. unfold normalizeWindow, percent. simpl.
  destruct (f_lt used f_zero) eqn:E0.
  - change (f_lt f_hundred f_zero) with false. done.
  - destruct (f_lt f_hundred used) eqn:E1; [done|].
    split; [done|]. split; by apply f_lt_false_le.
Qed.

Lemma normalizeWindow_not_NaN used t :
  IsNaN used = false → IsNaN (UsedPercent (normalizeWindow used t)) = false.
Proof. intros H. by apply (normalizeWindow_used used t). Qed.

(** ** Candidates *)

Definition candidatesOf (minutes : Z) (isCanonical : bool) (o : option rateLimitWindow) : list codexWindowChoice :=
  match o with
  | Some w =>
    match rw_WindowDurationMin w, rw_ResetsAt w with
    | Some m, Some seconds => if m =? minutes then [candidateOf w seconds isCanonical] else []
    | _, _ => []
    end
  | None => []
  end.
Definition snapshotCandidates (minutes : Z) (isCanonical : bool) (s : rateLimitSnapshot) : list codexWindowChoice :=
  candidatesOf minutes isCanonical (rs_Primary s) ++ candidatesOf minutes isCanonical (rs_Secondary s).
Definition candidates (minutes : Z) (limits : rateLimitsResponse) (order : list rateLimitSnapshot)
    : list codexWindowChoice :=
  snapshotCandidates minutes true (RateLimits limits) ++ (order ≫= snapshotCandidates minutes false).

Definition pick (current : option codexWindowChoice) (c : codexWindowChoice) : option codexWindowChoice :=
  if preferCodexWindow c current then Some c else current.

Lemma considerWindow_pick b c o :
  considerWindow b c o =
  mkChoices (foldl pick (fiveHour c) (candidatesOf FiveHourMinutes b o))
            (foldl pick (sevenDay c) (candidatesOf SevenDayMinutes b o)).
Proof.
  unfold considerWindow, candidatesOf, pick. destruct c as [c5 c7], o as [w|]; [|done]. simpl.
  destruct (rw_WindowDurationMin w) as [m|]; [|done]. destruct (rw_ResetsAt w) as [t|]; [|done].
  destruct (Z.eqb_spec m FiveHourMinutes) as [->|H5].
  - simpl. by destruct (preferCodexWindow _ c5).
  - destruct (Z.eqb_spec m SevenDayMinutes) as [->|H7]; simpl; [|done].
    by destruct (preferCodexWindow _ c7).
Qed.

Lemma considerCodexSnapshot_pick b c s :
  considerCodexSnapshot b c s =
  mkChoices (foldl pick (fiveHour c) (snapshotCandidates FiveHourMinutes b s))
            (foldl pick (sevenDay c) (snapshotCandidates SevenDayMinutes b s)).
Proof.
  unfold considerCodexSnapshot, snapshotCandidates. simpl. rewrite !considerWindow_pick. simpl.
  by rewrite !foldl_app.
Qed.

Lemma chosen_pick limits order :
  chosen limits order =
  mkChoices (foldl pick None (candidates FiveHourMinutes limits order))
            (foldl pick None (candidates SevenDayMinutes limits order)).
Proof.
  unfold chosen, candidates. rewrite considerCodexSnapshot_pick. simpl. rewrite !foldl_app.
  generalize (foldl pick None (snapshotCandidates FiveHourMinutes true (RateLimits limits))).
  generalize (foldl pick None (snapshotCandidates SevenDayMinutes true (RateLimits limits))).
  induction order as [|s order IH]; intros c7 c5; [done|].
  rewrite !bind_cons, !foldl_app. cbn [foldl]. rewrite considerCodexSnapshot_pick, IH. done.
Qed.

(** ** The best candidate *)

(** A choice's rank: canonical before not, more used before less, earlier
    reset before later. *)
Definition better (a b : codexWindowChoice) : Prop :=
  (canonical a = true ∧ canonical b = false) ∨
  (canonical a = canonical b ∧
   (place_lt (place (UsedPercent (window b))) (place (UsedPercent (window a))) ∨
    (place (UsedPercent (window a)) = place (UsedPercent (window b)) ∧ resets a < resets b))).

Definition numeric (c : codexWindowChoice) : Prop := IsNaN (UsedPercent (window c)) = false.

Lemma prefer_better a b :
  numeric a → numeric b → preferCodexWindow a (Some b) = true ↔ better a b.
Proof.
  intros Ha Hb. unfold preferCodexWindow, better, numeric in *.
  assert (Hlt := f_lt_place _ _ Hb Ha). assert (Heq := f_eq_place _ _ Ha Hb).
  assert (Hirr : ∀ p, ¬ place_lt p p) by (unfold place_lt; lia).
  destruct (canonical a), (canonical b); simpl; try (split; [auto|done]).
  - destruct (f_eq _ _) eqn:E; simpl.
    + pose proof (proj1 Heq eq_refl) as E'. rewrite E', Before_true. naive_solver.
    + rewrite Hlt. split; [by auto|]. intros [[_ [=]]|[_ [?|[H _]]]]; [done|]. by apply Heq in H.
  - split; [done|]. intros [[[=] _]|[[=] _]].
  - destruct (f_eq _ _) eqn:E; simpl.
    + pose proof (proj1 Heq eq_refl) as E'. rewrite E', Before_true. naive_solver.
    + rewrite Hlt. split; [by auto|]. intros [[[=] _]|[_ [?|[H _]]]]; [done|]. by apply Heq in H.
Qed.

Lemma better_irrefl a : ¬ better a a.
Proof. unfold better, place_lt. intros [[H1 H2]|[_ H]]; [congruence|lia]. Qed.

Lemma better_trans a b c : better a b → better b c → better a c.
Proof.
  unfold better. intros [[H1 H2]|[H1 H2]] [[H3 H4]|[H3 H4]].
  - congruence.
  - left. split; congruence.
  - left. split; congruence.
  - right. split; [congruence|]. destruct H2 as [H2|[E2 H2]], H4 as [H4|[E4 H4]].
    + left. by eapply place_lt_trans.
    + left. by rewrite <-E4.
    + left. by rewrite E2.
    + right. split; [congruence|lia].
Qed.

(** Candidates of the same rank. *)
Definition same_rank (a b : codexWindowChoice) : Prop :=
  canonical a = canonical b ∧ place (UsedPercent (window a)) = place (UsedPercent (window b)) ∧ resets a = resets b.

Lemma better_total a b : better a b ∨ same_rank a b ∨ better b a.
Proof.
  unfold better, same_rank.
  destruct (canonical a), (canonical b); try (by auto);
    destruct (place_lt_total (place (UsedPercent (window a))) (place (UsedPercent (window b)))) as [?|[?|?]]; auto 6;
    destruct (Z.lt_trichotomy (resets a) (resets b)) as [?|[?|?]]; auto 8.
Qed.

Definition best (cs : list codexWindowChoice) (c : codexWindowChoice) : Prop :=
  c ∈ cs ∧ ∀ c', c' ∈ cs → ¬ better c' c.

Lemma pick_best cs :
  Forall numeric cs →
  match foldl pick None cs with None => cs = [] | Some c => best cs c end.
Proof.
  induction cs as [|c cs IH] using rev_ind; [done|]. intros [Hcs Hc]%Forall_app.
  apply Forall_cons in Hc as [Hc _]. specialize (IH Hcs). rewrite foldl_app. simpl.
  destruct (foldl pick None cs) as [b|].
  - destruct IH as [Hb Hbest]. assert (Hnb : numeric b) by (rewrite Forall_forall in Hcs; auto).
    unfold pick. destruct (preferCodexWindow c (Some b)) eqn:E.
    + apply prefer_better in E; [|done..]. split; [set_solver|].
      intros c' [Hc'| ->%list_elem_of_singleton]%elem_of_app Hbt; [|by apply better_irrefl in Hbt].
      apply (Hbest c' Hc'). by eapply better_trans.
    + split; [set_solver|]. intros c' [Hc'| ->%list_elem_of_singleton]%elem_of_app Hbt; [by apply (Hbest c')|].
      apply prefer_better in Hbt; [congruence|done..].
  - subst cs. unfold pick. simpl. split; [set_solver|]. intros c' ->%list_elem_of_singleton. apply better_irrefl.
Qed.

Lemma best_unique cs cs' a b :
  (∀ c, c ∈ cs ↔ c ∈ cs') → best cs a → best cs' b → same_rank a b.
Proof.
  intros Hcs [Ha Hba] [Hb Hbb]. destruct (better_total a b) as [H|[H|H]]; [|done|].
  - by destruct (Hbb a (proj1 (Hcs a) Ha)).
  - by destruct (Hba b (proj2 (Hcs b) Hb)).
Qed.

(** ** The answers are numbers *)

(** JSON has no NaN: every percentage of an answer is a number. *)
Definition numeric_window (o : option rateLimitWindow) : Prop :=
  ∀ w, o = Some w → IsNaN (rw_UsedPercent w) = false.
Definition numeric_snapshot (s : rateLimitSnapshot) : Prop :=
  numeric_window (rs_Primary s) ∧ numeric_window (rs_Secondary s).
Definition numeric_limits (limits : rateLimitsResponse) : Prop :=
  numeric_snapshot (RateLimits limits) ∧ map_Forall (λ _, numeric_snapshot) (RateLimitsByLimitID limits).

(** An iteration order of the map. *)
Definition iterates (limits : rateLimitsResponse) (order : list rateLimitSnapshot) : Prop :=
  order ≡ₚ (map_to_list (RateLimitsByLimitID limits)).*2.

Lemma candidatesOf_elem minutes b o c :
  c ∈ candidatesOf minutes b o ↔
  ∃ w t, o = Some w ∧ rw_WindowDurationMin w = Some minutes ∧ rw_ResetsAt w = Some t ∧ c = candidateOf w t b.
Proof.
  unfold candidatesOf. destruct o as [w|]; [|set_solver].
  destruct (rw_WindowDurationMin w) as [m|] eqn:Em; [|set_solver].
  destruct (rw_ResetsAt w) as [t|] eqn:Et; [|set_solver].
  destruct (Z.eqb_spec m minutes) as [->|Hne]; rewrite ?list_elem_of_singleton, ?elem_of_nil; [|naive_solver].
  split; [intros ->; eauto 6|]. intros (w' & t' & [= <-] & _ & Ht & ->). congruence.
Qed.

Lemma candidates_numeric minutes limits order :
  numeric_limits limits → iterates limits order → Forall numeric (candidates minutes limits order).
Proof.
  intros [H0 Hm] Hord.
  assert (Hs : ∀ b s, numeric_snapshot s → Forall numeric (snapshotCandidates minutes b s)).
  { intros b s [H1 H2]. unfold snapshotCandidates. apply Forall_app. split; apply Forall_forall;
      intros c (w & t & Ho & _ & _ & ->)%candidatesOf_elem; apply normalizeWindow_not_NaN; auto. }
  unfold candidates. apply Forall_app. split; [by apply Hs|].
  apply Forall_forall. intros c (s & Hc & Hin)%list_elem_of_bind.
  rewrite Hord in Hin. apply list_elem_of_fmap in Hin as ([k s'] & -> & Hin%elem_of_map_to_list).
  specialize (Hs false s' (Hm k s' Hin)). rewrite Forall_forall in Hs. auto.
Qed.

Lemma candidates_order minutes limits o1 o2 c :
  o1 ≡ₚ o2 → c ∈ candidates minutes limits o1 ↔ c ∈ candidates minutes limits o2.
Proof. intros Hp. unfold candidates. by rewrite !elem_of_app, Hp. Qed.

Lemma candidate_percent minutes limits order c :
  numeric_limits limits → iterates limits order → c ∈ candidates minutes limits order → percent (UsedPercent (window c)).
Proof.
  intros [H0 Hm] Hord Hin.
  assert (Hs : ∀ b s, numeric_snapshot s → c ∈ snapshotCandidates minutes b s → percent (UsedPercent (window c))).
  { intros b s [H1 H2] [(w & t & Ho & _ & _ & ->)%candidatesOf_elem|(w & t & Ho & _ & _ & ->)%candidatesOf_elem]%elem_of_app;
      apply normalizeWindow_used; auto. }
  apply elem_of_app in Hin as [Hin|(s & Hc & Hin)%list_elem_of_bind]; [by eapply Hs|].
  rewrite Hord in Hin. apply list_elem_of_fmap in Hin as ([k s'] & -> & Hin%elem_of_map_to_list).
  eapply Hs; [exact (Hm k s' Hin)|exact Hc].
Qed.

(** Windows that differ at most in the sign of a zero percentage. *)
Definition window_eqv (o o' : option LimitWindow) : Prop :=
  match o, o' with
  | None, None => True
  | Some w, Some w' => f_eq (UsedPercent w) (UsedPercent w') = true ∧
      RemainingPercent w = RemainingPercent w' ∧ ResetsAt w = ResetsAt w'
  | _, _ => False
  end.

(** A candidate's window is determined by its used percentage and its reset. *)
Lemma candidate_shape minutes limits order c :
  c ∈ candidates minutes limits order →
  RemainingPercent (window c) = f_sub f_hundred (UsedPercent (window c)) ∧ ResetsAt (window c) = Some (resets c).
Proof.
  intros H. assert (∃ w t b, c = candidateOf w t b) as (w & t & b & ->); [|done].
  unfold candidates, snapshotCandidates in H. rewrite elem_of_app, list_elem_of_bind in H.
  setoid_rewrite elem_of_app in H. setoid_rewrite candidatesOf_elem in H. naive_solver.
Qed.

Lemma pick_eqv minutes limits o1 o2 :
  numeric_limits limits → iterates limits o1 → iterates limits o2 →
  window_eqv (window <$> foldl pick None (candidates minutes limits o1))
             (window <$> foldl pick None (candidates minutes limits o2)).
Proof.
  intros Hn H1 H2.
  assert (Hp : ∀ c, c ∈ candidates minutes limits o1 ↔ c ∈ candidates minutes limits o2).
  { intros c. apply candidates_order. by rewrite H1, H2. }
  pose proof (candidates_numeric minutes _ _ Hn H1) as N1. pose proof (candidates_numeric minutes _ _ Hn H2) as N2.
  pose proof (pick_best _ N1) as B1. pose proof (pick_best _ N2) as B2.
  destruct (foldl pick None (candidates minutes limits o1)) as [a|],
    (foldl pick None (candidates minutes limits o2)) as [b|]; simpl; [| | |done].
  - destruct (best_unique _ _ _ _ Hp B1 B2) as (_ & Hu & Hr).
    destruct B1 as [I1 _], B2 as [I2 _].
    destruct (candidate_shape _ _ _ _ I1) as [Ra Ta], (candidate_shape _ _ _ _ I2) as [Rb Tb].
    rewrite Forall_forall in N1, N2. split; [apply f_eq_place; [exact (N1 _ I1)|exact (N2 _ I2)|exact Hu]|]. split; [|congruence].
    rewrite Ra, Rb. by apply place_sub.
  - destruct B1 as [I1 _]. rewrite Hp, B2 in I1. set_solver.
  - destruct B2 as [I2 _]. rewrite <-Hp, B1 in I2. set_solver.
Qed.

(** ** The plan *)

Definition plansOf (order : list rateLimitSnapshot) : list string :=
  filter (λ p, p ≠ "") (omap rs_PlanType order).

Lemma considerPlan_min order plan :
  let p := foldl considerPlan plan order in
  (p = "" ↔ plan = "" ∧ plansOf order = []) ∧
  (p ≠ "" → (p = plan ∨ p ∈ plansOf order) ∧ (plan ≠ "" → str_le p plan) ∧ ∀ q, q ∈ plansOf order → str_le p q).
Proof.
  assert (Hrefl : ∀ s, str_le s s) by (intros s; by destruct (total str_le s s)).
  revert plan. induction order as [|s order IH]; intros plan; cbv zeta; cbn [foldl].
  { unfold plansOf. simpl. split; [naive_solver|]. intros Hne. split; [auto|]. split; [auto|set_solver]. }
  specialize (IH (considerPlan plan s)). cbv zeta in IH. destruct IH as [IH1 IH2].
  set (p := foldl considerPlan (considerPlan plan s) order) in *.
  unfold plansOf in *. cbn [omap list_omap]. unfold considerPlan in IH1, IH2.
  destruct (rs_PlanType s) as [q|]; [|done].
  case_bool_decide as Eq.
  { subst q. rewrite filter_cons_False by (intros Hn; by apply Hn). done. }
  rewrite filter_cons_True by done.
  case_bool_decide as Ep; simpl in IH1, IH2.
  - subst plan. split; [naive_solver|]. intros Hne. destruct (IH2 Hne) as (H1 & H2 & H3).
    split; [set_solver|]. split; [done|]. intros q' [->|Hq']%elem_of_cons; auto.
  - destruct (str_lt q plan) eqn:El.
    + assert (Hqp : str_le q plan).
      { destruct (total str_le q plan) as [?|Hc]; [done|]. unfold str_le in Hc. congruence. }
      split; [naive_solver|]. intros Hne. destruct (IH2 Hne) as (H1 & H2 & H3). specialize (H2 Eq).
      split; [set_solver|]. split; [intros _; by etrans|]. intros q' [->|Hq']%elem_of_cons; auto.
    + split; [naive_solver|]. intros Hne. destruct (IH2 Hne) as (H1 & H2 & H3). specialize (H2 Ep).
      split; [set_solver|]. split; [done|]. intros q' [->|Hq']%elem_of_cons; [|auto].
      etrans; [exact H2|]. exact El.
Qed.

Lemma stableCodexPlan_order limits o1 o2 :
  o1 ≡ₚ o2 → stableCodexPlan limits o1 = stableCodexPlan limits o2.
Proof.
  intros Hp. assert (H : foldl considerPlan "" o1 = foldl considerPlan "" o2).
  { assert (Hpl : plansOf o1 ≡ₚ plansOf o2) by (unfold plansOf; by rewrite Hp).
    destruct (considerPlan_min o1 "") as [A1 B1], (considerPlan_min o2 "") as [A2 B2].
    destruct (decide (foldl considerPlan "" o1 = "")) as [E1|E1].
    - rewrite E1. symmetry. apply A2. split; [done|]. apply A1 in E1 as [_ E1]. rewrite E1 in Hpl.
      by apply Permutation_nil_l in Hpl.
    - destruct (decide (foldl considerPlan "" o2 = "")) as [E2|E2].
      { exfalso. apply E1, A1. split; [done|]. apply A2 in E2 as [_ E2]. rewrite E2 in Hpl.
        by apply Permutation_nil_r in Hpl. }
      destruct (B1 E1) as ([?|I1] & _ & L1); [done|]. destruct (B2 E2) as ([?|I2] & _ & L2); [done|].
      apply str_le_antisym; [apply L1; by rewrite Hpl|apply L2; by rewrite <-Hpl]. }
  unfold stableCodexPlan. by rewrite H.
Qed.

(** ** What the report promises *)

Definition report_eqv (r r' : ProviderReport) : Prop :=
  pr_ObservedAt r = pr_ObservedAt r' ∧ pr_AuthState r = pr_AuthState r' ∧ pr_Plan r = pr_Plan r' ∧
  pr_Source r = pr_Source r' ∧ pr_ErrorCode r = pr_ErrorCode r' ∧
  window_eqv (FiveHour (pr_Windows r)) (FiveHour (pr_Windows r')) ∧
  window_eqv (SevenDay (pr_Windows r)) (SevenDay (pr_Windows r')).

(** The Codex report does not depend on the order in which Go iterates over
    the limits by ID: two iteration orders give the same report, up to the
    sign of a percentage that is zero. *)
Theorem normalizeCodex_any_order (account : accountResponse) (limits : rateLimitsResponse)
    (o1 o2 : list rateLimitSnapshot) (now : Time)
    (Hnum : numeric_limits limits) (H1 : iterates limits o1) (H2 : iterates limits o2) :
  report_eqv (normalizeCodex account limits o1 now) (normalizeCodex account limits o2 now).
Proof.
  unfold normalizeCodex. rewrite !chosen_pick.
  rewrite (stableCodexPlan_order limits o1 o2) by (by rewrite H1, H2).
  destruct (match Account account with Some (_, p) => _ | None => _ end) as [st plan].
  unfold report_eqv. simpl. do 5 (split; [done|]). split; by apply pick_eqv.
Qed.

(** Both limits report a five-hour window; the first is the more used one. *)
Definition demo_limits : rateLimitsResponse :=
  let w u m r := Some (mkRateLimitWindow (f_of_Z u) (Some m) (Some r)) in
  mkRateLimitsResponse (mkRateLimitSnapshot None (Some "") (w 20 10080 900) None)
    {["a" := mkRateLimitSnapshot None (Some "pro") (w 70 300 500) (w 90 10080 100);
      "b" := mkRateLimitSnapshot None (Some "plus") (w 30 300 400) None]}.

Lemma demo_limits_numeric : numeric_limits demo_limits.
Proof.
  split; [split; intros w [= <-]; vm_compute; reflexivity|].
  apply map_Forall_to_list. vm_compute.
  repeat constructor; intros w E; inversion E; reflexivity.
Qed.

Lemma normalizeCodex_any_order_witness :
  let order := (map_to_list (RateLimitsByLimitID demo_limits)).*2 in
  let account := mkAccountResponse (Some ("chatgpt", "prolite")) true in
  report_eqv (normalizeCodex account demo_limits order 5) (normalizeCodex account demo_limits (reverse order) 5) ∧
  (UsedPercent <$> FiveHour (pr_Windows (normalizeCodex account demo_limits order 5))) = Some (f_of_Z 70).
Proof.
  intros order account. split; [|vm_compute; reflexivity].
  apply (normalizeCodex_any_order account demo_limits order (reverse order) 5 demo_limits_numeric).
  - apply Permutation_refl.
  - apply reverse_Permutation.
Defined.

(** C38. Each window of the Codex report is one the app-server answered for that
    duration, and the most restrictive one: no answer in the canonical
    snapshot is passed over for one outside it, none of the same class has a
    higher percentage, and none with the same percentage resets earlier.  A
    window is missing only when no answer has one.  Percentages are within
    0 and 100. *)
Theorem normalizeCodex_most_restrictive (account : accountResponse) (limits : rateLimitsResponse)
    (order : list rateLimitSnapshot) (now : Time)
    (Hnum : numeric_limits limits) (Hord : iterates limits order) :
  let windows := pr_Windows (normalizeCodex account limits order now) in
  let chosen_for minutes o :=
    match o with
    | None => candidates minutes limits order = []
    | Some w => percent (UsedPercent w) ∧
        ∃ c, c ∈ candidates minutes limits order ∧ window c = w ∧
        ∀ c', c' ∈ candidates minutes limits order →
          (canonical c' = true → canonical c = true) ∧
          (canonical c' = canonical c →
             f_lt (UsedPercent w) (UsedPercent (window c')) = false ∧
             (f_eq (UsedPercent w) (UsedPercent (window c')) = true → resets c <= resets c'))
    end in
  chosen_for 300 (FiveHour windows) ∧ chosen_for 10080 (SevenDay windows).
Proof.
  assert (H : ∀ minutes, match window <$> foldl pick None (candidates minutes limits order) with
    | None => candidates minutes limits order = []
    | Some w => percent (UsedPercent w) ∧
        ∃ c, c ∈ candidates minutes limits order ∧ window c = w ∧
        ∀ c', c' ∈ candidates minutes limits order →
          (canonical c' = true → canonical c = true) ∧
          (canonical c' = canonical c →
             f_lt (UsedPercent w) (UsedPercent (window c')) = false ∧
             (f_eq (UsedPercent w) (UsedPercent (window c')) = true → resets c <= resets c')) end).
  { intros minutes. pose proof (candidates_numeric minutes _ _ Hnum Hord) as N.
    pose proof (pick_best _ N) as B. destruct (foldl pick None _) as [c|]; simpl; [|done].
    destruct B as [Hin Hb]. rewrite Forall_forall in N. split; [by eapply candidate_percent|].
    exists c. split; [done|]. split; [done|]. intros c' Hc'. specialize (Hb c' Hc'). unfold better in Hb.
    split; [|intros Hcan; split].
    - intros Ht. destruct (canonical c) eqn:E; [done|]. exfalso. apply Hb. by left.
    - destruct (f_lt _ _) eqn:E; [|done]. exfalso. apply Hb. right. split; [done|]. left.
      by apply f_lt_place in E; [|apply N..].
    - intros E. apply f_eq_place in E; [|apply N; done..]. apply Z.nlt_ge. intros Hlt. apply Hb. right.
      split; [done|]. by right. }
  unfold normalizeCodex. destruct (match Account account with Some (_, p) => _ | None => _ end) as [st plan].
  rewrite chosen_pick. simpl. split; apply H.
Qed.

Lemma normalizeCodex_most_restrictive_witness :
  let order := (map_to_list (RateLimitsByLimitID demo_limits)).*2 in
  match SevenDay (pr_Windows (normalizeCodex (mkAccountResponse None true) demo_limits order 5)) with
  | Some w => percent (UsedPercent w) ∧ UsedPercent w = f_of_Z 20
  | None => False
  end.
Proof.
  intros order.
  destruct (normalizeCodex_most_restrictive (mkAccountResponse None true) demo_limits order 5
              demo_limits_numeric (Permutation_refl _)) as [_ H].
  assert (E : (UsedPercent <$> SevenDay (pr_Windows (normalizeCodex (mkAccountResponse None true) demo_limits order 5)))
              = Some (f_of_Z 20)) by (vm_compute; reflexivity).
  destruct (SevenDay _) as [w|]; [|discriminate E]. split; [exact (proj1 H)|]. injection E as E. exact E.
Defined.

(** The collectors clamp percentages with [normalizeWindow], not with the
    [ClampPercent] of the wire model: the two agree on every finite number,
    and only [ClampPercent] maps a NaN to 0; the window [normalizeWindow]
    makes of a NaN is one the server's validation refuses. *)
Theorem normalizeWindow_ClampPercent (used : float64) (t : Time) :
  (IsNaN used = false → IsInf used = false → normalizeWindow used t = NewLimitWindow used t) ∧
  (IsNaN used = true → UsedPercent (NewLimitWindow used t) = f_zero ∧
     validateWindow (Some (normalizeWindow used t)) = Err UsedOutOfRange).
Proof.
  split.
  - intros Hn Hi. unfold normalizeWindow, NewLimitWindow, ClampPercent. rewrite Hn, Hi. simpl.
    destruct (f_lt used f_zero); [done|]. by destruct (f_lt f_hundred used).
  - by destruct used.
Qed.

(** ** Collect *)

(** The requests for a forced refresh in a trace. *)
Definition forced (t : list action) : nat := length (filter (λ a, a = AccountRead true) t).

Lemma collectAttempt_cases env refresh out t :
  collectAttempt env refresh = (out, t) →
  (AccountRead (negb refresh) ∉ t) ∧ (forced t ≤ if refresh then 1 else 0)%nat ∧
  match out.2 with
  | Some _ => True
  | None =>
    out.1 = codexLoginRequiredReport (at_now env) ∨
    ∃ account limits, at_account env = Ok account ∧ at_limits env = Ok limits ∧
      out.1 = normalizeCodex account limits (at_order env (RateLimitsByLimitID limits)) (at_now env)
  end.
Proof.
  unfold collectAttempt. intros H.
  assert (Ht : ∀ t, t = [] ∨ t = [Started; AccountRead refresh] ∨ t = [Started; AccountRead refresh; Reset] ∨
                    t = [Started; AccountRead refresh; RateLimitsRead] →
                    (AccountRead (negb refresh) ∉ t) ∧ (forced t ≤ if refresh then 1 else 0)%nat).
  { intros t' [ -> | [ -> | [ -> | -> ] ] ]; (split; [destruct refresh; set_solver|destruct refresh; vm_compute; lia]). }
  destruct (at_start env) as [u|e]; [|injection H as <- <-; split; [|split; [|done]]; by apply Ht; auto].
  destruct (at_account env) as [account|e]; [|injection H as <- <-; split; [|split; [|done]]; by apply Ht; auto].
  destruct (bool_decide _ && _).
  - injection H as <- <-. split; [|split]; [apply Ht; auto..|]. destruct (at_exit env); simpl; auto.
  - destruct (at_limits env) as [limits|e]; injection H as <- <-; (split; [|split]; [apply Ht; auto..|]); simpl; eauto 6.
Qed.

(** [Collect] forces at most one token refresh, and only after an attempt
    without one failed with an error that says the access token is no longer
    accepted.  When it returns no error, the report is either the
    login-required one or made from both answers of one attempt; when it
    returns an error the child was told to stop, so the next call starts a
    fresh one. *)
Theorem Collect_refreshes_once (e1 e2 : Attempt) :
  let '((report, err), t) := Collect e1 e2 in
  (forced t ≤ 1)%nat ∧
  (AccountRead true ∈ t → ∃ e, (collectAttempt e1 false).1.2 = Some e ∧ isCodexRefreshableAuthError e = true) ∧
  match err with
  | Some _ => last t = Some Reset
  | None =>
    (∃ now, report = codexLoginRequiredReport now) ∨
    ∃ e account limits, (e = e1 ∨ e = e2) ∧ at_account e = Ok account ∧ at_limits e = Ok limits ∧
      report = normalizeCodex account limits (at_order e (RateLimitsByLimitID limits)) (at_now e)
  end.
Proof.
  assert (Hf : ∀ l l', forced (l ++ l') = (forced l + forced l')%nat)
    by (intros; unfold forced; by rewrite filter_app, length_app).
  unfold Collect. destruct (collectAttempt e1 false) as [[r1 err1] t1] eqn:E1.
  destruct (collectAttempt_cases _ _ _ _ E1) as (Hn1 & Hc1 & Ho1). simpl in Hn1, Hc1, Ho1.
  destruct err1 as [err1|].
  2: { split; [lia|]. split; [done|]. destruct Ho1 as [->|(a & l & ? & ? & ->)]; [eauto|eauto 10]. }
  assert (Hlast : ∀ l : list action, last (l ++ [Reset]) = Some Reset) by (intros; apply last_snoc).
  assert (Hstop : (forced (t1 ++ [Reset]) ≤ 1)%nat ∧ AccountRead true ∉ t1 ++ [Reset]).
  { rewrite Hf. split; [change (forced [Reset]) with 0%nat; lia|]. set_solver. }
  destruct (negb (at_exit e1)); [split; [apply Hstop|split; [by intros ?%Hstop|apply Hlast]]|].
  destruct (isCodexRefreshableAuthError err1) eqn:Hr; simpl negb; cbv iota;
    [|split; [apply Hstop|split; [by intros ?%Hstop|apply Hlast]]].
  destruct (collectAttempt e2 true) as [[r2 err2] t2] eqn:E2.
  destruct (collectAttempt_cases _ _ _ _ E2) as (Hn2 & Hc2 & Ho2). simpl in Hn2, Hc2, Ho2.
  assert (H2 : (forced (t1 ++ [Reset]) = 0)%nat) by (rewrite Hf; change (forced [Reset]) with 0%nat; lia).
  destruct err2 as [err2|].
  2: { rewrite Hf. split; [lia|]. split; [eauto|]. destruct Ho2 as [->|(a & l & ? & ? & ->)]; [eauto|eauto 10]. }
  assert (Hc : (forced ((t1 ++ [Reset]) ++ t2 ++ [Reset]) ≤ 1)%nat).
  { rewrite !Hf. rewrite Hf in H2. change (forced [Reset]) with 0%nat in *. lia. }
  assert (Hl : last ((t1 ++ [Reset]) ++ t2 ++ [Reset]) = Some Reset) by by rewrite app_assoc.
  destruct (negb (at_exit e2)); [by eauto|].
  destruct (isCodexRefreshableAuthError err2); (split; [done|split; [by eauto|]]); [eauto|done].
Qed.

(** Whether an error's data asks for a refresh does not depend on the order
    of the fields of an object, which Go iterates over in any order. *)
Lemma refreshable_any_order (l l' : list (string * json)) (Hp : l ≡ₚ l') :
  codexAuthErrorDataIsRefreshable (JObject l) = codexAuthErrorDataIsRefreshable (JObject l').
Proof.
  set (p := λ kv : string * json, refreshableField kv.1 kv.2 || codexAuthErrorDataIsRefreshable kv.2).
  assert (H : ∀ l, codexAuthErrorDataIsRefreshable (JObject l) = existsb p l).
  { clear. induction l as [|[k c] l IH]; [done|]. simpl in *. by rewrite IH. }
  rewrite !H. clear H. induction Hp as [|x l l' Hp IH|x y l|l1 l2 l3 _ IH1 _ IH2]; simpl.
  - done.
  - by rewrite IH.
  - destruct (p x), (p y); done.
  - congruence.
Qed.
