(* ===== verification/CodexRpc.v ===== *)
(** * internal/collector: calls to the app-server child

    The connection of [codex.go]: the child process, the pending requests and
    the calls that wait for them.  Callers, the read loops of the children
    and whoever stops a child run concurrently; each of their critical
    sections is one step.  What a child writes, when a call times out and when
    a child dies are free choices of the environment.  [stopProcess] is two
    steps, because it closes [done] before it takes the lock. *)

From S2P Require Import Prelude GoTime.

(** A child: running, told to stop with [done] closed, or with its stop
    finished. *)
Inductive stage := Alive | Closing | Stopped.

#[global] Instance stage_eq_dec : EqDecision stage.
Proof. solve_decision. Defined.

(** One [callOnProcess]: waiting on its channel, which holds a response or
    not; failed and about to stop its child; or returned, with the id of the
    response it got, if any. *)
Inductive callState :=
| Calling (id : Z) (p : nat) (box : option Z)
| Failing (id : Z) (p : nat)
| Returned (id : Z) (answer : option Z).

(** The collector's fields.  [pending] maps an id to the call that owns the
    channel; children and calls are numbered in the order they are made. *)
Record conn := mkConn {
  nextID : Z;
  pending : gmap Z nat;
  proc : option nat;
  procs : gmap nat stage;
  calls : gmap nat callState
}.

Definition NewCodex : conn := mkConn 0 ∅ None ∅ ∅.

Definition setCall (c : conn) (k : nat) (s : callState) : conn :=
  mkConn (nextID c) (pending c) (proc c) (procs c) (<[k := s]> (calls c)).
Definition removePending (c : conn) (id : Z) : conn :=
  mkConn (nextID c) (delete id (pending c)) (proc c) (procs c) (calls c).
Definition setStage (c : conn) (p : nat) (s : stage) : conn :=
  mkConn (nextID c) (pending c) (proc c) (<[p := s]> (procs c)) (calls c).

(** [p.done] is not closed. *)
Definition running (c : conn) (p : nat) : bool := bool_decide (procs c !! p = Some Alive).

Inductive event :=
| Spawn (p : nat)
| Register (k p : nat)
| WriteFails (k : nat)
| Reply (id : Z)
| Receive (k : nat)
| TimesOut (k : nat)
| Disconnected (k : nat)
| StopBegins (p : nat)
| StopEnds (p : nat)
| Fails (k : nat).

(** [ensureStarted] up to [go c.readLoop]: only when there is no child, or its
    [done] is closed. *)
Definition ensureStarted (c : conn) (p : nat) : option conn :=
  if match proc c with Some q => running c q | None => false end then None
  else if decide (procs c !! p = None) then
    Some (mkConn (nextID c) (pending c) (Some p) (<[p := Alive]> (procs c)) (calls c))
  else None.

(** The first lines of [callOnProcess], on a child that was started: a fresh id
    and a fresh channel. *)
Definition registerCall (c : conn) (k p : nat) : option conn :=
  if decide (calls c !! k = None ∧ procs c !! p ≠ None) then
    let id := wrap64 (nextID c + 1) in
    Some (mkConn id (<[id := k]> (pending c)) (proc c) (procs c) (<[k := Calling id p None]> (calls c)))
  else None.

(** The critical section of [readLoop] for a response: the channel has room,
    so the send does not block. *)
Definition deliver (c : conn) (id : Z) : conn :=
  match pending c !! id with
  | None => c
  | Some k =>
    let c := removePending c id in
    match calls c !! k with
    | Some (Calling i p None) => setCall c k (Calling i p (Some id))
    | _ => c
    end
  end.

(** The second half of [stopProcess]. *)
Definition finishStop (c : conn) (p : nat) : conn :=
  mkConn (nextID c) ∅ (if decide (proc c = Some p) then None else proc c)
    (<[p := Stopped]> (procs c)) (calls c).

Definition step (c : conn) (e : event) : option conn :=
  match e with
  | Spawn p => ensureStarted c p
  | Register k p => registerCall c k p
  | WriteFails k | TimesOut k =>
    match calls c !! k with
    | Some (Calling id p _) => Some (setCall (removePending c id) k (Failing id p))
    | _ => None
    end
  | Reply id => Some (deliver c id)
  | Receive k =>
    match calls c !! k with
    | Some (Calling id p (Some r)) => Some (setCall c k (Returned id (Some r)))
    | _ => None
    end
  | Disconnected k =>
    match calls c !! k with
    | Some (Calling id p _) =>
      if running c p then None else Some (setCall (removePending c id) k (Returned id None))
    | _ => None
    end
  | StopBegins p => if running c p then Some (setStage c p Closing) else None
  | StopEnds p => if decide (procs c !! p = Some Closing) then Some (finishStop c p) else None
  | Fails k =>
    match calls c !! k with
    | Some (Failing id p) =>
      if decide (procs c !! p = Some Stopped) then Some (setCall c k (Returned id None)) else None
    | _ => None
    end
  end.

Fixpoint run (c : conn) (es : list event) : option conn :=
  match es with
  | [] => Some c
  | e :: es => c' ← step c e; run c' es
  end.

Lemma run_app c es1 es2 : run c (es1 ++ es2) = c' ← run c es1; run c' es2.
Proof. revert c. induction es1 as [|e es1 IH]; intros c; [done|]. simpl. destruct (step c e); simpl; auto. Qed.
