(* ===== verification/CodexRpcFacts.v ===== *)
(** * Facts about the calls to the app-server child

    Responses reach the call that asked for them, at most once; nothing is
    left behind in [pending]; there is at most one child that was not told to
    stop; and a live child's calls are never forgotten as long as no child is
    started while another one's stop is half done. *)

From S2P Require Import Prelude GoTime CodexRpc.

Definition idOf (s : callState) : Z :=
  match s with Calling id _ _ | Failing id _ | Returned id _ => id end.

(** The response a call has got, in its channel or as its result. *)
Definition answerOf (s : callState) : option Z :=
  match s with Calling _ _ box => box | Failing _ _ => None | Returned _ answer => answer end.

Record conn_ok (c : conn) : Prop := {
  ok_ids : ∀ k s, calls c !! k = Some s → 1 <= idOf s <= nextID c;
  ok_unique : ∀ k k' s s', calls c !! k = Some s → calls c !! k' = Some s' → idOf s = idOf s' → k = k';
  ok_pending : ∀ id k, pending c !! id = Some k → ∃ p, calls c !! k = Some (Calling id p None);
  ok_answer : ∀ k s r, calls c !! k = Some s → answerOf s = Some r → r = idOf s;
  ok_single : ∀ p, procs c !! p = Some Alive → proc c = Some p;
  ok_next : 0 <= nextID c
}.

Lemma NewCodex_ok : conn_ok NewCodex.
Proof. split; try done. Qed.

Lemma running_true c p : running c p = true ↔ procs c !! p = Some Alive.
Proof. apply bool_decide_eq_true. Qed.
Lemma running_false c p : running c p = false ↔ procs c !! p ≠ Some Alive.
Proof. apply bool_decide_eq_false. Qed.

(** Two ids of the same call are equal. *)
Lemma pending_own c id k s : conn_ok c → pending c !! id = Some k → calls c !! k = Some s → s = Calling id (match s with Calling _ p _ | Failing _ p => p | _ => 0%nat end) None.
Proof. intros Hc Hp Hk. destruct (ok_pending c Hc id k Hp) as (p & E). rewrite E in Hk. by injection Hk as <-. Qed.

(** A step on one call that keeps its id, gives up its entry in [pending] and
    gives it no foreign answer. *)
Lemma updateCall_ok c k s s' :
  conn_ok c → calls c !! k = Some s → idOf s' = idOf s →
  (∀ r, answerOf s' = Some r → r = idOf s') →
  conn_ok (setCall (removePending c (idOf s)) k s').
Proof.
  intros Hc Hk Hid Hans. split; simpl.
  - intros k1 s1. destruct (decide (k = k1)) as [<-|Hne].
    + rewrite lookup_insert_eq. intros [= <-]. rewrite Hid. by apply (ok_ids c Hc k).
    + rewrite lookup_insert_ne by done. apply Hc.
  - assert (Hall : ∀ k1 s1, <[k:=s']> (calls c) !! k1 = Some s1 → ∃ s2, calls c !! k1 = Some s2 ∧ idOf s1 = idOf s2).
    { intros k1 s1. destruct (decide (k = k1)) as [<-|Hne];
        [rewrite lookup_insert_eq; intros [= <-]; eauto|rewrite lookup_insert_ne by done; eauto]. }
    intros k1 k2 s1 s2 (t1 & H1 & E1)%Hall (t2 & H2 & E2)%Hall E.
    apply (ok_unique c Hc k1 k2 t1 t2); congruence.
  - intros id k1 [Hne Hp]%lookup_delete_Some. destruct (ok_pending c Hc id k1 Hp) as (p & E).
    exists p. rewrite lookup_insert_ne; [done|]. intros ->. rewrite E in Hk. by injection Hk as <-.
  - intros k1 s1 r. destruct (decide (k = k1)) as [<-|Hne].
    + rewrite lookup_insert_eq. intros [= <-]. apply Hans.
    + rewrite lookup_insert_ne by done. apply Hc.
  - apply Hc.
  - apply Hc.
Qed.

(** A step that removes nothing but the pending entry of a call that has no
    entry any more. *)
Lemma updateCall_ok' c k s s' :
  conn_ok c → calls c !! k = Some s → idOf s' = idOf s →
  (∀ r, answerOf s' = Some r → r = idOf s') →
  (∀ id, pending c !! id = Some k → False) →
  conn_ok (setCall c k s').
Proof.
  intros Hc Hk Hid Hans Hno.
  assert (E : setCall c k s' = setCall (removePending c (idOf s)) k s').
  { unfold setCall, removePending. simpl. f_equal. symmetry. apply delete_id.
    destruct (pending c !! idOf s) as [k1|] eqn:Ep; [|done].
    destruct (ok_pending c Hc _ _ Ep) as (p & E1).
    assert (k1 = k) as -> by (eapply (ok_unique c Hc); [exact E1|exact Hk|done]).
    by destruct (Hno (idOf s)). }
  rewrite E. by apply updateCall_ok.
Qed.

Lemma deliver_ok c id : conn_ok c → conn_ok (deliver c id).
Proof.
  intros Hc. unfold deliver. destruct (pending c !! id) as [k|] eqn:Ep; [|done].
  destruct (ok_pending c Hc id k Ep) as (p & Ek). simpl. rewrite Ek.
  apply (updateCall_ok c k (Calling id p None)); [done..|]. simpl. congruence.
Qed.

(** Stages and pending entries can be dropped freely. *)
Lemma shrink_ok c pend pr ps :
  conn_ok c → (∀ id k, pend !! id = Some k → pending c !! id = Some k) →
  (∀ p, ps !! p = Some Alive → pr = Some p) →
  conn_ok (mkConn (nextID c) pend pr ps (calls c)).
Proof. intros Hc Hp Hs. split; simpl; try apply Hc; [|done]. intros id k H. apply Hc. by apply Hp. Qed.

Lemma step_ok c e c' :
  conn_ok c → nextID c < max_int64 → step c e = Some c' →
  conn_ok c' ∧ nextID c' <= nextID c + 1.
Proof.
  intros Hc Hn. destruct e as [p|k p|k|id|k|k|k|p|p|k]; simpl.
  - unfold ensureStarted. destruct (match proc c with Some q => running c q | None => false end) eqn:Er; [done|].
    case_decide; [|done]. intros [= <-]. split; [|simpl; lia]. apply shrink_ok; [done..|].
    intros q. rewrite lookup_insert_Some. intros [[-> _]|[Hne Hq]]; [done|].
    pose proof (ok_single c Hc q Hq) as Hs. rewrite Hs in Er. apply running_false in Er. done.
  - unfold registerCall. case_decide as Hk; [|done]. destruct Hk as [Hk _]. intros [= <-].
    pose proof (ok_next c Hc). rewrite wrap64_id by (unfold in_int64, min_int64; lia).
    split; [|simpl; lia]. split; simpl.
    + intros k1 s. rewrite lookup_insert_Some. intros [[-> <-]|[Hne Hs]]; simpl; [lia|].
      pose proof (ok_ids c Hc k1 s Hs). lia.
    + intros k1 k2 s1 s2. rewrite !lookup_insert_Some.
      intros [[-> <-]|[Hne1 H1]] [[-> <-]|[Hne2 H2]]; simpl; try done.
      * pose proof (ok_ids c Hc _ _ H2). lia.
      * pose proof (ok_ids c Hc _ _ H1). lia.
      * by apply (ok_unique c Hc).
    + intros id k1. rewrite lookup_insert_Some. intros [[<- <-]|[Hne Hp]]; [exists p; by rewrite lookup_insert_eq|].
      destruct (ok_pending c Hc id k1 Hp) as (q & E). exists q. rewrite lookup_insert_ne; congruence.
    + intros k1 s r. rewrite lookup_insert_Some. intros [[-> <-]|[Hne Hs]]; [done|]. by apply (ok_answer c Hc k1).
    + apply Hc.
    + lia.
  - destruct (calls c !! k) as [[id p box| |]|] eqn:Ek; try done. intros [= <-]. split; [|simpl; lia].
    by apply (updateCall_ok c k (Calling id p box)).
  - intros [= <-]. split; [by apply deliver_ok|]. unfold deliver. repeat case_match; simpl; lia.
  - destruct (calls c !! k) as [[id p [r|]| |]|] eqn:Ek; try done. intros [= <-]. split; [|simpl; lia].
    apply (updateCall_ok' c k (Calling id p (Some r))); [done..| |].
    + simpl. intros r' [= <-]. by apply (ok_answer c Hc k _ r Ek).
    + intros id' Hp. destruct (ok_pending c Hc id' k Hp) as (q & E). congruence.
  - destruct (calls c !! k) as [[id p box| |]|] eqn:Ek; try done. intros [= <-]. split; [|simpl; lia].
    by apply (updateCall_ok c k (Calling id p box)).
  - destruct (calls c !! k) as [[id p box| |]|] eqn:Ek; try done. destruct (running c p); [done|].
    intros [= <-]. split; [|simpl; lia]. by apply (updateCall_ok c k (Calling id p box)).
  - destruct (running c p); [|done]. intros [= <-]. split; [|simpl; lia]. apply shrink_ok; [done..|].
    intros q. rewrite lookup_insert_Some. intros [[_ ?]|[_ Hq]]; [done|]. by apply Hc.
  - case_decide as Hp; [|done]. intros [= <-]. split; [|simpl; lia]. apply shrink_ok; [done|done|].
    intros q. rewrite lookup_insert_Some. intros [[_ ?]|[Hne Hq]]; [done|].
    apply (ok_single c Hc) in Hq. rewrite Hq. rewrite decide_False; congruence.
  - destruct (calls c !! k) as [[|id p|]|] eqn:Ek; try done. case_decide; [|done].
    intros [= <-]. split; [|simpl; lia]. apply (updateCall_ok' c k (Failing id p)); [done..|].
    intros id' Hp. destruct (ok_pending c Hc id' k Hp) as (q & E). congruence.
Qed.

Lemma rpcRun_ok c es c' :
  conn_ok c → nextID c + Z.of_nat (length es) <= max_int64 → run c es = Some c' →
  conn_ok c' ∧ nextID c' <= nextID c + Z.of_nat (length es).
Proof.
  revert c. induction es as [|e es IH]; intros c Hc Hn; simpl in *.
  - intros [= <-]. split; [done|lia].
  - intros (c1 & H1 & H2)%bind_Some. destruct (step_ok c e c1) as [Hc1 Hn1]; [done|lia|done|].
    destruct (IH c1) as [? ?]; [done|lia|done|]. split; [done|lia].
Qed.

(** C34. Whatever callers, children, timeouts and stops interleave: a call that
    returns with a response returns the one with its own id, ids are not
    shared, every entry of [pending] belongs to a call that still waits with
    an empty channel (so no entry leaks and the read loop never blocks), and
    at most one child was not told to stop. *)
Theorem Rpc_correlated (es : list event) (c : conn)
    (Hlen : Z.of_nat (length es) <= max_int64) (Hrun : run NewCodex es = Some c) :
  (∀ k id r, calls c !! k = Some (Returned id (Some r)) → r = id) ∧
  (∀ k k' s s', calls c !! k = Some s → calls c !! k' = Some s' → idOf s = idOf s' → k = k') ∧
  (∀ id k, pending c !! id = Some k → ∃ p, calls c !! k = Some (Calling id p None)) ∧
  (∀ p p', procs c !! p = Some Alive → procs c !! p' = Some Alive → p = p').
Proof.
  destruct (rpcRun_ok NewCodex es c NewCodex_ok) as [Hc _]; [done|done|]. split_and!.
  - intros k id r Hk. by apply (ok_answer c Hc k _ r Hk).
  - apply Hc.
  - apply Hc.
  - intros p p' Hp Hp'. apply (ok_single c Hc) in Hp. apply (ok_single c Hc) in Hp'. congruence.
Qed.

Definition two_calls : list event :=
  [Spawn 0; Register 0 0; Reply 7; Register 1 0; Reply 2; Reply 1; Receive 1; Reply 2; Receive 0].

Lemma Rpc_correlated_witness :
  match run NewCodex two_calls with
  | Some c => calls c !! 0%nat = Some (Returned 1 (Some 1)) ∧ calls c !! 1%nat = Some (Returned 2 (Some 2)) ∧
              (∀ k id r, calls c !! k = Some (Returned id (Some r)) → r = id)
  | None => False
  end.
Proof.
  destruct (run NewCodex two_calls) as [c|] eqn:E; [|by vm_compute in E].
  split; [vm_compute in E; by injection E as <-|]. split; [vm_compute in E; by injection E as <-|].
  by apply (Rpc_correlated two_calls).
Defined.

(** ** Calls on a live child *)

(** No child is half stopped when a child is started. *)
Definition quiet (c : conn) : bool := bool_decide (map_Forall (λ _ s, s ≠ Closing) (procs c)).
Fixpoint calm (c : conn) (es : list event) : bool :=
  match es with
  | [] => true
  | e :: es =>
    match e with Spawn _ => quiet c | _ => true end &&
    match step c e with Some c' => calm c' es | None => true end
  end.

(** Every unanswered call on a live child is still pending. *)
Record attended (c : conn) : Prop := {
  att_quiet : ∀ p q, procs c !! p = Some Alive → procs c !! q ≠ Some Closing;
  att_child : ∀ k id p box, calls c !! k = Some (Calling id p box) → procs c !! p ≠ None;
  att_pending : ∀ k id p, calls c !! k = Some (Calling id p None) → procs c !! p = Some Alive →
                pending c !! id = Some k
}.

(** A step that takes the entry of a call with it. *)
Lemma attended_update c k s s' :
  conn_ok c → attended c → calls c !! k = Some s →
  (∀ id p box, s' = Calling id p box → s = Calling id p None ∧ box ≠ None) →
  attended (setCall (removePending c (idOf s)) k s').
Proof.
  intros Hc Ha Hk Hs'. split; simpl; [apply Ha|..].
  - intros k1 id p box. rewrite lookup_insert_Some. intros [[<- E]|[Hne Hk1]]; [|by eapply att_child].
    destruct (Hs' id p box E) as [-> _]. by eapply att_child.
  - intros k1 id p. rewrite lookup_insert_Some. intros [[<- E]|[Hne Hk1]] Hp.
    + by destruct (Hs' id p None E).
    + rewrite lookup_delete_ne; [by eapply att_pending|].
      intros E. apply Hne. by apply (ok_unique c Hc k k1 s (Calling id p None)).
Qed.

Lemma attended_update' c k s' :
  attended c → (∀ id p box, s' ≠ Calling id p box) → attended (setCall c k s').
Proof.
  intros Ha Hs'. split; simpl; [apply Ha|..].
  - intros k1 id p box. rewrite lookup_insert_Some. intros [[_ E]|[_ Hk1]]; [by destruct (Hs' id p box)|by eapply att_child].
  - intros k1 id p. rewrite lookup_insert_Some. intros [[_ E]|[_ Hk1]]; [by destruct (Hs' id p None)|by eapply att_pending].
Qed.

Lemma deliver_attended c id : conn_ok c → attended c → attended (deliver c id).
Proof.
  intros Hc Ha. unfold deliver. destruct (pending c !! id) as [k|] eqn:Ep; [|done].
  destruct (ok_pending c Hc id k Ep) as (p & Ek). simpl. rewrite Ek.
  apply (attended_update c k (Calling id p None)); [done..|]. intros i q box [= <- <- <-]. done.
Qed.

Lemma stop_attended c p s :
  attended c → procs c !! p = Some Alive ∨ procs c !! p = Some Closing → s ≠ Alive → conn_ok c →
  ∀ pend pr, (∀ q, q ≠ p → procs c !! q = Some Alive → pend = pending c) →
  attended (mkConn (nextID c) pend pr (<[p := s]> (procs c)) (calls c)).
Proof.
  intros Ha Hp Hs Hc pend pr Hpend. split; simpl.
  - intros p1 q. rewrite !lookup_insert_Some. intros [[_ ?]|[Hne1 H1]] [[<- ?]|[Hne2 H2]]; [done|done| |].
    + destruct Hp as [Hp|Hp]; [|by eapply att_quiet].
      apply (ok_single c Hc) in Hp. apply (ok_single c Hc) in H1. congruence.
    + by eapply att_quiet.
  - intros k id q box Hk. rewrite lookup_insert_None. intros [Hq _]. by eapply att_child.
  - intros k id q Hk. rewrite lookup_insert_Some. intros [[_ ?]|[Hne Hq]]; [done|].
    rewrite (Hpend q); [|done|done]. by eapply att_pending.
Qed.

Lemma attended_step c e c' :
  conn_ok c → nextID c < max_int64 → attended c →
  (∀ p, e = Spawn p → ∀ q, procs c !! q ≠ Some Closing) →
  step c e = Some c' → attended c'.
Proof.
  intros Hc Hn Ha Hcalm. destruct e as [p|k p|k|id|k|k|k|p|p|k]; simpl.
  - unfold ensureStarted. destruct (match proc c with Some q => running c q | None => false end); [done|].
    case_decide as Hp; [|done]. intros [= <-]. split; simpl.
    + intros p1 q _. rewrite lookup_insert_Some. intros [[_ ?]|[_ Hq]]; [done|]. by destruct (Hcalm p eq_refl q).
    + intros k id q box Hk. rewrite lookup_insert_None. intros [Hq _]. by eapply att_child.
    + intros k id q Hk. rewrite lookup_insert_Some. intros [[<- _]|[_ Hq]]; [|by eapply att_pending].
      by destruct (att_child c Ha k id p None Hk).
  - unfold registerCall. case_decide as Hk; [|done]. destruct Hk as [Hk Hpp]. intros [= <-].
    pose proof (ok_next c Hc). rewrite wrap64_id by (unfold in_int64, min_int64; lia).
    split; simpl; [apply Ha|..].
    + intros k1 id q box. rewrite lookup_insert_Some. intros [[_ [= _ <- _]]|[_ Hk1]]; [done|by eapply att_child].
    + intros k1 id q. rewrite lookup_insert_Some. intros [[<- [= <- _]]|[_ Hk1]] Hq; [apply lookup_insert_eq|].
      rewrite lookup_insert_ne; [by eapply att_pending|]. pose proof (ok_ids c Hc _ _ Hk1). simpl in *. lia.
  - destruct (calls c !! k) as [[id p box| |]|] eqn:Ek; try done. intros [= <-].
    by apply (attended_update c k (Calling id p box)).
  - intros [= <-]. by apply deliver_attended.
  - destruct (calls c !! k) as [[id p [r|]| |]|] eqn:Ek; try done. intros [= <-]. by apply attended_update'.
  - destruct (calls c !! k) as [[id p box| |]|] eqn:Ek; try done. intros [= <-].
    by apply (attended_update c k (Calling id p box)).
  - destruct (calls c !! k) as [[id p box| |]|] eqn:Ek; try done. destruct (running c p); [done|].
    intros [= <-]. by apply (attended_update c k (Calling id p box)).
  - destruct (running c p) eqn:Er; [|done]. apply running_true in Er. intros [= <-].
    apply stop_attended; auto.
  - case_decide as Hp; [|done]. intros [= <-]. apply stop_attended; auto.
    intros q Hne Hq. by destruct (att_quiet c Ha q p).
  - destruct (calls c !! k) as [[|id p|]|] eqn:Ek; try done. case_decide; [|done].
    intros [= <-]. by apply attended_update'.
Qed.

Lemma attended_run c es c' :
  conn_ok c → nextID c + Z.of_nat (length es) <= max_int64 → attended c → calm c es = true →
  run c es = Some c' → attended c'.
Proof.
  revert c. induction es as [|e es IH]; intros c Hc Hn Ha; [by intros _ [= <-]|].
  intros [Hcalm Hrest]%andb_true_iff.
  cbn [run]. cbn [length] in Hn. intros (c1 & H1 & H2)%bind_Some. rewrite H1 in Hrest.
  assert (Hb : nextID c < max_int64) by lia.
  destruct (step_ok c e c1 Hc Hb H1) as [Hc1 Hn1].
  apply (IH c1); [done|lia| |done|done]. apply (attended_step c e c1 Hc Hb Ha); [|done].
  intros p -> q Hq. apply bool_decide_eq_true in Hcalm. by apply (Hcalm q Closing).
Qed.

(** As long as no child is started between the two halves of another
    child's stop, no call is forgotten: a call on a live child that has no
    response yet is pending under its id, so the child's response reaches it. *)
Theorem Rpc_calls_attended (es : list event) (c : conn) (k : nat) (id : Z) (p : nat)
    (Hlen : Z.of_nat (length es) <= max_int64) (Hrun : run NewCodex es = Some c) (Hcalm : calm NewCodex es = true)
    (Hk : calls c !! k = Some (Calling id p None)) (Hp : procs c !! p = Some Alive) :
  pending c !! id = Some k ∧
  ∃ c', run c [Reply id; Receive k] = Some c' ∧ calls c' !! k = Some (Returned id (Some id)).
Proof.
  assert (Ha : attended c).
  { by apply (attended_run NewCodex es c NewCodex_ok); [|split|..]. }
  pose proof (att_pending c Ha k id p Hk Hp) as Hpend. split; [done|].
  simpl. unfold deliver. rewrite Hpend. simpl. rewrite Hk. simpl. rewrite lookup_insert_eq. simpl.
  eexists. split; [done|]. simpl. by rewrite lookup_insert_eq.
Qed.

Lemma Rpc_calls_attended_witness :
  match run NewCodex [Spawn 0; StopBegins 0; StopEnds 0; Spawn 1; Register 0 1] with
  | Some c => pending c !! 1 = Some 0%nat
  | None => False
  end.
Proof.
  destruct (run NewCodex [Spawn 0; StopBegins 0; StopEnds 0; Spawn 1; Register 0 1]) as [c|] eqn:E; [|by vm_compute in E].
  apply (Rpc_calls_attended [Spawn 0; StopBegins 0; StopEnds 0; Spawn 1; Register 0 1] c 0 1 1).
  - done.
  - done.
  - vm_compute. reflexivity.
  - vm_compute in E. by injection E as <-.
  - vm_compute in E. by injection E as <-.
Defined.

(** ** The race of a stop with a start *)

(** A call that lost its entry is never answered: ids are not used again. *)
Lemma forgotten_step c e c' k id :
  conn_ok c → nextID c < max_int64 → pending c !! id ≠ Some k →
  (∃ s, calls c !! k = Some s ∧ idOf s = id ∧ answerOf s = None) →
  step c e = Some c' →
  pending c' !! id ≠ Some k ∧ ∃ s, calls c' !! k = Some s ∧ idOf s = id ∧ answerOf s = None.
Proof.
  intros Hc Hn Hp (s & Hk & Hid & Hans) H.
  destruct (step_ok c e c' Hc Hn H) as [Hc' _].
  assert (Hmove : ∀ k1 s1 s' (pend : gmap Z nat), calls c !! k1 = Some s1 →
    (k1 = k → idOf s' = id ∧ answerOf s' = None) →
    (∀ i j, pend !! i = Some j → pending c !! i = Some j) →
    pend !! id ≠ Some k ∧ ∃ s, <[k1 := s']> (calls c) !! k = Some s ∧ idOf s = id ∧ answerOf s = None).
  { intros k1 s1 s' pend H1 Hs' Hpend. split; [by intros ?%Hpend|].
    destruct (decide (k1 = k)) as [->|Hne]; [rewrite lookup_insert_eq; destruct Hs'; eauto|].
    rewrite lookup_insert_ne by done. eauto. }
  assert (Hdel : ∀ i j id', delete id' (pending c) !! i = Some j → pending c !! i = Some j)
    by (by intros i j id' [_ ?]%lookup_delete_Some).
  destruct e as [p|k1 p|k1|i|k1|k1|k1|p|p|k1]; simpl in H.
  - unfold ensureStarted in H. destruct (match proc c with Some q => running c q | None => false end); [done|].
    case_decide; [|done]. injection H as <-. simpl. eauto.
  - unfold registerCall in H. case_decide as Hk1; [|done]. injection H as <-. simpl. destruct Hk1 as [Hk1 _].
    assert (k1 ≠ k) by congruence. split; [|rewrite lookup_insert_ne by done; eauto].
    rewrite lookup_insert_Some. by intros [[_ ?]|[_ ?]].
  - destruct (calls c !! k1) as [[i p box| |]|] eqn:E; try done. injection H as <-. simpl.
    eapply Hmove; [exact E| |by eauto]. intros ->. rewrite Hk in E. injection E as ->. auto.
  - injection H as <-. unfold deliver. destruct (pending c !! i) as [k1|] eqn:Ei; [|eauto].
    destruct (ok_pending c Hc i k1 Ei) as (p & E). simpl. rewrite E. simpl.
    eapply Hmove; [exact E| |by eauto]. intros ->. rewrite Hk in E. injection E as ->. simpl in Hid. congruence.
  - destruct (calls c !! k1) as [[i p [r|]| |]|] eqn:E; try done. injection H as <-. simpl.
    eapply Hmove; [exact E| |done]. intros ->. rewrite Hk in E. injection E as ->. done.
  - destruct (calls c !! k1) as [[i p box| |]|] eqn:E; try done. injection H as <-. simpl.
    eapply Hmove; [exact E| |by eauto]. intros ->. rewrite Hk in E. injection E as ->. auto.
  - destruct (calls c !! k1) as [[i p box| |]|] eqn:E; try done. destruct (running c p); [done|].
    injection H as <-. simpl.
    eapply Hmove; [exact E| |by eauto]. intros ->. rewrite Hk in E. injection E as ->. auto.
  - destruct (running c p); [|done]. injection H as <-. simpl. eauto.
  - case_decide; [|done]. injection H as <-. simpl. split; [by rewrite lookup_empty|eauto].
  - destruct (calls c !! k1) as [[|i p|]|] eqn:E; try done. case_decide; [|done]. injection H as <-. simpl.
    eapply Hmove; [exact E| |done]. intros ->. rewrite Hk in E. injection E as ->. auto.
Qed.

Lemma forgotten_run c es c' k id :
  conn_ok c → nextID c + Z.of_nat (length es) <= max_int64 → pending c !! id ≠ Some k →
  (∃ s, calls c !! k = Some s ∧ idOf s = id ∧ answerOf s = None) →
  run c es = Some c' → ∃ s, calls c' !! k = Some s ∧ idOf s = id ∧ answerOf s = None.
Proof.
  revert c. induction es as [|e es IH]; intros c Hc Hn Hp Hs; [by intros [= <-]|].
  cbn [run]. cbn [length] in Hn. intros (c1 & H1 & H2)%bind_Some.
  assert (Hb : nextID c < max_int64) by lia.
  destruct (step_ok c e c1 Hc Hb H1) as [Hc1 Hn1].
  destruct (forgotten_step c e c1 k id Hc Hb Hp Hs H1) as [Hp1 Hs1].
  apply (IH c1); [done|lia|done..].
Qed.

Definition race_events : list event := [Spawn 0; StopBegins 0; Spawn 1; Register 0 1; StopEnds 0].

(** [stopProcess] clears the pending calls of every child, not only of the
    one it stops: when a new child is started between the two halves of an
    old child's stop, a call on the live new child can lose its entry, and
    then no response ever reaches it, whatever happens next; it can only time
    out, and that stops the healthy child. *)
Theorem Stop_forgets_other_calls :
  ∃ es c k id p,
    run NewCodex es = Some c ∧ proc c = Some p ∧ procs c !! p = Some Alive ∧
    calls c !! k = Some (Calling id p None) ∧
    ∀ es' c', nextID c + Z.of_nat (length es') <= max_int64 → run c es' = Some c' →
      ∀ r, calls c' !! k ≠ Some (Returned id (Some r)).
Proof.
  destruct (run NewCodex race_events) as [c|] eqn:E;
    [|by vm_compute in E].
  destruct (rpcRun_ok NewCodex race_events c NewCodex_ok ltac:(done) E) as [Hc _].
  exists race_events, c, 0%nat, 1, 1%nat.
  vm_compute in E. injection E as E. subst c. split; [done|]. split; [done|]. split; [done|]. split; [done|].
  intros es' c' Hn Hrun r Hk.
  destruct (forgotten_run _ es' c' 0%nat 1 Hc Hn) as (s & Hs & _ & Ha); [by vm_compute| |done|].
  { eexists. split; [vm_compute; reflexivity|done]. }
  rewrite Hk in Hs. by injection Hs as <-.
Qed.
