(* ===== verification/CodexSession.v ===== *)
(** * internal/collector: sessions with the app-server

    [Collect], [ReleaseIdleResources] and [Close] of [codex.go] with the
    functions they call, as programs over the connection of [CodexRpc].  A
    program is a tree of the actions at which its goroutine meets the others;
    the read loops of the children, and whatever kills a child, run between
    them.  The answers of the app-server are raw text that the caller
    decodes. *)

From S2P Require Import Prelude GoTime GoText Json Model Codex CodexRpc.

(** ** Actions *)

(** The lines written to a child. *)
Inductive message :=
| InitializeRequest | InitializedNotification
| AccountReadRequest (refreshToken : bool) | RateLimitsReadRequest.

#[global] Instance message_eq_dec : EqDecision message.
Proof. solve_decision. Defined.

(** A response: its error, and its result as raw text. *)
Record rpcResponse := mkRpcResponse { rp_Error : option rpcError; rp_Result : string }.

Inductive awaited := Response (r : rpcResponse) | ContextDone | ProcessDone.

Inductive op :=
| GetProc                                          (* [c.proc], under the lock *)
| IsDone (p : nat)                                 (* whether [done] is closed *)
| StartCommand                                     (* the pipes and [cmd.Start] *)
| NewCall (p : nat)                                (* an id and its channel in [pending] *)
| WriteJSON (k : option nat) (p : nat) (m : message)
| Await (k : nat)                                  (* the select of [callOnProcess] *)
| StopProcess (k : option nat) (p : nat)
| WaitExited (p : nat) (withContext : bool)
| Now.

(** [StartCommand] gives the child, [NewCall] the number of the call, and
    [WriteJSON] and [WaitExited] whether they succeeded. *)
Definition resultOf (o : op) : Type :=
  match o with
  | GetProc | StartCommand => option nat
  | IsDone _ | WriteJSON _ _ _ | WaitExited _ _ => bool
  | NewCall _ => nat
  | Await _ => awaited
  | StopProcess _ _ => unit
  | Now => Time
  end.

Inductive prog (A : Type) : Type :=
| Ret (a : A)
| Act (o : op) (k : resultOf o → prog A).
Arguments Ret {A} a.
Arguments Act {A} o k.

Fixpoint bindProg {A B} (p : prog A) (f : A → prog B) : prog B :=
  match p with Ret a => f a | Act o k => Act o (λ x, bindProg (k x) f) end.

#[global] Instance prog_ret : MRet prog := @Ret.
#[global] Instance prog_bind : MBind prog := λ A B f p, bindProg p f.

Definition act (o : op) : prog (resultOf o) := Act o Ret.

(** ** The functions of the collector *)

Section session.
Context (decodeAccount : string → option accountResponse) (decodeLimits : string → option rateLimitsResponse).

(** The order in which the limits by identifier are visited. *)
Context (order : gmap string rateLimitSnapshot → list rateLimitSnapshot).

(** [callOnProcess]: [zero] is the value [out] has before the call. *)
Definition callOnProcess {R} (p : nat) (m : message) (decode : string → option R) (zero : R) : prog (result callError R) :=
  k ← act (NewCall p);
  written ← act (WriteJSON (Some k) p m);
  if negb written then _ ← act (StopProcess (Some k) p); mret (Err None)
  else
    got ← act (Await k);
    match got with
    | Response response =>
      mret match rp_Error response with
      | Some e => Err (Some e)
      | None =>
        if bool_decide (rp_Result response = "") || bool_decide (rp_Result response = "null") then Ok zero
        else match decode (rp_Result response) with Some out => Ok out | None => Err None end
      end
    | ContextDone => _ ← act (StopProcess (Some k) p); mret (Err None)
    | ProcessDone => mret (Err None)
    end.

Definition call {R} (m : message) (decode : string → option R) (zero : R) : prog (result callError R) :=
  p ← act GetProc;
  match p with
  | None => mret (Err None)
  | Some p => callOnProcess p m decode zero
  end.

(** [notify], and with it [writeJSON]. *)
Definition notify (p : nat) (m : message) : prog bool := act (WriteJSON None p m).

Definition ensureStarted : prog (result callError unit) :=
  current ← act GetProc;
  done ← match current with Some q => act (IsDone q) | None => mret true end;
  if negb done then mret (Ok ())
  else
    started ← act StartCommand;
    match started with
    | None => mret (Err None)
    | Some p =>
      initialized ← callOnProcess p InitializeRequest (λ _, Some ()) ();
      match initialized with
      | Err e => _ ← act (StopProcess None p); mret (Err e)
      | Ok _ =>
        notified ← notify p InitializedNotification;
        if notified : bool then mret (Ok ()) else _ ← act (StopProcess None p); mret (Err None)
      end
    end.

(** Whether the wait succeeded. *)
Definition resetCurrentProcessAndWait : prog bool :=
  p ← act GetProc;
  match p with
  | None => mret true
  | Some p => _ ← act (StopProcess None p); act (WaitExited p true)
  end.

Definition ReleaseIdleResources : prog unit :=
  p ← act GetProc;
  match p with
  | None => mret ()
  | Some p => _ ← act (StopProcess None p); _ ← act (WaitExited p false); mret ()
  end.

Definition Close : prog unit :=
  p ← act GetProc;
  match p with None => mret () | Some p => act (StopProcess None p) end.

(** The zero values of the two answers. *)
Definition noAccount : accountResponse := mkAccountResponse None false.
Definition noLimits : rateLimitsResponse := mkRateLimitsResponse (mkRateLimitSnapshot None None None None) ∅.

Definition failed (code : string) (err : callError) : prog outcome :=
  now ← act Now; mret (unavailableReport "codex-app-server" code now, Some err).

Definition loginRequired : prog outcome := now ← act Now; mret (codexLoginRequiredReport now, None).

Definition collectAttempt (refreshToken : bool) : prog outcome :=
  started ← ensureStarted;
  match started with
  | Err err => failed "start_failed" err
  | Ok _ =>
    account ← call (AccountReadRequest refreshToken) decodeAccount noAccount;
    match account with
    | Err err => failed "account_read_failed" err
    | Ok account =>
      if bool_decide (Account account = None) && RequiresOpenAIAuth account then
        exited ← resetCurrentProcessAndWait;
        if exited : bool then loginRequired else failed "account_read_failed" None
      else
        limits ← call RateLimitsReadRequest decodeLimits noLimits;
        match limits with
        | Err err => failed "rate_limits_read_failed" err
        | Ok limits =>
          now ← act Now;
          mret (normalizeCodex account limits (order (RateLimitsByLimitID limits)) now, None)
        end
    end
  end.

Definition Collect : prog outcome :=
  first ← collectAttempt false;
  let '(report, err) := first in
  match err with
  | None => mret (report, None)
  | Some err =>
    let refreshable := isCodexRefreshableAuthError err in
    exited ← resetCurrentProcessAndWait;
    if negb exited then mret (report, Some None)
    else if negb refreshable then mret (report, Some err)
    else
      second ← collectAttempt true;
      let '(report, err) := second in
      match err with
      | None => mret (report, None)
      | Some err =>
        let retryWasAuthFailure := isCodexRefreshableAuthError err in
        exited ← resetCurrentProcessAndWait;
        if negb exited then mret (report, Some None)
        else if retryWasAuthFailure then loginRequired
        else mret (report, Some err)
      end
  end.

(** What an agent asks of the collector, one operation after the other. *)
Inductive operation := DoCollect | DoRelease | DoClose.

#[global] Instance operation_eq_dec : EqDecision operation.
Proof. solve_decision. Defined.

Definition perform (o : operation) : prog (list outcome) :=
  match o with
  | DoCollect => out ← Collect; mret [out]
  | DoRelease => _ ← ReleaseIdleResources; mret []
  | DoClose => _ ← Close; mret []
  end.

Fixpoint serve (l : list operation) : prog (list outcome) :=
  match l with
  | [] => mret []
  | o :: l => outs ← perform o; rest ← serve l; mret (outs ++ rest)
  end.
End session.

(** ** Their meaning *)

(** The connection, the responses in the channels of the calls, the lines
    written so far and the children that have been waited for. *)
Record world := mkWorld {
  wd_conn : conn;
  wd_inbox : gmap nat rpcResponse;
  wd_sent : list (nat * message);
  wd_exited : gset nat
}.

Definition newWorld : world := mkWorld NewCodex ∅ [] ∅.

Definition onConn (w : world) (c : conn) : world := mkWorld c (wd_inbox w) (wd_sent w) (wd_exited w).
Definition stepConn (w : world) (e : event) : option world := c ← step (wd_conn w) e; Some (onConn w c).

(** What the other goroutines and the children do. *)
Inductive outside :=
| Responds (id : Z) (r : rpcResponse)   (* the read loop gets a line with an id *)
| BeginsStop (p : nat)                  (* [stopProcess] closes [done] *)
| EndsStop (p : nat)                    (* and clears [proc] and [pending] *)
| Reaped (p : nat).                     (* [cmd.Wait] returns *)

Definition stepOutside (w : world) (e : outside) : option world :=
  match e with
  | Responds id r =>
    let inbox :=
      match pending (wd_conn w) !! id with
      | Some k => match calls (wd_conn w) !! k with Some (Calling _ _ None) => <[k := r]> (wd_inbox w) | _ => wd_inbox w end
      | None => wd_inbox w
      end in
    w ← stepConn w (Reply id); Some (mkWorld (wd_conn w) inbox (wd_sent w) (wd_exited w))
  | BeginsStop p => stepConn w (StopBegins p)
  | EndsStop p => stepConn w (StopEnds p)
  | Reaped p =>
    if decide (is_Some (procs (wd_conn w) !! p) ∧ running (wd_conn w) p = false)
    then Some (mkWorld (wd_conn w) (wd_inbox w) (wd_sent w) ({[p]} ∪ wd_exited w)) else None
  end.

Fixpoint runOutside (w : world) (es : list outside) : option world :=
  match es with [] => Some w | e :: es => w ← stepOutside w e; runOutside w es end.

(** How an action ends, where it has a choice. *)
Inductive choice :=
| Succeeds | Fails_ | Starts (p : nat) | Numbered (k : nat) | GotReply | TimedOut | ChildGone | At (t : Time).

(** [StopProcess] returns when the stop is finished, whoever runs it. *)
Definition stepOp (o : op) (a : choice) (w : world) : option (resultOf o * world) :=
  match o return option (resultOf o * world) with
  | GetProc => Some (proc (wd_conn w), w)
  | IsDone p => Some (negb (running (wd_conn w) p), w)
  | StartCommand =>
    match a with
    | Starts p => w ← stepConn w (Spawn p); Some (Some p, w)
    | Fails_ => Some (None, w)
    | _ => None
    end
  | NewCall p => match a with Numbered k => w ← stepConn w (Register k p); Some (k, w) | _ => None end
  | WriteJSON k p m =>
    match a with
    | Succeeds =>
      if decide (proc (wd_conn w) = Some p)
      then Some (true, mkWorld (wd_conn w) (wd_inbox w) (wd_sent w ++ [(p, m)]) (wd_exited w)) else None
    | Fails_ => w ← match k with Some k => stepConn w (WriteFails k) | None => Some w end; Some (false, w)
    | _ => None
    end
  | Await k =>
    match a with
    | GotReply => r ← wd_inbox w !! k; w ← stepConn w (Receive k); Some (Response r, w)
    | TimedOut => w ← stepConn w (TimesOut k); Some (ContextDone, w)
    | ChildGone => w ← stepConn w (Disconnected k); Some (ProcessDone, w)
    | _ => None
    end
  | StopProcess k p =>
    w ← match k with
        | Some k => stepConn w (Fails k)
        | None => if decide (procs (wd_conn w) !! p = Some Stopped) then Some w else None
        end;
    Some ((), w)
  | WaitExited p withContext =>
    match a with
    | Succeeds => if decide (p ∈ wd_exited w) then Some (true, w) else None
    | Fails_ => if withContext : bool then Some (false, w) else None
    | _ => None
    end
  | Now => match a with At t => Some (t, w) | _ => None end
  end.

(** A run interleaves both. *)
Inductive label := Outside (e : outside) | Inside (a : choice).

Fixpoint execute {A} (p : prog A) (w : world) (ls : list label) : option (prog A * world) :=
  match ls with
  | [] => Some (p, w)
  | Outside e :: ls => w ← stepOutside w e; execute p w ls
  | Inside a :: ls =>
    match p with
    | Ret _ => None
    | Act o k => '(x, w) ← stepOp o a w; execute (k x) w ls
    end
  end.
