(* ===== verification/CodexSessionFacts.v ===== *)
(** * Facts about the sessions with the app-server

    A weakest precondition for the collector's programs, under any
    interference by the other goroutines, and what it shows: the protocol that
    every child sees, and that [Collect] makes the decisions of [Codex]. *)

From S2P Require Import Prelude GoTime GoText Json Model Codex CodexRpc CodexSession.

(** ** The outside *)

Record wf (w : world) : Prop := {
  wf_proc : ∀ p, proc (wd_conn w) = Some p → procs (wd_conn w) !! p = Some Alive ∨ procs (wd_conn w) !! p = Some Closing;
  wf_alive : ∀ p, procs (wd_conn w) !! p = Some Alive → proc (wd_conn w) = Some p;
  wf_sent : ∀ p m, (p, m) ∈ wd_sent w → is_Some (procs (wd_conn w) !! p)
}.

(** What the outside leaves alone. *)
Record rely (w w' : world) : Prop := {
  ry_wf : wf w → wf w';
  ry_sent : wd_sent w' = wd_sent w;
  ry_proc : proc (wd_conn w') = proc (wd_conn w) ∨ proc (wd_conn w') = None;
  ry_known : ∀ p, is_Some (procs (wd_conn w) !! p) → is_Some (procs (wd_conn w') !! p);
  ry_stopped : ∀ p, procs (wd_conn w) !! p = Some Stopped → procs (wd_conn w') !! p = Some Stopped;
  ry_ended : ∀ p, is_Some (procs (wd_conn w) !! p) → procs (wd_conn w) !! p ≠ Some Alive → procs (wd_conn w') !! p ≠ Some Alive;
  ry_calling : ∀ k id p, (∃ box, calls (wd_conn w) !! k = Some (Calling id p box)) → ∃ box, calls (wd_conn w') !! k = Some (Calling id p box);
  ry_failing : ∀ k id p, calls (wd_conn w) !! k = Some (Failing id p) → calls (wd_conn w') !! k = Some (Failing id p)
}.

Lemma rely_refl w : rely w w.
Proof. split; auto. Qed.

Lemma rely_trans w1 w2 w3 : rely w1 w2 → rely w2 w3 → rely w1 w3.
Proof.
  intros [a1 b1 c1 d1 e1 f1 g1 h1] [a2 b2 c2 d2 e2 f2 g2 h2]. split; eauto; try congruence.
  - destruct c2 as [->| ->]; eauto.
Qed.

Lemma deliver_quiet c id :
  proc (deliver c id) = proc c ∧ procs (deliver c id) = procs c ∧
  (∀ k i p, (∃ box, calls c !! k = Some (Calling i p box)) → ∃ box, calls (deliver c id) !! k = Some (Calling i p box)) ∧
  (∀ k i p, calls c !! k = Some (Failing i p) → calls (deliver c id) !! k = Some (Failing i p)).
Proof.
  unfold deliver. destruct (pending c !! id) as [k1|]; [|done]. simpl.
  destruct (calls c !! k1) as [[i1 p1 [?|]| |]|] eqn:E; try done. simpl. split_and!; [done..| |].
  - intros k i p (box & Hk). destruct (decide (k1 = k)) as [->|]; [|rewrite lookup_insert_ne by done; eauto].
    rewrite lookup_insert_eq. rewrite E in Hk. injection Hk as -> -> _. eauto.
  - intros k i p Hk. rewrite lookup_insert_ne; [done|]. intros ->. congruence.
Qed.

Lemma stepOutside_rely w e w' : stepOutside w e = Some w' → rely w w'.
Proof.
  destruct e as [id r|p|p|p]; unfold stepOutside, stepConn; simpl.
  - intros [= <-]. destruct (deliver_quiet (wd_conn w) id) as (Hp & Hs & Hc & Hf).
    split; simpl; auto; try (rewrite Hs; auto); try (rewrite Hp; auto).
    intros [H1 H2 H3]. split; simpl; rewrite ?Hp, ?Hs; auto.
  - destruct (running (wd_conn w) p) eqn:Er; simpl; [|done]. intros [= <-]. apply bool_decide_eq_true in Er.
    split; simpl; auto.
    + intros [H1 H2 H3]. split; simpl.
      * intros q Hq. destruct (decide (p = q)) as [->|]; [rewrite lookup_insert_eq; auto|rewrite lookup_insert_ne by done; auto].
      * intros q. rewrite lookup_insert_Some. intros [[_ ?]|[_ ?]]; [done|auto].
      * intros q m Hin. destruct (H3 q m Hin). destruct (decide (p = q)) as [->|]; [rewrite lookup_insert_eq|rewrite lookup_insert_ne by done]; eauto.
    + intros q [? ?]. destruct (decide (p = q)) as [->|]; [rewrite lookup_insert_eq|rewrite lookup_insert_ne by done]; eauto.
    + intros q Hq. rewrite lookup_insert_ne; [done|congruence].
    + intros q _ Hq. rewrite lookup_insert_Some. intros [[_ ?]|[_ ?]]; done.
  - case_decide as Hp; simpl; [|done]. intros [= <-]. split; simpl; auto.
    + intros [H1 H2 H3]. split; simpl.
      * intros q. case_decide as Hc; [done|]. intros Hq. rewrite lookup_insert_ne; [auto|]. intros ->. done.
      * intros q. rewrite lookup_insert_Some. intros [[_ ?]|[Hne Hq]]; [done|]. rewrite decide_False; [auto|].
        rewrite (H2 q Hq). congruence.
      * intros q m Hin. destruct (H3 q m Hin). destruct (decide (p = q)) as [->|]; [rewrite lookup_insert_eq|rewrite lookup_insert_ne by done]; eauto.
    + case_decide; auto.
    + intros q [? ?]. destruct (decide (p = q)) as [->|]; [rewrite lookup_insert_eq|rewrite lookup_insert_ne by done]; eauto.
    + intros q Hq. destruct (decide (p = q)) as [->|]; [by rewrite lookup_insert_eq|by rewrite lookup_insert_ne].
    + intros q _ Hq. rewrite lookup_insert_Some. intros [[_ ?]|[_ ?]]; done.
  - case_decide; [|done]. intros [= <-]. split; simpl; auto. intros [H1 H2 H3]. by split.
Qed.

Lemma runOutside_rely w es w' : runOutside w es = Some w' → rely w w'.
Proof.
  revert w. induction es as [|e es IH]; intros w; simpl; [intros [= <-]; apply rely_refl|].
  intros (w1 & H1 & H2)%bind_Some. eapply rely_trans; [by eapply stepOutside_rely|eauto].
Qed.

Lemma runOutside_app w es1 es2 w1 w2 : runOutside w es1 = Some w1 → runOutside w1 es2 = Some w2 → runOutside w (es1 ++ es2) = Some w2.
Proof.
  revert w. induction es1 as [|e es1 IH]; intros w; simpl; [by intros [= ->]|].
  intros (w' & -> & H)%bind_Some Hr. simpl. eauto.
Qed.

(** The outside can finish a stop and reap the child. *)
Lemma can_stop w p : is_Some (procs (wd_conn w) !! p) →
  ∃ es w', runOutside w es = Some w' ∧ procs (wd_conn w') !! p = Some Stopped.
Proof.
  intros [[] Hs].
  - exists [BeginsStop p; EndsStop p]. eexists. simpl. unfold stepConn. simpl.
    unfold running. rewrite Hs, bool_decide_true by done. simpl. rewrite lookup_insert_eq, decide_True by done. simpl.
    split; [done|]. simpl. by rewrite lookup_insert_eq.
  - exists [EndsStop p]. eexists. simpl. unfold stepConn. simpl. rewrite decide_True by done. simpl.
    split; [done|]. simpl. by rewrite lookup_insert_eq.
  - by exists [], w.
Qed.

(** ** A weakest precondition *)

Section wp.
Context (I : world → Prop).

Fixpoint wp {A} (p : prog A) (Q : A → world → Prop) (w : world) : Prop :=
  ∀ es w1, runOutside w es = Some w1 → I w1 ∧
  match p with
  | Ret a => Q a w1
  | Act o k =>
    (∃ es' w2 a r, runOutside w1 es' = Some w2 ∧ stepOp o a w2 = Some r) ∧
    ∀ a x w2, stepOp o a w1 = Some (x, w2) → wp (k x) Q w2
  end.

Lemma wp_outside {A} (p : prog A) Q w e w' : wp p Q w → stepOutside w e = Some w' → wp p Q w'.
Proof.
  intros Hwp He. destruct p; intros es w1 Hes; apply (Hwp (e :: es) w1); simpl; by rewrite He.
Qed.

Lemma wp_here {A} (p : prog A) Q w : wp p Q w → I w.
Proof. destruct p; intros H; by apply (H [] w). Qed.

Lemma wp_then {A B} (p : prog A) (f : A → prog B) Q w : wp p (λ a w, wp (f a) Q w) w → wp (p ≫= f) Q w.
Proof.
  revert w. induction p as [a|o k IH]; intros w Hwp.
  - change (wp (f a) Q w). by apply (Hwp [] w).
  - intros es w1 Hes. destruct (Hwp es w1 Hes) as (HI & Hprog & Hnext). split_and!; [done|done|].
    intros a x w2 Hs. apply IH. by eapply Hnext.
Qed.

Lemma wp_weaken {A} (p : prog A) (Q Q' : A → world → Prop) w : (∀ a w, Q a w → Q' a w) → wp p Q w → wp p Q' w.
Proof.
  intros HQ. revert w. induction p as [a|o k IH]; intros w Hwp es w1 Hes; destruct (Hwp es w1 Hes) as [HI Hp].
  - split; auto.
  - destruct Hp as [Hprog Hnext]. split_and!; [done|done|]. intros a x w2 Hs. eapply IH, Hnext, Hs.
Qed.

Lemma wp_fmap {A B} (p : prog A) (g : A → B) (Q : B → world → Prop) w : wp p (λ a w, Q (g a) w) w → wp (a ← p; mret (g a)) Q w.
Proof.
  revert w. induction p as [a|o k IH]; intros w Hwp; [exact Hwp|]. intros es w1 Hes. destruct (Hwp es w1 Hes) as (HI & Hprog & Hnext).
  split_and!; [done|done|]. intros a x w2 Hs. apply IH. by eapply Hnext.
Qed.

(** Every state of a run satisfies [I], a program that has ended satisfies its
    postcondition, and one that has not can go on. *)
Lemma wp_sound {A} (p : prog A) Q w ls p' w' : wp p Q w → execute p w ls = Some (p', w') → wp p' Q w'.
Proof.
  revert p w. induction ls as [|[e|a] ls IH]; intros p w Hwp; simpl.
  - by intros [= <- <-].
  - intros (w1 & H1 & H2)%bind_Some. eapply IH; [|exact H2]. by eapply wp_outside.
  - destruct p as [|o k]; [done|]. intros ([x w1] & H1 & H2)%bind_Some. eapply IH; [|exact H2].
    destruct (Hwp [] w eq_refl) as (_ & _ & Hnext). by eapply Hnext.
Qed.
End wp.

(** ** The protocol *)

Definition sentTo (s : list (nat * message)) (p : nat) : list message :=
  omap (λ '(q, m), if decide (q = p) then Some m else None) s.

Definition isRequest (m : message) : bool :=
  match m with AccountReadRequest _ | RateLimitsReadRequest => true | _ => false end.

(** A child gets requests after the two lines of the handshake only. *)
Definition greeted (l : list message) : Prop :=
  ∃ rest, l = [InitializeRequest; InitializedNotification] ++ rest ∧ Forall isRequest rest.
Definition handshake (l : list message) : Prop := l = [] ∨ l = [InitializeRequest] ∨ greeted l.
Definition protocol (s : list (nat * message)) : Prop := ∀ p, handshake (sentTo s p).
Definition safe (w : world) : Prop := wf w ∧ protocol (wd_sent w).

(** The requests, whichever child they went to. *)
Definition requests (s : list (nat * message)) : list message := filter isRequest s.*2.

Lemma sentTo_app s p q m : sentTo (s ++ [(p, m)]) q = sentTo s q ++ (if decide (p = q) then [m] else []).
Proof. unfold sentTo. rewrite omap_app. simpl. by case_decide. Qed.

Lemma protocol_app s p m : protocol s → handshake (sentTo s p ++ [m]) → protocol (s ++ [(p, m)]).
Proof. intros Hs Hp q. rewrite sentTo_app. case_decide as E; [by subst|by rewrite app_nil_r]. Qed.

Lemma greeted_request l m : greeted l → isRequest m → greeted (l ++ [m]).
Proof. intros (rest & -> & H) Hm. exists (rest ++ [m]). split; [done|]. apply Forall_app. auto. Qed.

Lemma greeted_mono s p m q : greeted (sentTo s q) → isRequest m → greeted (sentTo (s ++ [(p, m)]) q).
Proof. intros H Hm. rewrite sentTo_app. case_decide; [by apply greeted_request|by rewrite app_nil_r]. Qed.

Lemma requests_app s p m : requests (s ++ [(p, m)]) = requests s ++ (if isRequest m then [m] else []).
Proof. unfold requests. rewrite fmap_app, filter_app. simpl. by destruct m. Qed.

(** ** Assertions the outside preserves *)

(** [s] is what was written, and [T] holds of the current child. *)
Record St (s : list (nat * message)) (T : nat → Prop) (w : world) : Prop := {
  st_wf : wf w;
  st_sent : wd_sent w = s;
  st_proc : ∀ p, proc (wd_conn w) = Some p → T p
}.
Definition known (p : nat) (w : world) : Prop := is_Some (procs (wd_conn w) !! p).
Definition ended (p : nat) (w : world) : Prop := known p w ∧ procs (wd_conn w) !! p ≠ Some Alive.
Definition atCall (k p : nat) (w : world) : Prop := known p w ∧ ∃ id box, calls (wd_conn w) !! k = Some (Calling id p box).
Definition atFail (k p : nat) (w : world) : Prop := known p w ∧ ∃ id, calls (wd_conn w) !! k = Some (Failing id p).

Lemma St_rely s T w w' : rely w w' → St s T w → St s T w'.
Proof.
  intros Hr [H1 H2 H3]. split; [by apply Hr|by rewrite (ry_sent _ _ Hr)|].
  intros p Hp. destruct (ry_proc _ _ Hr) as [E|E]; rewrite E in Hp; [auto|done].
Qed.
Lemma known_rely p w w' : rely w w' → known p w → known p w'.
Proof. intros Hr. apply Hr. Qed.
Lemma ended_rely p w w' : rely w w' → ended p w → ended p w'.
Proof. intros Hr [H1 H2]. split; by apply Hr. Qed.
Lemma atCall_rely k p w w' : rely w w' → atCall k p w → atCall k p w'.
Proof. intros Hr (Hk & id & H). split; [by apply Hr|]. exists id. by apply Hr. Qed.
Lemma atFail_rely k p w w' : rely w w' → atFail k p w → atFail k p w'.
Proof. intros Hr (Hk & id & H). split; [by apply Hr|]. exists id. by apply Hr. Qed.

Create HintDb stable.
#[export] Hint Resolve St_rely known_rely ended_rely atCall_rely atFail_rely : stable.

Lemma St_mono s (T T' : nat → Prop) w : (∀ p, T p → T' p) → St s T w → St s T' w.
Proof. intros HT [? ? ?]. split; auto. Qed.

Lemma St_current s T w p : St s T w → proc (wd_conn w) = Some p → T p ∧ known p w.
Proof. intros [Hw _ H] Hp. split; [auto|]. destruct (wf_proc w Hw p Hp) as [E|E]; unfold known; rewrite E; eauto. Qed.

Section rules.
Context {A : Type} (Q : A → world → Prop).
Implicit Types (s : list (nat * message)) (T : nat → Prop).

Lemma wp_return s T a w : protocol s → St s T w → (∀ w', St s T w' → Q a w') → wp safe (mret a) Q w.
Proof.
  intros Hs Hw HQ es w1 Hes. apply runOutside_rely in Hes. pose proof (St_rely _ _ _ _ Hes Hw) as H1.
  split; [|auto]. split; [apply H1|]. by rewrite (st_sent _ _ _ H1).
Qed.

(** The rule for an action, from an assertion the outside preserves. *)
Lemma wp_act s T (P : world → Prop) o (f : resultOf o → prog A) w :
  protocol s → St s T w → P w → (∀ w w', rely w w' → P w → P w') →
  (∀ w, St s T w → P w → ∃ es w2 a r, runOutside w es = Some w2 ∧ stepOp o a w2 = Some r) →
  (∀ w a x w2, St s T w → P w → stepOp o a w = Some (x, w2) → wp safe (f x) Q w2) →
  wp safe (act o ≫= f) Q w.
Proof.
  intros Hs Hst HP Hstable Hprog Hnext es w1 Hes. apply runOutside_rely in Hes.
  pose proof (St_rely _ _ _ _ Hes Hst) as H1. pose proof (Hstable _ _ Hes HP) as H2.
  split_and!; [|by apply Hprog|].
  - split; [apply H1|]. by rewrite (st_sent _ _ _ H1).
  - intros a x w2 Hstep. by eapply Hnext.
Qed.

Lemma wp_GetProc s T (f : option nat → prog A) w :
  protocol s → St s T w →
  (∀ w', St s (λ _, False) w' → wp safe (f None) Q w') →
  (∀ w' p, St s (λ q, q = p ∧ T q) w' → T p → known p w' → wp safe (f (Some p)) Q w') →
  wp safe (act GetProc ≫= f) Q w.
Proof.
  intros Hs Hw HN HS. apply (wp_act s T (λ _, True)); [done..| |].
  - intros w1 _ _. exists [], w1, Succeeds. by eexists.
  - simpl. intros w1 a x w2 Hw1 _ [= <- <-]. pose proof Hw1 as [H1 H2 H3]. destruct (proc (wd_conn w1)) as [p|] eqn:Ep.
    + destruct (St_current s T w1 p Hw1 Ep) as [HT Hk]. apply HS; [|done..]. split; [done..|]. intros q Hq. rewrite Ep in Hq.
      injection Hq as <-. auto.
    + apply HN. split; [done..|]. intros q Hq. congruence.
Qed.

Lemma wp_IsDone s T p (f : bool → prog A) w :
  protocol s → St s T w → known p w →
  (∀ w', St s T w' → known p w' → wp safe (f false) Q w') →
  (∀ w', St s T w' → ended p w' → wp safe (f true) Q w') →
  wp safe (act (IsDone p) ≫= f) Q w.
Proof.
  intros Hs Hw Hk HN HS. apply (wp_act s T (known p)); [done..|apply known_rely| |].
  - intros w1 _ _. exists [], w1, Succeeds. by eexists.
  - simpl. intros w1 a x w2 Hw1 Hk1 [= <- <-]. destruct (running (wd_conn w1) p) eqn:E; simpl; [by apply HN|].
    apply HS; [done|]. split; [done|]. by apply bool_decide_eq_false in E.
Qed.

Lemma wp_StartCommand s T (f : option nat → prog A) w :
  protocol s → St s T w →
  (∀ w', St s T w' → wp safe (f None) Q w') →
  (∀ w' p, St s (λ q, q = p) w' → known p w' → sentTo s p = [] → wp safe (f (Some p)) Q w') →
  wp safe (act StartCommand ≫= f) Q w.
Proof.
  intros Hs Hw HN HS. apply (wp_act s T (λ _, True)); [done..| |].
  - intros w1 _ _. exists [], w1, Fails_. by eexists.
  - simpl. intros w1 a x w2 Hw1 _. destruct a; try done; [intros [= <- <-]; by apply HN|].
    unfold stepConn. simpl. unfold CodexRpc.ensureStarted.
    destruct (match proc (wd_conn w1) with Some q => running (wd_conn w1) q | None => false end) eqn:Er; [done|].
    case_decide as Hfresh; [|done]. intros [= <- <-]. destruct Hw1 as [[H1 H2 H3] Hsent HT].
    apply HS; simpl.
    + split; simpl; [|done|congruence]. split; simpl.
      * intros q [= <-]. rewrite lookup_insert_eq. auto.
      * intros q. rewrite lookup_insert_Some. intros [[-> _]|[_ Hq]]; [done|]. rewrite (H2 q Hq) in Er.
        unfold running in Er. by rewrite Hq, bool_decide_true in Er.
      * intros q m Hin. destruct (H3 q m Hin) as [st Hst]. rewrite lookup_insert_ne; [eauto|]. congruence.
    + unfold known. simpl. rewrite lookup_insert_eq. eauto.
    + unfold sentTo. apply elem_of_nil_inv. intros m ([q m'] & Hin & E)%list_elem_of_omap. case_decide; [|done]. subst q.
      injection E as ->. rewrite <- Hsent in Hin. destruct (H3 p m Hin) as [? E]. congruence.
Qed.

Lemma stepConn_calls w k0 c0 : wf w → wf (onConn w (mkConn (nextID (wd_conn w)) k0 (proc (wd_conn w)) (procs (wd_conn w)) c0)).
Proof. intros [H1 H2 H3]. by split. Qed.

Lemma wp_NewCall s T p (f : nat → prog A) w :
  protocol s → St s T w → known p w →
  (∀ w' k, St s T w' → known p w' → atCall k p w' → wp safe (f k) Q w') →
  wp safe (act (NewCall p) ≫= f) Q w.
Proof.
  intros Hs Hw Hk Hn. apply (wp_act s T (known p)); [done..|apply known_rely| |].
  - intros w1 _ [st Hst]. exists [], w1, (Numbered (fresh (dom (calls (wd_conn w1))))). eexists. split; [done|].
    simpl. unfold stepConn. simpl. unfold registerCall. rewrite decide_True; [done|]. split; [|congruence].
    apply not_elem_of_dom, is_fresh.
  - simpl. intros w1 a k w2 [[H1 H2 H3] Hsent HT] Hk1. destruct a; try done. unfold stepConn. simpl. unfold registerCall.
    case_decide as Hd; [|done]. intros [= <- <-]. apply Hn.
    + by split; [split|..].
    + done.
    + split; [done|]. do 2 eexists. simpl. by rewrite lookup_insert_eq.
Qed.

Lemma wp_WriteJSON s T k p m (f : bool → prog A) w :
  protocol s → St s T w → atCall k p w → protocol (s ++ [(p, m)]) →
  (∀ w', St (s ++ [(p, m)]) T w' → atCall k p w' → wp safe (f true) Q w') →
  (∀ w', St s T w' → atFail k p w' → wp safe (f false) Q w') →
  wp safe (act (WriteJSON (Some k) p m) ≫= f) Q w.
Proof.
  intros Hs Hw Hk Hs' HS HN. apply (wp_act s T (atCall k p)); [done..|apply atCall_rely| |].
  - intros w1 _ (_ & id & box & E). exists [], w1, Fails_. eexists. split; [done|]. simpl. unfold stepConn. simpl. by rewrite E.
  - simpl. intros w1 a x w2 Hw1 (Hk1 & id & box & E). destruct a; try done.
    + case_decide as Hp; [|done]. intros [= <- <-]. destruct (St_current s T w1 p Hw1 Hp) as [_ Hkn].
      destruct Hw1 as [[H1 H2 H3] <- HT]. apply HS; [|split; [done|]; by exists id, box]. split; [|done|done]. split; [done..|].
      simpl. intros q m'. rewrite elem_of_app, list_elem_of_singleton. intros [?|[= -> ->]]; eauto.
    + unfold stepConn. simpl. rewrite E. intros [= <- <-]. destruct Hw1 as [[H1 H2 H3] Hsent HT]. apply HN.
      * by split; [split|..].
      * split; [done|]. exists id. simpl. by rewrite lookup_insert_eq.
Qed.

Lemma wp_notify s T p m (f : bool → prog A) w :
  protocol s → St s T w → known p w → protocol (s ++ [(p, m)]) →
  (∀ w', St (s ++ [(p, m)]) T w' → known p w' → wp safe (f true) Q w') →
  (∀ w', St s T w' → known p w' → wp safe (f false) Q w') →
  wp safe (notify p m ≫= f) Q w.
Proof.
  intros Hs Hw Hk Hs' HS HN. apply (wp_act s T (known p)); [done..|apply known_rely| |].
  - intros w1 _ _. exists [], w1, Fails_. by eexists.
  - simpl. intros w1 a x w2 Hw1 Hkn. destruct a; try done; [|intros [= <- <-]; by apply HN].
    case_decide as Hp; [|done]. intros [= <- <-]. destruct Hw1 as [[H1 H2 H3] <- HT]. apply HS; [|done]. split; [|done|done]. split; [done..|].
    simpl. intros q m'. rewrite elem_of_app, list_elem_of_singleton. intros [?|[= -> ->]]; eauto.
Qed.

Lemma wp_Await s T k p (f : awaited → prog A) w :
  protocol s → St s T w → atCall k p w →
  (∀ w' x, St s T w' → x ≠ ContextDone → wp safe (f x) Q w') →
  (∀ w', St s T w' → atFail k p w' → wp safe (f ContextDone) Q w') →
  wp safe (act (Await k) ≫= f) Q w.
Proof.
  intros Hs Hw Hk HS HN. apply (wp_act s T (atCall k p)); [done..|apply atCall_rely| |].
  - intros w1 _ (_ & id & box & E). exists [], w1, TimedOut. eexists. split; [done|]. simpl. unfold stepConn. simpl. by rewrite E.
  - simpl. intros w1 a x w2 [[H1 H2 H3] Hsent HT] (Hk1 & id & box & E). destruct a; try done.
    + destruct (wd_inbox w1 !! k) as [r|]; [|done]. simpl. unfold stepConn. simpl. rewrite E.
      destruct box; [|done]. intros [= <- <-]. by apply HS; [split; [split|..]|].
    + unfold stepConn. simpl. rewrite E. intros [= <- <-]. apply HN; [by split; [split|..]|].
      split; [done|]. exists id. simpl. by rewrite lookup_insert_eq.
    + unfold stepConn. simpl. rewrite E. destruct (running _ p); [done|]. intros [= <- <-].
      by apply HS; [split; [split|..]|].
Qed.

Lemma St_stopped s T p w : St s T w → procs (wd_conn w) !! p = Some Stopped → St s (λ q, T q ∧ q ≠ p) w.
Proof.
  intros [Hw Hsent HT] Hp. split; [done..|]. intros q Hq. split; [auto|]. intros ->.
  destruct (wf_proc w Hw p Hq); congruence.
Qed.

Lemma wp_StopCall s T k p (f : unit → prog A) w :
  protocol s → St s T w → atFail k p w →
  (∀ w', St s (λ q, T q ∧ q ≠ p) w' → wp safe (f ()) Q w') →
  wp safe (act (StopProcess (Some k) p) ≫= f) Q w.
Proof.
  intros Hs Hw Hk Hn. apply (wp_act s T (atFail k p)); [done..|apply atFail_rely| |].
  - intros w1 _ [Hk1 [id E]]. destruct (can_stop w1 p Hk1) as (es & w2 & Hes & Hst). exists es, w2, Succeeds. eexists.
    split; [done|]. apply runOutside_rely in Hes. simpl. unfold stepConn. simpl.
    rewrite (ry_failing _ _ Hes k id p E). by rewrite decide_True.
  - simpl. intros w1 a [] w2 Hw1 [Hk1 [id E]]. unfold stepConn. simpl. rewrite E. case_decide as Hst; [|done].
    intros [= <-]. apply Hn. pose proof (St_stopped s T p w1 Hw1 Hst) as [[H1 H2 H3] Hsent HT]. by split; [split|..].
Qed.

Lemma wp_StopProcess s T p (f : unit → prog A) w :
  protocol s → St s T w → known p w →
  (∀ w', St s (λ q, T q ∧ q ≠ p) w' → ended p w' → wp safe (f ()) Q w') →
  wp safe (act (StopProcess None p) ≫= f) Q w.
Proof.
  intros Hs Hw Hkn Hn. apply (wp_act s T (known p)); [done..|apply known_rely| |].
  - intros w1 _ Hk1. destruct (can_stop w1 p Hk1) as (es & w2 & Hes & Hst). exists es, w2, Succeeds. eexists.
    split; [done|]. simpl. by rewrite decide_True.
  - simpl. intros w1 a [] w2 Hw1 Hk1. case_decide as Hst; [|done]. intros [= <-]. apply Hn; [by apply St_stopped|].
    split; [done|]. congruence.
Qed.

Lemma wp_WaitExited s T p b (f : bool → prog A) w :
  protocol s → St s T w → ended p w →
  (∀ w' x, St s T w' → (b = false → x = true) → wp safe (f x) Q w') →
  wp safe (act (WaitExited p b) ≫= f) Q w.
Proof.
  intros Hs Hw Hk Hn. apply (wp_act s T (ended p)); [done..|apply ended_rely| |].
  - intros w1 _ [Hk1 Hk2]. do 2 eexists. exists Succeeds. eexists. split.
    + instantiate (2 := [Reaped p]). simpl. rewrite decide_True; [done|]. split; [done|]. by apply bool_decide_eq_false.
    + simpl. rewrite decide_True; [done|set_solver].
  - simpl. intros w1 a x w2 Hw1 _. destruct a; try done.
    + case_decide; [|done]. intros [= <- <-]. by apply Hn.
    + destruct b; [|done]. intros [= <- <-]. by apply Hn.
Qed.

Lemma wp_Now s T (f : Time → prog A) w :
  protocol s → St s T w → (∀ w' t, St s T w' → wp safe (f t) Q w') → wp safe (act Now ≫= f) Q w.
Proof.
  intros Hs Hw Hn. apply (wp_act s T (λ _, True)); [done..| |].
  - intros w1 _ _. exists [], w1, (At 0). by eexists.
  - simpl. intros w1 a x w2 Hw1 _. destruct a; try done. intros [= <- <-]. by apply Hn.
Qed.
End rules.

(** A child stays known, whoever moves. *)
Lemma step_known c e c' p : step c e = Some c' → is_Some (procs c !! p) → is_Some (procs c' !! p).
Proof.
  destruct e; simpl.
  - unfold CodexRpc.ensureStarted. destruct (match proc c with Some _ => _ | None => _ end); [done|]. case_decide; [|done].
    intros [= <-] [st ?]. simpl. rewrite lookup_insert_is_Some'. eauto.
  - unfold registerCall. case_decide; [|done]. by intros [= <-].
  - destruct (calls c !! k) as [[]|]; try done. by intros [= <-].
  - intros [= <-]. by destruct (deliver_quiet c id) as (_ & -> & _).
  - destruct (calls c !! k) as [[? ? []| |]|]; try done. by intros [= <-].
  - destruct (calls c !! k) as [[]|]; try done. by intros [= <-].
  - destruct (calls c !! k) as [[]|]; try done. destruct (running _ _); [done|]. by intros [= <-].
  - destruct (running _ _); [|done]. intros [= <-] ?. simpl. rewrite lookup_insert_is_Some'. eauto.
  - case_decide; [|done]. intros [= <-] ?. simpl. rewrite lookup_insert_is_Some'. eauto.
  - destruct (calls c !! k) as [[]|]; try done. case_decide; [|done]. by intros [= <-].
Qed.

Lemma stepConn_known w e w' p : stepConn w e = Some w' → known p w → known p w'.
Proof. unfold stepConn. intros (c & H & [= <-])%bind_Some. by apply (step_known _ e). Qed.

Lemma stepOp_known o a w x w' p : stepOp o a w = Some (x, w') → known p w → known p w'.
Proof.
  intros H Hk. destruct o as [|p1| |p1|k p1 m|k|k p1|p1 b|]; simpl in H.
  - by injection H as _ <-.
  - by injection H as _ <-.
  - destruct a; try done; [by injection H as _ <-|]. apply bind_Some in H as (w1 & H1 & [= _ <-]). by eapply stepConn_known.
  - destruct a; try done. apply bind_Some in H as (w1 & H1 & [= _ <-]). by eapply stepConn_known.
  - destruct a; try done; [case_decide; [|done]; by injection H as _ <-|]. apply bind_Some in H as (w1 & H1 & [= _ <-]).
    destruct k; [by eapply stepConn_known|by injection H1 as <-].
  - destruct a; try done; [apply bind_Some in H as (r & _ & H)| |];
      apply bind_Some in H as (w1 & H1 & [= _ <-]); by eapply stepConn_known.
  - apply bind_Some in H as (w1 & H1 & [= _ <-]). destruct k; [by eapply stepConn_known|].
    case_decide; [|done]. by injection H1 as <-.
  - destruct a; try done; [case_decide; [|done]|destruct b; [|done]]; by injection H as _ <-.
  - destruct a; try done. by injection H as _ <-.
Qed.

Lemma wp_known {A} (pg : prog A) Q p w : known p w → wp safe pg Q w → wp safe pg (λ a w, Q a w ∧ known p w) w.
Proof.
  revert w. induction pg as [a|o k IH]; intros w Hk Hwp es w1 Hes; destruct (Hwp es w1 Hes) as [HI Hp];
    apply runOutside_rely in Hes; pose proof (known_rely p _ _ Hes Hk).
  - done.
  - destruct Hp as [Hprog Hnext]. split_and!; [done|done|]. intros a x w2 Hs. apply IH; [by eapply stepOp_known|by eapply Hnext].
Qed.

(** ** The functions *)

Definition greetedIn (s : list (nat * message)) (p : nat) : Prop := greeted (sentTo s p).

(** Between the calls of a session the current child has been greeted; [rs]
    are the requests so far. *)
Definition Sess (rs : list message) (w : world) : Prop :=
  ∃ s, protocol s ∧ St s (greetedIn s) w ∧ requests s = rs.

Section specs.
Context (decodeAccount : string → option accountResponse) (decodeLimits : string → option rateLimitsResponse).
Context (order : gmap string rateLimitSnapshot → list rateLimitSnapshot).

Lemma callOnProcess_wp {R} s T p m (decode : string → option R) zero (Q : result callError R → world → Prop) w :
  protocol s → St s T w → known p w → protocol (s ++ [(p, m)]) →
  (∀ w' e s', St s' T w' → s' = s ∨ s' = s ++ [(p, m)] → Q (Err e) w') →
  (∀ w' r, St (s ++ [(p, m)]) T w' → Q (Ok r) w') →
  wp safe (callOnProcess p m decode zero) Q w.
Proof.
  intros Hs Hw Hk Hs' HE HO. unfold callOnProcess.
  apply (wp_NewCall Q s T); [done..|]. intros w1 k H1 Hk1 Hc1.
  apply (wp_WriteJSON Q s T k p m); [done..| |].
  - intros w2 H2 Hc2. apply (wp_Await Q (s ++ [(p, m)]) T k p); [done..| |].
    + intros w3 [r| |] H3 Hx; [|done|].
      * destruct (rp_Error r); [|destruct (_ || _); [|destruct (decode _)]]; by apply (wp_return Q (s ++ [(p, m)]) T); eauto.
      * apply (wp_return Q (s ++ [(p, m)]) T); eauto.
    + intros w3 H3 Hf. apply (wp_StopCall Q (s ++ [(p, m)]) T k p); [done..|].
      intros w4 H4. apply (wp_return Q (s ++ [(p, m)]) T); [done| |eauto]. eapply St_mono; [|exact H4]. by intros q [? _].
  - intros w2 H2 Hf2. apply (wp_StopCall Q s T k p); [done..|].
    intros w3 H3. apply (wp_return Q s T); [done| |eauto]. eapply St_mono; [|exact H3]. by intros q [? _].
Qed.

(** A request on the current child. *)
Lemma call_wp {R} rs m (decode : string → option R) zero (Q : result callError R → world → Prop) w :
  Sess rs w → isRequest m →
  (∀ w' e rs', Sess rs' w' → rs' = rs ∨ rs' = rs ++ [m] → Q (Err e) w') →
  (∀ w' r, Sess (rs ++ [m]) w' → Q (Ok r) w') →
  wp safe (call m decode zero) Q w.
Proof.
  intros (s & Hs & Hw & <-) Hm HE HO. unfold call. apply (wp_GetProc Q s (greetedIn s)); [done..| |].
  - intros w1 H1. apply (wp_return Q s (greetedIn s)); [done| |].
    + eapply St_mono; [|exact H1]. done.
    + intros w2 H2. apply (HE w2 None (requests s)); [|auto]. by exists s.
  - intros w1 p H1 Hp Hk.
    assert (Hs' : protocol (s ++ [(p, m)])).
    { apply protocol_app; [done|]. right. right. by apply greeted_request. }
    assert (Hrs : requests (s ++ [(p, m)]) = requests s ++ [m]) by (rewrite requests_app; by destruct m).
    apply (callOnProcess_wp s (λ q, q = p ∧ greetedIn s q)); [done..| |].
    + intros w2 e s' H2 [-> | ->].
      * apply (HE w2 e (requests s)); [|auto]. exists s. split_and!; [done| |done]. eapply St_mono; [|exact H2]. by intros q [_ ?].
      * apply (HE w2 e (requests s ++ [m])); [|auto]. exists (s ++ [(p, m)]). split_and!; [done| |done].
        eapply St_mono; [|exact H2]. intros q [_ Hq]. by apply greeted_mono.
    + intros w2 r H2. apply HO. exists (s ++ [(p, m)]). split_and!; [done| |done].
      eapply St_mono; [|exact H2]. intros q [_ Hq]. by apply greeted_mono.
Qed.

Lemma ensureStarted_wp rs (Q : result callError unit → world → Prop) w :
  Sess rs w → (∀ w' r, Sess rs w' → Q r w') → wp safe ensureStarted Q w.
Proof.
  intros (s & Hs & Hw & Hrs) HQ. unfold ensureStarted.
  assert (Hsess : ∀ w', St s (greetedIn s) w' → Sess rs w') by (intros w' ?; by exists s).
  assert (Hstart : ∀ w', St s (greetedIn s) w' → wp safe (started ← act StartCommand;
    match started with
    | None => mret (Err None)
    | Some p =>
      initialized ← callOnProcess p InitializeRequest (λ _, Some ()) ();
      match initialized with
      | Err e => _ ← act (StopProcess None p); mret (Err e)
      | Ok _ =>
        notified ← notify p InitializedNotification;
        if notified : bool then mret (Ok ()) else _ ← act (StopProcess None p); mret (Err None)
      end
    end) Q w').
  { clear w Hw. intros w Hw. apply (wp_StartCommand Q s (greetedIn s)); [done..| |].
    { intros w1 H1. apply (wp_return Q s (greetedIn s)); [done..|]. eauto. }
    intros w1 p H1 Hk Hnew.
    assert (Hs1 : protocol (s ++ [(p, InitializeRequest)])).
    { apply protocol_app; [done|]. rewrite Hnew. right. by left. }
    assert (Hs2 : protocol ((s ++ [(p, InitializeRequest)]) ++ [(p, InitializedNotification)])).
    { apply protocol_app; [done|]. rewrite sentTo_app, decide_True, Hnew by done. right. right. by exists []. }
    assert (Herr : ∀ w' e s', known p w' → protocol s' → requests s' = rs → St s' (λ q, q = p) w' →
      wp safe (_ ← act (StopProcess None p); mret (Err e)) Q w').
    { intros w' e s' Hk' Hs' Hr' Hw'. apply (wp_StopProcess Q s' (λ q, q = p)); [done..|]. intros w2 H2 _.
      apply (wp_return Q s' (greetedIn s')); [done| |].
      - eapply St_mono; [|exact H2]. intros q [? ?]. done.
      - intros w3 H3. apply HQ. by exists s'. }
    apply wp_then.
    set (Post := λ (r : result callError unit) w', match r with
      | Err _ => ∃ s', protocol s' ∧ requests s' = rs ∧ St s' (λ q, q = p) w'
      | Ok _ => St (s ++ [(p, InitializeRequest)]) (λ q, q = p) w'
      end).
    apply (wp_weaken safe _ (λ r w', Post r w' ∧ known p w')).
    - intros [[]|e] w2 [H2 Hk2]; [|destruct H2 as (s' & ? & ? & ?); by apply (Herr w2 e s')].
      apply (wp_notify Q (s ++ [(p, InitializeRequest)]) (λ q, q = p) p); [done..| |].
      + intros w3 H3 _. eapply wp_return; [exact Hs2|exact H3|]. intros w4 H4. apply HQ.
        eexists. split_and!; [exact Hs2| |].
        * eapply St_mono; [|exact H4]. intros q ->. unfold greetedIn.
          rewrite !sentTo_app, !decide_True, Hnew by done. by exists [].
        * by rewrite !requests_app, !app_nil_r.
      + intros w3 H3 Hk3. apply (Herr w3 None (s ++ [(p, InitializeRequest)])); [done..| |done]. by rewrite requests_app, app_nil_r.
    - apply wp_known; [done|]. apply (callOnProcess_wp s (λ q, q = p)); [done..| |].
      + intros w2 e s' H2 [-> | ->]; [by exists s|]. eexists. split_and!; [exact Hs1| |exact H2].
        by rewrite requests_app, app_nil_r.
      + done. }
  apply (wp_GetProc Q s (greetedIn s)); [done..| |].
  - intros w1 H1. apply Hstart. eapply St_mono; [|exact H1]. done.
  - intros w1 p H1 Hp Hk. apply (wp_IsDone Q s (greetedIn s) p); [done| |done| |].
    + eapply St_mono; [|exact H1]. by intros q [_ ?].
    + intros w2 H2 _. apply (wp_return Q s (greetedIn s)); [done..|]. eauto.
    + intros w2 H2 _. by apply Hstart.
Qed.

Lemma reset_wp rs (Q : bool → world → Prop) w :
  Sess rs w → (∀ w' x, Sess rs w' → Q x w') → wp safe resetCurrentProcessAndWait Q w.
Proof.
  intros (s & Hs & Hw & Hrs) HQ. unfold resetCurrentProcessAndWait.
  assert (Hsess : ∀ T w' x, St s T w' → (∀ q, T q → greetedIn s q) → Q x w').
  { intros T w' x H HT. apply HQ. exists s. split_and!; [done| |done]. by eapply St_mono. }
  apply (wp_GetProc Q s (greetedIn s)); [done..| |].
  - intros w1 H1. eapply wp_return; [done|exact H1|]. intros w2 H2. by eapply Hsess.
  - intros w1 p H1 _ Hk. eapply wp_StopProcess; [done|exact H1|done|]. intros w2 H2 Hend.
    change (act (WaitExited p true)) with (act (WaitExited p true) ≫= mret).
    eapply wp_WaitExited; [done|exact H2|done|]. intros w3 x H3 _. eapply wp_return; [done|exact H3|].
    intros w4 H4. eapply Hsess; [exact H4|]. by intros q [[_ ?] _].
Qed.

(** After [ReleaseIdleResources] and [Close] there is no current child. *)
Definition Quiet (rs : list message) (w : world) : Prop := ∃ s, protocol s ∧ St s (λ _, False) w ∧ requests s = rs.

Lemma release_wp rs (Q : unit → world → Prop) w :
  Sess rs w → (∀ w', Quiet rs w' → Q () w') → wp safe ReleaseIdleResources Q w.
Proof.
  intros (s & Hs & Hw & Hrs) HQ. unfold ReleaseIdleResources. apply (wp_GetProc Q s (greetedIn s)); [done..| |].
  - intros w1 H1. eapply wp_return; [done|exact H1|]. intros w2 H2. apply HQ. by exists s.
  - intros w1 p H1 _ Hk. eapply wp_StopProcess; [done|exact H1|done|]. intros w2 H2 Hend.
    eapply wp_WaitExited; [done|exact H2|done|]. intros w3 x H3 _. eapply wp_return; [done|exact H3|].
    intros w4 H4. apply HQ. exists s. split_and!; [done| |done]. eapply St_mono; [|exact H4]. by intros q [[-> _] ?].
Qed.

Lemma close_wp rs (Q : unit → world → Prop) w :
  Sess rs w → (∀ w', Quiet rs w' → Q () w') → wp safe Close Q w.
Proof.
  intros (s & Hs & Hw & Hrs) HQ. unfold Close. apply (wp_GetProc Q s (greetedIn s)); [done..| |].
  - intros w1 H1. eapply wp_return; [done|exact H1|]. intros w2 H2. apply HQ. by exists s.
  - intros w1 p H1 _ Hk. change (act (StopProcess None p)) with (act (StopProcess None p) ≫= mret).
    eapply wp_StopProcess; [done|exact H1|done|]. intros w2 H2 _. eapply wp_return; [done|exact H2|].
    intros w3 H3. apply HQ. exists s. split_and!; [done| |done]. eapply St_mono; [|exact H3]. by intros q [[-> _] ?].
Qed.
End specs.

(** ** The decisions *)

(** The requests among the actions of [Codex]. *)
Definition asked (t : list action) : list message :=
  omap (λ a, match a with
    | AccountRead refreshToken => Some (AccountReadRequest refreshToken)
    | RateLimitsRead => Some RateLimitsReadRequest
    | _ => None
    end) t.

Definition withEnd (env : Attempt) (exited : bool) (now : Time) : Attempt :=
  mkAttempt (at_start env) (at_account env) (at_limits env) exited (at_order env) now.

(** The actions and the error of an attempt do not depend on how it ends. *)
Lemma collectAttempt_end env exited now r :
  (Codex.collectAttempt (withEnd env exited now) r).2 = (Codex.collectAttempt env r).2 ∧
  (exited = at_exit env → (Codex.collectAttempt (withEnd env exited now) r).1.2 = (Codex.collectAttempt env r).1.2).
Proof.
  unfold Codex.collectAttempt. simpl. destruct (at_start env); [|done]. destruct (at_account env); [|done].
  destruct (_ && _); [|by destruct (at_limits env)]. split; [done|]. intros ->. by destruct (at_exit env).
Qed.

(** What an attempt gave: an outcome of [Codex.collectAttempt], and [l], the
    requests that reached the child.  A failure does not depend on the exit of
    the child, unless waiting for that was what failed. *)
Definition attempted (r : bool) (out : outcome) (l : list message) : Prop :=
  ∃ env, out = (Codex.collectAttempt env r).1 ∧ l `sublist_of` asked (Codex.collectAttempt env r).2 ∧
  (out.2 ≠ None → out.2 = Some None ∧ at_exit env = false ∨
                  ∀ exited, (Codex.collectAttempt (withEnd env exited (at_now env)) r).1 = out).

Definition collected (out : outcome) (l : list message) : Prop :=
  ∃ e1 e2, out = (Codex.Collect e1 e2).1 ∧ l `sublist_of` asked (Codex.Collect e1 e2).2.

(** How [Codex.Collect] goes on from its first attempt. *)
Definition secondTry (e2 : Attempt) (t1 : list action) : outcome * list action :=
  let '((report, err), t2) := Codex.collectAttempt e2 true in
  match err with
  | None => ((report, None), t1 ++ t2)
  | Some err =>
    if negb (at_exit e2) then ((report, Some None), t1 ++ t2 ++ [Reset])
    else if isCodexRefreshableAuthError err then ((codexLoginRequiredReport (at_now e2), None), t1 ++ t2 ++ [Reset])
    else ((report, Some err), t1 ++ t2 ++ [Reset])
  end.

Lemma Collect_second e1 e2 report err t1 :
  Codex.collectAttempt e1 false = ((report, Some err), t1) → at_exit e1 = true → isCodexRefreshableAuthError err = true →
  Codex.Collect e1 e2 = secondTry e2 (t1 ++ [Reset]).
Proof. intros E Hx Hr. unfold Codex.Collect, secondTry. rewrite E, Hx. simpl. by rewrite Hr. Qed.

Lemma asked_app t1 t2 : asked (t1 ++ t2) = asked t1 ++ asked t2.
Proof. apply omap_app. Qed.

(** A failed attempt, with the exit that it goes on with. *)
Lemma attempted_failure r report err l exited :
  attempted r (report, Some err) l → (exited = true → isCodexRefreshableAuthError err = true) ∨ exited = false →
  ∃ env t, Codex.collectAttempt env r = ((report, Some err), t) ∧ at_exit env = exited ∧ l `sublist_of` asked t.
Proof.
  intros (env & Hout & Hl & He) Hx. simpl in He. destruct He as [[[= ->] Hexit]|He]; [done| |].
  - destruct exited; [by destruct Hx as [Hx|]; [specialize (Hx eq_refl)|]|].
    exists env, (Codex.collectAttempt env r).2. split_and!; [|done|done]. rewrite Hout. by destruct (Codex.collectAttempt env r).
  - exists (withEnd env exited (at_now env)), (Codex.collectAttempt env r).2. split_and!; [|done|done].
    rewrite <- (He exited), <- (proj1 (collectAttempt_end env exited (at_now env) r)).
    by destruct (Codex.collectAttempt (withEnd env exited (at_now env)) r).
Qed.

(** A failed attempt that ends [Collect]. *)
Lemma attempted_final r report err l :
  attempted r (report, Some err) l → isCodexRefreshableAuthError err = false →
  ∃ env t, Codex.collectAttempt env r = ((report, Some err), t) ∧ (at_exit env = true ∨ err = None) ∧ l `sublist_of` asked t.
Proof.
  intros (env & Hout & Hl & He) Hx. simpl in He. destruct He as [[[= ->] Hexit]|He]; [done| |].
  - exists env, (Codex.collectAttempt env r).2. split_and!; [|by right|done]. rewrite Hout. by destruct (Codex.collectAttempt env r).
  - exists (withEnd env true (at_now env)), (Codex.collectAttempt env r).2. split_and!; [|by left|done].
    rewrite <- (He true), <- (proj1 (collectAttempt_end env true (at_now env) r)).
    by destruct (Codex.collectAttempt (withEnd env true (at_now env)) r).
Qed.

Lemma collected_success report l : attempted false (report, None) l → collected (report, None) l.
Proof.
  intros (env & Hout & Hl & _). exists env, env. unfold Codex.Collect.
  destruct (Codex.collectAttempt env false) as [[report' err] t]. simpl in *. by injection Hout as -> <-.
Qed.

Lemma collected_stuck report err l : attempted false (report, Some err) l → collected (report, Some None) l.
Proof.
  intros H. destruct (attempted_failure _ _ _ _ false H) as (env & t & E & Hx & Hl); [by right|]. exists env, env. unfold Codex.Collect.
  rewrite E, Hx. simpl. by rewrite asked_app, app_nil_r.
Qed.

Lemma collected_failure report err l :
  attempted false (report, Some err) l → isCodexRefreshableAuthError err = false → collected (report, Some err) l.
Proof.
  intros H Hr. destruct (attempted_final _ _ _ _ H Hr) as (env & t & E & Hx & Hl). exists env, env. unfold Codex.Collect.
  rewrite E, Hr. destruct (at_exit env) eqn:Ex; simpl; rewrite asked_app, app_nil_r; [done|]. by destruct Hx as [| ->].
Qed.

(** The second attempt, after a first one that was refreshable. *)
Lemma collected_second report err l out l2 :
  attempted false (report, Some err) l → isCodexRefreshableAuthError err = true →
  (∃ e2, ∀ t1, (secondTry e2 t1).1 = out ∧ asked t1 ++ l2 `sublist_of` asked (secondTry e2 t1).2) → collected out (l ++ l2).
Proof.
  intros H Hr (e2 & H2). destruct (attempted_failure _ _ _ _ true H) as (e1 & t & E & Hx & Hl); [by left|]. exists e1, e2.
  rewrite (Collect_second _ _ _ _ _ E Hx Hr). destruct (H2 (t ++ [Reset])) as [-> Hs]. split; [done|].
  etrans; [|exact Hs]. rewrite asked_app. simpl. rewrite app_nil_r. by apply sublist_app.
Qed.

Lemma second_success report l : attempted true (report, None) l →
  ∃ e2, ∀ t1, (secondTry e2 t1).1 = (report, None) ∧ asked t1 ++ l `sublist_of` asked (secondTry e2 t1).2.
Proof.
  intros (env & Hout & Hl & _). exists env. intros t1. unfold secondTry.
  destruct (Codex.collectAttempt env true) as [[report' err] t]. simpl in *. injection Hout as -> <-. simpl.
  rewrite asked_app. split; [done|by apply sublist_app].
Qed.

Lemma second_failure report err l exited now : attempted true (report, Some err) l →
  ∃ e2, ∀ t1, (secondTry e2 t1).1 =
      (if negb exited then (report, Some None)
       else if isCodexRefreshableAuthError err then (codexLoginRequiredReport now, None) else (report, Some err)) ∧
    asked t1 ++ l `sublist_of` asked (secondTry e2 t1).2.
Proof.
  intros H. destruct exited; simpl.
  2:{ destruct (attempted_failure _ _ _ _ false H) as (env & t & E & Hx & Hl); [by right|]. exists env. intros t1. unfold secondTry.
      rewrite E, Hx. simpl. rewrite !asked_app, app_nil_r. split; [done|by apply sublist_app]. }
  destruct (isCodexRefreshableAuthError err) eqn:Hr.
  - destruct (attempted_failure _ _ _ _ true H) as (env & t & E & Hx & Hl); [by left|].
    exists (withEnd env true now). intros t1. unfold secondTry.
    pose proof (collectAttempt_end env true now true) as [Ht He]. rewrite E in Ht, He. specialize (He (eq_sym Hx)).
    destruct (Codex.collectAttempt (withEnd env true now) true) as [[report' err'] t']. simpl in Ht, He. subst.
    simpl. rewrite Hr. simpl. rewrite !asked_app, app_nil_r. split; [done|by apply sublist_app].
  - destruct (attempted_final _ _ _ _ H Hr) as (env & t & E & Hx & Hl). exists env. intros t1. unfold secondTry. rewrite E, Hr.
    destruct (at_exit env) eqn:Ex; simpl; rewrite !asked_app, app_nil_r; (split; [|by apply sublist_app]); [done|].
    by destruct Hx as [| ->].
Qed.

Section decisions.
Context (decodeAccount : string → option accountResponse) (decodeLimits : string → option rateLimitsResponse).
Context (order : gmap string rateLimitSnapshot → list rateLimitSnapshot).

Lemma failed_wp rs code err (Q : outcome → world → Prop) w :
  Sess rs w → (∀ w' t, Sess rs w' → Q (unavailableReport "codex-app-server" code t, Some err) w') → wp safe (failed code err) Q w.
Proof.
  intros (s & Hs & Hw & Hrs) HQ. unfold failed. eapply wp_Now; [done..|]. intros w1 t H1.
  eapply wp_return; [done|exact H1|]. intros w2 H2. apply HQ. by exists s.
Qed.

Lemma loginRequired_wp rs (Q : outcome → world → Prop) w :
  Sess rs w → (∀ w' t, Sess rs w' → Q (codexLoginRequiredReport t, None) w') → wp safe loginRequired Q w.
Proof.
  intros (s & Hs & Hw & Hrs) HQ. unfold loginRequired. eapply wp_Now; [done..|]. intros w1 t H1.
  eapply wp_return; [done|exact H1|]. intros w2 H2. apply HQ. by exists s.
Qed.

Lemma sess_ret {A} rs (a : A) (Q : A → world → Prop) w : Sess rs w → (∀ w', Sess rs w' → Q a w') → wp safe (mret a) Q w.
Proof. intros (s & Hs & Hw & Hrs) HQ. eapply wp_return; [done..|]. intros w' H. apply HQ. by exists s. Qed.

Lemma collectAttempt_wp rs r (Q : outcome → world → Prop) w :
  Sess rs w → (∀ w' out l, Sess (rs ++ l) w' → attempted r out l → Q out w') →
  wp safe (collectAttempt decodeAccount decodeLimits order r) Q w.
Proof.
  intros Hw HQ. unfold collectAttempt. apply wp_then. apply (ensureStarted_wp rs); [done|]. intros w1 [[]|err] H1.
  2:{ eapply failed_wp; [exact H1|]. intros w2 t H2. apply (HQ w2 _ []); [by rewrite app_nil_r|].
      exists (mkAttempt (Err err) (Err None) (Err None) true order t). split_and!; [done|apply sublist_nil_l|by right]. }
  apply wp_then. apply (call_wp rs); [done|done| |].
  { intros w2 err rs' H2 Hrs'. eapply failed_wp; [exact H2|]. intros w3 t H3.
    apply (HQ w3 _ (if decide (rs' = rs) then [] else [AccountReadRequest r])).
    { case_decide; [by subst; rewrite app_nil_r|]. by destruct Hrs' as [? | <-]. }
    exists (mkAttempt (Ok ()) (Err err) (Err None) true order t).
    split_and!; [done|case_decide; [apply sublist_nil_l|done]|by right]. }
  intros w2 account H2. destruct (bool_decide (Account account = None) && RequiresOpenAIAuth account) eqn:Elogin.
  - apply wp_then. eapply reset_wp; [exact H2|]. intros w3 exited H3.
    destruct exited; [eapply loginRequired_wp|eapply failed_wp]; try exact H3; intros w4 t H4; (eapply HQ; [exact H4|]).
    + exists (mkAttempt (Ok ()) (Ok account) (Err None) true order t). unfold Codex.collectAttempt. simpl. by rewrite Elogin.
    + exists (mkAttempt (Ok ()) (Ok account) (Err None) false order t). unfold Codex.collectAttempt. simpl. rewrite Elogin.
      split_and!; [done|done|by left].
  - apply wp_then. eapply (call_wp (rs ++ _)); [exact H2|done| |].
    + intros w3 err rs' H3 Hrs'. eapply failed_wp; [exact H3|]. intros w4 t H4.
      apply (HQ w4 _ (AccountReadRequest r :: if decide (rs' = rs ++ [AccountReadRequest r]) then [] else [RateLimitsReadRequest])).
      { case_decide; [by subst|]. destruct Hrs' as [? | ->]; [done|]. by rewrite <- app_assoc in H4. }
      exists (mkAttempt (Ok ()) (Ok account) (Err err) true order t). unfold Codex.collectAttempt. simpl. rewrite Elogin. simpl.
      split_and!; [done|case_decide; by repeat constructor|by right].
    + intros w3 limits (s & Hs & H3 & Hrs). eapply wp_Now; [exact Hs|exact H3|]. intros w4 t H4. eapply wp_return; [exact Hs|exact H4|].
      intros w5 H5. apply (HQ w5 _ [AccountReadRequest r; RateLimitsReadRequest]).
      { exists s. split_and!; [done..|]. by rewrite Hrs, <- app_assoc. }
      exists (mkAttempt (Ok ()) (Ok account) (Ok limits) true order t). unfold Codex.collectAttempt. simpl. rewrite Elogin. simpl.
      split_and!; [done|done|]. by intros [].
Qed.

Lemma Collect_wp rs (Q : outcome → world → Prop) w :
  Sess rs w → (∀ w' out l, Sess (rs ++ l) w' → collected out l → Q out w') →
  wp safe (Collect decodeAccount decodeLimits order) Q w.
Proof.
  intros Hw HQ. unfold Collect. apply wp_then. eapply collectAttempt_wp; [exact Hw|]. intros w1 [report [err|]] l H1 Hl.
  2:{ eapply sess_ret; [exact H1|]. intros w2 H2. eapply HQ; [exact H2|]. by apply collected_success. }
  apply wp_then. eapply reset_wp; [exact H1|]. intros w2 [] H2; cbn [negb].
  2:{ eapply sess_ret; [exact H2|]. intros w3 H3. eapply HQ; [exact H3|]. by eapply collected_stuck. }
  destruct (isCodexRefreshableAuthError err) eqn:Hr; cbn [negb].
  2:{ eapply sess_ret; [exact H2|]. intros w3 H3. eapply HQ; [exact H3|]. by apply collected_failure. }
  apply wp_then. eapply collectAttempt_wp; [exact H2|]. intros w3 [report2 [err2|]] l2 H3 Hl2; rewrite <- app_assoc in H3.
  2:{ eapply sess_ret; [exact H3|]. intros w4 H4. eapply HQ; [exact H4|]. eapply collected_second; [done..|]. by apply second_success. }
  assert (Hsecond : ∀ exited now, collected (if negb exited then (report2, Some None)
       else if isCodexRefreshableAuthError err2 then (codexLoginRequiredReport now, None) else (report2, Some err2)) (l ++ l2)).
  { intros exited now. eapply collected_second; [done..|]. by apply second_failure. }
  apply wp_then. eapply reset_wp; [exact H3|]. intros w4 [] H4; cbn [negb].
  - specialize (Hsecond true). cbn [negb] in Hsecond. destruct (isCodexRefreshableAuthError err2); cbn [negb].
    + eapply loginRequired_wp; [exact H4|]. intros w5 t H5. eapply HQ; [exact H5|]. exact (Hsecond t).
    + eapply sess_ret; [exact H4|]. intros w5 H5. eapply HQ; [exact H5|]. exact (Hsecond 0).
  - eapply sess_ret; [exact H4|]. intros w5 H5. eapply HQ; [exact H5|]. exact (Hsecond false 0).
Qed.

(** What a sequence of operations gives. *)
Definition served (ops : list operation) (outs : list outcome) (rs : list message) : Prop :=
  ∃ attempts : list (Attempt * Attempt),
    length attempts = length (filter (eq DoCollect) ops) ∧
    outs = map (λ '(e1, e2), (Codex.Collect e1 e2).1) attempts ∧
    rs `sublist_of` concat (map (λ '(e1, e2), asked (Codex.Collect e1 e2).2) attempts).

Lemma Quiet_Sess rs w : Quiet rs w → Sess rs w.
Proof. intros (s & Hs & Hw & Hrs). exists s. split_and!; [done| |done]. eapply St_mono; [|exact Hw]. done. Qed.

Lemma perform_wp rs o (Q : list outcome → world → Prop) w :
  Sess rs w →
  (∀ w' outs l, Sess (rs ++ l) w' → served [o] outs l → (o ≠ DoCollect → Quiet (rs ++ l) w') → Q outs w') →
  wp safe (perform decodeAccount decodeLimits order o) Q w.
Proof.
  intros Hw HQ. destruct o; cbn [perform]; apply wp_then.
  - eapply Collect_wp; [exact Hw|]. intros w1 out l H1 (e1 & e2 & -> & Hl). eapply sess_ret; [exact H1|]. intros w2 H2.
    eapply HQ; [exact H2| |done]. exists [(e1, e2)]. simpl. by rewrite app_nil_r.
  - eapply release_wp; [exact Hw|]. intros w1 (s & Hs & H1 & Hrs). eapply wp_return; [done|exact H1|]. intros w2 H2.
    assert (Quiet (rs ++ []) w2) by (rewrite app_nil_r; by exists s).
    eapply HQ; [by apply Quiet_Sess| |done]. by exists [].
  - eapply close_wp; [exact Hw|]. intros w1 (s & Hs & H1 & Hrs). eapply wp_return; [done|exact H1|]. intros w2 H2.
    assert (Quiet (rs ++ []) w2) by (rewrite app_nil_r; by exists s).
    eapply HQ; [by apply Quiet_Sess| |done]. by exists [].
Qed.

Lemma serve_wp rs ops w (quiet : bool) :
  Sess rs w → (quiet = true → Quiet rs w) →
  wp safe (serve decodeAccount decodeLimits order ops)
    (λ outs w', ∃ l, served ops outs l ∧ Sess (rs ++ l) w' ∧
       (match last ops with Some o => o ≠ DoCollect | None => quiet = true end → proc (wd_conn w') = None)) w.
Proof.
  revert rs w quiet. induction ops as [|o ops IH]; intros rs w quiet Hw Hq; cbn [serve].
  - assert (Hend : ∀ w', Sess rs w' → (quiet = true → Quiet rs w') → ∃ l, served [] [] l ∧ Sess (rs ++ l) w' ∧ (quiet = true → proc (wd_conn w') = None)).
    { intros w' H1 H2. exists []. rewrite app_nil_r. split_and!; [by exists []|done|]. intros E. destruct (H2 E) as (s & _ & [_ _ Hp] & _).
      destruct (proc (wd_conn w')) as [p|]; [by destruct (Hp p)|done]. }
    destruct quiet.
    + destruct (Hq eq_refl) as (s & Hs & H & Hrs). eapply wp_return; [done|exact H|]. intros w1 H1. apply Hend.
      * by apply Quiet_Sess; exists s.
      * intros _. by exists s.
    + eapply sess_ret; [exact Hw|]. intros w1 H1. by apply Hend.
  - apply wp_then. eapply perform_wp; [exact Hw|]. intros w1 outs l H1 (a1 & Hn1 & -> & Hl1) Hquiet.
    apply (wp_fmap safe _ (app _)). eapply wp_weaken; [|eapply (IH (rs ++ l) w1 (bool_decide (o ≠ DoCollect))); [exact H1|]].
    2:{ intros E%bool_decide_eq_true. auto. }
    simpl. intros outs2 w2 (l2 & (a2 & Hn2 & -> & Hl2) & H2 & Hp2). exists (l ++ l2). rewrite app_assoc. split_and!; [|done|].
    + exists (a1 ++ a2). rewrite length_app, map_app, map_app, concat_app, Hn2, Hn1. split_and!; [|done|by apply sublist_app].
      change (o :: ops) with ([o] ++ ops). rewrite filter_app, length_app. lia.
    + intros Hlast. apply Hp2. rewrite last_cons in Hlast. destruct (last ops); [done|]. by apply bool_decide_eq_true.
Qed.
End decisions.

(** ** The length of a program *)

Fixpoint bounded {A} (p : prog A) (n : nat) : Prop :=
  match p with Ret _ => True | Act o k => (0 < n)%nat ∧ ∀ x, bounded (k x) (pred n) end.

Lemma bounded_mono {A} (p : prog A) n m : bounded p n → (n <= m)%nat → bounded p m.
Proof.
  revert n m. induction p as [|o k IH]; intros n m; simpl; [done|]. intros [Hn Hk] Hm. split; [lia|].
  intros x. apply (IH x (pred n)); [done|lia].
Qed.

Lemma bounded_bind {A B} (p : prog A) (f : A → prog B) n m : bounded p n → (∀ a, bounded (f a) m) → bounded (p ≫= f) (n + m).
Proof.
  intros Hp Hf. revert n Hp. induction p as [a|o k IH]; intros n; simpl.
  - intros _. apply (bounded_mono (f a) m); [done|lia].
  - intros [Hn Hk]. split; [lia|]. intros x. apply (bounded_mono _ (pred n + m)); [by apply IH|lia].
Qed.

Definition inside (l : label) : bool := match l with Inside _ => true | Outside _ => false end.

Lemma execute_bounded {A} (p : prog A) n w ls p' w' :
  bounded p n → execute p w ls = Some (p', w') → (length (filter inside ls) <= n)%nat.
Proof.
  revert p n w. induction ls as [|[e|a] ls IH]; intros p n w Hp; cbn [execute]; [simpl; lia| |].
  - intros (w1 & _ & H)%bind_Some. rewrite filter_cons_False by (by intros []). eauto.
  - destruct p as [|o k]; [done|]. intros ([x w1] & _ & H)%bind_Some. destruct Hp as [Hn Hk].
    rewrite filter_cons_True by exact I. simpl. apply (IH _ (pred n)) in H; [lia|done].
Qed.

(** Counts the actions of a program without calls. *)
Ltac count_actions := repeat (first [exact I | split; [lia|intros ?] | case_match | progress cbn]).

Lemma callOnProcess_bounded {R} p m (decode : string → option R) zero : bounded (callOnProcess p m decode zero) 4.
Proof. unfold callOnProcess. count_actions. Qed.

Lemma call_bounded {R} m (decode : string → option R) zero : bounded (call m decode zero) 5.
Proof. split; [lia|]. intros [p|]; [apply callOnProcess_bounded|exact I]. Qed.

Lemma reset_bounded : bounded resetCurrentProcessAndWait 3.
Proof. unfold resetCurrentProcessAndWait. count_actions. Qed.

Lemma ensureStarted_bounded : bounded ensureStarted 9.
Proof.
  assert (H : ∀ p, bounded (initialized ← callOnProcess p InitializeRequest (λ _, Some ()) ();
      match initialized with
      | Err e => _ ← act (StopProcess None p); mret (Err e)
      | Ok _ => notified ← notify p InitializedNotification;
        if notified : bool then mret (@Ok callError unit ()) else _ ← act (StopProcess None p); mret (Err None)
      end) 6).
  { intros p. apply (bounded_bind _ _ 4 2); [apply callOnProcess_bounded|]. intros [?|?]; count_actions. }
  unfold ensureStarted. split; [lia|]. intros [q|]; cbn.
  - split; [lia|]. intros []; cbn; [|exact I]. split; [lia|]. intros [p|]; [apply H|exact I].
  - split; [lia|]. intros [p|]; [|exact I]. eapply bounded_mono; [apply H|simpl; lia].
Qed.

Section bounds.
Context (decodeAccount : string → option accountResponse) (decodeLimits : string → option rateLimitsResponse).
Context (order : gmap string rateLimitSnapshot → list rateLimitSnapshot).

Lemma collectAttempt_bounded r : bounded (collectAttempt decodeAccount decodeLimits order r) 20.
Proof.
  unfold collectAttempt. apply (bounded_bind _ _ 9 11); [apply ensureStarted_bounded|]. intros [[]|err]; [|count_actions].
  apply (bounded_bind _ _ 5 6); [apply call_bounded|]. intros [account|err]; [|count_actions].
  destruct (_ && _).
  - apply (bounded_bind _ _ 3 3); [apply reset_bounded|]. intros []; count_actions.
  - apply (bounded_bind _ _ 5 1); [apply call_bounded|]. intros [limits|err]; count_actions.
Qed.

Lemma Collect_bounded : bounded (Collect decodeAccount decodeLimits order) 47.
Proof.
  unfold Collect. apply (bounded_bind _ _ 20 27); [apply collectAttempt_bounded|]. intros [report [err|]]; [|exact I].
  apply (bounded_bind _ _ 3 24); [apply reset_bounded|]. intros []; [|exact I].
  destruct (isCodexRefreshableAuthError err); [|exact I].
  apply (bounded_bind _ _ 20 4); [apply collectAttempt_bounded|]. intros [report2 [err2|]]; [|exact I].
  apply (bounded_bind _ _ 3 1); [apply reset_bounded|]. intros []; cbn; [|exact I].
  destruct (isCodexRefreshableAuthError err2); count_actions.
Qed.

Lemma perform_bounded o : bounded (perform decodeAccount decodeLimits order o) 47.
Proof.
  destruct o; cbn [perform]; (apply (bounded_bind _ _ 47 0); [|intros; exact I]).
  - apply Collect_bounded.
  - unfold ReleaseIdleResources. count_actions.
  - unfold Close. count_actions.
Qed.

Lemma serve_bounded ops : bounded (serve decodeAccount decodeLimits order ops) (47 * length ops).
Proof.
  induction ops as [|o ops IH]; cbn [serve]; [exact I|]. eapply bounded_mono; [eapply (bounded_bind _ _ 47)|].
  - apply perform_bounded.
  - intros outs. eapply (bounded_bind _ _ _ 0); [exact IH|]. intros; exact I.
  - simpl. lia.
Qed.

(** C35. Whatever the app-server answers, whenever it dies or a call times out,
    and however its read loops run: a worker that collects, releases and
    closes in any order writes to each child the initialize request first, the
    initialized notification only after its answer, and requests only after
    both; there is never more than one child that was not told to stop, and
    none after a final release or close; the worker can always go on unless it
    has finished, and finishes within 47 actions for each operation. *)
Theorem Session_protocol (ops : list operation) (ls : list label) (p : prog (list outcome)) (w : world)
    (Hrun : execute (serve decodeAccount decodeLimits order ops) newWorld ls = Some (p, w)) :
  protocol (wd_sent w) ∧
  (∀ q q', procs (wd_conn w) !! q = Some Alive → procs (wd_conn w) !! q' = Some Alive → q = q') ∧
  match p with
  | Ret outs => (∀ o, last ops = Some o → o ≠ DoCollect → ∀ q, procs (wd_conn w) !! q ≠ Some Alive)
  | Act o k => ∃ es w' a r, runOutside w es = Some w' ∧ stepOp o a w' = Some r
  end ∧
  (length (filter inside ls) <= 47 * length ops)%nat.
Proof.
  assert (Hnew : Sess [] newWorld).
  { exists []. split_and!; [by left|by split; [split|..]; try done; intros ? ? ?%elem_of_nil|done]. }
  pose proof (serve_wp decodeAccount decodeLimits order [] ops newWorld false Hnew ltac:(done)) as Hwp.
  eapply wp_sound in Hwp; [|exact Hrun]. pose proof (wp_here _ _ _ _ Hwp) as [Hwf Hs].
  split_and!; [done| | |].
  - intros q q' Hq Hq'. apply (wf_alive w Hwf) in Hq, Hq'. congruence.
  - destruct p as [outs|o k].
    + intros o Ho Hne q Hq. destruct (Hwp [] w eq_refl) as (_ & l & _ & _ & Hp). rewrite Ho in Hp.
      apply (wf_alive w Hwf) in Hq. rewrite (Hp Hne) in Hq. done.
    + by destruct (Hwp [] w eq_refl) as (_ & Hprog & _).
  - eapply execute_bounded; [apply serve_bounded|exact Hrun].
Qed.

(** C36. The concurrent collector makes the decisions of the sequential one:
    each collection of such a session, if it ends, gives an outcome that
    [Codex.Collect] gives on some pair of attempts, and the requests that reach
    the children are among those that it makes, in this order (so a forced
    refresh is asked for at most once a collection, and only after the
    app-server has rejected the access token). *)
Theorem Session_refines (ops : list operation) (ls : list label) (outs : list outcome) (w : world)
    (Hrun : execute (serve decodeAccount decodeLimits order ops) newWorld ls = Some (Ret outs, w)) :
  ∃ attempts : list (Attempt * Attempt),
    length attempts = length (filter (eq DoCollect) ops) ∧
    outs = map (λ '(e1, e2), (Codex.Collect e1 e2).1) attempts ∧
    requests (wd_sent w) `sublist_of` concat (map (λ '(e1, e2), asked (Codex.Collect e1 e2).2) attempts).
Proof.
  assert (Hnew : Sess [] newWorld).
  { exists []. split_and!; [by left|by split; [split|..]; try done; intros ? ? ?%elem_of_nil|done]. }
  pose proof (serve_wp decodeAccount decodeLimits order [] ops newWorld false Hnew ltac:(done)) as Hwp.
  eapply wp_sound in Hwp; [|exact Hrun]. destruct (Hwp [] w eq_refl) as (_ & l & (attempts & Hn & Ho & Hl) & Hs & _).
  exists attempts. split_and!; [done..|]. destruct Hs as (s & _ & Hst & Hrs). by rewrite (st_sent _ _ _ Hst), Hrs.
Qed.
End bounds.

(** A collection whose access token is rejected once, then a release. *)
Definition answered (k : nat) (id : Z) (r : rpcResponse) : list label :=
  [Inside (Numbered k); Inside Succeeds; Outside (Responds id r); Inside GotReply].
Definition stopped (p : nat) : list label :=
  [Inside Succeeds; Outside (BeginsStop p); Outside (EndsStop p); Inside Succeeds; Outside (Reaped p); Inside Succeeds].
Definition greeting (p k : nat) (id : Z) : list label :=
  [Inside Succeeds; Inside (Starts p)] ++ answered k id (mkRpcResponse None "{}") ++ [Inside Succeeds].
Definition refresh_run : list label :=
  greeting 0 0 1 ++
  Inside Succeeds :: answered 1 2 (mkRpcResponse (Some (mkRpcError "token_expired" None)) "") ++
  [Inside (At 5)] ++ stopped 0 ++
  greeting 1 2 3 ++
  Inside Succeeds :: answered 3 4 (mkRpcResponse None "null") ++
  Inside Succeeds :: answered 4 5 (mkRpcResponse None "null") ++
  [Inside (At 7)] ++ stopped 1.

Definition refresh_session : option (prog (list outcome) * world) :=
  execute (serve (λ _, None) (λ _, None) (λ _, []) [DoCollect; DoRelease]) newWorld refresh_run.

Definition refresh_sent : list (nat * message) :=
  [(0%nat, InitializeRequest); (0%nat, InitializedNotification); (0%nat, AccountReadRequest false);
   (1%nat, InitializeRequest); (1%nat, InitializedNotification); (1%nat, AccountReadRequest true); (1%nat, RateLimitsReadRequest)].

Lemma Session_protocol_witness :
  match refresh_session with Some (Ret _, w) => wd_sent w = refresh_sent ∧ protocol (wd_sent w) | _ => False end.
Proof.
  destruct refresh_session as [[[outs|o k] w]|] eqn:E; [|by vm_compute in E..]. split.
  - vm_compute in E. by injection E as _ <-.
  - by apply (Session_protocol (λ _, None) (λ _, None) (λ _, []) [DoCollect; DoRelease] refresh_run (Ret outs) w).
Defined.

Lemma Session_refines_witness :
  match refresh_session with
  | Some (Ret outs, w) => length outs = 1%nat ∧ ∃ e1 e2, outs = [(Codex.Collect e1 e2).1]
  | _ => False
  end.
Proof.
  destruct refresh_session as [[[outs|o k] w]|] eqn:E; [|by vm_compute in E..].
  destruct (Session_refines (λ _, None) (λ _, None) (λ _, []) [DoCollect; DoRelease] refresh_run outs w E)
    as (attempts & Hn & -> & _).
  destruct attempts as [|[e1 e2] [|]]; [done| |done]. split; [done|]. by exists e1, e2.
Defined.
