(* ===== verification/Claude.v ===== *)
(** * internal/collector: the Claude collector

    [claude.go]: the authentication probe and its two-step logout
    confirmation, the order of the probes in [Collect], and the merging of
    reports from the two sources.  A run of the CLI is what it prints, decoded,
    and whether it failed; what [ParseClaudeUsage] makes of a usage output is
    part of the probe's environment. *)

From S2P Require Import Prelude GoTime GoText GoFloat Json Model Codex.

Definition claudeLogoutConfirmations : Z := 2.

Inductive ClaudeError :=
| AuthNotJSON | AuthNotObject | AuthNoLoginState
| LogoutUnconfirmed | CommandFailed | UsageInvalid.

#[global] Instance ClaudeError_eq_dec : EqDecision ClaudeError.
Proof. solve_decision. Defined.

(** ** Reading decoded objects *)

(** [objectValue]: the first of the keys that is present; nil is [None]. *)
Fixpoint objectValue (object : list (string * json)) (keys : list string) : option json :=
  match keys with
  | [] => None
  | key :: keys =>
    match field object key with Some value => Some value | None => objectValue object keys end
  end.

Definition boolValue (object : list (string * json)) (keys : list string) : option bool :=
  match objectValue object keys with Some (JBool b) => Some b | _ => None end.

Definition stringValue (object : list (string * json)) (keys : list string) : option string :=
  match objectValue object keys with Some (JString s) => Some s | _ => None end.

(** [value = child[key]] along a path, from the object. *)
Fixpoint walk (value : option json) (path : list string) : option json :=
  match path with
  | [] => value
  | key :: path =>
    match value with
    | Some (JObject child) => walk (field child key) path
    | _ => None
    end
  end.

Fixpoint stringValueNested (object : list (string * json)) (paths : list (list string)) : option string :=
  match paths with
  | [] => None
  | path :: paths =>
    match walk (Some (JObject object)) path with
    | Some (JString s) => Some s
    | _ => stringValueNested object paths
    end
  end.

(** [ParseClaudeAuthStatus]; [payload] is [None] when it is not JSON. *)
Definition ParseClaudeAuthStatus (payload : option json) (now : Time) : result ClaudeError ProviderReport :=
  match payload with
  | Some JNull => Err AuthNotObject
  | Some (JObject raw) =>
    match boolValue raw ["loggedIn"; "logged_in"; "authenticated"] with
    | None => Err AuthNoLoginState
    | Some loggedIn =>
      let plan := default "" (stringValue raw ["subscriptionType"; "subscription_type"; "plan"; "planType"]) in
      let plan := if bool_decide (plan = "")
        then default "" (stringValueNested raw [["account"; "subscriptionType"]; ["account"; "plan"]])
        else plan in
      let state := if loggedIn then "authenticated" else "unauthenticated" in
      Ok (mkProviderReport now state plan "claude-auth-status" noWindows "")
    end
  | _ => Err AuthNotJSON
  end.

(** ** Collect *)

(** What one call of [Collect] meets: the decoded output of the status
    command and whether the command failed, the same of the usage command
    ([p_usage] is what its output parses to), and the clock. *)
Record Probe := mkProbe {
  p_auth : option json;
  p_authFailed : bool;
  p_usageFailed : bool;
  p_usage : option ProviderReport;
  p_now : Time
}.

(** A report, and the error returned with it. *)
Definition collected : Type := ProviderReport * option ClaudeError.

(** [confirmLoggedOut] on the counter, an [int]. *)
Definition confirmLoggedOut (consecutiveLoggedOut : Z) : bool * Z :=
  let n := wrap64 (consecutiveLoggedOut + 1) in
  (claudeLogoutConfirmations <=? n, n).
Definition resetLogoutConfirmation : Z := 0.

Definition withErrorCode (r : ProviderReport) (code : string) : ProviderReport :=
  mkProviderReport (pr_ObservedAt r) (pr_AuthState r) (pr_Plan r) (pr_Source r) (pr_Windows r) code.

(** The usage half of [Collect], after an authenticated status. *)
Definition collectUsage (p : Probe) (auth : ProviderReport) : collected :=
  if p_usageFailed p then
    (mkProviderReport (pr_ObservedAt auth) (pr_AuthState auth) (pr_Plan auth) "claude-auth-status"
       (pr_Windows auth) "usage_command_failed", Some CommandFailed)
  else match p_usage p with
  | None => (withErrorCode auth "usage_parse_failed", Some UsageInvalid)
  | Some usage =>
    (mkProviderReport (pr_ObservedAt usage) (pr_AuthState auth)
       (if bool_decide (pr_Plan usage = "") then pr_Plan auth else pr_Plan usage)
       (pr_Source usage) (pr_Windows usage) (pr_ErrorCode usage), None)
  end.

(** [Collect], on the counter of consecutive logged-out answers. *)
Definition Collect (consecutiveLoggedOut : Z) (p : Probe) : collected * Z :=
  let unavailable code := unavailableReport "claude-auth-status" code (p_now p) in
  match ParseClaudeAuthStatus (p_auth p) (p_now p) with
  | Err parseErr =>
    (if p_authFailed p then (unavailable "auth_status_failed", Some CommandFailed)
     else (unavailable "auth_status_invalid", Some parseErr), resetLogoutConfirmation)
  | Ok auth =>
    if negb (bool_decide (pr_AuthState auth = "authenticated")) then
      let '(confirmed, n) := confirmLoggedOut consecutiveLoggedOut in
      (if negb confirmed then (unavailable "auth_logout_unconfirmed", Some LogoutUnconfirmed)
       else (withErrorCode auth "not_authenticated", None), n)
    else
      (if p_authFailed p then (unavailable "auth_status_failed", Some CommandFailed)
       else collectUsage p auth, resetLogoutConfirmation)
  end.

(** A collector polled with the probes in order, from a fresh counter. *)
Fixpoint collectAll (n : Z) (ps : list Probe) : list collected :=
  match ps with
  | [] => []
  | p :: ps => let '(c, n) := Collect n p in c :: collectAll n ps
  end.

(** ** Merging *)

Definition reusableWindow (window : option LimitWindow) (observedAt : Time) : bool :=
  match window with
  | None => false
  | Some w =>
    match ResetsAt w with
    | None => f_eq (UsedPercent w) f_zero && f_eq (RemainingPercent w) f_hundred
    | Some t => negb (IsZero t) && After t observedAt
    end
  end.

(** One of the two window assignments. *)
Definition carry (newer older : option LimitWindow) (observedAt : Time) : option LimitWindow :=
  if bool_decide (newer = None) && reusableWindow older observedAt then older else newer.

Definition MergeProviderReports (a b : ProviderReport) : ProviderReport :=
  let '(newer, older) := if After (pr_ObservedAt b) (pr_ObservedAt a) then (b, a) else (a, b) in
  if bool_decide (pr_AuthState newer = "unauthenticated") then
    mkProviderReport (pr_ObservedAt newer) (pr_AuthState newer) (pr_Plan newer) (pr_Source newer)
      noWindows (pr_ErrorCode newer)
  else
    mkProviderReport (pr_ObservedAt newer)
      (if bool_decide (pr_AuthState newer = "") then pr_AuthState older else pr_AuthState newer)
      (if bool_decide (pr_Plan newer = "") then pr_Plan older else pr_Plan newer)
      (pr_Source newer)
      (mkProviderWindows
         (carry (FiveHour (pr_Windows newer)) (FiveHour (pr_Windows older)) (pr_ObservedAt newer))
         (carry (SevenDay (pr_Windows newer)) (SevenDay (pr_Windows older)) (pr_ObservedAt newer)))
      (pr_ErrorCode newer).

(** ** Timestamps *)

(** [unixTimestamp]: seconds, or milliseconds when it is too large for them. *)
Definition unixTimestamp (value : Z) : Time :=
  if 1000000000000 <? value then UnixFromMilli value else UnixFromSec value.

Definition claudeResetPastTolerance : Duration := 24 * Hour.
Definition claudeResetMaxHorizon : Duration := 8 * 24 * Hour.

Definition validClaudeResetHorizon (reset observedAt : Time) : bool :=
  let delta := Sub reset observedAt in
  (- claudeResetPastTolerance <=? delta) && (delta <=? claudeResetMaxHorizon).

(** ** The probes of the installer *)

(** [CollectClaudeAuth]: one status command. *)
Definition CollectClaudeAuth (payload : option json) (failed : bool) (now : Time)
    : result ClaudeError ProviderReport :=
  let commandErr := if failed then Err CommandFailed else Ok tt in
  match ParseClaudeAuthStatus payload now with
  | Ok report =>
    if negb (bool_decide (pr_AuthState report = "authenticated"))
    then Ok (withErrorCode report "not_authenticated")
    else _ ← commandErr; Ok report
  | Err parseErr => _ ← commandErr; Err parseErr
  end.
