(* ===== verification/ClaudeUsage.v ===== *)
(** * internal/collector: what Claude says about its quota

    The parsers of [claude.go] for the structured [rate_limits] object and for
    the text of the [/usage] panel: headings, percentages and reset phrases,
    line by line.  The decoding of JSON text, the zone database and the
    machine's conversion of out-of-range floats are parameters; the order in
    which Go ranges over a map is the order of an object's fields. *)

From S2P Require Import Prelude GoTime GoText GoDate GoRegexp GoFloat GoStrconv Json Model Codex Claude.

Inductive UsageError :=
| NotJSON | NoRateLimits | WindowNotObject | NoPercentage | BadTimestamp | NoWindows | NoTextWindows.

#[global] Instance UsageError_eq_dec : EqDecision UsageError.
Proof. solve_decision. Defined.

(** ** The structured object *)

Definition objectOf (value : option json) : option (list (string * json)) :=
  match value with Some (JObject fields) => Some fields | _ => None end.

(** The keys tried on an object before its children. *)
Definition ownLimits (fields : list (string * json)) : option (list (string * json)) :=
  match objectOf (field fields "rate_limits") with
  | Some limits => Some limits
  | None => objectOf (field fields "rateLimits")
  end.

Fixpoint findRateLimits (value : json) : option (list (string * json)) :=
  match value with
  | JObject fields =>
    match ownLimits fields with
    | Some limits => Some limits
    | None =>
      (fix go (fields : list (string * json)) : option (list (string * json)) :=
         match fields with
         | [] => None
         | (_, child) :: fields => match findRateLimits child with Some l => Some l | None => go fields end
         end) fields
    end
  | JArray children =>
    (fix go (children : list json) : option (list (string * json)) :=
       match children with
       | [] => None
       | child :: children => match findRateLimits child with Some l => Some l | None => go children end
       end) children
  | _ => None
  end.

Definition TrimSuffix (s suffix : string) : string :=
  let n := (Stdlib.Strings.String.length s - Stdlib.Strings.String.length suffix)%nat in
  if bool_decide (Stdlib.Strings.String.substring n (Stdlib.Strings.String.length suffix) s = suffix ∧
                  (Stdlib.Strings.String.length suffix <= Stdlib.Strings.String.length s)%nat)
  then Stdlib.Strings.String.substring 0 n s else s.

Section parsers.
Context (otherFloat : string → float64 * bool) (machineInt : float64 → Z).

Definition numberValue (object : list (string * json)) (keys : list string) : option float64 :=
  match objectValue object keys with
  | Some (JNumber x) => Some x
  | Some (JString s) =>
    let '(x, ok) := ParseFloat otherFloat (TrimSuffix (TrimSpace s) "%") in if ok then Some x else None
  | _ => None
  end.

(** [time.RFC3339Nano] and [time.RFC3339] parse alike. *)
Definition parseTimestamp (value : option json) : option Time :=
  match value with
  | Some (JString s) =>
    match ParseRFC3339 s with
    | Some t => Some t
    | None => unixTimestamp <$> ParseInt s
    end
  | Some (JNumber x) => Some (unixTimestamp (f_to_int64 machineInt x))
  | _ => None
  end.

Definition parseClaudeWindow (value : json) : result UsageError LimitWindow :=
  match value with
  | JObject object =>
    match numberValue object ["used_percentage"; "usedPercent"; "used_percent"; "utilization"] with
    | None => Err NoPercentage
    | Some used =>
      match parseTimestamp (objectValue object ["resets_at"; "resetsAt"; "reset_at"; "resetAt"]) with
      | None => Err BadTimestamp
      | Some reset => Ok (normalizeWindow used reset)
      end
    end
  | _ => Err WindowNotObject
  end.

(** An absent window, one that is JSON's null, and one that is parsed. *)
Definition optionalWindow (value : option json) : result UsageError (option LimitWindow) :=
  match value with
  | None | Some JNull => Ok None
  | Some value => w ← parseClaudeWindow value; Ok (Some w)
  end.

(** [parseClaudeRateLimits]; [payload] is [None] when it is not JSON. *)
Definition parseClaudeRateLimits (payload : option json) (observedAt : Time) (source : string)
    : result UsageError ProviderReport :=
  match payload with
  | None => Err NotJSON
  | Some root =>
    match findRateLimits root with
    | None => Err NoRateLimits
    | Some limits =>
      five ← optionalWindow (objectValue limits ["five_hour"; "fiveHour"; "5h"]);
      seven ← optionalWindow (objectValue limits ["seven_day"; "sevenDay"; "7d"]);
      match five, seven with
      | None, None => Err NoWindows
      | _, _ => Ok (mkProviderReport observedAt "authenticated" "" source (mkProviderWindows five seven) "")
      end
    end
  end.

Definition ParseClaudeStatusLine (payload : option json) (observedAt : Time) : result UsageError ProviderReport :=
  parseClaudeRateLimits payload observedAt "claude-statusline".
End parsers.

(** ** The patterns *)

Definition Grp_digits : re := Plus true Digit.
Definition colonOrEnd : re := Alt (Seq Spaces (Lit ":")) (Seq Spaces Eol).
Definition until (stopRune : Z) : Z → bool := λ r, negb (r =? stopRune).

Definition ansiPattern : re :=
  Seqs [Rune 0x1b; Lit "["; Star true (Cls (within 48 63)); Star true (Cls (within 32 47)); Cls (within 64 126)].
Definition percentPattern : re :=
  Seqs [Grp 1 (Seq Grp_digits (Opt (Seq (Lit ".") Grp_digits))); Spaces; Lit "%"; Spaces; Opt (ILit "used")].
Definition timestampPattern : re :=
  Seqs [Exactly 4 Digit; Lit "-"; Exactly 2 Digit; Lit "-"; Exactly 2 Digit; Lit "T";
        Exactly 2 Digit; Lit ":"; Exactly 2 Digit; Lit ":"; Exactly 2 Digit; Opt (Seq (Lit ".") Grp_digits);
        Alt (Lit "Z") (Seqs [Cls (λ r, (r =? 43) || (r =? 45)); Exactly 2 Digit; Opt (Lit ":"); Exactly 2 Digit])].
Definition resetPhrasePattern : re :=
  Seqs [Wordb; ILit "reset"; Opt (ILit "s"); Spaces1; Grp 1 (Plus false (Cls any_rune)); Spaces; Eol].
Definition relativeResetPattern : re :=
  Seqs [Bol; ILit "in"; Spaces1; Grp 1 (Plus false (Cls any_rune)); Spaces; Eol].
Definition unitPattern : re :=
  Alts [Seq (ILit "day") (Opt (ILit "s")); ILit "d"; Seq (ILit "hour") (Opt (ILit "s")); Seq (ILit "hr") (Opt (ILit "s")); ILit "h";
        Seq (ILit "minute") (Opt (ILit "s")); Seq (ILit "min") (Opt (ILit "s")); ILit "m";
        Seq (ILit "second") (Opt (ILit "s")); Seq (ILit "sec") (Opt (ILit "s")); ILit "s"].
Definition relativeResetPart : re := Seqs [Grp 1 Grp_digits; Spaces; Grp 2 unitPattern].
Definition absoluteResetPattern : re :=
  Seqs [Bol; Grp 1 (Plus true (Cls letter_fold)); Spaces1; Grp 2 (Between1 2 Digit);
        Opt (Seqs [Lit ","; Spaces; Grp 3 (Exactly 4 Digit)]);
        Alt (Seq (Lit ",") Spaces) (Seqs [Spaces1; ILit "at"; Spaces1]);
        Grp 4 (Between1 2 Digit); Opt (Seq (Lit ":") (Grp 5 (Exactly 2 Digit))); Spaces;
        Opt (Grp 6 (Alt (ILit "am") (ILit "pm")));
        Opt (Seqs [Spaces; Lit "("; Grp 7 (Plus true (Cls (until 41))); Lit ")"]); Eol].
Definition currentWeekHeading : re :=
  Seqs [Bol; Spaces; ILit "current"; Spaces1; ILit "week";
        Opt (Seqs [Spaces; Lit "("; Grp 1 (Star true (Cls (until 41))); Lit ")"]); colonOrEnd].
Definition modelOnlyHeading : re :=
  Seqs [Bol; Spaces; Between1 80 (Cls (until 58)); Wordb; ILit "only"; colonOrEnd].
Definition limitOrUsage : re := Opt (Seq Spaces1 (Alt (ILit "limit") (ILit "usage"))).
Definition currentSession : re := Seqs [ILit "current"; Spaces1; ILit "session"].
Definition currentSessionHeading : re := Seqs [Bol; Spaces; currentSession; limitOrUsage; colonOrEnd].
Definition fiveHourHeading : re :=
  Seqs [Bol; Spaces;
        Alts [currentSession; ILit "5h"; Seqs [Lit "5"; Spaces; ILit "hour"; Opt (ILit "s")]; ILit "5-hour"];
        limitOrUsage; colonOrEnd].
Definition sevenDayHeading : re :=
  Seqs [Bol; Spaces;
        Alts [Seqs [ILit "all"; Spaces1; ILit "models"]; ILit "7d"; Seqs [Lit "7"; Spaces; ILit "day"; Opt (ILit "s")];
              ILit "7-day"; Seqs [ILit "weekly"; Spaces1; ILit "limit"; Opt (ILit "s")]];
        colonOrEnd].

(** ** Headings *)

Inductive windowKind := NoKind | Five | Seven.

#[global] Instance windowKind_eq_dec : EqDecision windowKind.
Proof. solve_decision. Defined.

Fixpoint joinBlank (l : list string) : string :=
  match l with [] => "" | [s] => s | s :: l => s +:+ " " +:+ joinBlank l end.

(** The heading's window; [None] for a line that is no heading. *)
Definition classifyClaudeUsageHeading (line : string) : option windowKind :=
  match FindStringSubmatch currentWeekHeading line with
  | Some c => Some (if EqualFold (joinBlank (Fields (groupText c 1))) "all models" then Seven else NoKind)
  | None =>
    if MatchString modelOnlyHeading line then Some NoKind
    else if MatchString fiveHourHeading line then Some Five
    else if MatchString sevenDayHeading line then Some Seven
    else None
  end.

(** ** Reset phrases *)

Definition Day_ : Duration := 24 * Hour.
Definition maxHorizon : Duration := 8 * Day_.

Definition unitOf (name : string) : option Duration :=
  if bool_decide (name ∈ ["d"; "day"; "days"]) then Some Day_
  else if bool_decide (name ∈ ["h"; "hr"; "hrs"; "hour"; "hours"]) then Some Hour
  else if bool_decide (name ∈ ["m"; "min"; "mins"; "minute"; "minutes"]) then Some Minute
  else if bool_decide (name ∈ ["s"; "sec"; "secs"; "second"; "seconds"]) then Some Second
  else None.

(** The loop over the parts, on an [int64] duration. *)
Fixpoint addParts (duration : Duration) (parts : list caps) : option Duration :=
  match parts with
  | [] => Some duration
  | part :: parts =>
    amount ← ParseInt (groupText part 1);
    unit ← unitOf (ToLower (groupText part 2));
    if maxHorizon / unit <? amount then None
    else
      let duration := wrap64 (duration + wrap64 (amount * unit)) in
      if maxHorizon <? duration then None else addParts duration parts
  end.

(** [strings.ReplaceAll(s, "and", "")] and [strings.Trim(s, " \t,·")]. *)
Fixpoint removeAnd (s : string) : string :=
  match s with
  | String "a" (String "n" (String "d" s)) => removeAnd s
  | String a s => String a (removeAnd s)
  | EmptyString => EmptyString
  end.
Definition trimmed (r : Z) : bool := bool_decide (r ∈ [32; 9; 44; 0xB7]).
Definition TrimSeparators (s : string) : string :=
  let p := λ c : chunk, trimmed c.1 in
  bytes_of (rev (drop_while p (rev (drop_while p (chunks s))))).

Definition parseClaudeRelativeReset (value : string) (observedAt : Time) : option Time :=
  c ← FindStringSubmatch relativeResetPattern (TrimSpace value);
  let text := groupText c 1 in
  let parts := FindAllStringSubmatch relativeResetPart text in
  if bool_decide (parts = []) then None
  else if negb (bool_decide (TrimSeparators (removeAnd (ToLower (RemoveAllString relativeResetPart text))) = "")) then None
  else duration ← addParts 0 parts; Some (Add observedAt duration).

Definition monthNames : list string :=
  ["january"; "february"; "march"; "april"; "may"; "june"; "july"; "august"; "september"; "october"; "november"; "december"].
Fixpoint monthIndex (names : list string) (m : Z) (lower : string) : option Z :=
  match names with
  | [] => None
  | name :: names =>
    if bool_decide (lower = name ∨ lower = Stdlib.Strings.String.substring 0 3 name) then Some m
    else monthIndex names (m + 1) lower
  end.
Definition englishMonth (value : string) : option Z := monthIndex monthNames 1 (ToLower (TrimSpace value)).

(** [time.Date] normalizes invalid dates and the gaps of daylight-saving time;
    such an instant does not have the fields it was built from. *)
Definition buildClaudeAbsoluteReset (year month day hour minute : Z) (location : Location) : option Time :=
  let parsed := Date location year month day hour minute in
  let local := In_ location parsed in
  if bool_decide (Year (Date_ local) = year ∧ Month (Date_ local) = month ∧ Day (Date_ local) = day ∧
                  Hour_ local = hour ∧ Minute_ local = minute)
  then Some parsed else None.

(** The hour on the 24-hour clock. *)
Definition clockHour (hour : Z) (meridiem : string) : option Z :=
  if bool_decide (meridiem ≠ "") then
    if (hour <? 1) || (12 <? hour) then None
    else let hour := if hour =? 12 then 0 else hour in
         Some (if bool_decide (meridiem = "pm") then hour + 12 else hour)
  else if (hour <? 0) || (23 <? hour) then None else Some hour.

Fixpoint firstYear (years : list Z) (build : Z → option Time) (observedAt : Time) : option Time :=
  match years with
  | [] => None
  | year :: years =>
    match build year with
    | Some parsed => if validClaudeResetHorizon parsed observedAt then Some parsed else firstYear years build observedAt
    | None => firstYear years build observedAt
    end
  end.

Section text.
Context (LoadLocation : string → option Location) (local : Location) (otherFloat : string → float64 * bool).

Definition parseClaudeAbsoluteReset (value : string) (observedAt : Time) : option Time :=
  c ← FindStringSubmatch absoluteResetPattern (TrimSpace value);
  month ← englishMonth (groupText c 1);
  day ← ParseInt (groupText c 2);
  hour ← ParseInt (groupText c 4);
  minute ← (if bool_decide (groupText c 5 = "") then Some 0 else ParseInt (groupText c 5));
  if (day <? 1) || (31 <? day) || (minute <? 0) || (59 <? minute) then None
  else
    hour ← clockHour hour (ToLower (groupText c 6));
    let zoneName := TrimSpace (groupText c 7) in
    location ← (if bool_decide (zoneName = "") then Some local else LoadLocation zoneName);
    let build year := buildClaudeAbsoluteReset year month day hour minute location in
    if bool_decide (groupText c 3 = "") then
      let year := Year (Date_ (In_ location observedAt)) in
      firstYear [year - 1; year; year + 1] build observedAt
    else
      year ← ParseInt (groupText c 3);
      firstYear [year] build observedAt.

Definition parseClaudeUsageReset (line : string) (observedAt : Time) : option Time :=
  c ← FindStringSubmatch resetPhrasePattern (TrimSpace line);
  let value := TrimSpace (groupText c 1) in
  let stamp := FindString timestampPattern value in
  if negb (bool_decide (stamp = "")) then
    parsed ← ParseRFC3339 stamp;
    if validClaudeResetHorizon parsed observedAt then Some parsed else None
  else
    match parseClaudeRelativeReset value observedAt with
    | Some parsed => if validClaudeResetHorizon parsed observedAt then Some parsed else None
    | None => parseClaudeAbsoluteReset value observedAt
    end.

(** ** The panel *)

Record pendingWindow := mkPending {
  kind : windowKind;
  allowInactiveWithoutReset : bool;
  used : option float64;
  reset : option Time
}.
Definition noPending : pendingWindow := mkPending NoKind false None None.

Definition setFive (ws : ProviderWindows) (w : LimitWindow) : ProviderWindows := mkProviderWindows (Some w) (SevenDay ws).
Definition setSeven (ws : ProviderWindows) (w : LimitWindow) : ProviderWindows := mkProviderWindows (FiveHour ws) (Some w).

Definition commit (ws : ProviderWindows) (pending : pendingWindow) : ProviderWindows :=
  match used pending with
  | None => ws
  | Some u =>
    match reset pending with
    | None =>
      if bool_decide (kind pending = Five) && allowInactiveWithoutReset pending && f_eq u f_zero
      then setFive ws (mkLimitWindow f_zero f_hundred None) else ws
    | Some t =>
      match kind pending with
      | Five => setFive ws (normalizeWindow u t)
      | Seven => setSeven ws (normalizeWindow u t)
      | NoKind => ws
      end
    end
  end.

(** The percentage of a line. *)
Definition linePercent (line : string) : option float64 :=
  c ← FindStringSubmatch percentPattern line;
  let x := (ParseFloat otherFloat (groupText c 1)).1 in
  let lower := ToLower line in
  Some (if Contains lower "remaining" && negb (Contains lower "used") then f_sub f_hundred x else x).

Definition scanLine (observedAt : Time) (s : ProviderWindows * pendingWindow) (line : string) : ProviderWindows * pendingWindow :=
  let '(ws, pending) :=
    match classifyClaudeUsageHeading line with
    | Some k => (commit s.1 s.2, mkPending k (bool_decide (k = Five) && MatchString currentSessionHeading line) None None)
    | None => s
    end in
  if bool_decide (kind pending = NoKind) then (ws, pending)
  else
    let u := match linePercent line with Some u => Some u | None => used pending end in
    let t := match parseClaudeUsageReset line observedAt with Some t => Some t | None => reset pending end in
    (ws, mkPending (kind pending) (allowInactiveWithoutReset pending) u t).

Definition newline : ascii := "010"%char.

Definition scanText (text : string) (observedAt : Time) : ProviderWindows :=
  let '(ws, pending) := foldl (scanLine observedAt) (noWindows, noPending) (Split newline text) in commit ws pending.

Definition parseClaudeUsageText (text : string) (observedAt : Time) : result UsageError ProviderReport :=
  let ws := scanText text observedAt in
  match FiveHour ws, SevenDay ws with
  | None, None => Err NoTextWindows
  | _, _ => Ok (mkProviderReport observedAt "authenticated" "" "claude-usage" ws "")
  end.

Definition stripANSI (value : string) : string := RemoveAllString ansiPattern value.

(** ** The usage output *)

Definition quotaText (key text : string) : bool :=
  bool_decide (key ∈ ["result"; "text"]) &&
  (let lower := ToLower text in Contains lower "% used" || Contains lower "rate limit" || Contains lower "current session").

Fixpoint collectQuotaText (value : json) : list string :=
  match value with
  | JObject fields =>
    (fix go (fields : list (string * json)) : list string :=
       match fields with
       | [] => []
       | (key, child) :: fields =>
         match child with JString text => if quotaText key text then [text] else [] | _ => [] end ++
         collectQuotaText child ++ go fields
       end) fields
  | JArray children =>
    (fix go (children : list json) : list string :=
       match children with [] => [] | child :: children => collectQuotaText child ++ go children end) children
  | _ => []
  end.

Context (Unmarshal : string → option json) (machineInt : float64 → Z).

(** The loop over the lines of the output: the first object found, or the
    texts of the lines that are JSON. *)
Fixpoint scanOutput (lines : list string) (texts : list string) : list (string * json) + list string :=
  match lines with
  | [] => inr texts
  | line :: lines =>
    let line := TrimSpace line in
    if bool_decide (line = "") then scanOutput lines texts
    else match Unmarshal line with
    | None => scanOutput lines texts
    | Some value =>
      match findRateLimits value with
      | Some limits => inl limits
      | None => scanOutput lines (texts ++ collectQuotaText value)
      end
    end
  end.

Fixpoint joinLines (l : list string) : string :=
  match l with [] => "" | [s] => s | s :: l => s +:+ String newline (joinLines l) end.

(** Encoding the object found and decoding it again gives the same value. *)
Definition ParseClaudeUsage (payload : string) (observedAt : Time) : result UsageError ProviderReport :=
  match parseClaudeRateLimits otherFloat machineInt (Unmarshal payload) observedAt "claude-usage" with
  | Ok report => Ok report
  | Err _ =>
    match scanOutput (Split newline payload) [] with
    | inl limits =>
      parseClaudeRateLimits otherFloat machineInt (Some (JObject [("rate_limits", JObject limits)])) observedAt "claude-usage"
    | inr texts =>
      match (if bool_decide (texts = []) then Err NoTextWindows else parseClaudeUsageText (joinLines texts) observedAt) with
      | Ok report => Ok report
      | Err _ => parseClaudeUsageText (stripANSI payload) observedAt
      end
    end
  end.
End text.

(** ** Runs on real panels *)

Definition noZones : string → option Location := λ name, if bool_decide (name = "UTC") then Some UTC else None.
Definition aug_24_2025 : Time := 1755993600 * Second.   (* 2025-08-24 00:00 UTC *)
Definition panel : string := joinLines
  ["Current session: 12% used · resets in 2h30m"; "Current week (all models): 40.5% used · resets Aug 25, 8:09am (UTC)";
   "Current week (Opus): 90% used · resets Aug 29, 8:09am (UTC)"].

Example panel_parses :
  parseClaudeUsageText noZones UTC noOther panel aug_24_2025 =
  Ok (mkProviderReport aug_24_2025 "authenticated" "" "claude-usage"
    (mkProviderWindows
      (Some (normalizeWindow (f_of_Z 12) (aug_24_2025 + 150 * Minute)))
      (Some (normalizeWindow (f_div (f_of_Z 81) (f_of_Z 2)) (aug_24_2025 + 32 * Hour + 9 * Minute)))) "").
Proof. vm_compute. reflexivity. Qed.

Example inactive_session :
  parseClaudeUsageText noZones UTC noOther (joinLines ["Current session"; "0% used"]) aug_24_2025 =
  Ok (mkProviderReport aug_24_2025 "authenticated" "" "claude-usage"
    (mkProviderWindows (Some (mkLimitWindow f_zero f_hundred None)) None) "").
Proof. vm_compute. reflexivity. Qed.

Example headings :
  map classifyClaudeUsageHeading
    ["Current week (ALL  models)"; "current week (Opus):"; "Sonnet only: 3%"; "5-hour limit: 7%"; "Resets in 5h"; "  7 days"] =
  [Some Seven; Some NoKind; Some NoKind; Some Five; None; Some Seven].
Proof. vm_compute. reflexivity. Qed.
