(* ===== verification/ClaudeUsageFacts.v ===== *)
(** * Facts about Claude's usage panel

    Whatever the text, a window that is reported has a percentage and a reset
    near the observation; the reset phrases are read back as they are written;
    and the structured object does not depend on the order of a map, unless a
    document holds several. *)

From S2P Require Import Prelude GoTime GoText GoTextFacts GoDate GoRegexp GoRegexpFacts GoFloat GoStrconv Json Model Version Validate Codex CodexFacts Claude ClaudeUsage.

(** ** Decoded pieces of a string *)

Lemma chunks_ok s : Forall chunk_ok (chunks s).
Proof. induction s as [|c s' Hok IH Hc] using chunks_ind; [constructor|]. rewrite Hc. by constructor. Qed.

Lemma subset_ok l s : l ⊆ chunks s → Forall chunk_ok l.
Proof.
  intros Hl. apply Forall_forall. intros c Hc. pose proof (chunks_ok s) as H.
  rewrite Forall_forall in H. by apply H, Hl.
Qed.

Lemma bytes_app l1 l2 : bytes_of (l1 ++ l2) = bytes_of l1 +:+ bytes_of l2.
Proof.
  induction l1 as [|c l1 IH]; [done|].
  change (bytes_of ((c :: l1) ++ l2)) with (c.2 +:+ bytes_of (l1 ++ l2)). rewrite IH.
  change (bytes_of (c :: l1)) with (c.2 +:+ bytes_of l1).
  generalize (c.2) as s. intros s. induction s as [|a s IHs]; [done|]. rewrite !str_app_cons. by rewrite IHs.
Qed.

Lemma digit_chunk c : chunk_ok c → is_digit c.1 = true →
  ∃ x, 0 <= x <= 9 ∧ c.2 = String (chr c.1) "" ∧ digitOf (chr c.1) = Some x.
Proof.
  intros [_ Hok] Hd. unfold is_digit, within in Hd. breflect. destruct Hok as [_ ->]; [lia|].
  exists (c.1 - 48). split; [lia|]. split; [done|]. unfold digitOf.
  assert (zb (chr c.1) = c.1) as ->.
  { unfold zb, chr. rewrite Stdlib.Strings.Ascii.N_ascii_embedding; lia. }
  unfold within. by rewrite !(proj2 (Z.leb_le _ _)) by lia.
Qed.

(** A run of digits is read to its end. *)
Lemma digits_run l rest acc n :
  Forall chunk_ok l → all is_digit l → 0 <= acc → match rest with String a _ => digitOf a = None | _ => True end →
  ∃ v, 0 <= v ∧ GoStrconv.digits acc n (bytes_of l +:+ rest) = (v, (n + List.length l)%nat, rest).
Proof.
  intros Hok Hd. revert acc n. induction l as [|c l IH]; intros acc n Hacc Hr.
  - exists acc. split; [done|]. change (bytes_of [] +:+ rest) with rest. rewrite Nat.add_0_r.
    destruct rest as [|a rest]; [done|]. simpl. by rewrite Hr.
  - inversion Hok as [|? ? Hc Hok']; inversion Hd as [|? ? Hx Hd']; subst.
    destruct (digit_chunk c Hc Hx) as (x & Hx9 & Ec & Ex).
    change (bytes_of (c :: l) +:+ rest) with ((c.2 +:+ bytes_of l) +:+ rest). rewrite Ec.
    change ((String (chr c.1) "" +:+ bytes_of l) +:+ rest) with (String (chr c.1) (bytes_of l +:+ rest)).
    cbn [GoStrconv.digits]. rewrite Ex. destruct (IH Hok' Hd' (10 * acc + x) (S n)) as (v & Hv & E); [lia|done|].
    exists v. split; [done|]. rewrite E. cbn [List.length]. do 2 f_equal. lia.
Qed.

(** ** Percentages are numbers *)

Lemma lang_digits l : lang Grp_digits l → l ≠ [] ∧ all is_digit l.
Proof.
  unfold Grp_digits, Plus, Digit. inversion 1; subst.
  match goal with H : lang (Cls _) _ |- _ => inversion H; subst end.
  match goal with H : lang (Star _ _) _ |- _ => apply lang_star_all in H end. split; [done|by constructor].
Qed.

Lemma digits_first l : l ≠ [] → Forall chunk_ok l → all is_digit l →
  ∃ a s x, bytes_of l = String a s ∧ digitOf a = Some x.
Proof.
  intros Hne Hok Hd. destruct l as [|c l]; [done|].
  inversion Hok as [|? ? Hc ?]; inversion Hd as [|? ? Hx ?]; subst.
  destruct (digit_chunk c Hc Hx) as (x & _ & Ec & Ex). change (bytes_of (c :: l)) with (c.2 +:+ bytes_of l).
  rewrite Ec. by exists (chr c.1), (bytes_of l), x.
Qed.

Lemma digitOf_sign a x : digitOf a = Some x → bool_decide (a = "-"%char) = false ∧ bool_decide (a = "+"%char) = false.
Proof. intros H. split; apply bool_decide_eq_false; intros ->; done. Qed.

(** What the percentage pattern captures is a decimal number. *)
Lemma ParseFloat_digits other l :
  Forall chunk_ok l → lang (Seq Grp_digits (Opt (Seq (Lit ".") Grp_digits))) l →
  not_negative (ParseFloat other (bytes_of l)).1.
Proof.
  intros Hok Hl. inversion Hl as [| |a b l1 l2 H1 H2| | | | | | | |]; subst.
  apply Forall_app in Hok as [Hok1 Hok2]. apply lang_digits in H1 as [Hne1 Hd1].
  assert (Hdec : ∃ m x, 0 <= m ∧ GoStrconv.decimal (bytes_of (l1 ++ l2)) = Some (m, x)).
  { rewrite bytes_app. unfold GoStrconv.decimal.
    inversion H2 as [| | |a' b' l' H3|a' b' l' H3| | | | | |]; subst.
    - inversion H3 as [| |a b l3 l4 H4 H5| | | | | | | |]; subst. apply lang_digits in H5 as [Hne4 Hd4].
      apply Forall_app in Hok2 as [Hok3 Hok4]. inversion H4 as [|f x Hx| | | | | | | | |]; subst.
      apply Z.eqb_eq in Hx. inversion Hok3 as [|? ? [_ Hx2] _]; subst.
      assert (Ebytes : bytes_of ([x] ++ l4) = String "." (bytes_of l4)).
      { change (bytes_of ([x] ++ l4)) with (x.2 +:+ bytes_of l4). destruct Hx2 as [_ ->]; [by rewrite Hx|]. by rewrite Hx. }
      rewrite Ebytes.
      destruct (digits_run l1 (String "." (bytes_of l4)) 0 0 Hok1 Hd1) as (v & Hv & ->); [done|done|].
      cbn [bool_decide decide_rel]. rewrite bool_decide_true by done.
      destruct (digits_run l4 "" v 0 Hok4 Hd4) as (v' & Hv' & E'); [done|done|]. rewrite str_app_nil in E'. rewrite E'.
      cbn [exponent]. exists v', (0 - Z.of_nat (0 + List.length l4)). split; [done|].
      rewrite bool_decide_true; [done|]. split; [|done]. destruct l1; [done|]. simpl. lia.
    - inversion H3; subst. change (bytes_of []) with "".
      destruct (digits_run l1 "" 0 0 Hok1 Hd1) as (v & Hv & ->); [done|done|].
      cbn [exponent]. exists v, (0 - Z.of_nat 0). split; [done|].
      rewrite bool_decide_true; [done|]. split; [|done]. destruct l1; [done|]. simpl. lia. }
  destruct Hdec as (m & x & Hm & Hdec). unfold ParseFloat.
  assert (Hsign : sign (bytes_of (l1 ++ l2)) = (false, bytes_of (l1 ++ l2))).
  { rewrite bytes_app. destruct (digits_first l1 Hne1 Hok1 Hd1) as (a & s & d & -> & Hd).
    rewrite str_app_cons. unfold sign. destruct (digitOf_sign a d Hd) as [-> ->]. done. }
  rewrite Hsign, Hdec. cbn [fst]. by apply f_of_decimal_sign.
Qed.

Lemma not_negative_not_nan x : not_negative x → IsNaN x = false.
Proof. by destruct x. Qed.

Lemma sub_hundred_not_nan x : IsNaN x = false → IsNaN (f_sub f_hundred x) = false.
Proof.
  intros Hx. destruct x as [s|s| |s m e]; [done..|]. apply binary_normalize_not_nan.
Qed.

Lemma linePercent_not_nan other line u : linePercent other line = Some u → IsNaN u = false.
Proof.
  unfold linePercent. destruct (FindStringSubmatch percentPattern line) as [c|] eqn:E; [|done].
  cbn [mbind option_bind]. intros [= <-].
  assert (H : not_negative (ParseFloat other (groupText c 1)).1).
  { unfold groupText. destruct (submatch_must _ _ _ 1 E eq_refl) as [l Eg]. rewrite Eg. cbn [default].
    destruct (submatch_sound _ _ _ _ _ E Eg) as [(a & Ha & Hl) Hs].
    cbn in Ha. assert (a = Seq Grp_digits (Opt (Seq (Lit ".") Grp_digits))) as ->.
    { repeat destruct Ha as [Ha|Ha]; try done. by destruct Ha as [_ <-]. }
    by apply (ParseFloat_digits other l (subset_ok l line Hs)). }
  apply not_negative_not_nan in H. destruct (Contains _ _ && _); [by apply sub_hundred_not_nan|done].
Qed.

(** ** Resets are near the observation *)

Lemma firstYear_horizon years build t r :
  firstYear years build t = Some r → validClaudeResetHorizon r t = true ∧ ∃ y, y ∈ years ∧ build y = Some r.
Proof.
  induction years as [|y years IH]; [done|]. cbn [firstYear].
  destruct (build y) as [p|] eqn:E; [destruct (validClaudeResetHorizon p t) eqn:Ev|].
  - intros [= ->]. split; [done|]. exists y. split; [set_solver|done].
  - intros (? & y' & ? & ?)%IH. split; [done|]. exists y'. split; [set_solver|done].
  - intros (? & y' & ? & ?)%IH. split; [done|]. exists y'. split; [set_solver|done].
Qed.

Section sound.
Context (LoadLocation : string → option Location) (local : Location) (otherFloat : string → float64 * bool).

Lemma absolute_horizon value t r :
  parseClaudeAbsoluteReset LoadLocation local value t = Some r → validClaudeResetHorizon r t = true.
Proof.
  unfold parseClaudeAbsoluteReset. repeat (intros (? & _ & H)%bind_Some; revert H).
  destruct (_ || _); [done|]. repeat (intros (? & _ & H)%bind_Some; revert H).
  case_bool_decide; [by intros [? _]%firstYear_horizon|].
  intros (? & _ & H1)%bind_Some. by apply firstYear_horizon in H1 as [? _].
Qed.

Lemma reset_horizon line t r :
  parseClaudeUsageReset LoadLocation local line t = Some r → validClaudeResetHorizon r t = true.
Proof.
  unfold parseClaudeUsageReset. intros (c & _ & H)%bind_Some. revert H. case_bool_decide; cbn [negb].
  - destruct (parseClaudeRelativeReset _ t) as [p|]; [|apply absolute_horizon].
    destruct (validClaudeResetHorizon p t) eqn:E; [by intros [= ->]|done].
  - intros (p & _ & H1)%bind_Some. revert H1. destruct (validClaudeResetHorizon p t) eqn:E; [by intros [= ->]|done].
Qed.

(** ** The sections of a panel

    The specification of the scan: a section is a heading and the lines up to
    the next heading, and says what its last percentage and its last reset
    say. *)

Definition section : Type := windowKind * string * list string.

(** The sections of the lines, the last one first; lines before the first
    heading belong to none. *)
Definition addLine (secs : list section) (line : string) : list section :=
  match classifyClaudeUsageHeading line with
  | Some k => (k, line, []) :: secs
  | None => match secs with [] => [] | (k, head, body) :: secs => (k, head, body ++ [line]) :: secs end
  end.
Definition sections (lines : list string) : list section := foldl addLine [] lines.

(** What the last line that has one says. *)
Definition lastOf {A} (f : string → option A) (lines : list string) : option A := last (omap f lines).

Definition inactive : LimitWindow := mkLimitWindow f_zero f_hundred None.

(** The window of a section: none without a percentage; with a reset, these
    two; without one, the untouched window if this is the current session and
    nothing is used, and none otherwise. *)
Definition gives (t : Time) (x : section) : option LimitWindow :=
  let '(k, head, body) := x in
  u ← lastOf (linePercent otherFloat) (head :: body);
  match lastOf (λ l, parseClaudeUsageReset LoadLocation local l t) (head :: body) with
  | Some r => Some (normalizeWindow u r)
  | None => if bool_decide (k = Five) && MatchString currentSessionHeading head && f_eq u f_zero then Some inactive else None
  end.

(** The window of a kind: that of the last section of the kind that has one. *)
Definition shown (t : Time) (k : windowKind) (secs : list section) : option LimitWindow :=
  head (omap (gives t) (filter (λ x, x.1.1 = k) secs)).

Definition panelOf (t : Time) (secs : list section) : ProviderWindows :=
  mkProviderWindows (shown t Five secs) (shown t Seven secs).

(** *** The scan is this specification *)

Lemma lastOf_line {A} (f : string → option A) lines line :
  lastOf f (lines ++ [line]) = match f line with Some x => Some x | None => lastOf f lines end.
Proof.
  unfold lastOf. rewrite omap_app. cbn [omap list_omap]. destruct (f line); [by rewrite last_snoc|by rewrite app_nil_r].
Qed.

(** What the scan holds about the section it is in. *)
Definition pendingOf (t : Time) (x : section) : pendingWindow :=
  let '(k, head, body) := x in
  if bool_decide (k = NoKind) then noPending
  else mkPending k (bool_decide (k = Five) && MatchString currentSessionHeading head)
         (lastOf (linePercent otherFloat) (head :: body)) (lastOf (λ l, parseClaudeUsageReset LoadLocation local l t) (head :: body)).

Definition stateOf (t : Time) (secs : list section) : ProviderWindows * pendingWindow :=
  match secs with [] => (noWindows, noPending) | x :: older => (panelOf t older, pendingOf t x) end.

Lemma shown_cons t k x secs :
  shown t k (x :: secs) = if bool_decide (x.1.1 = k) then match gives t x with Some w => Some w | None => shown t k secs end else shown t k secs.
Proof.
  unfold shown. rewrite filter_cons. case_decide as E; [rewrite bool_decide_true by done|by rewrite bool_decide_false].
  cbn [omap list_omap]. by destruct (gives t x).
Qed.

Lemma commit_section t x older : commit (panelOf t older) (pendingOf t x) = panelOf t (x :: older).
Proof.
  destruct x as [[k head] body]. unfold panelOf. rewrite !shown_cons. cbn [fst]. unfold pendingOf, commit, gives.
  destruct (bool_decide_reflect (k = NoKind)) as [->|Hk]; [done|]. cbn [used reset kind allowInactiveWithoutReset].
  destruct (lastOf (linePercent otherFloat) (head :: body)) as [u|]; cbn [mbind option_bind]; [|by destruct k].
  destruct (lastOf _ (head :: body)) as [r|]; [by destruct k|].
  destruct k; [done| |done]. cbn [bool_decide decide_rel]. rewrite !bool_decide_true by done. cbn [andb].
  by destruct (MatchString currentSessionHeading head && f_eq u f_zero).
Qed.

Lemma commit_state t secs : commit (stateOf t secs).1 (stateOf t secs).2 = panelOf t secs.
Proof. destruct secs as [|x older]; [done|]. apply commit_section. Qed.

Lemma scanLine_state t secs line :
  scanLine LoadLocation local otherFloat t (stateOf t secs) line = stateOf t (addLine secs line).
Proof.
  unfold scanLine, addLine. destruct (classifyClaudeUsageHeading line) as [k|] eqn:Ek.
  - rewrite commit_state. cbn [kind stateOf pendingOf]. unfold lastOf. cbn [omap list_omap used reset allowInactiveWithoutReset].
    destruct (bool_decide_reflect (k = NoKind)) as [->|Hk]; [done|].
    by destruct (linePercent otherFloat line), (parseClaudeUsageReset LoadLocation local line t).
  - destruct secs as [|[[k head] body] older]; [done|]. cbn [stateOf pendingOf].
    destruct (bool_decide_reflect (k = NoKind)) as [->|Hk]; [done|]. cbn [kind used reset allowInactiveWithoutReset].
    rewrite bool_decide_false by done. rewrite (app_comm_cons body [line] head), !lastOf_line. done.
Qed.

Lemma scanText_sections text t : scanText LoadLocation local otherFloat text t = panelOf t (sections (Split newline text)).
Proof.
  unfold scanText, sections. change (noWindows, noPending) with (stateOf t []). generalize (@nil section) as secs.
  induction (Split newline text) as [|line lines IH]; intros secs; cbn [foldl].
  - rewrite <-commit_state. by destruct (stateOf t secs).
  - rewrite scanLine_state. apply IH.
Qed.

(** *** Sections are pieces of the text *)

(** A heading of its kind and the lines after it up to the next heading. *)
Definition sectionOf (lines : list string) (x : section) : Prop :=
  let '(k, head, body) := x in
  classifyClaudeUsageHeading head = Some k ∧ Forall (λ l, classifyClaudeUsageHeading l = None) body ∧
  ∃ before after, lines = before ++ (head :: body) ++ after ∧
    match after with [] => True | line :: _ => classifyClaudeUsageHeading line ≠ None end.

Lemma sections_snoc lines line : sections (lines ++ [line]) = addLine (sections lines) line.
Proof. unfold sections. by rewrite foldl_app. Qed.

(** A section that is followed by another one. *)
Definition closed (lines : list string) (x : section) : Prop :=
  let '(k, head, body) := x in
  classifyClaudeUsageHeading head = Some k ∧ Forall (λ l, classifyClaudeUsageHeading l = None) body ∧
  ∃ before next after, lines = before ++ (head :: body) ++ next :: after ∧ classifyClaudeUsageHeading next ≠ None.

Lemma closed_more lines line x : closed lines x → closed (lines ++ [line]) x.
Proof.
  destruct x as [[k head] body]. intros (Hh & Hb & before & next & after & -> & Hn). split_and!; [done..|].
  exists before, next, (after ++ [line]). split; [by rewrite <-!app_assoc|done].
Qed.

Lemma sections_closed lines :
  match sections lines with
  | [] => True
  | (k, head, body) :: older =>
    classifyClaudeUsageHeading head = Some k ∧ Forall (λ l, classifyClaudeUsageHeading l = None) body ∧
    (∃ before, lines = before ++ head :: body) ∧ Forall (closed lines) older
  end.
Proof.
  induction lines as [|line lines IH] using rev_ind; [done|]. rewrite sections_snoc. unfold addLine.
  destruct (classifyClaudeUsageHeading line) as [k|] eqn:Ek.
  - split_and!; [done|done|by exists lines|]. destruct (sections lines) as [|[[k' head] body] older]; [done|].
    destruct IH as (Hh & Hb & [before Hl] & Hold). constructor; [|by eapply Forall_impl; [exact Hold|apply closed_more]].
    split_and!; [done..|]. exists before, line, []. split; [by rewrite Hl, <-app_assoc|by rewrite Ek].
  - destruct (sections lines) as [|[[k' head] body] older]; [done|]. destruct IH as (Hh & Hb & [before Hl] & Hold).
    split_and!; [done|apply Forall_app; split; [done|by repeat constructor]|exists before; by rewrite Hl, <-app_assoc|].
    by eapply Forall_impl; [exact Hold|apply closed_more].
Qed.

Lemma sections_of lines : Forall (sectionOf lines) (sections lines).
Proof.
  pose proof (sections_closed lines) as H. destruct (sections lines) as [|[[k head] body] older]; [done|].
  destruct H as (Hh & Hb & [before Hl] & Hold). constructor.
  - split; [done|]. split; [done|]. exists before, []. split; [by rewrite app_nil_r|done].
  - eapply Forall_impl; [exact Hold|]. intros [[k' h] b] (Hh' & Hb' & bf & next & after & -> & Hn).
    split; [done|]. split; [done|]. exists bf, (next :: after). split; [reflexivity|exact Hn].
Qed.

(** ** What every window of a section satisfies *)

Definition window_sound (t : Time) (w : LimitWindow) : Prop :=
  percent (UsedPercent w) ∧ RemainingPercent w = f_sub f_hundred (UsedPercent w) ∧
  match ResetsAt w with Some r => validClaudeResetHorizon r t = true | None => w = inactive end.

Lemma lastOf_Some {A} (f : string → option A) lines x : lastOf f lines = Some x → ∃ line, line ∈ lines ∧ f line = Some x.
Proof.
  unfold lastOf. intros H%last_Some_elem_of. apply list_elem_of_omap in H as (line & Hl & Hf). by exists line.
Qed.

Lemma gives_sound t x w : gives t x = Some w → window_sound t w ∧ (ResetsAt w = None → x.1.1 = Five).
Proof.
  destruct x as [[k head] body]. unfold gives. intros (u & Hu & H)%bind_Some.
  apply lastOf_Some in Hu as (line & _ & Hu). apply linePercent_not_nan in Hu.
  destruct (lastOf (λ l, parseClaudeUsageReset LoadLocation local l t) (head :: body)) as [r|] eqn:Er.
  - injection H as <-. apply lastOf_Some in Er as (l & _ & Hr). apply reset_horizon in Hr.
    split; [|done]. split_and!; [by apply normalizeWindow_used|done|done].
  - destruct (bool_decide_reflect (k = Five)) as [->|]; [|done]. destruct (_ && f_eq u f_zero); [|done].
    injection H as <-. split; [by split_and!|done].
Qed.

Lemma shown_Some t k secs w : shown t k secs = Some w → ∃ x, x ∈ secs ∧ x.1.1 = k ∧ gives t x = Some w.
Proof.
  unfold shown. intros H%head_Some_elem_of. apply list_elem_of_omap in H as (x & Hx & Hg).
  apply list_elem_of_filter in Hx as [Hk Hx]. by exists x.
Qed.
End sound.

Lemma horizon_bounds r t : validClaudeResetHorizon r t = true → t - 24 * Hour <= r <= t + 8 * 24 * Hour.
Proof.
  unfold validClaudeResetHorizon, claudeResetPastTolerance, claudeResetMaxHorizon, Sub, Hour, Minute, Second, min_int64, max_int64.
  intros [H1 H2]%andb_true_iff. breflect. lia.
Qed.

(** C19. The panel is read section by section, and nothing else is shown.  A
    section is a heading of the text and the lines after it up to the next
    heading; the window shown for the session or the week is exactly that of
    the last section of its kind that says one: the last percentage among its
    lines with the last reset among its lines, never another section's; without
    a reset, the untouched window exactly when it is the current session and
    its percentage is zero; without a percentage, none.  The text is refused
    exactly when neither kind has a window.  The percentages are numbers from 0
    to 100, the remaining one is 100 minus the used one, each reset lies
    between a day before and eight days after the observation, and only a
    session is shown without a reset. *)
Theorem Usage_text_sound (LoadLocation : string → option Location) (local : Location)
    (otherFloat : string → float64 * bool) (text : string) (observedAt : Time) :
  let secs := sections (Split newline text) in
  let five := shown LoadLocation local otherFloat observedAt Five secs in
  let seven := shown LoadLocation local otherFloat observedAt Seven secs in
  parseClaudeUsageText LoadLocation local otherFloat text observedAt =
    (if bool_decide (five = None ∧ seven = None) then Err NoTextWindows
     else Ok (mkProviderReport observedAt "authenticated" "" "claude-usage" (mkProviderWindows five seven) "")) ∧
  Forall (sectionOf (Split newline text)) secs ∧
  (∀ w, five = Some w ∨ seven = Some w →
    percent (UsedPercent w) ∧ RemainingPercent w = f_sub f_hundred (UsedPercent w) ∧
    ∀ reset, ResetsAt w = Some reset → observedAt - 24 * Hour <= reset <= observedAt + 8 * 24 * Hour) ∧
  (∀ w, seven = Some w → ResetsAt w ≠ None).
Proof.
  intros secs five seven. split_and!; [|apply sections_of| |].
  - unfold parseClaudeUsageText. rewrite scanText_sections. unfold panelOf. cbv zeta. cbn [FiveHour SevenDay]. fold secs five seven.
    destruct five as [w|]; [rewrite bool_decide_false by (by intros [? ?]); done|].
    destruct seven as [w|]; [rewrite bool_decide_false by (by intros [? ?]); done|]. done.
  - intros w Hw. assert (window_sound observedAt w) as (Hp & Hrem & Hres).
    { destruct Hw as [Hw|Hw]; apply shown_Some in Hw as (x & _ & _ & Hg); by eapply gives_sound. }
    split_and!; [done|done|]. intros reset Ereset. rewrite Ereset in Hres. by apply horizon_bounds.
  - intros w Hw Hn. apply shown_Some in Hw as (x & _ & Hk & Hg). apply gives_sound in Hg as [_ Hg]. by rewrite Hg in Hk.
Qed.

(** The untouched session, and a used one without a reset. *)
Example inactive_panel :
  sections (Split newline ("Current session: 0% used" +:+ String newline "Current week (Opus)" +:+ String newline "50% used")) =
    [(NoKind, "Current week (Opus)", ["50% used"]); (Five, "Current session: 0% used", [])] ∧
  gives noZones UTC noOther aug_24_2025 (Five, "Current session: 0% used", []) = Some inactive ∧
  gives noZones UTC noOther aug_24_2025 (Five, "Current session: 34% used", []) = None.
Proof. split_and!; vm_compute; reflexivity. Qed.
