(* ===== verification/ClaudeResetFacts.v ===== *)
(** * Facts about reset phrases

    Reading a relative reset gives back the durations it was written from, and
    an absolute one the instant, whatever year that is in. *)

From S2P Require Import Prelude GoTime GoText GoTextFacts GoDate GoRegexp GoRegexpFacts GoFloat GoStrconv Json Model Version Claude ClaudeUsage ClaudeUsageFacts.

(** ** Texts as lists of runes *)

Definition digit_chunk_of (d : Z) : chunk := ascii_chunk (chr (d + 48)).

Lemma spell_cons d l : spell (d :: l) = String (chr (d + 48)) (spell l).
Proof. done. Qed.

Lemma chunks_spell l s : Forall digit l → chunks (spell l +:+ s) = (digit_chunk_of <$> l) ++ chunks s.
Proof.
  induction 1 as [|d l Hd Hl IH]; [done|]. rewrite spell_cons, str_app_cons, chunks_ascii.
  - rewrite IH. done.
  - unfold digit in Hd. rewrite zb_chr; lia.
Qed.

Lemma digit_rune d : digit d → (digit_chunk_of d).1 = d + 48 ∧ is_digit (digit_chunk_of d).1 = true.
Proof.
  unfold digit. intros Hd. unfold digit_chunk_of, ascii_chunk. cbn [fst]. rewrite zb_chr by lia.
  split; [done|]. unfold is_digit, within. by rewrite !(proj2 (Z.leb_le _ _)) by lia.
Qed.

Lemma all_digits l : Forall digit l → all is_digit (digit_chunk_of <$> l).
Proof. intros Hl. apply Forall_fmap. eapply Forall_impl; [exact Hl|]. intros d Hd. by apply digit_rune. Qed.

Lemma digits_spell_value l acc n :
  Forall digit l → GoStrconv.digits acc n (spell l) = (foldl (λ acc d, 10 * acc + d) acc l, (n + List.length l)%nat, "").
Proof.
  intros Hl. revert acc n. induction Hl as [|d l Hd Hl IH]; intros acc n; [by rewrite Nat.add_0_r|].
  rewrite spell_cons. cbn [GoStrconv.digits]. unfold digit in Hd. unfold digitOf. rewrite zb_chr by lia.
  replace (d + 48 - 48) with d by lia. unfold within. rewrite !(proj2 (Z.leb_le _ _)) by lia. cbn [andb].
  rewrite IH. cbn [foldl List.length]. do 2 f_equal. lia.
Qed.

Lemma ParseInt_spell l :
  Forall digit l → l ≠ [] → ParseInt (spell l) = if decimal l <=? max_int64 then Some (decimal l) else None.
Proof.
  intros Hl Hne. unfold ParseInt.
  assert (Hs : sign (spell l) = (false, spell l)).
  { destruct Hl as [|d l Hd Hl]; [done|]. rewrite spell_cons. unfold sign. unfold digit in Hd.
    rewrite !bool_decide_false; [done|..]; intros E; apply (f_equal zb) in E; rewrite zb_chr in E by lia;
      change (zb "-"%char) with 45 in E; change (zb "+"%char) with 43 in E; lia. }
  rewrite Hs, digits_spell_value by done. fold (decimal l).
  pose proof (decimal_nonneg l Hl). rewrite (proj2 (Z.leb_le min_int64 _)) by (unfold min_int64; lia).
  rewrite bool_decide_true; [done|]. split; [|done]. destruct l; [done|]. simpl. lia.
Qed.

(** ** Units *)

Inductive unit_ := UDay | UHour | UMinute | USecond.
Definition letter (u : unit_) : ascii :=
  match u with UDay => "d" | UHour => "h" | UMinute => "m" | USecond => "s" end.
Definition duration (u : unit_) : Duration :=
  match u with UDay => Day_ | UHour => Hour | UMinute => Minute | USecond => Second end.

Abbreviation part := (list Z * unit_)%type.
Definition part_ok (p : part) : Prop := Forall digit p.1 ∧ p.1 ≠ [].

Fixpoint render (parts : list part) : string :=
  match parts with [] => "" | (ds, u) :: parts => spell ds +:+ String (letter u) (render parts) end.
Definition total (parts : list part) : Duration := foldr (λ p acc, decimal p.1 * duration p.2 + acc) 0 parts.

Definition part_chunks (p : part) : list chunk := (digit_chunk_of <$> p.1) ++ [ascii_chunk (letter p.2)].
Definition render_chunks (parts : list part) : list chunk := concat (part_chunks <$> parts).

Lemma chunks_render parts : Forall part_ok parts → chunks (render parts) = render_chunks parts.
Proof.
  induction 1 as [|[ds u] parts [Hd _] _ IH]; [done|]. cbn [render]. rewrite chunks_spell by done.
  rewrite chunks_ascii by (by destruct u). rewrite IH. unfold render_chunks. cbn. by rewrite <-app_assoc.
Qed.

(** Where the text of the parts goes on: at its end, or with a digit. *)
Definition digit_next (s : list chunk) : Prop := match s with [] => True | x :: _ => is_digit x.1 = true end.

Lemma render_next parts : Forall part_ok parts → digit_next (render_chunks parts).
Proof.
  destruct 1 as [|[[|d ds] u] parts [Hd Hne] _]; [done|done|]. inversion Hd; subst. cbn. by apply digit_rune.
Qed.

Lemma digit_not_letter (x : Z) : is_digit x = true → fold_rune x = x ∧ 48 <= x <= 57.
Proof.
  unfold is_digit, within, fold_rune, is_upper, within. intros Hx. breflect.
  rewrite (proj2 (Z.leb_gt 65 x)) by lia. cbn [andb]. rewrite !(proj2 (Z.eqb_neq _ _)) by lia. lia.
Qed.

(** Comparisons of known letters. *)
Ltac eval_fold :=
  repeat match goal with
  | |- context [fold_rune (zb ?a) =? fold_rune (zb ?b)] =>
    let v := eval vm_compute in (fold_rune (zb a) =? fold_rune (zb b)) in
    change (fold_rune (zb a) =? fold_rune (zb b)) with v; cbv iota
  end.

(** The unit of a part, whatever follows. *)
Lemma unit_here u k p s c res :
  digit_next s → k (Some (zb (letter u))) s ((2%nat, [ascii_chunk (letter u)]) :: c) = Some res →
  matchHere (Grp 2 unitPattern) k p (ascii_chunk (letter u) :: s) c = Some res.
Proof.
  intros Hs Hk. change (ascii_chunk (letter u) :: s) with ([ascii_chunk (letter u)] ++ s).
  apply group_run; [|exact Hk]. intros k' Hk'. change (lastRune p [ascii_chunk (letter u)]) with (Some (zb (letter u))) in Hk'.
  destruct s as [|x s].
  - destruct u; cbn in Hk' |- *; by rewrite Hk'.
  - simpl in Hs. destruct (digit_not_letter _ Hs) as [Hx Hr].
    assert (Hno : ∀ a, (97 <=? fold_rune (zb a)) = true → (fold_rune x.1 =? fold_rune (zb a)) = false).
    { intros a Ha. apply Z.leb_le in Ha. rewrite Hx. apply Z.eqb_neq. lia. }
    destruct u; cbn in Hk' |- *; eval_fold; rewrite ?Hno by done; by rewrite Hk'.
Qed.

Definition part_caps (p : part) : caps :=
  [(2%nat, [ascii_chunk (letter p.2)]); (1%nat, digit_chunk_of <$> p.1)].

Lemma part_here q p s :
  part_ok p → digit_next s → matchHere relativeResetPart stop q (part_chunks p ++ s) [] = Some (s, part_caps p).
Proof.
  intros [Hd Hne] Hs. unfold relativeResetPart, part_chunks, Grp_digits, Digit. cbn [Seqs].
  rewrite <-app_assoc.
  change (matchHere (Seq ?a ?b) ?k ?p ?s ?c) with (matchHere a (matchHere b k) p s c).
  assert (Hletter : is_digit (ascii_chunk (letter p.2)).1 = false ∧ space_rune (ascii_chunk (letter p.2)).1 = false)
    by (by destruct p as [? []]).
  apply group_plus; [by destruct p as [[|] ?]|by apply all_digits|by apply Hletter|].
  change (matchHere (Seq ?a ?b) ?k ?p ?s ?c) with (matchHere a (matchHere b k) p s c).
  apply (star_run space_rune _ _ [] ([_] ++ s)); [constructor|by apply Hletter|].
  by apply unit_here.
Qed.

Lemma part_search q p s :
  part_ok p → digit_next s →
  search relativeResetPart q (part_chunks p ++ s) [] = Some (mkFound [] (part_chunks p) s (part_caps p)).
Proof.
  intros Hp Hs.
  assert (E : search relativeResetPart q (part_chunks p ++ s) [] =
    match matchHere relativeResetPart stop q (part_chunks p ++ s) [] with
    | Some (rest, c) => Some (mkFound [] (take (List.length (part_chunks p ++ s) - List.length rest) (part_chunks p ++ s)) rest c)
    | None => match part_chunks p ++ s with [] => None | x :: s' => search relativeResetPart (Some x.1) s' ([] ++ [x]) end
    end) by (by destruct (part_chunks p ++ s)).
  rewrite E, part_here by done. by rewrite take_prefix.
Qed.

Definition part_found (p : part) (f : found) : Prop := before f = [] ∧ groups f = part_caps p.

Lemma findAll_parts fuel q parts :
  Forall part_ok parts → (List.length parts < fuel)%nat →
  ∃ fs, findAll fuel relativeResetPart q (render_chunks parts) = (fs, []) ∧ groups <$> fs = part_caps <$> parts.
Proof.
  intros Hp. revert fuel q. induction Hp as [|p parts Hp Hps IH]; intros [|fuel] q Hf; cbn [List.length] in Hf; [lia| |lia|].
  - exists []. by split.
  - change (render_chunks (p :: parts)) with (part_chunks p ++ render_chunks parts). cbn [findAll].
    rewrite part_search by (done || by apply render_next). cbn [before matched after groups].
    destruct (IH fuel (lastRune (lastRune q []) (part_chunks p)) ltac:(lia)) as (fs & -> & Hfs).
    eexists. split; [done|]. rewrite !fmap_cons. cbn [groups]. by rewrite Hfs.
Qed.

Lemma render_length parts : Forall part_ok parts → (List.length parts <= List.length (render_chunks parts))%nat.
Proof.
  induction 1 as [|p parts Hp _ IH]; [done|]. change (render_chunks (p :: parts)) with (part_chunks p ++ render_chunks parts).
  rewrite length_app. unfold part_chunks. rewrite length_app. simpl. lia.
Qed.

Lemma bytes_digits l : bytes_of (digit_chunk_of <$> l) = spell l.
Proof. induction l as [|d l IH]; [done|]. cbn -[bytes_of spell]. rewrite spell_cons, <-IH. done. Qed.

Lemma duration_divides u : ∃ k, maxHorizon = k * duration u ∧ 0 < duration u ∧ 0 < k.
Proof. destruct u; [exists 8|exists 192|exists 11520|exists 691200]; vm_compute; done. Qed.

Lemma total_nonneg parts : Forall part_ok parts → 0 <= total parts.
Proof.
  induction 1 as [|p parts [Hd _] _ IH]; [done|]. cbn [total foldr]. fold (total parts).
  destruct (duration_divides p.2) as (k & _ & ? & _). pose proof (decimal_nonneg _ Hd). nia.
Qed.

Lemma small_wrap64 z : 0 <= z <= 2 * maxHorizon → wrap64 z = z.
Proof. intros Hz. apply wrap64_id. change (2 * maxHorizon) with 1382400000000000 in Hz.
  unfold in_int64, min_int64, max_int64. lia. Qed.

(** Adding the parts up never wraps around, and gives up exactly when the sum
    passes the horizon. *)
Lemma addParts_total acc parts :
  Forall part_ok parts → 0 <= acc <= maxHorizon →
  addParts acc (part_caps <$> parts) = if acc + total parts <=? maxHorizon then Some (acc + total parts) else None.
Proof.
  intros Hp. revert acc. induction Hp as [|[ds u] parts [Hd Hne] Hps IH]; intros acc Hacc.
  - cbn. rewrite Z.add_0_r, (proj2 (Z.leb_le _ _)) by lia. done.
  - rewrite fmap_cons. cbn [addParts]. cbn [fst snd] in Hd, Hne.
    assert (E1 : groupText (part_caps (ds, u)) 1 = spell ds) by (unfold groupText; cbn -[bytes_of]; apply bytes_digits).
    assert (E2 : unitOf (ToLower (groupText (part_caps (ds, u)) 2)) = Some (duration u)) by (by destruct u).
    rewrite E1, E2, ParseInt_spell by done. cbn [total foldr]. fold (total parts). cbn [fst snd].
    pose proof (total_nonneg parts Hps) as Ht. pose proof (decimal_nonneg ds Hd) as Hn.
    destruct (duration_divides u) as (k & Hk & Hpos & Hkp).
    assert (Hmax : maxHorizon < max_int64) by (vm_compute; done).
    assert (Hdiv : maxHorizon / duration u = k) by (rewrite Hk; by apply Z.div_mul; lia).
    destruct (Z.leb_spec (decimal ds) max_int64) as [Hle|Hgt]; cbn [mbind option_bind].
    + rewrite Hdiv. destruct (Z.ltb_spec k (decimal ds)) as [Hlt|Hge].
      * rewrite (proj2 (Z.leb_gt _ _)) by nia. done.
      * assert (Hr : 0 <= decimal ds * duration u <= maxHorizon) by nia.
        rewrite (small_wrap64 (decimal ds * duration u)), small_wrap64 by lia.
        destruct (Z.ltb_spec maxHorizon (acc + decimal ds * duration u)).
        -- rewrite (proj2 (Z.leb_gt _ _)) by lia. done.
        -- rewrite IH by lia. by rewrite Z.add_assoc.
    + rewrite (proj2 (Z.leb_gt _ _)) by nia. done.
Qed.

(** ** Literals *)

Lemma ILit_run s k p t c :
  ascii_string s = true → matchHere (ILit s) k p (chunks s ++ t) c = k (lastRune p (chunks s)) t c.
Proof.
  revert p. induction s as [|a s IH]; intros p; [done|].
  cbn [ascii_string Stdlib.Strings.String.list_ascii_of_string forallb].
  intros [Ha Hs]%andb_true_iff. apply Z.ltb_lt in Ha. rewrite chunks_ascii by done. rewrite lastRune_cons.
  destruct s as [|b s].
  - cbn. by rewrite Z.eqb_refl.
  - specialize (IH (Some (zb a)) Hs). change (ILit (String a (String b s))) with (Seq (FoldRune (zb a)) (ILit (String b s))).
    cbn [matchHere FoldRune app ascii_chunk fst]. rewrite Z.eqb_refl. exact IH.
Qed.

Lemma seq_eq a b k p s c : matchHere (Seq a b) k p s c = matchHere a (matchHere b k) p s c.
Proof. done. Qed.

Definition nonblank (r : Z) : bool := negb (space_rune r) && negb (IsSpace r).

(** A line that starts with [resets] and a value without blanks at its ends. *)
Lemma reset_phrase v :
  all any_rune v → tight v → stops space_rune v →
  ∃ f, search resetPhrasePattern None (chunks "resets " ++ v) [] = Some f ∧ groups f = [(1%nat, v)].
Proof.
  intros Ha Ht Hs.
  assert (E : matchHere resetPhrasePattern stop None (chunks "resets " ++ v) [] = Some ([], [(1%nat, v)])).
  { unfold resetPhrasePattern. cbn [Seqs]. rewrite seq_eq.
    change (matchHere Wordb ?k None (chunks "resets " ++ v) ?c) with (k None (chunks "resets " ++ v) c). cbv beta.
    rewrite seq_eq. change (chunks "resets " ++ v) with (chunks "reset" ++ (chunks "s " ++ v)).
    rewrite ILit_run by done. rewrite seq_eq.
    change (chunks "s " ++ v) with (chunks "s" ++ ([ascii_chunk " "] ++ v)).
    assert (Hr : ∀ q, matchHere (Seq Spaces1 (Seq (Grp 1 (Plus false (Cls any_rune))) (Seq Spaces Eol))) stop q
                   ([ascii_chunk " "] ++ v) [] = Some ([], [(1%nat, v)])).
    { intros q. rewrite seq_eq. apply plus_run; [done|by repeat constructor|done|]. rewrite seq_eq.
      apply (lazy_rest 1 stop (lastRune q [ascii_chunk " "]) v [] Ha Ht). }
    unfold Opt.
    change (matchHere (Alt ?a Empty) ?k ?p ?s ?c) with (match matchHere a k p s c with Some r => Some r | None => k p s c end).
    rewrite ILit_run by done. by rewrite Hr. }
  change (chunks "resets " ++ v) with (ascii_chunk "r" :: (chunks "esets " ++ v)) in *. cbn [search]. rewrite E.
  eexists. by split.
Qed.

Lemma relative_phrase v :
  all any_rune v → tight v → stops space_rune v →
  ∃ f, search relativeResetPattern None (chunks "in " ++ v) [] = Some f ∧ groups f = [(1%nat, v)].
Proof.
  intros Ha Ht Hs.
  assert (E : matchHere relativeResetPattern stop None (chunks "in " ++ v) [] = Some ([], [(1%nat, v)])).
  { unfold relativeResetPattern. cbn [Seqs]. rewrite seq_eq.
    change (matchHere Bol ?k None ?s ?c) with (k None s c). cbv beta.
    rewrite seq_eq. change (chunks "in " ++ v) with (chunks "in" ++ ([ascii_chunk " "] ++ v)).
    rewrite ILit_run by done. rewrite seq_eq. apply plus_run; [done|by repeat constructor|done|]. rewrite seq_eq.
    apply (lazy_rest 1 stop _ v [] Ha Ht). }
  change (chunks "in " ++ v) with (ascii_chunk "i" :: (chunks "n " ++ v)) in *. cbn [search]. rewrite E.
  eexists. by split.
Qed.

(** ** The runes of a relative reset *)

Definition plain_rune (r : Z) : bool := is_digit r || bool_decide (r ∈ [100; 104; 109; 115]).

Lemma all_impl (f g : Z → bool) l : (∀ r, f r = true → g r = true) → all f l → all g l.
Proof. intros H Hl. eapply Forall_impl; [exact Hl|]. intros x. apply H. Qed.

Lemma render_plain parts : Forall part_ok parts → all plain_rune (render_chunks parts).
Proof.
  induction 1 as [|[ds u] parts [Hd _] _ IH]; [constructor|].
  change (render_chunks ((ds, u) :: parts)) with (part_chunks (ds, u) ++ render_chunks parts).
  unfold all, part_chunks. rewrite !Forall_app. split_and!; [| |done].
  - eapply all_impl; [|by apply all_digits]. intros r Hr. unfold plain_rune. by rewrite Hr.
  - repeat constructor. by destruct u.
Qed.

Lemma plain_cases r : plain_rune r = true → 48 <= r <= 57 ∨ r = 100 ∨ r = 104 ∨ r = 109 ∨ r = 115.
Proof.
  unfold plain_rune. intros [H|H]%orb_true_iff; [left; by apply digit_not_letter|].
  apply bool_decide_eq_true in H. set_solver.
Qed.

Lemma plain_any r : plain_rune r = true → any_rune r = true.
Proof. intros H%plain_cases. unfold any_rune. apply negb_true_iff, Z.eqb_neq. lia. Qed.
Lemma plain_not_space r : plain_rune r = true → space_rune r = false.
Proof.
  intros H%plain_cases. unfold space_rune. apply bool_decide_eq_false. rewrite !elem_of_cons, elem_of_nil. lia.
Qed.
Lemma plain_not_Space r : plain_rune r = true → IsSpace r = false.
Proof.
  intros H%plain_cases. unfold IsSpace, within. repeat (apply orb_false_iff; split);
    first [apply Z.eqb_neq; lia|apply andb_false_iff; rewrite !Z.leb_gt; lia].
Qed.

Lemma plain_tight l : l ≠ [] → all plain_rune l → tight l.
Proof.
  intros Hne Hl. unfold tight. destruct (last l) as [x|] eqn:E; [|by apply last_None in E].
  apply last_Some in E as [l' ->]. apply Forall_app in Hl as [_ Hx]. inversion Hx; subst. by apply plain_not_space.
Qed.
Lemma plain_stops l : all plain_rune l → stops space_rune l.
Proof. intros Hl. destruct Hl as [|x l Hx _]; [done|]. by apply plain_not_space. Qed.

(** ** Texts that match no other pattern *)

Lemma lang_rune r l : lang (Rune r) l → ∃ x, l = [x] ∧ x.1 = r.
Proof. inversion 1 as [|f x Hx| | | | | | | | |]; subst. exists x. split; [done|]. by apply Z.eqb_eq. Qed.
Lemma lang_fold r l : lang (FoldRune r) l → ∃ x, l = [x] ∧ fold_rune x.1 = fold_rune r.
Proof. inversion 1 as [|f x Hx| | | | | | | | |]; subst. exists x. split; [done|]. by apply Z.eqb_eq. Qed.

Lemma lang_Seq a b l : lang (Seq a b) l → ∃ l1 l2, l = l1 ++ l2 ∧ lang a l1 ∧ lang b l2.
Proof. inversion 1; subst. eauto. Qed.
Lemma lang_Alt a b l : lang (Alt a b) l → lang a l ∨ lang b l.
Proof. inversion 1; subst; eauto. Qed.

(** A timestamp has a hyphen. *)
Lemma timestamp_hyphen l : lang timestampPattern l → Exists (λ x : chunk, x.1 = 45) l.
Proof.
  unfold timestampPattern. cbn [Seqs]. intros (l1 & l2 & -> & _ & (l3 & l4 & -> & H & _)%lang_Seq)%lang_Seq.
  apply lang_rune in H as (x & -> & Hx). rewrite !Exists_app. right. left. by constructor.
Qed.

(** An absolute reset has a comma or the word "at". *)
Lemma absolute_mark l : lang absoluteResetPattern l → Exists (λ x : chunk, x.1 = 44 ∨ fold_rune x.1 = 97) l.
Proof.
  unfold absoluteResetPattern. cbn [Seqs].
  do 5 (intros H; apply lang_Seq in H as (? & ? & -> & _ & H); revert H).
  intros (l1 & l2 & -> & H & _)%lang_Seq. rewrite !Exists_app. do 5 right. left.
  apply lang_Alt in H as [H|H]; apply lang_Seq in H as (l3 & l4 & -> & H1 & H2).
  - apply lang_rune in H1 as (y & -> & Hy). apply Exists_app. left. by repeat constructor.
  - apply lang_Seq in H2 as (l5 & l6 & -> & H2 & _). apply lang_Seq in H2 as (l7 & l8 & -> & H2 & _).
    apply lang_fold in H2 as (y & -> & Hy). rewrite !Exists_app. right. left. left. constructor. by right.
Qed.

Lemma no_match r (f : Z → bool) s :
  (∀ l, lang r l → Exists (λ x : chunk, f x.1 = false) l) → all f (chunks s) →
  FindString r s = "" ∧ FindStringSubmatch r s = None.
Proof.
  intros H Hs.
  assert (Hno : ∀ l1 l l2, chunks s = l1 ++ l ++ l2 → ¬ lang r l).
  { intros l1 l l2 E Hl%H. rewrite E in Hs. unfold all in Hs. rewrite !Forall_app in Hs. destruct Hs as (_ & Hs & _).
    apply Exists_exists in Hl as (x & Hin & Hx). rewrite Forall_forall in Hs. rewrite Hs in Hx; done. }
  split; [by apply FindString_empty|]. unfold FindStringSubmatch.
  destruct (search r None (chunks s) []) as [f'|] eqn:E; [|done].
  apply search_sound in E as (pre & _ & Hs' & Hl & _). by destruct (Hno _ _ _ Hs').
Qed.

(** ** Relative resets *)

Definition relative_rune (r : Z) : bool := plain_rune r || bool_decide (r ∈ [105; 110; 32]).

Lemma relative_cases r :
  relative_rune r = true → 48 <= r <= 57 ∨ r = 100 ∨ r = 104 ∨ r = 109 ∨ r = 115 ∨ r = 105 ∨ r = 110 ∨ r = 32.
Proof.
  unfold relative_rune. intros [H%plain_cases|H]%orb_true_iff; [lia|]. apply bool_decide_eq_true in H. set_solver.
Qed.

Lemma relative_no_mark r : relative_rune r = true → r ≠ 45 ∧ r ≠ 44 ∧ fold_rune r ≠ 97.
Proof.
  intros H%relative_cases. split_and!; [lia..|].
  destruct H as [H|H]; [|by repeat destruct H as [-> | H]; [..|subst r]].
  unfold fold_rune, is_upper, within. rewrite (proj2 (Z.leb_gt 65 r)) by lia. cbn [andb].
  rewrite !(proj2 (Z.eqb_neq _ _)) by lia. lia.
Qed.

Section relative.
Context (LoadLocation : string → option Location) (local : Location).
Context (parts : list part) (Hparts : Forall part_ok parts) (Hne : parts ≠ []).

Definition value : string := "in " +:+ render parts.

Lemma render_ne : render_chunks parts ≠ [].
Proof using Hne.
  clear Hparts. destruct parts as [|[ds u] ps]; [done|]. change (render_chunks ((ds, u) :: ps)) with (part_chunks (ds, u) ++ render_chunks ps).
  unfold part_chunks. by destruct (digit_chunk_of <$> (ds, u).1).
Qed.

Lemma value_chunks : chunks value = chunks "in " ++ render_chunks parts.
Proof using Hparts. unfold value. by rewrite chunks_app, chunks_render. Qed.

Lemma value_runes : all relative_rune (chunks value).
Proof using Hparts.
  rewrite value_chunks. apply Forall_app. split; [by repeat constructor|].
  eapply all_impl; [|by apply render_plain]. intros r Hr. unfold relative_rune. by rewrite Hr.
Qed.

Lemma last_plain : ∃ l y, render_chunks parts = l ++ [y] ∧ IsSpace y.1 = false.
Proof using Hparts Hne.
  destruct (last (render_chunks parts)) as [y|] eqn:E; [|by apply last_None, render_ne in E].
  apply last_Some in E as [l E]. exists l, y. split; [done|]. apply plain_not_Space.
  pose proof (render_plain parts Hparts) as H. rewrite E in H. apply Forall_app in H as [_ H]. by inversion H.
Qed.

Lemma trim_prefixed a s :
  ascii_string (String a s) = true → IsSpace (zb a) = false → TrimSpace (String a s +:+ render parts) = String a s +:+ render parts.
Proof using Hparts Hne.
  intros Hs Ha. destruct last_plain as (l & y & E & Hy).
  assert (Hc : chunks (String a s +:+ render parts) = chunks (String a s) ++ render_chunks parts)
    by (by rewrite chunks_app, chunks_render).
  cbn [ascii_string Stdlib.Strings.String.list_ascii_of_string forallb] in Hs. apply andb_true_iff in Hs as [Hz _]. apply Z.ltb_lt in Hz.
  apply (TrimSpace_tight _ (ascii_chunk a) y (chunks s ++ render_chunks parts) (chunks (String a s) ++ l)); [| |done|done].
  - rewrite Hc. by rewrite chunks_ascii.
  - by rewrite Hc, E, app_assoc.
Qed.

Lemma trim_value : TrimSpace value = value.
Proof using Hparts Hne. by apply (trim_prefixed "i" "n "). Qed.

Lemma parse_relative t :
  parseClaudeRelativeReset value t = if total parts <=? maxHorizon then Some (t + total parts) else None.
Proof using Hparts Hne.
  unfold parseClaudeRelativeReset. rewrite trim_value. unfold FindStringSubmatch. rewrite value_chunks.
  pose proof (render_plain parts Hparts) as Hp.
  destruct (relative_phrase (render_chunks parts)) as (f & -> & Hf).
  { eapply all_impl; [|exact Hp]. apply plain_any. }
  { apply plain_tight; [apply render_ne|done]. }
  { by apply plain_stops. }
  cbn [fmap option_fmap option_map mbind option_bind]. rewrite Hf.
  assert (Hg : groupText [(1%nat, render_chunks parts)] 1 = render parts).
  { unfold groupText. cbn -[bytes_of]. rewrite <-chunks_render by done. apply bytes_of_chunks. }
  rewrite Hg. unfold FindAllStringSubmatch, RemoveAllString. rewrite chunks_render by done.
  destruct (findAll_parts (S (List.length (render_chunks parts))) None parts Hparts) as (fs & -> & Hfs).
  { pose proof (render_length parts Hparts). lia. }
  cbn [fst snd]. rewrite Hfs. rewrite bool_decide_false by (destruct parts; done).
  change (bytes_of []) with "". cbn [negb]. rewrite bool_decide_true by done. cbn [negb].
  rewrite addParts_total by (done || (split; [done|by vm_compute])). rewrite Z.add_0_l.
  by destruct (total parts <=? maxHorizon).
Qed.

Lemma horizon_total t : total parts <= maxHorizon → validClaudeResetHorizon (t + total parts) t = true.
Proof using Hparts.
  intros Ht. pose proof (total_nonneg parts Hparts). unfold validClaudeResetHorizon, Sub.
  replace (t + total parts - t) with (total parts) by lia.
  change maxHorizon with 691200000000000 in Ht. apply andb_true_iff.
  split; apply Z.leb_le; unfold claudeResetPastTolerance, claudeResetMaxHorizon, Hour, Minute, Second, min_int64, max_int64; lia.
Qed.

(** C24. Relative reset phrases are read back as they are written: for any
    non-empty sequence of amounts (any digits, of any size) with the units d,
    h, m and s, the line "resets in ..." gives the observation plus the exact
    sum when that is at most eight days, and nothing otherwise, without any
    64-bit overflow on the way. *)
Theorem Relative_reset_roundtrip (t : Time) :
  parseClaudeUsageReset LoadLocation local ("resets in " +:+ render parts) t =
  if total parts <=? maxHorizon then Some (t + total parts) else None.
Proof using Hparts Hne.
  unfold parseClaudeUsageReset. rewrite (trim_prefixed "r" "esets in ") by done. unfold FindStringSubmatch.
  change ("resets in " +:+ render parts) with ("resets " +:+ value).
  rewrite chunks_app by done. pose proof (render_plain parts Hparts) as Hp.
  destruct (reset_phrase (chunks value)) as (f & -> & Hf).
  { eapply all_impl; [|apply value_runes]. intros r Hr%relative_cases. unfold any_rune. apply negb_true_iff, Z.eqb_neq. lia. }
  { rewrite value_chunks. unfold tight. rewrite last_app.
    pose proof (plain_tight _ render_ne Hp) as Ht. unfold tight in Ht. by destruct (last (render_chunks parts)). }
  { by rewrite value_chunks. }
  cbn [fmap option_fmap option_map mbind option_bind]. rewrite Hf.
  assert (Hg : groupText [(1%nat, chunks value)] 1 = value) by (unfold groupText; cbn -[bytes_of]; apply bytes_of_chunks).
  rewrite Hg, trim_value.
  destruct (no_match timestampPattern (λ r, negb (r =? 45)) value) as [-> _].
  { intros l Hl%timestamp_hyphen. eapply Exists_impl; [exact Hl|]. by intros x ->. }
  { eapply all_impl; [|apply value_runes]. intros r [Hr _]%relative_no_mark. by apply negb_true_iff, Z.eqb_neq. }
  rewrite bool_decide_true by done. cbn [negb]. rewrite parse_relative.
  destruct (Z.leb_spec (total parts) maxHorizon) as [Hle|Hgt]; [by rewrite horizon_total|].
  unfold parseClaudeAbsoluteReset. rewrite trim_value.
  destruct (no_match absoluteResetPattern (λ r, negb (r =? 44) && negb (fold_rune r =? 97)) value) as [_ ->]; [| |done].
  { intros l Hl%absolute_mark. eapply Exists_impl; [exact Hl|]. intros x [-> | Hx]; [done|].
    cbv beta. rewrite Hx. apply andb_false_r. }
  { eapply all_impl; [|apply value_runes]. intros r (_ & H1 & H2)%relative_no_mark.
    apply andb_true_iff. split; by apply negb_true_iff, Z.eqb_neq. }
Qed.
End relative.

Definition demo_parts : list part := [([1; 7], UHour); ([0; 6], UMinute)].

Lemma Relative_reset_roundtrip_witness :
  parseClaudeUsageReset noZones UTC "resets in 17h06m" aug_24_2025 = Some (aug_24_2025 + 17 * Hour + 6 * Minute).
Proof.
  assert (Hok : Forall part_ok demo_parts).
  { repeat constructor; unfold digit; cbn; try done; lia. }
  exact (Relative_reset_roundtrip noZones UTC demo_parts Hok ltac:(done) aug_24_2025).
Defined.
