(* ===== verification/ClaudeAbsoluteFacts.v ===== *)
(** * Facts about absolute reset phrases

    A date and a time of day without a year are read back as the one instant
    near the observation that has them, in any zone. *)

From S2P Require Import Prelude GoTime GoText GoTextFacts GoDate GoRegexp GoRegexpFacts GoFloat GoStrconv Json Model Version Claude ClaudeUsage ClaudeUsageFacts ClaudeResetFacts.

#[local] Ltac Zify.zify_post_hook ::= Z.to_euclidean_division_equations.

(** ** At most one year fits *)

(** The offsets of a zone are at most a day. *)
Definition bounded (l : Location) : Prop := ∀ s, - daySeconds <= offsetAt l s <= daySeconds.

Lemma DateSeconds_offset l wall : bounded l → - daySeconds <= wall - DateSeconds l wall <= daySeconds.
Proof.
  intros Hl. unfold DateSeconds. pose proof (Hl wall) as H1. unfold offsetAt in H1.
  destruct (lookupOffset l wall) as [[offset start] stop]. cbn [fst] in H1.
  destruct (offset =? 0); [unfold daySeconds; lia|].
  destruct (_ || _); [|lia]. pose proof (Hl (wall - offset)). lia.
Qed.

Lemma daysBefore_leap y y' m : 1 <= m <= 12 → -1 <= daysBefore (isLeap y) m - daysBefore (isLeap y') m <= 1.
Proof. intros Hm. unfold daysBefore. destruct (isLeap y), (isLeap y'); month_case m Hm; eval_months; lia. Qed.

(** The same day of two years is almost a year apart. *)
Lemma years_apart y y' m d hour minute :
  1 <= m <= 12 → y' < y →
  364 * daySeconds <= civilSeconds y m d hour minute 0 - civilSeconds y' m d hour minute 0.
Proof.
  intros Hm Hy. unfold civilSeconds, dayNumber.
  pose proof (yearDays_mono y' y ltac:(lia)). pose proof (daysBefore_leap y y' m Hm). unfold daySeconds. lia.
Qed.

Definition seconds (t : Time) : Z := t / Second.

Lemma horizon_seconds r t : validClaudeResetHorizon r t = true → -86401 <= seconds r - seconds t <= 691201.
Proof. intros H%horizon_bounds. unfold seconds, Hour, Minute, Second in *. lia. Qed.

Lemma build_offset y m d hour minute l r :
  bounded l → buildClaudeAbsoluteReset y m d hour minute l = Some r →
  - daySeconds <= civilSeconds y m d hour minute 0 - seconds r <= daySeconds.
Proof.
  intros Hl. unfold buildClaudeAbsoluteReset. case_bool_decide; [|done]. intros [= <-].
  unfold Date, seconds. rewrite Z.div_mul by done. by apply DateSeconds_offset.
Qed.

Lemma build_unique y y' m d hour minute l r r' t :
  bounded l → 1 <= m <= 12 →
  buildClaudeAbsoluteReset y m d hour minute l = Some r → validClaudeResetHorizon r t = true →
  buildClaudeAbsoluteReset y' m d hour minute l = Some r' → validClaudeResetHorizon r' t = true →
  y' = y.
Proof.
  intros Hl Hm B1 V1 B2 V2. apply build_offset in B1, B2; [|done..]. apply horizon_seconds in V1, V2.
  destruct (Z.lt_trichotomy y' y) as [Hy|[Hy|Hy]]; [|done|].
  - pose proof (years_apart y y' m d hour minute Hm Hy). unfold daySeconds in *. lia.
  - pose proof (years_apart y' y m d hour minute Hm Hy). unfold daySeconds in *. lia.
Qed.

(** The year is next to the year of the observation. *)
Lemma build_near y m d hour minute l r t :
  bounded l → validDay y m d → 0 <= hour < 24 → 0 <= minute < 60 →
  buildClaudeAbsoluteReset y m d hour minute l = Some r → validClaudeResetHorizon r t = true →
  let Y := Year (Date_ (In_ l t)) in y = Y - 1 ∨ y = Y ∨ y = Y + 1.
Proof.
  intros Hl Hd Hh Hmin B V. apply build_offset in B; [|done]. apply horizon_seconds in V.
  pose proof (dayOfYear_range y m d Hd) as Hr.
  assert (Hy : yearDays y <= dayNumber y m d < yearDays (y + 1))
    by (rewrite yearDays_step; unfold dayNumber; destruct (isLeap y); lia).
  set (n := wallSeconds l t / daySeconds + epochDay).
  assert (HY : Year (Date_ (In_ l t)) = yearOf n).
  { unfold In_, clockOf. cbn [Date_]. unfold civilOf. fold n. by destruct (monthOf _ _ _). }
  cbv zeta. rewrite HY. pose proof (yearOf_spec n) as Hn.
  assert (Hclose : -11 <= dayNumber y m d - n <= 11).
  { unfold civilSeconds in B. unfold n, wallSeconds. fold (seconds t). pose proof (Hl (seconds t)) as Ho.
    unfold daySeconds in *. lia. }
  pose proof (yearDays_mono (y + 1) (yearOf n) ) as H1. pose proof (yearDays_mono (yearOf n + 1) y) as H2. lia.
Qed.

(** The year that fits is found, whichever is tried first. *)
Lemma firstYear_finds y m d hour minute l r t :
  bounded l → validDay y m d → 0 <= hour < 24 → 0 <= minute < 60 →
  buildClaudeAbsoluteReset y m d hour minute l = Some r → validClaudeResetHorizon r t = true →
  let Y := Year (Date_ (In_ l t)) in
  firstYear [Y - 1; Y; Y + 1] (λ year, buildClaudeAbsoluteReset year m d hour minute l) t = Some r.
Proof.
  intros Hl Hd Hh Hmin B V. pose proof (build_near y m d hour minute l r t Hl Hd Hh Hmin B V) as Hy. cbv zeta in *.
  set (Y := Year (Date_ (In_ l t))) in *.
  assert (Hin : y ∈ [Y - 1; Y; Y + 1]) by (rewrite !elem_of_cons; tauto). clear Hy.
  assert (H : ∀ years, y ∈ years →
    firstYear years (λ year, buildClaudeAbsoluteReset year m d hour minute l) t = Some r); [|by apply H].
  induction years as [|y' years IH]; [by intros ?%elem_of_nil|]. intros Hy. cbn [firstYear].
  destruct (buildClaudeAbsoluteReset y' m d hour minute l) as [r'|] eqn:B'.
  - destruct (validClaudeResetHorizon r' t) eqn:V'.
    + assert (y' = y) as -> by (apply (build_unique y y' m d hour minute l r r' t); [done|apply Hd|done..]). congruence.
    + apply IH. apply elem_of_cons in Hy as [<-|?]; [congruence|done].
  - apply IH. apply elem_of_cons in Hy as [<-|?]; [congruence|done].
Qed.

(** In UTC every valid date builds. *)
Lemma UTC_bounded : bounded UTC.
Proof. intros s. unfold offsetAt, daySeconds. simpl. lia. Qed.

Lemma build_UTC y m d hour minute :
  validDay y m d → 0 <= hour < 24 → 0 <= minute < 60 →
  buildClaudeAbsoluteReset y m d hour minute UTC = Some (civilSeconds y m d hour minute 0 * Second).
Proof.
  intros Hd Hh Hm. unfold buildClaudeAbsoluteReset. change (Date UTC y m d hour minute) with (civilSeconds y m d hour minute 0 * Second).
  unfold In_, wallSeconds. rewrite Z.div_mul by done. change (offsetAt UTC _) with 0. rewrite Z.add_0_r.
  rewrite clockOf_civilSeconds by done. cbn. by rewrite bool_decide_true.
Qed.

(** ** The phrase *)

Definition capitalMonths : list string :=
  ["January"; "February"; "March"; "April"; "May"; "June"; "July"; "August"; "September"; "October"; "November"; "December"].
Definition monthText (long : bool) (m : Z) : string :=
  let name := default "" (capitalMonths !! Z.to_nat (m - 1)) in
  if long then name else Stdlib.Strings.String.substring 0 3 name.

(** "Aug 25, 8:09am (UTC)"; the numbers are given as their digits. *)
Record phrase := mkPhrase {
  ph_long : bool; ph_month : Z; ph_day : list Z; ph_hour : list Z; ph_minute : list Z; ph_pm : bool; ph_zone : string
}.

Definition half (pm : bool) : string := if pm then "pm" else "am".
Definition write (ph : phrase) : string :=
  monthText (ph_long ph) (ph_month ph) +:+ " " +:+ spell (ph_day ph) +:+ ", " +:+ spell (ph_hour ph) +:+ ":" +:+
  spell (ph_minute ph) +:+ half (ph_pm ph) +:+ " (" +:+ ph_zone ph +:+ ")".

Definition one_or_two (l : list Z) : Prop := Forall digit l ∧ (List.length l = 1%nat ∨ List.length l = 2%nat).
(** Zone names, as those of the zone database: in ASCII, not empty, without a
    space at an end, a closing parenthesis, a line break or a colon. *)
Definition zone_ok (z : string) : Prop :=
  ascii_string z = true ∧ z ≠ "" ∧ TrimSpace z = z ∧ all (until 41) (chunks z) ∧ all any_rune (chunks z) ∧
  all (until 58) (chunks z).
Definition phrase_ok (ph : phrase) : Prop :=
  1 <= ph_month ph <= 12 ∧ one_or_two (ph_day ph) ∧ one_or_two (ph_hour ph) ∧
  (Forall digit (ph_minute ph) ∧ List.length (ph_minute ph) = 2%nat) ∧ zone_ok (ph_zone ph).

Definition hour24 (ph : phrase) : Z :=
  (if decimal (ph_hour ph) =? 12 then 0 else decimal (ph_hour ph)) + (if ph_pm ph then 12 else 0).

Abbreviation ds l := (digit_chunk_of <$> l).

Lemma write_chunks ph :
  phrase_ok ph →
  chunks (write ph) = chunks (monthText (ph_long ph) (ph_month ph)) ++ chunks " " ++ ds (ph_day ph) ++ chunks ", " ++
    ds (ph_hour ph) ++ chunks ":" ++ ds (ph_minute ph) ++ chunks (half (ph_pm ph)) ++ chunks " (" ++ chunks (ph_zone ph) ++ chunks ")".
Proof.
  intros (Hm & [Hd _] & [Hh _] & [Hn _] & Hz & _). unfold write.
  assert (Ht : ascii_string (monthText (ph_long ph) (ph_month ph)) = true).
  { destruct (ph_long ph); revert Hm; generalize (ph_month ph); intros m Hm; month_case m Hm; by vm_compute. }
  rewrite (chunks_app _ _ Ht), (chunks_app " "), chunks_spell, (chunks_app ", "), chunks_spell, (chunks_app ":"),
    chunks_spell by done.
  rewrite chunks_app by (by destruct (ph_pm ph)). by rewrite (chunks_app " ("), chunks_app by done.
Qed.

(** One or two digits, and then something else. *)
Lemma two_run k p l s c res :
  one_or_two l → stops is_digit s → k (lastRune p (ds l)) s c = Some res →
  matchHere (Between1 2 Digit) k p (ds l ++ s) c = Some res.
Proof.
  intros [Hl Hlen] Hs Hk. apply all_digits in Hl.
  destruct l as [|a [|b [|? l]]]; cbn [List.length] in Hlen; try (exfalso; lia); cbn [fmap list_fmap app] in *.
  - inversion Hl as [|? ? Ha _]; subst. cbn [Between1 UpTo Nat.sub Digit matchHere]. rewrite Ha.
    destruct s as [|x s]; [exact Hk|]. simpl in Hs. rewrite Hs. exact Hk.
  - inversion Hl as [|? ? Ha Hl']; inversion Hl' as [|? ? Hb _]; subst. cbn [Between1 UpTo Nat.sub Digit matchHere].
    rewrite Ha, Hb. change (lastRune p [digit_chunk_of a; digit_chunk_of b]) with (Some (digit_chunk_of b).1) in Hk.
    by rewrite Hk.
Qed.

Lemma exactly2_run k p l s c res :
  Forall digit l → List.length l = 2%nat → k (lastRune p (ds l)) s c = Some res →
  matchHere (Exactly 2 Digit) k p (ds l ++ s) c = Some res.
Proof.
  intros Hl Hlen Hk. apply all_digits in Hl. destruct l as [|a [|b [|? l]]]; try done.
  inversion Hl as [|? ? Ha Hl']; inversion Hl' as [|? ? Hb _]; subst. cbn [fmap list_fmap app Exactly Digit matchHere].
  by rewrite Ha, Hb.
Qed.

Lemma Lit_run s k p t c : ascii_string s = true → matchHere (Lit s) k p (chunks s ++ t) c = k (lastRune p (chunks s)) t c.
Proof.
  revert p. induction s as [|a s IH]; intros p; [done|].
  cbn [ascii_string Stdlib.Strings.String.list_ascii_of_string forallb].
  intros [Ha Hs]%andb_true_iff. apply Z.ltb_lt in Ha. rewrite chunks_ascii by done. rewrite lastRune_cons.
  destruct s as [|b s].
  - cbn. by rewrite Z.eqb_refl.
  - specialize (IH (Some (zb a)) Hs). change (Lit (String a (String b s))) with (Seq (Rune (zb a)) (Lit (String b s))).
    cbn [matchHere Rune app ascii_chunk fst]. rewrite Z.eqb_refl. exact IH.
Qed.

Lemma opt_yes a k p s c res : matchHere a k p s c = Some res → matchHere (Opt a) k p s c = Some res.
Proof. intros H. unfold Opt. cbn [matchHere]. by rewrite H. Qed.
Lemma opt_no a k p s c : matchHere a k p s c = None → matchHere (Opt a) k p s c = k p s c.
Proof. intros H. unfold Opt. cbn [matchHere]. by rewrite H. Qed.

(** No year follows: after the comma and the blank come at most two digits. *)
Lemma no_year k p l s c :
  one_or_two l → stops is_digit s →
  matchHere (Seqs [Lit ","; Spaces; Grp 3 (Exactly 4 Digit)]) k p (chunks ", " ++ ds l ++ s) c = None.
Proof.
  intros [Hl Hlen] Hs. apply all_digits in Hl. cbn [Seqs]. rewrite seq_eq.
  change (chunks ", " ++ ds l ++ s) with (chunks "," ++ ([ascii_chunk " "] ++ ds l ++ s)). rewrite Lit_run by done.
  apply matchHere_none. intros t s' E Ht.
  apply lang_Seq in Ht as (t1 & t2 & -> & H1 & H2). apply lang_star_all in H1.
  inversion H2 as [| | | | | | |n a t' H4| | |]; subst. cbn [Exactly] in H4.
  apply lang_Seq in H4 as (u1 & v1 & -> & G1 & H4). apply lang_Seq in H4 as (u2 & v2 & -> & G2 & H4).
  apply lang_Seq in H4 as (u3 & u4 & -> & G3 & G4). unfold Digit in *.
  inversion G1 as [|f1 x1 Hx1| | | | | | | | |]; inversion G2 as [|f2 x2 Hx2| | | | | | | | |];
    inversion G3 as [|f3 x3 Hx3| | | | | | | | |]; inversion G4 as [|f4 x4 Hx4| | | | | | | | |]; subst.
  assert (Hsp : ∀ x, is_digit x = true → space_rune x = false).
  { intros x Hx. apply plain_not_space. unfold plain_rune. by rewrite Hx. }
  destruct l as [|a [|b [|? l]]]; cbn [List.length] in Hlen; try (exfalso; lia);
    inversion Hl as [|? ? Ha Hl']; subst; try (inversion Hl' as [|? ? Hb _]; subst);
    (destruct t1 as [|y1 [|y2 t1]]; cbn in E; injection E as <- E; [done| |]);
    inversion H1 as [|? ? Hy1 H1']; subst; try (inversion H1' as [|? ? Hy2 _]; subst); cbn in Hs; simplify_eq/=;
    try (by rewrite Hsp in Hy2); first [done|congruence|destruct s; simplify_eq/=; congruence].
Qed.

Lemma alt_left a b k p s c res : matchHere a k p s c = Some res → matchHere (Alt a b) k p s c = Some res.
Proof. intros H. cbn [matchHere]. by rewrite H. Qed.

Lemma half_run k p pm s c res :
  k (lastRune p (chunks (half pm))) s c = Some res →
  matchHere (Alt (ILit "am") (ILit "pm")) k p (chunks (half pm) ++ s) c = Some res.
Proof.
  intros Hk. destruct pm; unfold half in *.
  - change (matchHere (Alt ?a ?b) ?k ?p ?s ?c) with
      (match matchHere a k p s c with Some r => Some r | None => matchHere b k p s c end).
    rewrite ILit_run by done. change (chunks "pm" ++ s) with (ascii_chunk "p" :: chunks "m" ++ s).
    cbn [ILit matchHere FoldRune ascii_chunk fst]. by eval_fold.
  - apply alt_left. by rewrite ILit_run.
Qed.

Definition phrase_caps (ph : phrase) : caps :=
  [(7%nat, chunks (ph_zone ph)); (6%nat, chunks (half (ph_pm ph))); (5%nat, ds (ph_minute ph)); (4%nat, ds (ph_hour ph));
   (2%nat, ds (ph_day ph)); (1%nat, chunks (monthText (ph_long ph) (ph_month ph)))].

Lemma month_letters long m :
  1 <= m <= 12 → chunks (monthText long m) ≠ [] ∧ all letter_fold (chunks (monthText long m)).
Proof.
  intros Hm. destruct long; month_case m Hm; split; try done; vm_compute; repeat constructor.
Qed.

Lemma digits_head l s (f : Z → bool) :
  one_or_two l → (∀ r, is_digit r = true → f r = false) → stops f (ds l ++ s).
Proof.
  intros [Hl Hlen] Hf. destruct Hl as [|d l Hd _]; [cbn in Hlen; lia|]. cbn. apply Hf. by apply digit_rune.
Qed.
Lemma digit_not_space r : is_digit r = true → space_rune r = false.
Proof. intros Hr. apply plain_not_space. unfold plain_rune. by rewrite Hr. Qed.

Lemma absolute_run ph :
  phrase_ok ph → matchHere absoluteResetPattern stop None (chunks (write ph)) [] = Some ([], phrase_caps ph).
Proof.
  intros Hok. rewrite write_chunks by done. destruct Hok as (Hm & Hd & Hh & [Hn Hn2] & Hz & Hzne & _ & Hz41 & _).
  destruct (month_letters (ph_long ph) (ph_month ph) Hm) as [Hmne Hml].
  unfold absoluteResetPattern. cbn [Seqs]. rewrite seq_eq.
  change (matchHere Bol ?k None ?s ?c) with (k None s c). cbv beta.
  rewrite seq_eq. apply group_plus; [done|done|done|].
  rewrite seq_eq. apply plus_run; [done|by repeat constructor|by apply digits_head, digit_not_space|].
  rewrite seq_eq. apply group_run; [intros k' Hk'; by apply two_run|].
  rewrite seq_eq, opt_no; [|apply (no_year _ _ (ph_hour ph)); [done|done]].
  rewrite seq_eq. apply alt_left. rewrite seq_eq. change (chunks ", ") with (chunks "," ++ [ascii_chunk " "]).
  rewrite <-app_assoc, Lit_run by done. apply star_run; [by repeat constructor|by apply digits_head, digit_not_space|].
  rewrite seq_eq. apply group_run; [intros k' Hk'; by apply two_run|].
  rewrite seq_eq. apply opt_yes. rewrite seq_eq, Lit_run by done.
  apply group_run; [intros k' Hk'; by apply exactly2_run|].
  rewrite seq_eq. apply (star_run _ _ _ []); [constructor|by destruct (ph_pm ph)|].
  rewrite seq_eq. apply opt_yes. apply group_run; [intros k' Hk'; by apply half_run|].
  rewrite seq_eq. apply opt_yes. rewrite seq_eq. change (chunks " (") with ([ascii_chunk " "] ++ chunks "(").
  rewrite <-app_assoc. apply star_run; [by repeat constructor|done|].
  rewrite seq_eq, Lit_run by done. rewrite seq_eq. apply group_plus; [|done|done|].
  { intros E. apply Hzne. rewrite <-(bytes_of_chunks (ph_zone ph)), E. done. }
  rewrite <-(app_nil_r (chunks ")")), Lit_run by done. done.
Qed.

(** ** Reading it *)

Lemma write_ends ph :
  phrase_ok ph → ∃ x l l', chunks (write ph) = x :: l ∧ chunks (write ph) = l' ++ [ascii_chunk ")"] ∧
    IsSpace x.1 = false ∧ fold_rune x.1 ≠ fold_rune 105.
Proof.
  intros Hok. pose proof Hok as (Hm & _). rewrite write_chunks by done.
  assert (Hx : ∃ x l, chunks (monthText (ph_long ph) (ph_month ph)) = x :: l ∧ IsSpace x.1 = false ∧ fold_rune x.1 ≠ fold_rune 105).
  { destruct (ph_long ph); revert Hm; generalize (ph_month ph); intros m Hm; month_case m Hm;
      (eexists _, _; split; [vm_compute; reflexivity|]; by vm_compute). }
  destruct Hx as (x & l & -> & Hx & Hf). eexists x, _, _. split; [done|]. split; [|done].
  rewrite !app_assoc. reflexivity.
Qed.

Lemma write_trim ph : phrase_ok ph → TrimSpace (write ph) = write ph.
Proof. intros (x & l & l' & E1 & E2 & Hx & _)%write_ends. by apply (TrimSpace_tight _ x (ascii_chunk ")") l l'). Qed.

Lemma month_read long m : 1 <= m <= 12 → englishMonth (monthText long m) = Some m.
Proof. intros Hm. destruct long; month_case m Hm; vm_compute; reflexivity. Qed.

Lemma small_spell l : one_or_two l ∨ (Forall digit l ∧ List.length l = 2%nat) → ParseInt (spell l) = Some (decimal l) ∧ 0 <= decimal l <= 99.
Proof.
  intros H. assert (Hl : one_or_two l) by (destruct H as [?|[? ?]]; [done|split; auto]). clear H.
  destruct Hl as [Hl Hlen].
  assert (Hb : 0 <= decimal l <= 99).
  { unfold decimal. destruct l as [|a [|b [|? l]]]; cbn [List.length] in Hlen; try (exfalso; lia);
      inversion Hl as [|? ? Ha Hl']; subst; try (inversion Hl'; subst); unfold digit in *; cbn; lia. }
  split; [|done]. rewrite ParseInt_spell; [|done|by intros ->; cbn in Hlen; lia].
  rewrite (proj2 (Z.leb_le _ _)); [done|]. unfold max_int64. lia.
Qed.

Lemma spell_ne l : l ≠ [] → spell l ≠ "".
Proof. by destruct l. Qed.

Section absolute.
Context (LoadLocation : string → option Location) (local location : Location) (ph : phrase).
Context (Hok : phrase_ok ph) (Hzone : LoadLocation (ph_zone ph) = Some location) (Hbound : bounded location).
Context (Hclock : 1 <= decimal (ph_hour ph) <= 12 ∧ decimal (ph_minute ph) <= 59).

Lemma parse_absolute y t r :
  validDay y (ph_month ph) (decimal (ph_day ph)) →
  buildClaudeAbsoluteReset y (ph_month ph) (decimal (ph_day ph)) (hour24 ph) (decimal (ph_minute ph)) location = Some r →
  validClaudeResetHorizon r t = true →
  parseClaudeAbsoluteReset LoadLocation local (write ph) t = Some r.
Proof using Hok Hzone Hbound Hclock.
  intros Hd B V. unfold parseClaudeAbsoluteReset. rewrite write_trim by done. unfold FindStringSubmatch.
  destruct (write_ends ph Hok) as (x & l & _ & E & _).
  assert (Hs : ∃ f, search absoluteResetPattern None (chunks (write ph)) [] = Some f ∧ groups f = phrase_caps ph).
  { pose proof (absolute_run ph Hok) as Hr. rewrite E in *. cbn [search]. rewrite Hr. eexists. by split. }
  destruct Hs as (f & -> & Hf). cbn [fmap option_fmap option_map mbind option_bind]. rewrite Hf.
  pose proof Hok as (Hm & Hdd & Hhh & Hmm & _ & Hzne & Hzt & _).
  assert (G : ∀ n s, group (phrase_caps ph) n = Some (chunks s) → groupText (phrase_caps ph) n = s).
  { intros n s Hg. unfold groupText. rewrite Hg. apply bytes_of_chunks. }
  assert (GD : ∀ n l', group (phrase_caps ph) n = Some (ds l') → groupText (phrase_caps ph) n = spell l').
  { intros n l' Hg. unfold groupText. rewrite Hg. apply bytes_digits. }
  rewrite (G 1%nat (monthText (ph_long ph) (ph_month ph)) eq_refl), month_read by done. cbn [mbind option_bind].
  rewrite (GD 2%nat (ph_day ph) eq_refl). destruct (small_spell (ph_day ph)) as [-> Hdb]; [auto|]. cbn [mbind option_bind].
  rewrite (GD 4%nat (ph_hour ph) eq_refl). destruct (small_spell (ph_hour ph)) as [-> Hhb]; [auto|]. cbn [mbind option_bind].
  rewrite (GD 5%nat (ph_minute ph) eq_refl). 
  rewrite (bool_decide_false (spell (ph_minute ph) = "")) by (apply spell_ne; destruct Hmm as [_ Hl2]; by destruct (ph_minute ph)).
  destruct (small_spell (ph_minute ph)) as [-> Hmb]; [auto|]. cbn [mbind option_bind].
  pose proof Hd as [_ Hdv].
  assert (Hd31 : decimal (ph_day ph) <= 31).
  { revert Hdv. unfold daysIn. revert Hm. generalize (ph_month ph). intros m Hm. destruct (isLeap y); month_case m Hm; eval_months; lia. }
  rewrite !(proj2 (Z.ltb_ge _ _)) by lia. cbn [orb].
  rewrite (G 6%nat (half (ph_pm ph)) eq_refl), (G 7%nat (ph_zone ph) eq_refl), Hzt.
  rewrite (bool_decide_false (ph_zone ph = "")) by done.
  assert (Hc : clockHour (decimal (ph_hour ph)) (ToLower (half (ph_pm ph))) = Some (hour24 ph)).
  { unfold clockHour, hour24. rewrite bool_decide_true by (by destruct (ph_pm ph)).
    rewrite !(proj2 (Z.ltb_ge _ _)) by lia. cbn [orb]. destruct (ph_pm ph); cbn; [done|]. by rewrite Z.add_0_r. }
  rewrite Hc. cbn [mbind option_bind]. rewrite Hzone. cbn [mbind option_bind].
  rewrite (bool_decide_true (groupText (phrase_caps ph) 3 = "")) by done.
  apply (firstYear_finds y); try done; [|lia].
  unfold hour24. destruct (Z.eqb_spec (decimal (ph_hour ph)) 12), (ph_pm ph); lia.
Qed.
End absolute.

Lemma anchored_none r x s skipped : search (Seq Bol r) (Some x) s skipped = None.
Proof.
  revert x skipped. induction s as [|c s IH]; intros x skipped; cbn [search matchHere]; [done|]. apply IH.
Qed.

Lemma not_relative ph : phrase_ok ph → FindStringSubmatch relativeResetPattern (write ph) = None.
Proof.
  intros (x & l & l' & E & _ & _ & Hx)%write_ends. unfold FindStringSubmatch. rewrite E. unfold relativeResetPattern. cbn [Seqs].
  cbn [search]. rewrite anchored_none. rewrite seq_eq.
  change (matchHere Bol ?k None ?s ?c) with (k None s c). cbv beta. rewrite seq_eq.
  cbn [ILit matchHere FoldRune]. change (zb "i") with 105. by rewrite (proj2 (Z.eqb_neq _ _)).
Qed.

Lemma digit_any r : is_digit r = true → any_rune r = true.
Proof.
  unfold is_digit, within, any_rune. intros H. breflect. by rewrite (proj2 (Z.eqb_neq _ _)) by lia.
Qed.

Lemma write_runes ph : phrase_ok ph → all any_rune (chunks (write ph)).
Proof.
  intros Hok. rewrite write_chunks by done. destruct Hok as (Hm & [Hd _] & [Hh _] & [Hn _] & (_ & _ & _ & _ & Hany & _)).
  assert (Hds : ∀ l, Forall digit l → all any_rune (ds l)).
  { intros l Hl. eapply all_impl; [apply digit_any|by apply all_digits]. }
  assert (Hname : all any_rune (chunks (monthText (ph_long ph) (ph_month ph)))).
  { destruct (ph_long ph); revert Hm; generalize (ph_month ph); intros m Hm; month_case m Hm; vm_compute; by repeat constructor. }
  assert (Hhalf : all any_rune (chunks (half (ph_pm ph)))) by (destruct (ph_pm ph); by repeat constructor).
  unfold all in *. rewrite !Forall_app. split_and!; try done; try (by apply Hds); by repeat constructor.
Qed.

(** A timestamp has two colons, such a phrase one. *)
Definition colons (l : list chunk) : nat := List.length (filter (λ x : chunk, x.1 = 58) l).

Lemma colons_app l1 l2 : colons (l1 ++ l2) = (colons l1 + colons l2)%nat.
Proof. unfold colons. by rewrite filter_app, length_app. Qed.

Lemma colons_none l : all (until 58) l → colons l = O.
Proof.
  unfold colons. induction 1 as [|x l Hx _ IH]; [done|]. rewrite filter_cons_False; [done|].
  unfold until in Hx. by apply negb_true_iff, Z.eqb_neq in Hx.
Qed.

Lemma colons_digits l : Forall digit l → colons (ds l) = O.
Proof.
  intros Hl. apply colons_none. eapply all_impl; [|by apply all_digits]. unfold is_digit, within, until. intros r H. breflect.
  by rewrite (proj2 (Z.eqb_neq _ _)) by lia.
Qed.

Lemma timestamp_colons l : lang timestampPattern l → (2 <= colons l)%nat.
Proof.
  unfold timestampPattern. cbn [Seqs].
  do 7 (intros H; apply lang_Seq in H as (? & ? & -> & _ & H); revert H).
  intros (l1 & l2 & -> & H1 & (l3 & l4 & -> & _ & (l5 & l6 & -> & H2 & _)%lang_Seq)%lang_Seq)%lang_Seq.
  apply lang_rune in H1 as (c1 & -> & Hc1). apply lang_rune in H2 as (c2 & -> & Hc2). rewrite !colons_app.
  assert (Hone : ∀ z : chunk, z.1 = zb ":" → colons [z] = 1%nat) by (intros z Hz; unfold colons; by rewrite filter_cons_True).
  rewrite !Hone by done. lia.
Qed.

Lemma write_colons ph : phrase_ok ph → colons (chunks (write ph)) = 1%nat.
Proof.
  intros Hok. rewrite write_chunks by done. destruct Hok as (Hm & [Hd _] & [Hh _] & [Hn _] & (_ & _ & _ & _ & _ & Hz)).
  rewrite !colons_app, !colons_digits, (colons_none _ Hz) by done.
  assert (colons (chunks (half (ph_pm ph))) = O) as -> by (by destruct (ph_pm ph)).
  assert (colons (chunks (monthText (ph_long ph) (ph_month ph))) = O) as ->; [|reflexivity].
  destruct (ph_long ph); revert Hm; generalize (ph_month ph); intros m Hm; month_case m Hm; by vm_compute.
Qed.

Lemma no_timestamp ph : phrase_ok ph → FindString timestampPattern (write ph) = "".
Proof.
  intros Hok. apply FindString_empty. intros l1 l l2 E Hl%timestamp_colons.
  pose proof (write_colons ph Hok) as H. rewrite E, !colons_app in H. lia.
Qed.

(** C25. A reset given as a date and a time of day is read back as its instant:
    for a line like "resets Aug 25, 8:09am (America/Port-au-Prince)", written
    with the long or the short name of a month, a day and an hour of one or two
    digits, a minute of two and am or pm, and with any zone that can be loaded
    whose offsets are at most a day and whose name is ASCII without a colon, a
    closing parenthesis, a line break or a space at an end, the parser returns
    the instant that has that wall clock in that zone and lies between a day
    before and eight days after the observation, although the text has no year.
    The year is the right one also across the turn of the year and on
    29 February, and is the only one that fits. *)
Theorem Absolute_reset_roundtrip (LoadLocation : string → option Location) (local location : Location)
    (ph : phrase) (y : Z) (t : Time)
    (Hok : phrase_ok ph)
    (Hzone : LoadLocation (ph_zone ph) = Some location) (Hbound : bounded location)
    (Hclock : 1 <= decimal (ph_hour ph) <= 12 ∧ decimal (ph_minute ph) <= 59)
    (Hday : validDay y (ph_month ph) (decimal (ph_day ph))) :
  let r := Date location y (ph_month ph) (decimal (ph_day ph)) (hour24 ph) (decimal (ph_minute ph)) in
  In_ location r = mkClock (mkCivil y (ph_month ph) (decimal (ph_day ph))) (hour24 ph) (decimal (ph_minute ph)) 0 →
  t - 24 * Hour <= r <= t + 8 * 24 * Hour →
  parseClaudeUsageReset LoadLocation local ("resets " +:+ write ph) t = Some r.
Proof.
  intros r Hin Hnear.
  assert (Hv : validClaudeResetHorizon r t = true).
  { unfold validClaudeResetHorizon, claudeResetPastTolerance, claudeResetMaxHorizon, Sub.
    unfold Hour, Minute, Second in *. apply andb_true_iff. split; apply Z.leb_le; unfold min_int64, max_int64; lia. }
  assert (Hb : buildClaudeAbsoluteReset y (ph_month ph) (decimal (ph_day ph)) (hour24 ph) (decimal (ph_minute ph)) location = Some r).
  { unfold buildClaudeAbsoluteReset. fold r. rewrite Hin. cbn. by rewrite bool_decide_true. }
  destruct (write_ends ph Hok) as (x & l & l' & E1 & E2 & Hx & _).
  unfold parseClaudeUsageReset.
  rewrite (TrimSpace_tight _ (ascii_chunk "r") (ascii_chunk ")") (chunks "esets " ++ chunks (write ph)) (chunks "resets " ++ l'))
    by (first [by rewrite chunks_app|by rewrite chunks_app, E2, app_assoc|done]).
  unfold FindStringSubmatch. rewrite chunks_app by done.
  destruct (reset_phrase (chunks (write ph))) as (f & -> & Hf).
  { by apply write_runes. }
  { rewrite E2. unfold tight. by rewrite last_app. }
  { rewrite E1. cbn. destruct (space_rune x.1) eqn:Es; [|done]. unfold space_rune in Es. apply bool_decide_eq_true in Es.
    rewrite !elem_of_cons, elem_of_nil in Es. by repeat destruct Es as [Es|Es]; [rewrite Es in Hx..|]. }
  cbn [fmap option_fmap option_map mbind option_bind]. rewrite Hf.
  assert (Hg : groupText [(1%nat, chunks (write ph))] 1 = write ph) by (unfold groupText; cbn -[bytes_of]; apply bytes_of_chunks).
  rewrite Hg, write_trim by done.
  rewrite no_timestamp by done.
  rewrite bool_decide_true by done. cbn [negb]. unfold parseClaudeRelativeReset. rewrite write_trim, not_relative by done.
  cbn [mbind option_bind]. by apply (parse_absolute LoadLocation local location ph Hok Hzone Hbound Hclock y).
Qed.

(** 29 February 2024, 12:05am in UTC, under a name with hyphens, observed the
    evening before. *)
Definition leap_phrase : phrase := mkPhrase false 2 [2; 9] [1; 2] [0; 5] false "Etc/GMT-0".
Definition gmtZones (name : string) : option Location := if bool_decide (name = "Etc/GMT-0") then Some UTC else None.
Definition leap_eve : Time := (civilSeconds 2024 2 28 20 0 0) * Second.

Lemma leap_zone_ok : zone_ok "Etc/GMT-0".
Proof.
  split; [vm_compute; reflexivity|]. split; [discriminate|]. split; [vm_compute; reflexivity|].
  split_and!; vm_compute; by repeat constructor.
Qed.

Lemma leap_phrase_ok : phrase_ok leap_phrase.
Proof.
  split; [cbn; lia|]. unfold one_or_two, digit. cbn [leap_phrase ph_day ph_hour ph_minute ph_zone].
  split; [split; [repeat constructor; lia|by right]|]. split; [split; [repeat constructor; lia|by right]|].
  split; [split; [repeat constructor; lia|done]|apply leap_zone_ok].
Qed.

Lemma Absolute_reset_roundtrip_witness :
  parseClaudeUsageReset gmtZones UTC "resets Feb 29, 12:05am (Etc/GMT-0)" leap_eve = Some ((civilSeconds 2024 2 29 0 5 0) * Second).
Proof.
  apply (Absolute_reset_roundtrip gmtZones UTC UTC leap_phrase 2024 leap_eve leap_phrase_ok).
  - reflexivity.
  - exact UTC_bounded.
  - vm_compute. by repeat split.
  - vm_compute. by repeat split.
  - vm_compute. reflexivity.
  - vm_compute. by split.
Defined.
