(* ===== verification/ClaudeOrder.v ===== *)
(** * The order of a map in Claude's structured limits

    Go ranges over a map in an order of its own.  Two decodings of a document
    are the same value when they agree as maps; the parser gives the same
    report for both if the document holds one [rate_limits] object, and need
    not if it holds two. *)

From S2P Require Import Prelude GoTime GoText GoFloat GoStrconv Json Model Codex Claude ClaudeUsage.

(** ** Values as maps *)

Section json_induction.
Context (P : json → Prop).
Context (Hnull : P JNull) (Hbool : ∀ b, P (JBool b)) (Hnum : ∀ x, P (JNumber x)) (Hstr : ∀ s, P (JString s)).
Context (Harr : ∀ l, Forall P l → P (JArray l)) (Hobj : ∀ fs, Forall (λ kv : string * json, P kv.2) fs → P (JObject fs)).

Fixpoint json_nested_ind (v : json) : P v :=
  match v with
  | JNull => Hnull | JBool b => Hbool b | JNumber x => Hnum x | JString s => Hstr s
  | JArray l => Harr l ((fix go l : Forall P l :=
      match l with [] => List.Forall_nil P | v :: l => List.Forall_cons _ v l (json_nested_ind v) (go l) end) l)
  | JObject fs => Hobj fs ((fix go fs : Forall (λ kv : string * json, P kv.2) fs :=
      match fs with [] => List.Forall_nil _ | kv :: fs => List.Forall_cons _ kv fs (json_nested_ind kv.2) (go fs) end) fs)
  end.
End json_induction.

#[local] Set Warnings "-register-all".
Inductive jeq : json → json → Prop :=
| jeq_null : jeq JNull JNull
| jeq_bool b : jeq (JBool b) (JBool b)
| jeq_number x : jeq (JNumber x) (JNumber x)
| jeq_string s : jeq (JString s) (JString s)
| jeq_array l l' : Forall2 jeq l l' → jeq (JArray l) (JArray l')
| jeq_object fs fs' : (∀ k, option_Forall2 jeq (field fs k) (field fs' k)) → jeq (JObject fs) (JObject fs').

(** Distinct keys everywhere, as in a Go map. *)
Inductive distinct : json → Prop :=
| distinct_null : distinct JNull
| distinct_bool b : distinct (JBool b)
| distinct_number x : distinct (JNumber x)
| distinct_string s : distinct (JString s)
| distinct_array l : Forall distinct l → distinct (JArray l)
| distinct_object fs : NoDup fs.*1 → Forall (λ kv : string * json, distinct kv.2) fs → distinct (JObject fs).

Lemma field_in fs k v : field fs k = Some v → (k, v) ∈ fs.
Proof.
  induction fs as [|[k' w] fs IH]; [done|]. cbn [field]. case_bool_decide as E.
  - intros [= ->]. subst. by left.
  - intros H. right. by apply IH.
Qed.

Lemma jeq_sym v : ∀ v', jeq v v' → jeq v' v.
Proof.
  induction v as [|b|x|s|l IH|fs IH] using json_nested_ind; intros v' H; inversion H as [| | | |? l' Hl|? fs' Hf]; subst; try constructor.
  - clear H. induction Hl as [|a b l l' Hab Hl IHl]; [constructor|]. inversion IH; subst. constructor; auto.
  - intros k. specialize (Hf k). inversion Hf as [a b Hab Ea Eb|Ea Eb]; constructor.
    symmetry in Ea. apply field_in in Ea. rewrite Forall_forall in IH. by apply (IH _ Ea).
Qed.

Lemma jeq_refl v : jeq v v.
Proof.
  induction v as [|b|x|s|l IH|fs IH] using json_nested_ind; constructor.
  - induction IH; by constructor.
  - intros k. destruct (field fs k) as [c|] eqn:E; constructor. apply field_in in E.
    rewrite Forall_forall in IH. by apply (IH _ E).
Qed.

(** ** The limits a document holds *)

Inductive holds : json → list (string * json) → Prop :=
| holds_own fs l : ownLimits fs = Some l → holds (JObject fs) l
| holds_child fs k c l : ownLimits fs = None → field fs k = Some c → holds c l → holds (JObject fs) l
| holds_elem cs c l : c ∈ cs → holds c l → holds (JArray cs) l.

Definition unambiguous (v : json) : Prop := ∀ l l', holds v l → holds v l' → l = l'.

Lemma find_array cs : findRateLimits (JArray cs) =
  match cs with [] => None | c :: cs => match findRateLimits c with Some l => Some l | None => findRateLimits (JArray cs) end end.
Proof. by destruct cs. Qed.

Fixpoint findIn (fs : list (string * json)) : option (list (string * json)) :=
  match fs with [] => None | (_, c) :: fs => match findRateLimits c with Some l => Some l | None => findIn fs end end.
Lemma find_object fs :
  findRateLimits (JObject fs) = match ownLimits fs with Some l => Some l | None => findIn fs end.
Proof.
  cbn [findRateLimits]. destruct (ownLimits fs); [done|].
  induction fs as [|[k c] fs IH]; [done|]. cbn [findIn]. destruct (findRateLimits c); [done|]. exact IH.
Qed.

Lemma findIn_Some fs l : findIn fs = Some l → ∃ k c, (k, c) ∈ fs ∧ findRateLimits c = Some l.
Proof.
  induction fs as [|[k c] fs IH]; [done|]. cbn [findIn]. destruct (findRateLimits c) eqn:E.
  - intros [= ->]. exists k, c. split; [by left|done].
  - intros (k' & c' & ? & ?)%IH. exists k', c'. split; [by right|done].
Qed.
Lemma findIn_in fs k c l : (k, c) ∈ fs → findRateLimits c = Some l → ∃ l', findIn fs = Some l'.
Proof.
  intros Hin Hc. induction fs as [|[k' c'] fs IH]; [by apply elem_of_nil in Hin|]. cbn [findIn].
  destruct (findRateLimits c') eqn:E; [eauto|]. apply elem_of_cons in Hin as [[= <- <-]|Hin]; [congruence|auto].
Qed.

Lemma find_holds v : distinct v → ∀ l, findRateLimits v = Some l → holds v l.
Proof.
  induction v as [|b|x|s|cs IH|fs IH] using json_nested_ind; intros Hd l; try done.
  - inversion Hd as [| | | |? Hcs|]; subst. clear Hd.
    assert (H : ∀ cs', cs' ⊆ cs → findRateLimits (JArray cs') = Some l → ∃ c, c ∈ cs ∧ findRateLimits c = Some l).
    { induction cs' as [|c cs' IHc]; intros Hsub; rewrite find_array; [done|]. destruct (findRateLimits c) eqn:E.
      - intros [= ->]. exists c. split; [set_solver|done].
      - apply IHc. set_solver. }
    intros (c & Hc & Hf)%H; [|done]. rewrite !Forall_forall in *. apply (holds_elem _ c); [done|]. by apply IH; auto.
  - inversion Hd as [| | | | |? Hn Hcs]; subst. rewrite find_object. destruct (ownLimits fs) as [l0|] eqn:Eo.
    + intros [= ->]. by constructor.
    + intros (k & c & Hin & Hf)%findIn_Some. rewrite !Forall_forall in *.
      apply (holds_child _ k c); [done|by apply field_Some|]. apply (IH _ Hin); [|done]. by apply (Hcs _ Hin).
Qed.

Lemma holds_find v l : holds v l → ∃ l', findRateLimits v = Some l'.
Proof.
  induction 1 as [fs l Ho|fs k c l Ho Hf _ [l' IH]|cs c l Hin _ [l' IH]].
  - exists l. by rewrite find_object, Ho.
  - rewrite find_object, Ho. apply field_in in Hf. by apply (findIn_in fs k c l').
  - induction cs as [|c' cs IHc]; [by apply elem_of_nil in Hin|]. rewrite find_array.
    destruct (findRateLimits c') eqn:E; [eauto|]. apply elem_of_cons in Hin as [<-|Hin]; [congruence|auto].
Qed.

Lemma ownLimits_jeq fs fs' : (∀ k, option_Forall2 jeq (field fs k) (field fs' k)) →
  option_Forall2 (λ l l', jeq (JObject l) (JObject l')) (ownLimits fs) (ownLimits fs').
Proof.
  intros H.
  assert (Hk : ∀ k, option_Forall2 (λ l l', jeq (JObject l) (JObject l')) (objectOf (field fs k)) (objectOf (field fs' k))).
  { intros k. specialize (H k). inversion H as [a b Hab|]; [|constructor]. inversion Hab; subst; by constructor. }
  unfold ownLimits. pose proof (Hk "rate_limits") as H1. inversion H1; [by constructor|]. apply Hk.
Qed.

Lemma Forall2_in_l {A B} (P : A → B → Prop) l k x : Forall2 P l k → x ∈ l → ∃ y, y ∈ k ∧ P x y.
Proof.
  intros Hl Hx. induction Hl as [|a b l k Hab _ IH]; [by apply elem_of_nil in Hx|].
  apply elem_of_cons in Hx as [->|Hx]; [exists b; split; [by left|done]|].
  destruct (IH Hx) as (y & ? & ?). exists y. split; [by right|done].
Qed.

Lemma holds_jeq v l : holds v l → ∀ v', jeq v v' → ∃ l', holds v' l' ∧ jeq (JObject l) (JObject l').
Proof.
  induction 1 as [fs l Ho|fs k c l Ho Hf _ IH|cs c l Hin _ IH]; intros v' Hv; inversion Hv as [| | | |? l' Hl|? fs' Hfs]; subst.
  - pose proof (ownLimits_jeq fs fs' Hfs) as H. rewrite Ho in H. inversion H as [a b Hab|]; subst.
    exists b. split; [by constructor|done].
  - pose proof (ownLimits_jeq fs fs' Hfs) as H. rewrite Ho in H. inversion H; subst.
    specialize (Hfs k). rewrite Hf in Hfs. inversion Hfs as [a c' Hc|]; subst.
    destruct (IH c' Hc) as (l' & Hl' & ?). exists l'. split; [|done]. by apply (holds_child _ k c').
  - destruct (Forall2_in_l _ _ _ _ Hl Hin) as (c' & Hin' & Hc). destruct (IH c' Hc) as (l0 & ? & ?).
    exists l0. split; [by apply (holds_elem _ c')|done].
Qed.

(** ** Reading them *)

Section reading.
Context (otherFloat : string → float64 * bool) (machineInt : float64 → Z).

Lemma objectValue_jeq fs fs' keys :
  (∀ k, option_Forall2 jeq (field fs k) (field fs' k)) → option_Forall2 jeq (objectValue fs keys) (objectValue fs' keys).
Proof.
  intros H. induction keys as [|k keys IH]; [constructor|]. cbn [objectValue].
  pose proof (H k) as Hk. inversion Hk; [by constructor|done].
Qed.

Lemma numberValue_jeq fs fs' keys :
  (∀ k, option_Forall2 jeq (field fs k) (field fs' k)) →
  numberValue otherFloat fs keys = numberValue otherFloat fs' keys.
Proof.
  intros H%(λ H, objectValue_jeq fs fs' keys H). unfold numberValue.
  inversion H as [a b Hab|]; [|done]. by inversion Hab.
Qed.

Lemma parseTimestamp_jeq o o' : option_Forall2 jeq o o' → parseTimestamp machineInt o = parseTimestamp machineInt o'.
Proof. intros [a b Hab|]; [|done]. by inversion Hab. Qed.

Lemma parseWindow_jeq v v' : jeq v v' → parseClaudeWindow otherFloat machineInt v = parseClaudeWindow otherFloat machineInt v'.
Proof.
  inversion 1 as [| | | | |fs fs' Hf]; subst; try done. unfold parseClaudeWindow.
  by rewrite (numberValue_jeq fs fs'), (parseTimestamp_jeq _ _ (objectValue_jeq fs fs' _ Hf)).
Qed.

Lemma optionalWindow_jeq o o' :
  option_Forall2 jeq o o' → optionalWindow otherFloat machineInt o = optionalWindow otherFloat machineInt o'.
Proof.
  intros [a b Hab|]; [|done]. unfold optionalWindow. rewrite (parseWindow_jeq a b Hab). by inversion Hab.
Qed.

(** The report does not depend on the order in which Go happens to range
    over the maps: for two decodings of the same document, one that holds a
    single [rate_limits] object, parsing gives the same report or the same
    error. *)
Theorem RateLimits_any_order (v v' : json) (observedAt : Time) (source : string)
    (Hv : distinct v) (Hv' : distinct v') (Heq : jeq v v') (Hone : unambiguous v) :
  parseClaudeRateLimits otherFloat machineInt (Some v) observedAt source =
  parseClaudeRateLimits otherFloat machineInt (Some v') observedAt source.
Proof.
  unfold parseClaudeRateLimits.
  assert (H : option_Forall2 (λ l l', jeq (JObject l) (JObject l')) (findRateLimits v) (findRateLimits v')).
  { destruct (findRateLimits v) as [l|] eqn:E.
    - apply find_holds in E; [|done]. destruct (holds_jeq v l E v' Heq) as (l1 & H1 & _).
      destruct (holds_find v' l1 H1) as (l2 & E2). rewrite E2. constructor.
      apply find_holds in E2; [|done]. destruct (holds_jeq v' l2 E2 v (jeq_sym _ _ Heq)) as (l3 & H3 & H23).
      rewrite (Hone l l3 E H3). by apply jeq_sym.
    - destruct (findRateLimits v') as [l'|] eqn:E'; [|constructor].
      apply find_holds in E'; [|done]. destruct (holds_jeq v' l' E' v (jeq_sym _ _ Heq)) as (l & Hl & _).
      destruct (holds_find v l Hl) as (? & ?). congruence. }
  inversion H as [l l' Hl|]; [|done]. inversion Hl as [| | | | |? ? Hf]; subst.
  by rewrite (optionalWindow_jeq _ _ (objectValue_jeq l l' _ Hf)), (optionalWindow_jeq _ _ (objectValue_jeq l l' _ Hf)).
Qed.
End reading.

(** ** A document in two orders *)

Definition limitsAt (used resets : Z) : json :=
  JObject [("five_hour", JObject [("used_percentage", JNumber (f_of_Z used)); ("resets_at", JNumber (f_of_Z resets))])].
Definition single (swap : bool) : json :=
  let a := ("session", JObject [("rate_limits", limitsAt 40 1700000000)]) in
  let b := ("model", JString "opus") in
  JObject (if swap then [b; a] else [a; b]).

Lemma single_distinct swap : distinct (single swap).
Proof.
  unfold single, limitsAt.
  destruct swap; repeat first [constructor | (rewrite !elem_of_cons, elem_of_nil; naive_solver) | set_solver].
Qed.

Lemma swap_jeq (a b : string * json) : a.1 ≠ b.1 → jeq (JObject [a; b]) (JObject [b; a]).
Proof.
  destruct a as [ka va], b as [kb vb]. cbn [fst]. intros Hne. constructor. intros k. cbn [field].
  repeat case_bool_decide; subst; try done; constructor; apply jeq_refl.
Qed.

Lemma single_jeq : jeq (single false) (single true).
Proof. by apply swap_jeq. Qed.

Lemma single_unambiguous : unambiguous (single false).
Proof.
  assert (H : ∀ l, holds (single false) l → limitsAt 40 1700000000 = JObject l).
  { intros l. inversion 1 as [? ? Ho|? k c ? _ Hf Hc|]; subst; [done|].
    cbn in Hf. case_bool_decide; [|by case_bool_decide; simplify_eq; inversion Hc].
    injection Hf as <-. inversion Hc as [? ? Ho|? ? ? ? Ho|]; subst; [|done]. by injection Ho as <-. }
  intros l l' H1%H H2%H. congruence.
Qed.

Lemma RateLimits_any_order_witness :
  parseClaudeRateLimits noOther (λ _, 0) (Some (single false)) 0 "claude-usage" =
  parseClaudeRateLimits noOther (λ _, 0) (Some (single true)) 0 "claude-usage".
Proof.
  exact (RateLimits_any_order noOther (λ _, 0) (single false) (single true) 0 "claude-usage"
    (single_distinct false) (single_distinct true) single_jeq single_unambiguous).
Defined.

Definition double (swap : bool) : json :=
  let a := ("work", JObject [("rate_limits", limitsAt 10 1700000000)]) in
  let b := ("home", JObject [("rate_limits", limitsAt 90 1700000000)]) in
  JObject (if swap then [b; a] else [a; b]).

(** With two [rate_limits] objects in one document the report does depend
    on that order: the same document, decoded into the same map, is reported
    as 10 or as 90 percent used. *)
Theorem RateLimits_order_matters :
  jeq (double false) (double true) ∧
  ∃ r r', parseClaudeRateLimits noOther (λ _, 0) (Some (double false)) 0 "claude-usage" = Ok r ∧
          parseClaudeRateLimits noOther (λ _, 0) (Some (double true)) 0 "claude-usage" = Ok r' ∧
          (UsedPercent <$> FiveHour (pr_Windows r)) = Some (f_of_Z 10) ∧
          (UsedPercent <$> FiveHour (pr_Windows r')) = Some (f_of_Z 90).
Proof.
  split.
  - by apply swap_jeq.
  - eexists _, _. split_and!; vm_compute; reflexivity.
Qed.
