(* ===== verification/HookServer.v ===== *)
(** * internal/agent and internal/hooks: delivering hook events

    The local server of [hookserver.go] with its two endpoints, and the
    forwarder of [event.go] that posts to it.  Decoding and encoding JSON, the
    check that a URL is a loopback address and the transport are parameters;
    a body is what its reader yields before it ends or fails. *)

From S2P Require Import Prelude GoTime GoText GoNet GoFloat GoStrconv Json Digest Model HookEvent Ledger Claude ClaudeUsage.

Definition MaxHookPayload : Z := 64 * 1024.

Record hookRequest := mkHookRequest {
  hr_Method : string;
  hr_Path : string;                    (* as it was sent, with its escapes *)
  hr_Authorization : string;           (* the header fields, empty when absent *)
  hr_Secret : string;
  hr_Body : string;
  hr_BodyFails : bool
}.

Inductive hookStatus := Unauthorized | TooLarge | BadRequest (what : string) | NoContent | MovedPermanently | NotFound | MethodNotAllowed.

#[global] Instance hookStatus_eq_dec : EqDecision hookStatus.
Proof. solve_decision. Defined.

Definition statusCode (s : hookStatus) : Z :=
  match s with
  | Unauthorized => 401 | TooLarge => 413 | BadRequest _ => 400 | NoContent => 204 | MovedPermanently => 301 | NotFound => 404 | MethodNotAllowed => 405
  end.

Record HookServerConfig := mkHookServerConfig { hs_Secret : string; hs_HasStatusLine : bool; hs_MaxPayload : Z }.

Inductive HookConfigError := HookSecretRequired | LedgerRequired.

(** The checks and the default of [NewHookHandler]; a missing ledger is [None]. *)
Definition NewHookHandler (cfg : HookServerConfig) (l : option Ledger) : result HookConfigError (HookServerConfig * Ledger) :=
  _ ← refuse (bool_decide (hs_Secret cfg = "")) HookSecretRequired;
  match l with
  | None => Err LedgerRequired
  | Some l =>
    Ok (if hs_MaxPayload cfg <=? 0 then mkHookServerConfig (hs_Secret cfg) (hs_HasStatusLine cfg) MaxHookPayload else cfg, l)
  end.

Definition TrimPrefix (s prefix : string) : string :=
  if HasPrefix s prefix
  then Stdlib.Strings.String.substring (Stdlib.Strings.String.length prefix) (Stdlib.Strings.String.length s) s else s.

Definition validLocalSecret (r : hookRequest) (secret : string) : bool :=
  let provided := TrimSpace (TrimPrefix (hr_Authorization r) "Bearer ") in
  let provided := if bool_decide (provided = "") then hr_Secret r else provided in
  bool_decide (Sum256 secret = Sum256 provided).

(** [io.ReadAll(io.LimitReader(reader, max+1))] sees the reader's failure only
    when the limit is not reached first. *)
Definition readLimitedBody (r : hookRequest) (max : Z) : option string :=
  let read := Stdlib.Strings.String.substring 0 (Z.to_nat (max + 1)) (hr_Body r) in
  if hr_BodyFails r && (len read <? max + 1) then None
  else if max <? len read then None else Some read.

(** What decoding a body as an [Event] gives: unknown fields are errors, and
    so is anything after the value. *)
Inductive decoded := Decoded (ev : Event) | InvalidJSON | MultipleValues.

Section server.
Context (DecodeEvent : string → decoded) (Unmarshal : string → option json).
Context (otherFloat : string → float64 * bool) (machineInt : float64 → Z).

Definition decodeLimitedJSON (r : hookRequest) (max : Z) : result hookStatus Event :=
  match readLimitedBody r max with
  | None => Err TooLarge
  | Some body =>
    match DecodeEvent body with
    | Decoded ev => Ok ev
    | InvalidJSON => Err (BadRequest "invalid JSON")
    | MultipleValues => Err (BadRequest "multiple JSON values")
    end
  end.

(** A response, the ledger after it, and the report given to the callback. *)
Definition outcome : Type := hookStatus * Ledger * option ProviderReport.

Definition handleEvents (cfg : HookServerConfig) (l : Ledger) (clock : Time) (r : hookRequest) : outcome :=
  if negb (validLocalSecret r (hs_Secret cfg)) then (Unauthorized, l, None)
  else match decodeLimitedJSON r (hs_MaxPayload cfg) with
  | Err s => (s, l, None)
  | Ok ev =>
    if ev_Probe ev || bool_decide (ev_SessionID ev = "") ||
       (negb (bool_decide (ev_Provider ev = ProviderCodex)) && negb (bool_decide (ev_Provider ev = ProviderClaude)))
    then (BadRequest "invalid event", l, None)
    else (NoContent, Apply l clock ev, None)
  end.

Definition handleStatusLine (cfg : HookServerConfig) (l : Ledger) (clock : Time) (r : hookRequest) : outcome :=
  if negb (validLocalSecret r (hs_Secret cfg)) then (Unauthorized, l, None)
  else match readLimitedBody r (hs_MaxPayload cfg) with
  | None => (TooLarge, l, None)
  | Some body =>
    match ParseClaudeStatusLine otherFloat machineInt (Unmarshal body) clock with
    | Err _ => (BadRequest "invalid status-line payload", l, None)
    | Ok report => (NoContent, l, if hs_HasStatusLine cfg then Some report else None)
    end
  end.

(** The routes of the mux. *)
Definition ServeHook (cfg : HookServerConfig) (l : Ledger) (clock : Time) (r : hookRequest) : outcome :=
  match muxTarget (hr_Method r) (hr_Path r) with
  | MuxInvalid => (BadRequest "", l, None)
  | MuxRedirect => (MovedPermanently, l, None)
  | MuxSegments segments =>
    if bool_decide (segments = ["v1"; "events"]) then
      if bool_decide (hr_Method r = "POST") then handleEvents cfg l clock r else (MethodNotAllowed, l, None)
    else if bool_decide (segments = ["v1"; "statusline"]) then
      if bool_decide (hr_Method r = "POST") then handleStatusLine cfg l clock r else (MethodNotAllowed, l, None)
    else (NotFound, l, None)
  end.
End server.

(** ** Forwarding *)

Record ForwardConfig := mkForwardConfig { fc_BaseURL : string; fc_Secret : string; fc_SecretFile : string }.

Inductive ForwardError :=
| SecretMissing | SecretUnreadable | SecretEmpty | NotLoopback | EncodeFailed | SendFailed | AgentReturned (status : Z).

#[global] Instance ForwardError_eq_dec : EqDecision ForwardError.
Proof. solve_decision. Defined.

Section forward.
Context (ReadFile : string → option string) (loopbackURL : string → bool) (EncodeEvent : Event → option string).

Definition resolvedSecret (c : ForwardConfig) : result ForwardError string :=
  if bool_decide (fc_Secret c ≠ "") then Ok (fc_Secret c)
  else
    _ ← refuse (bool_decide (fc_SecretFile c = "")) SecretMissing;
    match ReadFile (fc_SecretFile c) with
    | None => Err SecretUnreadable
    | Some payload =>
      let secret := TrimSpace payload in
      _ ← refuse (bool_decide (secret = "")) SecretEmpty; Ok secret
    end.

(** [strings.TrimRight(s, "/")]. *)
Fixpoint TrimRightSlash (s : string) : string :=
  match s with
  | EmptyString => EmptyString
  | String a s => let t := TrimRightSlash s in
                  if bool_decide (a = "/"%char ∧ t = "") then "" else String a t
  end.

Definition baseURL (c : ForwardConfig) : string :=
  let base := TrimRightSlash (fc_BaseURL c) in
  if bool_decide (base = "") then "http://127.0.0.1:47632" else base.

(** The request of [forward], with the base URL it goes to. *)
Definition forwardRequest (c : ForwardConfig) (path payload : string) : result ForwardError (string * hookRequest) :=
  secret ← resolvedSecret c;
  _ ← refuse (negb (loopbackURL (baseURL c))) NotLoopback;
  Ok (baseURL c, mkHookRequest "POST" path ("Bearer " +:+ secret) "" payload false).

(** [forward], given how the request is answered: [None] is a failed call. *)
Definition forward (c : ForwardConfig) (path payload : string) (send : string → hookRequest → option Z) : result ForwardError unit :=
  '(base, request) ← forwardRequest c path payload;
  match send base request with
  | None => Err SendFailed
  | Some status => refuse (negb (status =? 204)) (AgentReturned status)
  end.

Definition ForwardEvent (c : ForwardConfig) (ev : Event) (send : string → hookRequest → option Z) : result ForwardError unit :=
  if ev_Probe ev then Ok tt
  else match EncodeEvent ev with
  | None => Err EncodeFailed
  | Some payload => forward c "/v1/events" payload send
  end.

Definition ForwardStatusLine (c : ForwardConfig) (payload : string) (send : string → hookRequest → option Z) : result ForwardError unit :=
  forward c "/v1/statusline" payload send.

(** [RunStatusLineWrapper]: the error of forwarding is dropped, and the
    previous command, if any, runs on the same input. *)
Record PreviousStatusLine := mkPreviousStatusLine { ps_Type : string; ps_Command : string }.

Definition shellCommand (GOOS command : string) : list string :=
  if bool_decide (GOOS = "windows") then ["cmd.exe"; "/d"; "/s"; "/c"; command] else ["/bin/sh"; "-c"; command].

Definition RunStatusLineWrapper (GOOS : string) (c : ForwardConfig) (input : string) (previous : option PreviousStatusLine)
    (send : string → hookRequest → option Z) (run : list string → string → option string)
    : result ForwardError unit * option (option string) :=
  (ForwardStatusLine c input send,
   match previous with
   | None => None
   | Some p => if bool_decide (TrimSpace (ps_Command p) = "") then None else Some (run (shellCommand GOOS (ps_Command p)) input)
   end).
End forward.
