(* ===== verification/ClaudeFacts.v ===== *)
(** * Facts about the Claude collector

    A login is only reported lost after two logged-out answers in a row, and
    what a sequence of merges holds: the newest observation, completed with
    windows of other observations that were still running. *)

From S2P Require Import Prelude GoTime GoText GoFloat Json Model Codex Claude.

(** ** The confirmation of a logout *)

(** The status command answered, and the answer was not a login. *)
Definition loggedOut (p : Probe) : bool :=
  match ParseClaudeAuthStatus (p_auth p) (p_now p) with
  | Ok auth => negb (bool_decide (pr_AuthState auth = "authenticated"))
  | Err _ => false
  end.

Lemma ParseClaudeAuthStatus_state payload now auth :
  ParseClaudeAuthStatus payload now = Ok auth →
  pr_ObservedAt auth = now ∧ pr_Windows auth = noWindows ∧
  (pr_AuthState auth = "authenticated" ∨ pr_AuthState auth = "unauthenticated").
Proof.
  unfold ParseClaudeAuthStatus. intros H. repeat case_match; simplify_eq; simpl; auto.
Qed.

(** The report of a poll that is not a logged-out answer never says so. *)
Lemma Collect_other n p :
  loggedOut p = false →
  pr_AuthState (Collect n p).1.1 ≠ "unauthenticated" ∧ (Collect n p).2 = 0.
Proof.
  unfold loggedOut, Collect.
  destruct (ParseClaudeAuthStatus (p_auth p) (p_now p)) as [auth|e] eqn:E; simpl.
  - case_bool_decide as Ha; [|done]. simpl. intros _. split; [|done].
    destruct (p_authFailed p); [done|]. unfold collectUsage.
    destruct (p_usageFailed p); [simpl; by rewrite Ha|].
    destruct (p_usage p); simpl; by rewrite Ha.
  - intros _. split; [|done]. by destruct (p_authFailed p).
Qed.

(** A logged-out answer is a report only when the counter reaches two. *)
Lemma Collect_loggedOut n p :
  loggedOut p = true → 0 <= n < max_int64 →
  (Collect n p).2 = n + 1 ∧
  (if decide (1 <= n)
   then pr_AuthState (Collect n p).1.1 = "unauthenticated" ∧ (Collect n p).1.2 = None ∧
        pr_Windows (Collect n p).1.1 = noWindows ∧ pr_ObservedAt (Collect n p).1.1 = p_now p
   else pr_AuthState (Collect n p).1.1 ≠ "unauthenticated" ∧ (Collect n p).1.2 = Some LogoutUnconfirmed ∧
        (Collect n p).1.1 = unavailableReport "claude-auth-status" "auth_logout_unconfirmed" (p_now p)).
Proof.
  unfold loggedOut, Collect, confirmLoggedOut, claudeLogoutConfirmations. intros Hl Hn.
  destruct (ParseClaudeAuthStatus (p_auth p) (p_now p)) as [auth|e] eqn:E; [|done]. rewrite Hl.
  apply ParseClaudeAuthStatus_state in E as (Ho & Hw & Hs).
  rewrite wrap64_id by (unfold in_int64, min_int64, max_int64 in *; lia). simpl. split; [done|].
  assert (Hu : pr_AuthState auth = "unauthenticated").
  { destruct Hs as [Hs| ->]; [|done]. by rewrite Hs in Hl. }
  destruct (decide (1 <= n)) as [Hd|Hd].
  - rewrite (proj2 (Z.leb_le 2 (n + 1))) by lia. done.
  - rewrite (proj2 (Z.leb_gt 2 (n + 1))) by lia. done.
Qed.

Definition loggedOutAt (ps : list Probe) (i : nat) : Prop :=
  ∃ p, ps !! i = Some p ∧ loggedOut p = true.

Lemma collectAll_states n ps i r e :
  0 <= n → n + Z.of_nat (length ps) <= max_int64 →
  collectAll n ps !! i = Some (r, e) →
  pr_AuthState r = "unauthenticated" ↔
  loggedOutAt ps i ∧ match i with O => 1 <= n | S j => loggedOutAt ps j end.
Proof.
  revert n i. induction ps as [|p ps IH]; intros n i Hn Hlen; [done|]. cbn [length] in Hlen.
  simpl. destruct (Collect n p) as [c n'] eqn:E.
  assert (Hp : (Collect n p).1 = c) by (by rewrite E). assert (Hn' : (Collect n p).2 = n') by (by rewrite E).
  destruct (loggedOut p) eqn:L.
  - assert (Hb : 0 <= n < max_int64) by lia.
    destruct (Collect_loggedOut n p L Hb) as [H2 H1]. rewrite Hn' in H2. rewrite Hp in H1. subst n'.
    destruct i as [|i]; simpl.
    + intros [= ->]. simpl in H1. case_decide; destruct H1 as (H1 & _).
      * split; [|done]. intros _. split; [|done]. exists p. auto.
      * split; [done|]. intros [_ ?]. lia.
    + intros Hi. rewrite H2 in Hi. rewrite (IH (n + 1) i) by (done || lia). unfold loggedOutAt. simpl.
      destruct i as [|i]; [|done]. split.
      * intros [Hi' _]. split; [done|]. by exists p.
      * intros [Hi' _]. split; [done|lia].
  - destruct (Collect_other n p L) as [H1 H2]. rewrite Hn' in H2. rewrite Hp in H1. subst n'.
    destruct i as [|i]; simpl.
    + intros [= ->]. split; [done|]. intros [(p' & [= <-] & ?) _]. congruence.
    + intros Hi. rewrite H2 in Hi. rewrite (IH 0 i) by (done || lia). unfold loggedOutAt. simpl.
      destruct i as [|i]; [|done]. split.
      * intros [_ ?]. lia.
      * intros [_ (p' & [= <-] & ?)]. congruence.
Qed.

(** However the Claude CLI behaves, a poll reports a lost login exactly
    when its status command answered "not logged in" and so did the poll just
    before it: one logged-out answer is never enough, and a failed command, an
    undecodable answer or a login in between starts the count again. *)
Theorem Claude_logout_confirmed (ps : list Probe) (i : nat) (r : ProviderReport) (e : option ClaudeError)
    (Hlen : Z.of_nat (length ps) <= max_int64) (Hi : collectAll 0 ps !! i = Some (r, e)) :
  pr_AuthState r = "unauthenticated" ↔
  loggedOutAt ps i ∧ ∃ j, i = S j ∧ loggedOutAt ps j.
Proof.
  rewrite (collectAll_states 0 ps i r e) by (done || lia). destruct i as [|j].
  - split; [lia|]. by intros (_ & j & ? & _).
  - split.
    + intros [H1 H2]. eauto.
    + by intros (H1 & j' & [= <-] & H2).
Qed.

Definition out_probe (now : Time) : Probe :=
  mkProbe (Some (JObject [("loggedIn", JBool false)])) true false None now.
Definition bad_probe (now : Time) : Probe := mkProbe None true false None now.
Definition probe_run : list Probe :=
  [out_probe Second; bad_probe (2 * Second); out_probe (3 * Second); out_probe (4 * Second)].

Lemma Claude_logout_confirmed_witness :
  (∃ r e, collectAll 0 probe_run !! 2%nat = Some (r, e) ∧ pr_AuthState r ≠ "unauthenticated") ∧
  (∃ r e, collectAll 0 probe_run !! 3%nat = Some (r, e) ∧ pr_AuthState r = "unauthenticated").
Proof.
  split.
  - eexists _, _. split; [vm_compute; reflexivity|].
    rewrite (Claude_logout_confirmed probe_run 2); [|by vm_compute|vm_compute; reflexivity].
    intros (_ & j & [= <-] & p & [= <-] & H). by vm_compute in H.
  - eexists _, _. split; [vm_compute; reflexivity|].
    eapply (Claude_logout_confirmed probe_run 3); [by vm_compute|vm_compute; reflexivity|].
    split; [by exists (out_probe (4 * Second))|]. exists 2%nat. split; [done|].
    by exists (out_probe (3 * Second)).
Defined.

(** ** What a sequence of merges holds *)

Definition newerOf (a b : ProviderReport) : ProviderReport :=
  if After (pr_ObservedAt b) (pr_ObservedAt a) then b else a.

(** [w] may be shown in a report observed at [t]: it is a window of [s], which
    either is that observation or was still running at [t]. *)
Definition usable_window (get : ProviderWindows → option LimitWindow) (t : Time)
    (w : LimitWindow) (s : ProviderReport) : Prop :=
  get (pr_Windows s) = Some w ∧ (pr_ObservedAt s = t ∨ reusableWindow (Some w) t = true).

Lemma reusableWindow_earlier w t u :
  reusableWindow (Some w) t = true → u <= t → reusableWindow (Some w) u = true.
Proof.
  simpl. destruct (ResetsAt w) as [r|]; [|done]. rewrite !andb_true_iff, !After_true.
  intros [? ?] ?. split; [done|lia].
Qed.

Lemma carry_Some newer older t w :
  carry newer older t = Some w → newer = Some w ∨ (older = Some w ∧ reusableWindow (Some w) t = true).
Proof.
  unfold carry. destruct (bool_decide (newer = None) && reusableWindow older t) eqn:E; [|auto].
  apply andb_true_iff in E as [_ E]. intros ->. auto.
Qed.

Lemma Merge_fields a b :
  let m := MergeProviderReports a b in
  let n := newerOf a b in
  pr_ObservedAt m = pr_ObservedAt n ∧ pr_Source m = pr_Source n ∧ pr_ErrorCode m = pr_ErrorCode n ∧
  (pr_AuthState n ≠ "" → pr_AuthState m = pr_AuthState n).
Proof.
  unfold MergeProviderReports, newerOf.
  destruct (After (pr_ObservedAt b) (pr_ObservedAt a)); (case_bool_decide; simpl; [by auto|]);
    (split_and!; [done..|]); intros; by rewrite bool_decide_false.
Qed.

Lemma newerOf_max a b :
  pr_ObservedAt (newerOf a b) = Z.max (pr_ObservedAt a) (pr_ObservedAt b).
Proof. unfold newerOf. destruct (After _ _) eqn:E; time_simpl; lia. Qed.

(** A window of a merge is the newer report's, or was still running. *)
Lemma Merge_windows get a b w :
  get = FiveHour ∨ get = SevenDay →
  get (pr_Windows (MergeProviderReports a b)) = Some w →
  let t := pr_ObservedAt (newerOf a b) in
  pr_AuthState (newerOf a b) ≠ "unauthenticated" ∧
  (get (pr_Windows (newerOf a b)) = Some w ∨
   ((get (pr_Windows a) = Some w ∨ get (pr_Windows b) = Some w) ∧ reusableWindow (Some w) t = true)).
Proof.
  intros Hg. unfold MergeProviderReports, newerOf.
  destruct (After (pr_ObservedAt b) (pr_ObservedAt a));
    (case_bool_decide as Hu; [by destruct Hg as [-> | ->]|]);
    (destruct Hg as [-> | ->]; simpl; intros [?|[? ?]]%carry_Some; split; auto).
Qed.

Definition mergeAll (r : ProviderReport) (rs : list ProviderReport) : ProviderReport :=
  foldl MergeProviderReports r rs.

(** What is known of a merge of the reports [all], the newest being [n]. *)
Definition merged (all : list ProviderReport) (m n : ProviderReport) : Prop :=
  n ∈ all ∧ (∀ s, s ∈ all → pr_ObservedAt s <= pr_ObservedAt n) ∧
  pr_ObservedAt m = pr_ObservedAt n ∧ pr_Source m = pr_Source n ∧ pr_ErrorCode m = pr_ErrorCode n ∧
  (pr_AuthState n ≠ "" → pr_AuthState m = pr_AuthState n) ∧
  (∀ get w, get = FiveHour ∨ get = SevenDay → get (pr_Windows m) = Some w →
     ∃ s, s ∈ all ∧ usable_window get (pr_ObservedAt n) w s).

Lemma merged_step all m n b :
  merged all m n → merged (all ++ [b]) (MergeProviderReports m b) (newerOf n b).
Proof.
  intros (Hn & Hmax & Ho & Hs & He & Ha & Hw).
  assert (Eo : newerOf m b = if After (pr_ObservedAt b) (pr_ObservedAt m) then b else m) by done.
  destruct (Merge_fields m b) as (M1 & M2 & M3 & M4).
  assert (Ht : pr_ObservedAt (newerOf m b) = pr_ObservedAt (newerOf n b)) by (by rewrite !newerOf_max, Ho).
  assert (Hmx : pr_ObservedAt (newerOf n b) = Z.max (pr_ObservedAt n) (pr_ObservedAt b)) by apply newerOf_max.
  assert (Hcase : (newerOf n b = b ∧ newerOf m b = b) ∨ (newerOf n b = n ∧ newerOf m b = m)).
  { unfold newerOf. rewrite Ho. destruct (After (pr_ObservedAt b) (pr_ObservedAt n)); [by left|by right]. }
  unfold merged. split_and!.
  - destruct Hcase as [[-> _]|[-> _]]; set_solver.
  - intros s [Hs'|Hs']%elem_of_app; [specialize (Hmax s Hs'); lia|].
    apply list_elem_of_singleton in Hs' as ->. lia.
  - by rewrite M1.
  - rewrite M2. by destruct Hcase as [[-> ->]|[-> ->]].
  - rewrite M3. by destruct Hcase as [[-> ->]|[-> ->]].
  - intros Hne. destruct Hcase as [[H1 H2]|[H1 H2]]; rewrite H1 in Hne |- *; rewrite H2 in M4; [auto|].
    specialize (Ha Hne). rewrite M4; [done|]. by rewrite Ha.
  - intros get w Hg H. destruct (Merge_windows get m b w Hg H) as (_ & Hcw). rewrite Ht in Hcw.
    assert (Hold : get (pr_Windows m) = Some w → pr_ObservedAt (newerOf n b) = pr_ObservedAt n ∨
                   reusableWindow (Some w) (pr_ObservedAt (newerOf n b)) = true →
                   ∃ s, s ∈ all ++ [b] ∧ usable_window get (pr_ObservedAt (newerOf n b)) w s).
    { intros Hm Ht'. destruct (Hw get w Hg Hm) as (s & Hin & Hget & Hu). exists s.
      split; [set_solver|]. split; [done|]. destruct Ht' as [Ht'|?]; [|auto]. by rewrite Ht'. }
    assert (Hnew : get (pr_Windows b) = Some w → pr_ObservedAt (newerOf n b) = pr_ObservedAt b ∨
                   reusableWindow (Some w) (pr_ObservedAt (newerOf n b)) = true →
                   ∃ s, s ∈ all ++ [b] ∧ usable_window get (pr_ObservedAt (newerOf n b)) w s).
    { intros Hb Ht'. exists b. split; [set_solver|]. split; [done|]. destruct Ht'; auto. }
    destruct Hcw as [Hcw|[[Hcw|Hcw] Hr]]; [|eauto..].
    destruct Hcase as [[H1 H2]|[H1 H2]]; rewrite H2 in Hcw.
    + apply Hnew; [done|]. left. by rewrite H1.
    + apply Hold; [done|]. left. by rewrite H1.
Qed.

Lemma merged_all r rs : ∃ n, merged (r :: rs) (mergeAll r rs) n.
Proof.
  induction rs as [|b rs [n IH]] using rev_ind.
  - exists r. unfold merged. split_and!; try done; [set_solver| |].
    + intros s Hs. apply list_elem_of_singleton in Hs as ->. done.
    + intros get w Hg Hw. exists r. split; [set_solver|]. split; [done|by left].
  - exists (newerOf n b). unfold mergeAll. rewrite foldl_app. apply (merged_step (r :: rs)). done.
Qed.

(** In whatever order the polls and status lines of a provider arrive,
    the merged report carries the time, source and error code of a newest one
    of them, and its login state unless that is empty; every window it shows is a window of one of the
    arrived reports that was observed at that same time or had not been reset
    by then.  So no window is invented, and none outlives its reset. *)
Theorem mergeAll_provenance (r : ProviderReport) (rs : list ProviderReport) :
  ∃ n, n ∈ r :: rs ∧ (∀ s, s ∈ r :: rs → pr_ObservedAt s <= pr_ObservedAt n) ∧
    pr_ObservedAt (mergeAll r rs) = pr_ObservedAt n ∧
    pr_Source (mergeAll r rs) = pr_Source n ∧ pr_ErrorCode (mergeAll r rs) = pr_ErrorCode n ∧
    (pr_AuthState n ≠ "" → pr_AuthState (mergeAll r rs) = pr_AuthState n) ∧
    ∀ get w, get = FiveHour ∨ get = SevenDay → get (pr_Windows (mergeAll r rs)) = Some w →
      ∃ s, s ∈ r :: rs ∧ usable_window get (pr_ObservedAt n) w s.
Proof. apply merged_all. Qed.

Lemma Merge_unauthenticated a b :
  pr_AuthState (newerOf a b) = "unauthenticated" → pr_Windows (MergeProviderReports a b) = noWindows.
Proof.
  unfold MergeProviderReports, newerOf. destruct (After _ _); intros H; by rewrite bool_decide_true.
Qed.

(** Merging two reports of different instants does not depend on which
    arrived first; it shows no window when the newer one says the login is
    gone, it always shows the newer one's windows otherwise, and a window the
    newer one omits is kept exactly while the older one's is still running. *)
Theorem MergeProviderReports_laws (a b : ProviderReport) (Hab : pr_ObservedAt a < pr_ObservedAt b) :
  MergeProviderReports a b = MergeProviderReports b a ∧
  (pr_AuthState b = "unauthenticated" → pr_Windows (MergeProviderReports a b) = noWindows) ∧
  (pr_AuthState b ≠ "unauthenticated" → ∀ get w, get = FiveHour ∨ get = SevenDay →
     (get (pr_Windows (MergeProviderReports a b)) = Some w ↔
      get (pr_Windows b) = Some w ∨
      (get (pr_Windows b) = None ∧ get (pr_Windows a) = Some w ∧
       match ResetsAt w with
       | Some t => t ≠ zeroTime ∧ pr_ObservedAt b < t
       | None => f_eq (UsedPercent w) f_zero = true ∧ f_eq (RemainingPercent w) f_hundred = true
       end))).
Proof.
  assert (A1 : After (pr_ObservedAt b) (pr_ObservedAt a) = true) by (apply After_true; lia).
  assert (A2 : After (pr_ObservedAt a) (pr_ObservedAt b) = false) by (apply After_false; lia).
  split_and!.
  - unfold MergeProviderReports. by rewrite A1, A2.
  - intros Hu. apply Merge_unauthenticated. unfold newerOf. by rewrite A1.
  - intros Hu get w Hg. unfold MergeProviderReports. rewrite A1, bool_decide_false by done.
    assert (Hr : ∀ o, reusableWindow o (pr_ObservedAt b) = true ∧ o = Some w ↔
      o = Some w ∧ match ResetsAt w with
       | Some t => t ≠ zeroTime ∧ pr_ObservedAt b < t
       | None => f_eq (UsedPercent w) f_zero = true ∧ f_eq (RemainingPercent w) f_hundred = true
       end).
    { intros o. split; intros [H1 H2]; simplify_eq; simpl in *; (split; [done|]) || (split; [|done]);
        destruct (ResetsAt w); rewrite ?andb_true_iff, ?negb_true_iff, ?IsZero_false, ?After_true in *; done. }
    assert (Hc : ∀ newer older, carry newer older (pr_ObservedAt b) = Some w ↔
      newer = Some w ∨ (newer = None ∧ reusableWindow older (pr_ObservedAt b) = true ∧ older = Some w)).
    { intros newer older. unfold carry. destruct newer as [v|]; simpl; [naive_solver|].
      destruct (reusableWindow older (pr_ObservedAt b)); naive_solver. }
    destruct Hg as [-> | ->]; simpl; by rewrite Hc, Hr.
Qed.

Definition merge_older : ProviderReport :=
  mkProviderReport Second "authenticated" "max" "claude-usage"
    (mkProviderWindows (Some (mkLimitWindow f_zero f_hundred (Some (5 * Second))))
                       (Some (mkLimitWindow f_zero f_hundred (Some (2 * Second))))) "".
Definition merge_newer : ProviderReport :=
  mkProviderReport (3 * Second) "authenticated" "" "claude-statusline" noWindows "".

Lemma MergeProviderReports_laws_witness :
  FiveHour (pr_Windows (MergeProviderReports merge_newer merge_older)) =
    Some (mkLimitWindow f_zero f_hundred (Some (5 * Second))) ∧
  SevenDay (pr_Windows (MergeProviderReports merge_newer merge_older)) = None.
Proof.
  destruct (MergeProviderReports_laws merge_older merge_newer) as (Hc & _ & Hw); [done|].
  rewrite <-Hc. split.
  - apply Hw; [done|by left|]. right. split_and!; done.
  - reflexivity.
Defined.
