(* ===== verification/Agent.v ===== *)
(** * internal/agent: configuration, collection and reporting

    [agent.go].  [a.mu] makes the handling of one collection result, of one
    status line and of one snapshot atomic, so a concurrent execution of the
    agent is a sequence of them.  The clocks of the agent and of its ledger
    are arguments.  What [url.Parse] makes of the server URL and which textual
    addresses [net.ParseIP] calls loopback are parameters. *)

From S2P Require Import Prelude GoTime GoText GoFloat Model HookEvent Ledger Claude.

Definition DefaultReportInterval : Duration := 15 * Second.
Definition DefaultCollectInterval : Duration := 60 * Second.

(** [^[A-Za-z0-9._-]{1,64}$] and [^[A-Za-z0-9][A-Za-z0-9._ -]{0,31}$]. *)
Definition alnum (r : Z) : bool := is_upper r || is_lower r || is_digit r.
Definition agentIDPattern (s : string) : bool :=
  let rs := runes s in
  (1 <=? length rs)%nat && (length rs <=? 64)%nat &&
  forallb (λ r, alnum r || (r =? 46) || (r =? 95) || (r =? 45)) rs.
Definition planOverridePattern (s : string) : bool :=
  match runes s with
  | [] => false
  | r :: rs =>
    alnum r && (length rs <=? 31)%nat &&
    forallb (λ r, alnum r || (r =? 46) || (r =? 95) || (r =? 32) || (r =? 45)) rs
  end.

(** The parts of a parsed URL that [New] looks at. *)
Record URL := mkURL { Scheme : string; HasUser : bool; Host : string; Hostname : string }.

(** [http.Client]: its timeout, and whether it follows redirects. *)
Record Client := mkClient { Timeout : Duration; FollowsRedirects : bool }.

(** The configuration; a collector that is nil, a sink that is nil and a
    status callback that is nil are [false]. *)
Record Config := mkConfig {
  AgentID : string;
  ServerURL : string;
  Token : string;
  cf_Codex : bool;
  cf_Claude : bool;
  cf_Ledger : option Ledger;
  PlanOverrides : gmap ProviderName string;
  HookSecret : string;
  ReportInterval : Duration;
  CollectInterval : Duration;
  SequentialCollection : bool;
  MaxBackoff : Duration;
  HTTPClient : option Client;
  ReportSink : bool;
  ProviderStatus : bool;
  AllowInsecureHTTP : bool
}.

Record Agent := mkAgent {
  cfg : Config;
  ledger : Ledger;
  providers : gmap ProviderName ProviderReport
}.

Inductive ConfigError :=
| BadAgentID | TokenRequired | BadServerURL | URLCredentials | NotHTTPS
| BadOverrideProvider (p : ProviderName) | BadOverride (p : ProviderName).

#[global] Instance ConfigError_eq_dec : EqDecision ConfigError.
Proof. solve_decision. Defined.

(** ** New *)

Section configuration.
Context (urlParse : string → option URL) (ParseIP_IsLoopback : string → bool).

Definition isLoopbackHost (host : string) : bool :=
  EqualFold host "localhost" || ParseIP_IsLoopback host.

(** The checks made when reports go over HTTP. *)
Definition checkServer (c : Config) : result ConfigError unit :=
  _ ← refuse (bool_decide (Token c = "")) TokenRequired;
  match urlParse (ServerURL c) with
  | None => Err BadServerURL
  | Some parsed =>
    _ ← refuse (bool_decide (Host parsed = "")) BadServerURL;
    _ ← refuse (HasUser parsed) URLCredentials;
    refuse (negb (bool_decide (Scheme parsed = "https")) &&
            negb (AllowInsecureHTTP c && bool_decide (Scheme parsed = "http") &&
                  isLoopbackHost (Hostname parsed))) NotHTTPS
  end.

(** The body of the loop over [cfg.PlanOverrides]. *)
Definition normalizeOverride (kv : ProviderName * string) (m : gmap ProviderName string)
    : result ConfigError (gmap ProviderName string) :=
  let '(provider, rawPlan) := kv in
  _ ← refuse (negb (ValidProvider provider)) (BadOverrideProvider provider);
  let plan := TrimSpace rawPlan in
  if bool_decide (plan = "") then Ok m
  else
    _ ← refuse (negb (planOverridePattern plan)) (BadOverride provider);
    Ok (<[provider := plan]> m).

Definition orDuration (d dflt : Duration) : Duration := if d <=? 0 then dflt else d.

(** [New]; [order] is the order in which the overrides are iterated. *)
Definition New (c : Config) (order : list (ProviderName * string)) : result ConfigError Agent :=
  _ ← refuse (negb (agentIDPattern (AgentID c))) BadAgentID;
  _ ← (if ReportSink c then Ok tt else checkServer c);
  let l := default (NewLedger DefaultTaskTTL) (cf_Ledger c) in
  let client := if ReportSink c then HTTPClient c
    else Some (mkClient (match HTTPClient c with Some h => Timeout h | None => 10 * Second end) false) in
  overrides ← iterM normalizeOverride order ∅;
  Ok (mkAgent
    (mkConfig (AgentID c) (ServerURL c) (Token c) (cf_Codex c) (cf_Claude c) (Some l) overrides
       (HookSecret c) (orDuration (ReportInterval c) DefaultReportInterval)
       (orDuration (CollectInterval c) DefaultCollectInterval) (SequentialCollection c)
       (orDuration (MaxBackoff c) (2 * Minute)) client (ReportSink c) (ProviderStatus c) (AllowInsecureHTTP c))
    l ∅).
End configuration.

(** ** Collection *)

(** A result of a collector; [cr_failed] is a non-nil error. *)
Record collectionResult := mkCollectionResult {
  cr_provider : ProviderName; cr_report : ProviderReport; cr_failed : bool }.

Definition setProvider (a : Agent) (p : ProviderName) (r : ProviderReport) : Agent :=
  mkAgent (cfg a) (ledger a) (<[p := r]> (providers a)).

Definition hasWindows (r : ProviderReport) : bool :=
  negb (bool_decide (FiveHour (pr_Windows r) = None)) || negb (bool_decide (SevenDay (pr_Windows r) = None)).

(** The report a result leaves in the table. *)
Definition storedReport (previous : option ProviderReport) (item : collectionResult) : ProviderReport :=
  if cr_failed item then
    match previous with
    | Some previous =>
      if hasWindows previous then
        withErrorCode previous
          (if bool_decide (pr_ErrorCode (cr_report item) = "") then "collection_failed"
           else pr_ErrorCode (cr_report item))
      else cr_report item
    | None => cr_report item
    end
  else
    match previous with
    | Some previous =>
      if bool_decide (cr_provider item = ProviderClaude)
      then MergeProviderReports previous (cr_report item)
      else cr_report item
    | None => cr_report item
    end.

(** A call of [ProviderStatus], when it is set. *)
Definition notify (a : Agent) (p : ProviderName) (stored : ProviderReport) : list (ProviderName * ProviderReport) :=
  if ProviderStatus (cfg a) then [(p, stored)] else [].

Definition storeCollectionResult (a : Agent) (item : collectionResult)
    : Agent * list (ProviderName * ProviderReport) :=
  let stored := storedReport (providers a !! cr_provider item) item in
  (setProvider a (cr_provider item) stored, notify a (cr_provider item) stored).

Definition IngestStatusLine (a : Agent) (report : ProviderReport)
    : Agent * list (ProviderName * ProviderReport) :=
  let stored := match providers a !! ProviderClaude with
    | Some previous => MergeProviderReports previous report
    | None => report
    end in
  (setProvider a ProviderClaude stored, notify a ProviderClaude stored).

Definition configuredCollectors (c : Config) : list ProviderName :=
  (if cf_Codex c then [ProviderCodex] else []) ++ (if cf_Claude c then [ProviderClaude] else []).

Definition storeAll (a : Agent) (items : list collectionResult) : Agent * list (ProviderName * ProviderReport) :=
  foldl (λ s item, let '(a, ns) := storeCollectionResult s.1 item in (a, s.2 ++ ns)) (a, []) items.

(** What [CollectOnce] does to the collectors. *)
Inductive collectCall := Collects (p : ProviderName) | Releases (p : ProviderName).

(** [CollectOnce]: [answer] is what each collector returns, [releases] whether
    it can release its idle resources, and [arrival] the order in which the
    goroutines deliver in the concurrent mode. *)
Definition CollectOnce (a : Agent) (answer : ProviderName → ProviderReport * bool)
    (releases : ProviderName → bool) (arrival : list ProviderName → list ProviderName)
    : Agent * list (ProviderName * ProviderReport) * list collectCall :=
  let item p := mkCollectionResult p (answer p).1 (answer p).2 in
  let collectors := configuredCollectors (cfg a) in
  if SequentialCollection (cfg a) then
    (storeAll a (item <$> collectors),
     collectors ≫= λ p, Collects p :: (if releases p then [Releases p] else []))
  else
    (storeAll a (item <$> arrival collectors), Collects <$> collectors).

(** ** Reporting *)

(** [SnapshotReport], at the agent's clock and the ledger's. *)
Definition overridden (c : Config) (p : ProviderName) (r : ProviderReport) : ProviderReport :=
  match PlanOverrides c !! p with
  | Some plan =>
    if bool_decide (plan = "") then r
    else mkProviderReport (pr_ObservedAt r) (pr_AuthState r) plan (pr_Source r) (pr_Windows r) (pr_ErrorCode r)
  | None => r
  end.

Definition SnapshotReport (a : Agent) (now ledgerNow : Time) : AgentReport * Agent :=
  let '(ts, l) := Snapshot (ledger a) ledgerNow in
  (mkAgentReport SchemaVersion (AgentID (cfg a)) now
     (Some (map_imap (λ p r, Some (overridden (cfg a) p r)) (providers a))) (Some ts),
   mkAgent (cfg a) l (providers a)).

Definition successfulReportDelay (interval elapsed : Duration) : Duration :=
  if interval <=? elapsed then 0 else wrap64 (interval - elapsed).

(** The report timer's branch of the loop: the delay the timer is reset to and
    the next backoff.  An attempt fails, or succeeds after [elapsed]. *)
Definition reportAttempt (c : Config) (backoff : Duration) (attempt : option Duration) : Duration * Duration :=
  match attempt with
  | None =>
    let doubled := wrap64 (backoff * 2) in
    (backoff, if MaxBackoff c <? doubled then MaxBackoff c else doubled)
  | Some elapsed => (successfulReportDelay (ReportInterval c) elapsed, ReportInterval c)
  end.

(** The delays chosen over a run of attempts, from the given backoff. *)
Fixpoint reportDelays (c : Config) (backoff : Duration) (attempts : list (option Duration)) : list Duration :=
  match attempts with
  | [] => []
  | attempt :: attempts =>
    let '(delay, backoff) := reportAttempt c backoff attempt in
    delay :: reportDelays c backoff attempts
  end.

(** ** The collection worker

    The worker goroutine, and the channel of capacity one between it and the
    scheduler. *)
Record worker := mkWorker { requested : bool; collecting : bool }.

Inductive workerEvent := Request | Begin | Finish.

#[global] Instance workerEvent_eq_dec : EqDecision workerEvent.
Proof. solve_decision. Defined.

(** [requestCollection] never blocks; the worker takes a request when it is
    idle. *)
Definition workerStep (w : worker) (e : workerEvent) : option worker :=
  match e with
  | Request => Some (mkWorker true (collecting w))
  | Begin => if requested w && negb (collecting w) then Some (mkWorker false true) else None
  | Finish => if collecting w then Some (mkWorker (requested w) false) else None
  end.

(** [run]'s start, and a run of the worker. *)
Definition initialWorker (requestInitialCollection : bool) : worker :=
  mkWorker requestInitialCollection false.

Inductive workerRun : worker → list workerEvent → worker → Prop :=
| run_nil w : workerRun w [] w
| run_cons w e w1 es w2 : workerStep w e = Some w1 → workerRun w1 es w2 → workerRun w (e :: es) w2.
