(* ===== verification/AgentFacts.v ===== *)
(** * Facts about the agent

    The identifiers it accepts are the server's; what polling does to its
    table of reports; the collection worker; and the schedule of its
    reports. *)

From S2P Require Import Prelude GoTime GoText GoFloat Json Model HookEvent Ledger Validate Codex Claude ClaudeFacts Agent.

(** ** Identifiers *)

Lemma alnum_ascii : ascii_only alnum.
Proof. intros r. unfold alnum, is_upper, is_lower, is_digit, within. lia. Qed.

Lemma runes_length p s :
  ascii_only p → forallb p (runes s) = true → len s = Z.of_nat (length (runes s)).
Proof.
  intros Hp Hs. rewrite (runes_ascii p s) by done. rewrite length_fmap. unfold len. f_equal.
  clear. induction s as [|a s IH]; [done|]. simpl. by rewrite <-IH.
Qed.

Lemma forallb_ext_eq {A} (p q : A → bool) l : (∀ x, p x = q x) → forallb p l = forallb q l.
Proof. intros H. induction l as [|x l IH]; [done|]. simpl. by rewrite H, IH. Qed.

(** The agent's regular expression accepts the identifiers the server does. *)
Lemma agentIDPattern_valid s : agentIDPattern s = validAgentID s.
Proof.
  unfold agentIDPattern, validAgentID.
  rewrite (forallb_ext_eq _ agentIDRune)
    by (intros r; unfold alnum, agentIDRune; by destruct (is_lower r), (is_upper r)).
  destruct (forallb agentIDRune (runes s)) eqn:E.
  - assert (Hl : len s = Z.of_nat (length (runes s))).
    { eapply runes_length; [|exact E]. intros r. unfold agentIDRune, is_upper, is_lower, is_digit, within. lia. }
    rewrite andb_true_r, Hl.
    destruct (Nat.leb_spec 1 (length (runes s))), (Nat.leb_spec (length (runes s)) 64),
      (Z.eqb_spec (Z.of_nat (length (runes s))) 0), (Z.ltb_spec 64 (Z.of_nat (length (runes s))));
      simpl; try done; lia.
  - by rewrite andb_false_r; destruct ((len s =? 0) || (64 <? len s)).
Qed.

Lemma planOverridePattern_len s : planOverridePattern s = true → len s <= 32.
Proof.
  unfold planOverridePattern. destruct (runes s) as [|r rs] eqn:E; [done|].
  rewrite !andb_true_iff, Nat.leb_le. intros [[Hr Hl] Hrs].
  rewrite (runes_length (λ r, alnum r || (r =? 46) || (r =? 95) || (r =? 32) || (r =? 45))).
  - rewrite E. cbn [length]. lia.
  - intros x. pose proof (alnum_ascii x). destruct (alnum x); simpl; lia.
  - rewrite E. simpl. by rewrite Hr.
Qed.

(** What [New] establishes. *)
Lemma normalizeOverrides_ok order m m' :
  map_Forall (λ _ plan, len plan <= 32) m → iterM normalizeOverride order m = Ok m' →
  map_Forall (λ _ plan, len plan <= 32) m'.
Proof.
  revert m. induction order as [|[p raw] order IH]; intros m Hm; simpl; [by intros [= <-]|].
  intros (m1 & H1 & H2)%bind_Ok. apply (IH m1); [|done]. clear H2 IH.
  apply refuse_bind_Ok in H1 as [_ H1]. case_bool_decide; [by injection H1 as <-|].
  apply refuse_bind_Ok in H1 as [Hp H1]. apply negb_false_iff, planOverridePattern_len in Hp.
  injection H1 as <-. by apply map_Forall_insert_2.
Qed.

Lemma New_ok urlParse loopback c order a :
  New urlParse loopback c order = Ok a →
  validAgentID (AgentID (cfg a)) = true ∧ providers a = ∅ ∧
  ledger a = default (NewLedger DefaultTaskTTL) (cf_Ledger c) ∧
  0 < ReportInterval (cfg a) ∧ 0 < MaxBackoff (cfg a) ∧
  map_Forall (λ _ plan, len plan <= 32) (PlanOverrides (cfg a)).
Proof.
  unfold New. intros (Hid & H)%refuse_bind_Ok. apply bind_Ok in H as (_ & _ & H).
  apply bind_Ok in H as (m & Hm & [= <-]). simpl.
  apply negb_false_iff in Hid. rewrite agentIDPattern_valid in Hid.
  apply normalizeOverrides_ok in Hm; [|apply map_Forall_empty].
  assert (Hd : ∀ d e, 0 < e → 0 < orDuration d e)
    by (intros d e ?; unfold orDuration; destruct (Z.leb_spec d 0); lia).
  split_and!; try done; by apply Hd.
Qed.

(** ** Collection *)

Lemma storeAll_providers a items :
  (storeAll a items).1 =
  foldl (λ a item, setProvider a (cr_provider item) (storedReport (providers a !! cr_provider item) item)) a items.
Proof.
  unfold storeAll. generalize (@nil (ProviderName * ProviderReport)). revert a.
  induction items as [|item items IH]; intros a ns; [done|]. simpl. by rewrite IH.
Qed.

Lemma setProvider_comm a p r q s : p ≠ q → setProvider (setProvider a p r) q s = setProvider (setProvider a q s) p r.
Proof. intros H. unfold setProvider. simpl. by rewrite insert_insert_ne. Qed.

(** Results of different providers can be stored in any order. *)
Lemma storeAll_perm a items items' :
  items ≡ₚ items' → NoDup (cr_provider <$> items) → (storeAll a items).1 = (storeAll a items').1.
Proof.
  rewrite !storeAll_providers. intros Hp. revert a.
  induction Hp as [|x l l' Hp IH|x y l|l1 l2 l3 Hp1 IH1 Hp2 IH2]; intros a Hn; simpl in *.
  - done.
  - apply NoDup_cons in Hn as [_ Hn]. by apply IH.
  - apply NoDup_cons in Hn as [Hxy _]. assert (cr_provider x ≠ cr_provider y) by set_solver.
    f_equal. rewrite setProvider_comm by done. simpl.
    rewrite !lookup_insert_ne by done. done.
  - rewrite IH1 by done. apply IH2. by rewrite <-Hp1.
Qed.

Lemma configuredCollectors_NoDup c : NoDup (configuredCollectors c).
Proof. unfold configuredCollectors. destruct (cf_Codex c), (cf_Claude c); simpl; by repeat constructor; set_solver. Qed.

Definition itemOf (answer : ProviderName → ProviderReport * bool) (p : ProviderName) : collectionResult :=
  mkCollectionResult p (answer p).1 (answer p).2.

(** What a round leaves depends on neither its mode nor its order. *)
Lemma CollectOnce_items a answer releases arrival :
  (∀ l, arrival l ≡ₚ l) →
  (CollectOnce a answer releases arrival).1.1 = (storeAll a (itemOf answer <$> configuredCollectors (cfg a))).1.
Proof.
  intros Ha. unfold CollectOnce. destruct (SequentialCollection (cfg a)); [done|].
  apply storeAll_perm; [by rewrite Ha|]. rewrite <-list_fmap_compose.
  unfold compose, itemOf. simpl. rewrite list_fmap_id, Ha. apply configuredCollectors_NoDup.
Qed.

(** One round of collection leaves the same table of reports whether the
    collectors are polled one after the other or concurrently, and in whatever
    order the concurrent ones deliver. *)
Theorem CollectOnce_any_order (a b : Agent) (answer : ProviderName → ProviderReport * bool)
    (releases : ProviderName → bool) (arrival arrival' : list ProviderName → list ProviderName)
    (Harr : ∀ l, arrival l ≡ₚ l) (Harr' : ∀ l, arrival' l ≡ₚ l)
    (Hc : configuredCollectors (cfg a) = configuredCollectors (cfg b)) (Hp : providers a = providers b) :
  providers (CollectOnce a answer releases arrival).1.1 =
  providers (CollectOnce b answer releases arrival').1.1.
Proof.
  rewrite !CollectOnce_items by done. rewrite !storeAll_providers, Hc.
  generalize (itemOf answer <$> configuredCollectors (cfg b)). intros items. clear -Hp. revert a b Hp.
  induction items as [|x l IH]; intros a' b' Hp; [done|].
  simpl. apply IH. simpl. by rewrite Hp.
Qed.

Definition demo_config (sequential : bool) : Config :=
  mkConfig "desk" "" "" true true None ∅ "" (15 * Second) (60 * Second) sequential (2 * Minute) None true false false.
Definition demo_agent (sequential : bool) : Agent := mkAgent (demo_config sequential) (NewLedger 0) ∅.
Definition demo_answer (p : ProviderName) : ProviderReport * bool :=
  (mkProviderReport Second "authenticated" p "cli" noWindows "", false).

Lemma CollectOnce_any_order_witness :
  (pr_Plan <$> providers (CollectOnce (demo_agent true) demo_answer (λ _, true) id).1.1 !! ProviderCodex) = Some "codex" ∧
  providers (CollectOnce (demo_agent true) demo_answer (λ _, true) id).1.1 =
  providers (CollectOnce (demo_agent false) demo_answer (λ _, true) (@rev _)).1.1.
Proof.
  split; [vm_compute; reflexivity|].
  apply CollectOnce_any_order; [done| |done|done].
  intros l. symmetry. apply Permutation_rev.
Defined.

(** A failed collection changes nothing but the error code of a report that
    has windows. *)
Lemma storedReport_failed previous item :
  cr_failed item = true → hasWindows previous = true →
  storedReport (Some previous) item =
  withErrorCode previous (if bool_decide (pr_ErrorCode (cr_report item) = "") then "collection_failed"
                          else pr_ErrorCode (cr_report item)).
Proof. unfold storedReport. by intros -> ->. Qed.

(** One poll of the Claude collector, stored in the agent. *)
Definition pollClaude (a : Agent) (n : Z) (p : Probe) : Agent * Z :=
  let '((r, e), n) := Claude.Collect n p in
  ((storeCollectionResult a (mkCollectionResult ProviderClaude r (bool_decide (e ≠ None)))).1, n).

(** C17. A single logged-out answer of the Claude CLI leaves the agent's quota
    windows, login state and plan as they were, with an error code to say so;
    a second one in a row marks the login as lost and drops the windows. *)
Theorem Claude_logout_end_to_end (a : Agent) (prev : ProviderReport) (p1 p2 : Probe)
    (Hprev : providers a !! ProviderClaude = Some prev) (Hw : hasWindows prev = true)
    (H1 : loggedOut p1 = true) (H2 : loggedOut p2 = true) (Ht : pr_ObservedAt prev < p_now p2) :
  let '(a1, n1) := pollClaude a 0 p1 in
  let '(a2, n2) := pollClaude a1 n1 p2 in
  providers a1 !! ProviderClaude = Some (withErrorCode prev "auth_logout_unconfirmed") ∧
  (∃ r, providers a2 !! ProviderClaude = Some r ∧
        pr_AuthState r = "unauthenticated" ∧ pr_Windows r = noWindows) ∧
  (∀ p, p ≠ ProviderClaude → providers a2 !! p = providers a !! p).
Proof.
  unfold pollClaude.
  destruct (Collect_loggedOut 0 p1 H1) as [E1 C1]; [done|].
  destruct (Claude.Collect 0 p1) as [[r1 e1] n1] eqn:P1.
  simpl in E1. subst n1. rewrite decide_False in C1 by lia. destruct C1 as (_ & He1 & Hr1).
  destruct (Collect_loggedOut 1 p2 H2) as [E2 C2]; [done|].
  simpl in He1, Hr1. subst e1 r1. simpl.
  destruct (Claude.Collect 1 p2) as [[r2 e2] n2] eqn:P2.
  simpl in E2. subst n2. rewrite decide_True in C2 by lia. destruct C2 as (Ha2 & He2 & Hw2 & Ho2).
  simpl in He2, Ha2, Hw2, Ho2. subst e2. simpl.
  rewrite Hprev, storedReport_failed by done. rewrite lookup_insert_eq. simpl.
  change (0 + 1) with 1. rewrite P2. simpl. split; [done|]. split.
  - rewrite lookup_insert_eq. eexists. split; [done|]. unfold storedReport. simpl.
    set (prev' := withErrorCode prev "auth_logout_unconfirmed").
    assert (Hn : newerOf prev' r2 = r2).
    { unfold newerOf. by rewrite (proj2 (After_true (pr_ObservedAt r2) (pr_ObservedAt prev'))) by (simpl; lia). }
    split; [|apply Merge_unauthenticated; by rewrite Hn].
    destruct (Merge_fields prev' r2) as (_ & _ & _ & Hm). rewrite Hn, Ha2 in Hm. by apply Hm.
  - intros p Hp. by rewrite !lookup_insert_ne.
Qed.

Definition logged_in_agent : Agent :=
  mkAgent (demo_config true) (NewLedger 0)
    {[ ProviderClaude := mkProviderReport Second "authenticated" "max" "claude-usage"
         (mkProviderWindows (Some (mkLimitWindow f_zero f_hundred None)) None) "" ]}.

Lemma Claude_logout_end_to_end_witness :
  let '(a1, _) := pollClaude logged_in_agent 0 (out_probe (2 * Second)) in
  (pr_AuthState <$> providers a1 !! ProviderClaude) = Some "authenticated".
Proof.
  assert (H := Claude_logout_end_to_end logged_in_agent _ (out_probe (2 * Second)) (out_probe (3 * Second))
    (lookup_insert_eq _ _ _) eq_refl eq_refl eq_refl eq_refl).
  destruct (pollClaude logged_in_agent 0 (out_probe (2 * Second))) as [a1 n1].
  destruct (pollClaude a1 n1 (out_probe (3 * Second))) as [a2 n2].
  destruct H as (-> & _). reflexivity.
Defined.

(** ** The schedule of reports *)

(** The delays a reader expects: [k] failures in a row wait the report interval
    doubled [k] times, up to the maximum; a success waits for the rest of the
    interval. *)
Fixpoint expectedDelays (c : Config) (k : Z) (attempts : list (option Duration)) : list Duration :=
  match attempts with
  | [] => []
  | None :: attempts =>
    (if k =? 0 then ReportInterval c else Z.min (ReportInterval c * 2 ^ k) (MaxBackoff c))
    :: expectedDelays c (k + 1) attempts
  | Some elapsed :: attempts => Z.max 0 (ReportInterval c - elapsed) :: expectedDelays c 0 attempts
  end.

Definition backoffAt (c : Config) (k : Z) : Duration :=
  if k =? 0 then ReportInterval c else Z.min (ReportInterval c * 2 ^ k) (MaxBackoff c).

Lemma reportDelays_from c k attempts :
  0 < ReportInterval c < 2 ^ 62 → 0 < MaxBackoff c < 2 ^ 62 → 0 <= k →
  Forall (λ o, ∀ e, o = Some e → 0 <= e) attempts →
  reportDelays c (backoffAt c k) attempts = expectedDelays c k attempts ∧
  Forall (λ d, 0 <= d <= Z.max (ReportInterval c) (MaxBackoff c)) (reportDelays c (backoffAt c k) attempts).
Proof.
  intros HR HM. revert k. induction attempts as [|[e|] attempts IH]; intros k Hk Ha; simpl; [done|..];
    apply Forall_cons in Ha as [He Ha].
  - destruct (IH 0) as [IH1 IH2]; [done..|]. specialize (He e eq_refl).
    change (backoffAt c 0) with (ReportInterval c) in *. rewrite IH1 in *. unfold successfulReportDelay.
    assert (Hd : (if ReportInterval c <=? e then 0 else wrap64 (ReportInterval c - e)) =
                 Z.max 0 (ReportInterval c - e)).
    { destruct (Z.leb_spec (ReportInterval c) e); [lia|].
      rewrite wrap64_id by (unfold in_int64, min_int64, max_int64; lia). lia. }
    rewrite Hd. split; [done|]. constructor; [lia|done].
  - assert (Hpos : 0 < 2 ^ k) by (apply Z.pow_pos_nonneg; lia).
    assert (Hb : 0 < backoffAt c k < 2 ^ 62).
    { unfold backoffAt. destruct (Z.eqb_spec k 0); [lia|]. nia. }
    assert (Hn : (let doubled := wrap64 (backoffAt c k * 2) in
                  if MaxBackoff c <? doubled then MaxBackoff c else doubled) = backoffAt c (k + 1)).
    { simpl. rewrite (wrap64_id (backoffAt c k * 2)) by (unfold in_int64, min_int64, max_int64; lia).
      unfold backoffAt in *. rewrite (proj2 (Z.eqb_neq (k + 1) 0)) by lia.
      rewrite Z.pow_add_r, Z.pow_1_r by lia. destruct (Z.eqb_spec k 0) as [-> |Hk0].
      - change (2 ^ 0) with 1. case_match; breflect; lia.
      - replace (ReportInterval c * (2 ^ k * 2)) with (ReportInterval c * 2 ^ k * 2) by ring.
        assert (0 < ReportInterval c * 2 ^ k) by nia. case_match; breflect; lia. }
    simpl in Hn. rewrite Hn. destruct (IH (k + 1)) as [IH1 IH2]; [lia|done|]. rewrite IH1 in *.
    split; [done|]. constructor; [|done]. unfold backoffAt in *. destruct (k =? 0); lia.
Qed.

(** Failing reports are retried with bounded exponential backoff: the first
    failure of a row waits the report interval, and the [k]-th one after it that
    interval doubled [k] times, capped at the maximum; a success returns to the
    start-to-start schedule; no delay is negative, longer than the larger of
    the two bounds, or the result of an overflow. *)
Theorem reportDelays_backoff (c : Config) (attempts : list (option Duration))
    (HR : 0 < ReportInterval c < 2 ^ 62) (HM : 0 < MaxBackoff c < 2 ^ 62)
    (Ha : Forall (λ o, ∀ e, o = Some e → 0 <= e) attempts) :
  reportDelays c (ReportInterval c) attempts = expectedDelays c 0 attempts ∧
  Forall (λ d, 0 <= d <= Z.max (ReportInterval c) (MaxBackoff c))
         (reportDelays c (ReportInterval c) attempts).
Proof. by apply (reportDelays_from c 0 attempts). Qed.

Definition demo_attempts : list (option Duration) := [None; None; None; None; None; Some (4 * Second); None].

Lemma reportDelays_backoff_witness :
  reportDelays (demo_config true) (ReportInterval (demo_config true)) demo_attempts =
  [15 * Second; 30 * Second; 60 * Second; 120 * Second; 120 * Second; 11 * Second; 15 * Second].
Proof.
  rewrite (proj1 (reportDelays_backoff (demo_config true) demo_attempts ltac:(done) ltac:(done)
    ltac:(repeat constructor; intros e [= <-]; done))). reflexivity.
Defined.

(** ** The collection worker *)

Lemma workerRun_app w es1 es2 w2 :
  workerRun w (es1 ++ es2) w2 → ∃ w1, workerRun w es1 w1 ∧ workerRun w1 es2 w2.
Proof.
  revert w. induction es1 as [|e es1 IH]; intros w H; [exists w; split; [constructor|done]|].
  inversion H as [|? ? w1 ? ? Hs Hr]; subst. destruct (IH _ Hr) as (w3 & H1 & H2).
  exists w3. split; [by econstructor|done].
Qed.

(** A pending request stays until a collection begins. *)
Lemma workerRun_pending w es w' :
  workerRun w es w' → requested w = true → Begin ∈ es ∨ requested w' = true.
Proof.
  induction 1 as [w|w e w1 es w2 Hs Hr IH]; [auto|]. intros Hw.
  destruct e; [|left; constructor|]; simpl in Hs.
  - injection Hs as <-. destruct IH as [IH|IH]; [done|left; by constructor|auto].
  - destruct (collecting w); [|done]. injection Hs as <-.
    destruct IH as [IH|IH]; [done|left; by constructor|auto].
Qed.

(** A collection that is running stays so until it finishes. *)
Lemma workerRun_collecting w es w' :
  workerRun w es w' → collecting w = true → Finish ∈ es ∨ (collecting w' = true ∧ Begin ∉ es).
Proof.
  induction 1 as [w|w e w1 es w2 Hs Hr IH]; [set_solver|]. intros Hw.
  destruct e; simpl in Hs; [| |left; constructor].
  - injection Hs as <-. destruct IH as [IH|[IH1 IH2]]; [done|left; by constructor|].
    right. split; [done|]. set_solver.
  - rewrite Hw in Hs. by destruct (requested w).
Qed.

(** Every collection that began used up a request of its own. *)
Lemma workerRun_count w es w' :
  workerRun w es w' →
  (length (filter (eq Begin) es) + (if requested w' then 1 else 0) ≤
   length (filter (eq Request) es) + (if requested w then 1 else 0))%nat.
Proof.
  induction 1 as [w|w e w1 es w2 Hs Hr IH]; [done|]. rewrite !filter_cons.
  destruct e; repeat case_decide; try done; simpl in *.
  - injection Hs as <-. simpl in *. destruct (requested w); lia.
  - destruct (requested w) eqn:E, (collecting w); simplify_eq/=. lia.
  - destruct (collecting w); simplify_eq/=. lia.
Qed.

(** The collection worker never overlaps two collections, never drops a
    request (once none is pending, a collection has begun after each request)
    and never collects without one, however ticks and slow collections
    interleave. *)
Theorem worker_coalesces (initial : bool) (es : list workerEvent) (w : worker)
    (Hrun : workerRun (initialWorker initial) es w) :
  (∀ es1 es2 es3, es = es1 ++ Begin :: es2 ++ Begin :: es3 → Finish ∈ es2) ∧
  (∀ es1 es2, es = es1 ++ Request :: es2 → requested w = false → Begin ∈ es2) ∧
  (length (filter (eq Begin) es) ≤ length (filter (eq Request) es) + (if initial then 1 else 0))%nat.
Proof.
  split_and!.
  - intros es1 es2 es3 ->. apply workerRun_app in Hrun as (w1 & _ & H).
    inversion H as [|? ? w2 ? ? Hs Hr]; subst. simpl in Hs.
    destruct (requested w1 && _); [|done]. injection Hs as <-.
    apply workerRun_app in Hr as (w3 & H2 & H3).
    destruct (workerRun_collecting _ _ _ H2) as [?|[Hc _]]; [done..|].
    inversion H3 as [|? ? w4 ? ? Hs3 _]; subst. simpl in Hs3. rewrite Hc in Hs3.
    by destruct (requested w3).
  - intros es1 es2 -> Hw. apply workerRun_app in Hrun as (w1 & _ & H).
    inversion H as [|? ? w2 ? ? Hs Hr]; subst. injection Hs as <-.
    destruct (workerRun_pending _ _ _ Hr) as [?|?]; [done..|congruence].
  - apply workerRun_count in Hrun. simpl in Hrun. lia.
Qed.

Lemma worker_coalesces_witness :
  workerRun (initialWorker true) [Begin; Request; Request; Finish; Begin; Finish] (mkWorker false false) ∧
  Begin ∈ [Request; Finish; Begin; Finish].
Proof.
  assert (H : workerRun (initialWorker true) [Begin; Request; Request; Finish; Begin; Finish] (mkWorker false false))
    by (repeat (econstructor; [reflexivity|]); constructor).
  split; [done|].
  by apply (proj1 (proj2 (worker_coalesces _ _ _ H)) [Begin]).
Defined.
