(* ===== verification/AgentSnapshot.v ===== *)
(** * The agent's report and the server's validator

    [agent.go] and [ledger.go] against [ValidateAgentReport] of [server.go]:
    an agent fed with well-formed collection results and hook events that
    arrive in time order sends reports the server accepts.  The order matters:
    a hook event that is older than the start of the task it continues moves
    the task's last-seen time before its start, and then the server rejects
    the whole report. *)

From S2P Require Import Prelude GoTime GoText GoFloat Model HookEvent Ledger Validate Claude ClaudeFacts Agent AgentFacts.

(** ** Runs of an agent *)

Inductive agentEvent :=
| Hook (clock : Time) (ev : Event)
| StatusLine (report : ProviderReport)
| Collected (item : collectionResult).

Definition agentStep (a : Agent) (e : agentEvent) : Agent :=
  match e with
  | Hook clock ev => mkAgent (cfg a) (Apply (ledger a) clock ev) (providers a)
  | StatusLine report => (IngestStatusLine a report).1
  | Collected item => (storeCollectionResult a item).1
  end.

Definition agentRun (a : Agent) (es : list agentEvent) : Agent := foldl agentStep a es.

(** ** Well-formed inputs, up to the time [T] *)

Definition sound (T : Time) (r : ProviderReport) : Prop :=
  len (pr_AuthState r) <= 64 ∧ len (pr_Plan r) <= 128 ∧ len (pr_Source r) <= 128 ∧ len (pr_ErrorCode r) <= 128 ∧
  zeroTime < pr_ObservedAt r <= T ∧ windows_ok (pr_Windows r).

Definition colon : ascii := ":"%char.

Definition event_ok (T : Time) (e : agentEvent) : Prop :=
  match e with
  | Hook clock ev =>
    clock <= T ∧ has_byte colon (ev_SessionID ev) = false ∧
    (ev_SessionID ev ≠ "" → validSessionID (ev_SessionID ev) = true ∧ validSessionID (subTaskID ev) = true)
  | StatusLine r => sound T r
  | Collected item => ValidProvider (cr_provider item) = true ∧ sound T (cr_report item)
  end.

(** The effective times of the hook events never go back before [last]. *)
Fixpoint in_order (d : Duration) (last : Time) (es : list agentEvent) : Prop :=
  match es with
  | [] => True
  | Hook clock ev :: es =>
    match eventTime d clock ev with
    | None => in_order d last es
    | Some now => last <= now ∧ in_order d now es
    end
  | _ :: es => in_order d last es
  end.

(** ** The table of reports *)

Definition table_ok (T : Time) (m : gmap ProviderName ProviderReport) : Prop :=
  map_Forall (λ p r, ValidProvider p = true ∧ sound T r) m.

Lemma carry_ok newer older t w :
  (∀ w, newer = Some w → window_ok w) → (∀ w, older = Some w → window_ok w) →
  carry newer older t = Some w → window_ok w.
Proof. intros Hn Ho [?|[? _]]%carry_Some; auto. Qed.

Lemma Merge_sound T a b : sound T a → sound T b → sound T (MergeProviderReports a b).
Proof.
  intros (A1 & A2 & A3 & A4 & (A5 & A6) & A7 & A8) (B1 & B2 & B3 & B4 & (B5 & B6) & B7 & B8).
  unfold MergeProviderReports.
  destruct (After (pr_ObservedAt b) (pr_ObservedAt a));
    (case_bool_decide; unfold sound, windows_ok; simpl; split_and!; try done; try by case_bool_decide);
    intros w; apply carry_ok; done.
Qed.

Lemma withErrorCode_sound T r code : len code <= 128 → sound T r → sound T (withErrorCode r code).
Proof. intros Hc (?&?&?&?&?). unfold sound. simpl. done. Qed.

Lemma storedReport_sound T previous item :
  (∀ r, previous = Some r → sound T r) → sound T (cr_report item) → sound T (storedReport previous item).
Proof.
  intros Hp Hi. unfold storedReport.
  destruct previous as [r|]; [|by destruct (cr_failed item)]. specialize (Hp r eq_refl).
  destruct (cr_failed item), (hasWindows r); try case_bool_decide; auto using Merge_sound;
    apply withErrorCode_sound; try done; apply Hi.
Qed.

Lemma setProvider_table T a p r :
  table_ok T (providers a) → ValidProvider p = true → sound T r → table_ok T (providers (setProvider a p r)).
Proof. intros Ha Hp Hr. by apply map_Forall_insert_2. Qed.

(** ** The ledger *)

Definition task_sound (last : Time) (k : string) (r : taskRecord) : Prop :=
  record_ok k r ∧ zeroTime < at_StartedAt (Task r) <= at_LastSeenAt (Task r) ∧
  at_LastSeenAt (Task r) <= last ∧ validSessionID (at_SessionID (Task r)) = true ∧
  has_byte colon (Parent r) = false.

Lemma task_sound_later last last' k r : last <= last' → task_sound last k r → task_sound last' k r.
Proof. unfold task_sound. intros ? (?&?&?&?&?). split_and!; try done; lia. Qed.

Lemma Apply_sound l clock ev last T :
  event_ok T (Hook clock ev) → zeroTime < last →
  match eventTime (ttl l) clock ev with Some now => last <= now | None => True end →
  map_Forall (task_sound last) (tasks l) →
  map_Forall (task_sound (default last (eventTime (ttl l) clock ev))) (tasks (Apply l clock ev)).
Proof.
  intros (Hc & Hcol & Hid) Hz Hlast Hl.
  assert (Hl' : ∀ last', last <= last' → map_Forall (task_sound last') (tasks l)).
  { intros last' ? k r Hk. by eapply task_sound_later; [|apply Hl]. }
  destruct (accepted_dec ev) as [Ha|Ha].
  2: { rewrite Apply_rejected by done. apply Hl'. destruct (eventTime _ _ _); simpl; lia. }
  rewrite Apply_accepted by done. destruct (eventTime (ttl l) clock ev) as [now|]; simpl; [|by apply Hl'].
  destruct Ha as [_ Hv]. apply applyEvent_inv.
  - intros k r (Hr & Hs & Hn & Hrest). unfold task_sound. split_and!; try done; simpl; try lia; apply Hrest.
  - intros Hne. destruct (Hid Hne). unfold task_sound. split_and!; try done; simpl; try lia. by apply record_ok_main.
  - intros Hne. destruct (Hid Hne). unfold task_sound. split_and!; try done; simpl; try lia. by apply record_ok_sub.
  - apply pruneLocked_inv. by apply Hl'.
Qed.

(** ** The invariant of a run *)

Definition agent_ok (T last : Time) (a : Agent) : Prop :=
  table_ok T (providers a) ∧ ledger_ok (ledger a) ∧ map_Forall (task_sound last) (tasks (ledger a)) ∧
  zeroTime < last <= T + Minute.

Lemma agentStep_cfg a e : cfg (agentStep a e) = cfg a.
Proof. by destruct e. Qed.
Lemma agentRun_cfg a es : cfg (agentRun a es) = cfg a.
Proof. revert a. induction es as [|e es IH]; intros a; [done|]. simpl. by rewrite IH, agentStep_cfg. Qed.
Lemma agentStep_ttl a e : ttl (ledger (agentStep a e)) = ttl (ledger a).
Proof. destruct e; simpl; [apply Apply_ttl|done..]. Qed.

Lemma agentStep_ok T last a e :
  event_ok T e → agent_ok T last a →
  match e with
  | Hook clock ev =>
    match eventTime (ttl (ledger a)) clock ev with Some now => last <= now | None => True end
  | _ => True
  end →
  agent_ok T (match e with Hook clock ev => default last (eventTime (ttl (ledger a)) clock ev) | _ => last end)
    (agentStep a e).
Proof.
  intros He (Ht & Hl & Hs & Hz & Hb) Ho. destruct e as [clock ev|r|item]; unfold agent_ok; simpl in *.
  - split_and!; [done|by apply Apply_ok|by apply Apply_sound with T| |].
    + destruct (eventTime _ _ _); simpl; lia.
    + destruct (eventTime _ _ _) eqn:E; simpl; [|done]. apply eventTime_le in E. lia.
  - split_and!; try done. apply map_Forall_insert_2; [|done]. split; [done|].
    destruct (providers a !! ProviderClaude) eqn:E; [|done]. apply Merge_sound; [|done]. by apply (Ht _ _ E).
  - destruct He as [Hp Hr]. split_and!; try done. apply map_Forall_insert_2; [|done]. split; [done|].
    apply storedReport_sound; [|done]. intros r E. by apply (Ht _ _ E).
Qed.

Lemma agentRun_ok T last a es :
  Forall (event_ok T) es → in_order (ttl (ledger a)) last es → agent_ok T last a →
  ∃ last', agent_ok T last' (agentRun a es).
Proof.
  revert last a. induction es as [|e es IH]; intros last a He Ho Ha; [by exists last|].
  apply Forall_cons in He as [He Hes]. simpl.
  assert (Hord : match e with
    | Hook clock ev => match eventTime (ttl (ledger a)) clock ev with Some now => last <= now | None => True end
    | _ => True end ∧ in_order (ttl (ledger a))
      (match e with Hook clock ev => default last (eventTime (ttl (ledger a)) clock ev) | _ => last end) es).
  { destruct e as [clock ev|r|item]; simpl in *; [|done..]. by destruct (eventTime _ _ _). }
  destruct Hord as [H1 H2]. eapply IH; [done|by rewrite agentStep_ttl|by apply agentStep_ok].
Qed.

(** ** The snapshot *)

(** A session identifier tells the kind of its task. *)
Lemma task_sound_kind last k r :
  task_sound last k r →
  at_Kind (Task r) = if has_byte colon (at_SessionID (Task r)) then TaskSub else TaskMain.
Proof.
  intros ((_ & _ & _ & Hk) & _ & _ & _ & Hc). destruct Hk as [[-> ->]|[-> (id & _ & ->)]].
  - by rewrite Hc.
  - by rewrite !has_byte_app, orb_true_r.
Qed.

Lemma Snapshot_tasks l clock last :
  ledger_ok l → map_Forall (task_sound last) (tasks l) →
  NoDup ((λ t, (at_Provider t, at_SessionID t)) <$> (Snapshot l clock).1) ∧
  ∀ t, t ∈ (Snapshot l clock).1 → ∃ k r, task_sound last k r ∧ Task r = t.
Proof.
  intros Hl Hs.
  assert (He : ∀ t, t ∈ (Snapshot l clock).1 → ∃ k r, task_sound last k r ∧ Task r = t).
  { intros t (k & r & Hk & Ht & _)%Snapshot_elem. exists k, r. split; [by apply Hs|done]. }
  split; [|done]. rewrite <-(NoDup_fmap_iff taskKey); [by apply Snapshot_keys|].
  intros t u Ht Hu. apply He in Ht as (k & r & Hr & <-). apply He in Hu as (k' & r' & Hr' & <-).
  pose proof (task_sound_kind _ _ _ Hr) as K. pose proof (task_sound_kind _ _ _ Hr') as K'.
  unfold taskKey. split.
  - intros E. destruct Hr as [Hr _], Hr' as [Hr' _].
    apply ledgerKey_inj in E as (-> & _ & ->); [done|apply Hr|apply Hr'|by eapply record_ok_kind..].
  - intros [= E1 E2]. by rewrite K, K', E1, E2.
Qed.

Lemma overridden_ok c now sentAt T p r :
  map_Forall (λ _ plan, len plan <= 32) (PlanOverrides c) → T <= now → T <= sentAt →
  ValidProvider p = true → sound T r → provider_ok now sentAt p (overridden c p r).
Proof.
  intros Hc Hn Hs Hp%ValidProvider_true (R1 & R2 & R3 & R4 & (R5 & R6) & R7).
  assert (Ho : provider_ok now sentAt p r).
  { unfold provider_ok. split_and!; try done; unfold MaxFutureSkew, Minute, Second; lia. }
  unfold overridden. destruct (PlanOverrides c !! p) as [plan|] eqn:E; [|done].
  case_bool_decide; [done|]. destruct Ho as (O1 & O2 & O3 & O4 & O5 & O6 & O7 & O8).
  specialize (Hc _ _ E). simpl in Hc. unfold provider_ok. simpl. split_and!; try done. lia.
Qed.

Lemma snapshot_valid (urlParse : string → option URL) (loopback : string → bool)
    (c : Config) (order : list (ProviderName * string)) (a : Agent) (es : list agentEvent)
    (t0 T now ledgerNow received : Time)
    (Hnew : New urlParse loopback c order = Ok a) (Hledger : cf_Ledger c = None)
    (Hes : Forall (event_ok T) es) (Horder : in_order DefaultTaskTTL t0 es)
    (Ht0 : zeroTime < t0 <= T) (Hnow : T <= now) (Hrec : now <= received <= now + MaxReportAge)
    (Hcount : (length (Snapshot (ledger (agentRun a es)) ledgerNow).1 ≤ 256)%nat) :
  ValidateAgentReport (SnapshotReport (agentRun a es) now ledgerNow).1 received = Ok tt.
Proof.
  apply New_ok in Hnew as (Hid & Hp & Hl & _ & _ & Hov). rewrite Hledger in Hl. simpl in Hl.
  assert (Ha : agent_ok T t0 a).
  { unfold agent_ok. rewrite Hp, Hl.
    split_and!; [apply map_Forall_empty|apply NewLedger_ok|apply map_Forall_empty|lia|unfold Minute, Second; lia]. }
  destruct (agentRun_ok T t0 a es Hes) as (last & Ht & Hlk & Hs & Hz & Hlast); [by rewrite Hl|done|].
  apply validate_report_ok. unfold SnapshotReport.
  destruct (Snapshot_tasks _ ledgerNow last Hlk Hs) as [Hnd Htasks].
  destruct (Snapshot (ledger (agentRun a es)) ledgerNow) as [ts l'] eqn:E. simpl in Hcount, Hnd, Htasks.
  unfold report_ok. simpl. rewrite agentRun_cfg.
  assert (Hskew : T <= now ∧ T <= received) by lia.
  split_and!; [done|done|unfold zeroTime, Second in *; lia|lia|unfold MaxFutureSkew, Minute, Second; lia|].
  eexists _, ts. split_and!; try done.
  - intros p r. rewrite map_lookup_imap. destruct (providers (agentRun a es) !! p) as [r'|] eqn:Er; [|done].
    simpl. intros [= <-]. destruct (Ht _ _ Er). by apply overridden_ok with T; try lia.
  - apply Forall_forall. intros t (k & r & Hr & <-)%Htasks.
    destruct Hr as (Hrk & Hse & Hle & Hsid & _).
    pose proof (record_ok_kind _ _ Hrk) as Hkd%ValidTaskKind_true.
    destruct Hrk as (_ & Hv%ValidProvider_true & _).
    unfold task_ok, MaxFutureSkew, Minute, Second in *. split_and!; try done; lia.
Qed.

(** C7. Reports are accepted end to end: an agent built by [New], after any
    interleaving of well-formed collection results, status lines and hook
    events in time order, sends a report [ValidateAgentReport] accepts for the
    next fifteen minutes, as long as at most 256 tasks are running. *)
Theorem SnapshotReport_accepted (urlParse : string → option URL) (loopback : string → bool)
    (c : Config) (order : list (ProviderName * string)) (a : Agent) (es : list agentEvent)
    (t0 T now ledgerNow received : Time)
    (Hnew : New urlParse loopback c order = Ok a) (Hledger : cf_Ledger c = None)
    (Hes : Forall (event_ok T) es) (Horder : in_order DefaultTaskTTL t0 es)
    (Ht0 : zeroTime < t0 <= T) (Hnow : T <= now) (Hrec : now <= received <= now + MaxReportAge)
    (Hcount : (length (Snapshot (ledger (agentRun a es)) ledgerNow).1 ≤ 256)%nat) :
  ValidateAgentReport (SnapshotReport (agentRun a es) now ledgerNow).1 received = Ok tt.
Proof. by apply (snapshot_valid urlParse loopback c order a es t0 T). Qed.

Definition demo_start : Time := 1700000000 * Second.
Definition demo_events : list agentEvent :=
  [ Hook (demo_start + Second) (demo_event "UserPromptSubmit" "s" "" zeroTime);
    Collected (mkCollectionResult ProviderCodex
      (mkProviderReport (demo_start + Second) "authenticated" "pro" "codex-app-server"
        (mkProviderWindows (Some (mkLimitWindow f_zero f_hundred (Some (demo_start + Hour)))) None) "") false);
    Hook (demo_start + 2 * Second) (demo_event "SubagentStart" "s" "a" (demo_start + 2 * Second)) ].

Lemma SnapshotReport_accepted_witness :
  match New (λ _, None) (λ _, false) (demo_config true) [] with
  | Ok a => ValidateAgentReport
      (SnapshotReport (agentRun a demo_events) (demo_start + Minute) (demo_start + Minute)).1
      (demo_start + Minute) = Ok tt
  | Err _ => False
  end.
Proof.
  destruct (New (λ _, None) (λ _, false) (demo_config true) []) as [a|] eqn:E; [|by vm_compute in E].
  apply (SnapshotReport_accepted _ _ _ _ _ _ demo_start (demo_start + Minute) _ _ _ E); try done.
  - repeat (apply Forall_cons; split); [| | |by apply Forall_nil]; [done| |done]. split; [done|].
    unfold sound. split_and!; try done. split; [|done]. intros w [= <-]. by unfold window_ok, percent.
  - injection E as <-. vm_compute. lia.
Defined.

(** ** Without the order *)

(** C40. The order is needed: a tool event that is stamped before the start of
    the task it continues (within the TTL) moves that task's last-seen time
    before its start, and as long as the task is listed the server rejects
    every report of the agent, whatever else the report holds. *)
Theorem Late_event_rejected (a : Agent) (k : string) (r : taskRecord) (clock : Time) (ev : Event)
    (now ledgerNow received : Time)
    (Hl : ledger_ok (ledger a)) (Hk : tasks (ledger a) !! k = Some r)
    (Hr : is_task (ev_Provider ev) TaskMain (ev_SessionID ev) r = true)
    (Hseen : at_StartedAt (Task r) <= at_LastSeenAt (Task r))
    (Hev : accepted ev) (Hname : ev_Name ev = "PostToolUse") (Hat : ev_At ev ≠ zeroTime)
    (Httl : clock - ttl (ledger a) <= ev_At ev < clock + Minute)
    (Hlate : ev_At ev < at_StartedAt (Task r))
    (Hlisted : ledgerNow - ttl (ledger a) <= ev_At ev) :
  ValidateAgentReport (SnapshotReport (agentStep a (Hook clock ev)) now ledgerNow).1 received ≠ Ok tt.
Proof.
  assert (Ht : eventTime (ttl (ledger a)) clock ev = Some (ev_At ev)).
  { unfold eventTime, Add. rewrite (proj2 (IsZero_false (ev_At ev)) Hat). simpl.
    rewrite (proj2 (Before_false (ev_At ev) _)), (proj2 (Before_true (ev_At ev) _)) by lia. done. }
  assert (Hgone : tasks (Apply (ledger a) clock ev) !! k = Some (touch (ev_At ev) r)).
  { rewrite Apply_accepted, Ht by done. rewrite applyEvent_lookup; [|apply pruneLocked_inv, Hl|apply Hev].
    rewrite pruneLocked_lookup, Hk. destruct Hl as [Hpos _].
    rewrite (proj2 (Z.ltb_ge (at_LastSeenAt (Task r)) (ev_At ev - ttl (ledger a)))) by lia.
    unfold after, ends, continues. rewrite Hname, Hr. done. }
  rewrite validate_report_ok. unfold SnapshotReport, agentStep. cbn [ledger cfg providers].
  destruct (Snapshot (Apply (ledger a) clock ev) ledgerNow) as [ts l'] eqn:E. simpl.
  intros (_ & _ & _ & _ & ps & ts' & _ & [= <-] & _ & _ & Hts & _). simpl in Hts.
  assert (Hin : Task (touch (ev_At ev) r) ∈ ts).
  { replace ts with (Snapshot (Apply (ledger a) clock ev) ledgerNow).1 by (by rewrite E).
    apply Snapshot_elem. exists k, (touch (ev_At ev) r). split; [done|]. split; [done|].
    rewrite Apply_ttl. simpl. lia. }
  rewrite Forall_forall in Hts. specialize (Hts _ Hin). destruct Hts as (_ & _ & _ & _ & _ & Hle & _).
  simpl in Hle. lia.
Qed.

Definition late_agent : Agent :=
  agentStep (demo_agent true)
    (Hook (demo_start + 10 * Second) (demo_event "UserPromptSubmit" "s" "" (demo_start + 10 * Second))).
Definition late_event : Event := demo_event "PostToolUse" "s" "" (demo_start + 9 * Second).

Lemma Late_event_rejected_witness :
  ValidateAgentReport
    (SnapshotReport (agentStep late_agent (Hook (demo_start + 11 * Second) late_event))
       (demo_start + Minute) (demo_start + Minute)).1 (demo_start + Minute) ≠ Ok tt.
Proof.
  apply (Late_event_rejected late_agent (ledgerKey ProviderCodex TaskMain "s")
    (mainRecord (demo_start + 10 * Second) (demo_event "UserPromptSubmit" "s" "" (demo_start + 10 * Second))));
    try done; try (by vm_compute).
  apply Apply_ok, NewLedger_ok.
Defined.
