(* ===== verification/HookServerFacts.v ===== *)
(** * Facts about hook events on their way to the ledger

    Only an authenticated, complete and well-formed request changes anything;
    an event forwarded with the server's secret reaches the ledger; and the
    identifiers of a parsed event are safe to report. *)

From S2P Require Import Prelude GoTime GoText GoTextFacts GoNet GoDate GoRegexp GoFloat GoStrconv Json Digest Model HookEvent Ledger Validate Claude ClaudeUsage ClaudeUsageFacts ClaudeResetFacts Agent AgentSnapshot HookServer.

(** ** The server *)

Section server.
Context (DecodeEvent : string → decoded) (Unmarshal : string → option json).
Context (otherFloat : string → float64 * bool) (machineInt : float64 → Z).
Abbreviation serve := (ServeHook DecodeEvent Unmarshal otherFloat machineInt).

Lemma substring_all s n : (Stdlib.Strings.String.length s <= n)%nat → Stdlib.Strings.String.substring 0 n s = s.
Proof. revert n. induction s as [|a s IH]; intros [|n] Hn; simpl in *; try done; [lia|]. by rewrite IH by lia. Qed.

Lemma substring_len s n : Stdlib.Strings.String.length (Stdlib.Strings.String.substring 0 n s) = Nat.min n (Stdlib.Strings.String.length s).
Proof. revert n. induction s as [|a s IH]; intros [|n]; simpl; try done. by rewrite IH. Qed.

(** The limit: a body is read whole or not at all. *)
Lemma readLimitedBody_spec r max :
  0 <= max →
  readLimitedBody r max = if (max <? len (hr_Body r)) || hr_BodyFails r then None else Some (hr_Body r).
Proof.
  intros Hmax. unfold readLimitedBody.
  set (n := Z.to_nat (max + 1)).
  assert (Hl : len (Stdlib.Strings.String.substring 0 n (hr_Body r)) = Z.min (max + 1) (len (hr_Body r)))
    by (unfold len; rewrite substring_len; lia).
  rewrite Hl. destruct (Z.ltb_spec max (len (hr_Body r))) as [Hlt|Hge]; cbn [orb].
  - rewrite Z.min_l by lia. rewrite Z.ltb_irrefl, andb_false_r, (proj2 (Z.ltb_lt max (max + 1))) by lia. done.
  - rewrite Z.min_r by lia. rewrite (proj2 (Z.ltb_lt _ (max + 1))), andb_true_r by lia.
    destruct (hr_BodyFails r); [done|]. rewrite (proj2 (Z.ltb_ge _ _)) by lia.
    by rewrite substring_all by (unfold len, n in *; lia).
Qed.

(** An event the server takes. *)
Definition acceptable (ev : Event) : Prop :=
  ev_Probe ev = false ∧ ev_SessionID ev ≠ "" ∧ (ev_Provider ev = ProviderCodex ∨ ev_Provider ev = ProviderClaude).

Lemma acceptable_check ev :
  (ev_Probe ev || bool_decide (ev_SessionID ev = "") ||
   (negb (bool_decide (ev_Provider ev = ProviderCodex)) && negb (bool_decide (ev_Provider ev = ProviderClaude)))) = false ↔ acceptable ev.
Proof.
  unfold acceptable. rewrite !orb_false_iff, andb_false_iff, !negb_false_iff, bool_decide_eq_false, !bool_decide_eq_true. tauto.
Qed.

(** C11. The local server changes nothing unless it answers 204: and it answers
    204 exactly to a POST whose secret has the digest of its own, whose body
    fits the limit and is read completely, and that is either an acceptable
    event, which is applied to the ledger, or a status line with quota
    windows, which is handed on, according to which of the two paths it has
    once its escapes are decoded; every other request, whatever its method,
    path, credentials, size or content, leaves the ledger as it was. *)
Theorem ServeHook_guarded (cfg : HookServerConfig) (l : Ledger) (clock : Time) (r : hookRequest)
    (Hmax : 0 <= hs_MaxPayload cfg) :
  let '(status, l', report) := serve cfg l clock r in
  (status ≠ NoContent → l' = l ∧ report = None) ∧
  (status = NoContent ↔
    hr_Method r = "POST" ∧ validLocalSecret r (hs_Secret cfg) = true ∧
    len (hr_Body r) <= hs_MaxPayload cfg ∧ hr_BodyFails r = false ∧
    ((muxTarget (hr_Method r) (hr_Path r) = MuxSegments ["v1"; "events"] ∧ ∃ ev, DecodeEvent (hr_Body r) = Decoded ev ∧ acceptable ev ∧
        l' = Apply l clock ev ∧ report = None) ∨
     (muxTarget (hr_Method r) (hr_Path r) = MuxSegments ["v1"; "statusline"] ∧ ∃ p, ParseClaudeStatusLine otherFloat machineInt (Unmarshal (hr_Body r)) clock = Ok p ∧
        l' = l ∧ report = if hs_HasStatusLine cfg then Some p else None))).
Proof.
  unfold ServeHook, handleEvents, handleStatusLine, decodeLimitedJSON. rewrite readLimitedBody_spec by done.
  assert (Hlen : (len (hr_Body r) <= hs_MaxPayload cfg ∧ hr_BodyFails r = false) ↔
    ((hs_MaxPayload cfg <? len (hr_Body r)) || hr_BodyFails r) = false) by (rewrite orb_false_iff, Z.ltb_ge; done).
  destruct (muxTarget (hr_Method r) (hr_Path r)) as [| |segments]; [naive_solver..|].
  destruct (decide (segments = ["v1"; "events"])) as [Hp|Hp]; [rewrite bool_decide_true by done|rewrite bool_decide_false by done].
  - assert (Hp' : segments ≠ ["v1"; "statusline"]) by (by rewrite Hp).
    destruct (decide (hr_Method r = "POST")) as [Hm|Hm]; [rewrite bool_decide_true by done|rewrite bool_decide_false by done; naive_solver].
    destruct (validLocalSecret r (hs_Secret cfg)); cbn [negb]; [|naive_solver].
    destruct ((hs_MaxPayload cfg <? len (hr_Body r)) || hr_BodyFails r); [naive_solver|].
    destruct Hlen as [_ [Hl Hf]]; [done|].
    destruct (DecodeEvent (hr_Body r)) as [ev| |]; [|naive_solver..].
    destruct (_ || _ || _) eqn:E; [|apply acceptable_check in E; naive_solver].
    assert (¬ acceptable ev) by (rewrite <-acceptable_check; congruence). naive_solver.
  - destruct (decide (segments = ["v1"; "statusline"])) as [Hs|Hs];
      [rewrite bool_decide_true by done|rewrite bool_decide_false by done; naive_solver].
    destruct (decide (hr_Method r = "POST")) as [Hm|Hm]; [rewrite bool_decide_true by done|rewrite bool_decide_false by done; naive_solver].
    destruct (validLocalSecret r (hs_Secret cfg)); cbn [negb]; [|naive_solver].
    destruct ((hs_MaxPayload cfg <? len (hr_Body r)) || hr_BodyFails r); [naive_solver|].
    destruct Hlen as [_ [Hl Hf]]; [done|].
    destruct (ParseClaudeStatusLine otherFloat machineInt (Unmarshal (hr_Body r)) clock) as [p|]; naive_solver.
Qed.
End server.

(** ** Identifiers *)

Definition hex_char (a : ascii) : bool := is_digit (zb a) || within 97 102 (zb a).
Definition hex_string (s : string) : bool := forallb hex_char (Stdlib.Strings.String.list_ascii_of_string s).

Lemma hex_digit_char d : 0 <= d < 16 → hex_char (hex_digit d) = true.
Proof.
  intros Hd. unfold hex_digit, hex_char. destruct (Z.ltb_spec d 10); rewrite zb_chr by lia.
  - unfold is_digit, within. by rewrite !(proj2 (Z.leb_le _ _)) by lia.
  - apply orb_true_iff. right. unfold within. by rewrite !(proj2 (Z.leb_le _ _)) by lia.
Qed.

Lemma hex_encode_string s : hex_string (hex_encode s) = true.
Proof.
  induction s as [|a s IH]; [done|]. cbn [hex_encode hex_string Stdlib.Strings.String.list_ascii_of_string forallb].
  pose proof (zb_range a). rewrite !hex_digit_char; [exact IH|..].
  - change 15 with (Z.ones 4). rewrite Z.land_ones by lia. apply (Z.mod_pos_bound _ 16). lia.
  - rewrite Z.shiftr_div_pow2 by lia. change (2 ^ 4) with 16. split; [apply Z.div_pos; lia|apply Z.div_lt_upper_bound; lia].
Qed.

Lemma hex_char_range a : hex_char a = true → 48 <= zb a <= 57 ∨ 97 <= zb a <= 102.
Proof. unfold hex_char, is_digit, within. rewrite orb_true_iff, !andb_true_iff, !Z.leb_le. lia. Qed.

Lemma hex_forall s : hex_string s = true → Forall (λ a, hex_char a = true) (Stdlib.Strings.String.list_ascii_of_string s).
Proof. unfold hex_string. rewrite forallb_forall. intros H. apply Forall_forall. intros a Ha. apply H. by apply list_elem_of_In. Qed.

Lemma hex_ascii s : hex_string s = true → ascii_string s = true.
Proof.
  intros H. unfold ascii_string. rewrite forallb_forall. intros a Ha%list_elem_of_In.
  pose proof (hex_forall s H) as Hf. rewrite Forall_forall in Hf. specialize (Hf a Ha). apply hex_char_range in Hf.
  apply Z.ltb_lt. lia.
Qed.

Definition printable (s : string) : Prop := ascii_string s = true ∧ forallb (λ r, negb (IsControl r)) (runes s) = true.

Lemma printable_app s t : printable s → printable t → printable (s +:+ t).
Proof.
  intros [Hs1 Hs2] [Ht1 Ht2]. split.
  - by apply ascii_app.
  - unfold runes in *. rewrite chunks_app by done. by rewrite fmap_app, forallb_app, Hs2.
Qed.

Lemma hex_printable s : hex_string s = true → printable s.
Proof.
  intros H. pose proof (hex_ascii s H) as Ha. split; [done|]. unfold runes. rewrite ascii_chunks by done.
  rewrite <-list_fmap_compose. rewrite forallb_forall. intros r (a & -> & Hin)%list_elem_of_In%list_elem_of_fmap.
  pose proof (hex_forall s H) as Hf. rewrite Forall_forall in Hf. specialize (Hf a Hin). apply hex_char_range in Hf.
  cbn. unfold IsControl, within. apply negb_true_iff, orb_false_iff. rewrite !andb_false_iff, !Z.leb_gt. lia.
Qed.

Lemma hex_no_colon s : hex_string s = true → has_byte colon s = false.
Proof.
  induction s as [|a s IH]; [done|]. cbn [hex_string Stdlib.Strings.String.list_ascii_of_string forallb has_byte].
  intros [Ha Hs]%andb_true_iff. rewrite IH by done. rewrite orb_false_r. apply bool_decide_eq_false. intros ->.
  apply hex_char_range in Ha. vm_compute in Ha. naive_solver.
Qed.

Lemma hex_visible s : hex_string s = true → visible_string s.
Proof. intros H%hex_forall. eapply Forall_impl; [exact H|]. intros a Ha%hex_char_range. unfold visible. lia. Qed.

Lemma opaqueID_hex p raw : hex_string (opaqueID p raw) = true ∧ len (opaqueID p raw) = 32.
Proof.
  split; [apply hex_encode_string|]. unfold opaqueID, len. rewrite length_hex, substring_len.
  pose proof (len_Sum256 (p +:+ nul +:+ raw)) as H. unfold len in H. lia.
Qed.

Lemma printable_valid s : printable s → 0 < len s <= 256 → validSessionID s = true.
Proof.
  intros [_ H] Hl. unfold validSessionID. rewrite (proj2 (Z.eqb_neq _ _)), (proj2 (Z.ltb_ge _ _)) by lia. exact H.
Qed.

(** What [ParseEvent] gives. *)
Lemma ParseEvent_Ok provider override payload now probing ev :
  ParseEvent provider override payload now probing = Ok ev →
  (provider = ProviderCodex ∨ provider = ProviderClaude) ∧ ev_Provider ev = provider ∧
  (∃ n, ev_Name ev = canonicalEventName n) ∧ ev_Name ev ≠ "" ∧
  (∃ raw, raw ≠ "" ∧ ev_SessionID ev = opaqueID provider raw) ∧
  (ev_TaskID ev = "" ∨ ∃ raw, raw ≠ "" ∧ ev_TaskID ev = opaqueID provider raw).
Proof.
  unfold ParseEvent. rewrite refuse_bind_Ok. intros [Hp H].
  assert (Hprov : provider = ProviderCodex ∨ provider = ProviderClaude).
  { apply andb_false_iff in Hp as [Hp|Hp]; apply negb_false_iff, bool_decide_eq_true in Hp; auto. }
  destruct (match payload with Some (JObject raw) => Ok raw | Some JNull => Ok [] | _ => Err PayloadNotObject end) as [raw|e]; [|done].
  cbn [mbind result_bind] in H. rewrite !refuse_bind_Ok, !bool_decide_eq_false in H. destruct H as (Hn & Hs & H).
  apply Ok_inj in H. subst ev. cbn [ev_Provider ev_Name ev_SessionID ev_TaskID].
  split; [exact Hprov|]. split; [reflexivity|]. split; [eexists; reflexivity|]. split; [exact Hn|].
  split; [eexists; split; [exact Hs|reflexivity]|].
  match goal with |- (if ?b then _ else _) = _ ∨ _ => destruct b eqn:Ht end; [left; reflexivity|right].
  apply bool_decide_eq_false in Ht. eexists. split; [exact Ht|reflexivity].
Qed.

(** A hook payload leaves the machine only as digests: whatever strings a
    provider puts into its payload, a parsed event carries one of the known
    names, a session identifier of 32 hexadecimal digits, and a task
    identifier that is empty or 32 such digits; so the events of the forwarder
    meet what the agent's reports need to be accepted by the server. *)
Theorem ParseEvent_reportable (provider : ProviderName) (override : string) (payload : option json) (now : Time)
    (probing : bool) (ev : Event) (clock T : Time)
    (Hev : ParseEvent provider override payload now probing = Ok ev) (Hclock : clock <= T) :
  (ev_Provider ev = ProviderCodex ∨ ev_Provider ev = ProviderClaude) ∧
  ev_Name ev ∈ ["UserPromptSubmit"; "Stop"; "StopFailure"; "SessionEnd"; "SubagentStart"; "SubagentStop"; "PostToolUse"] ∧
  hex_string (ev_SessionID ev) = true ∧ len (ev_SessionID ev) = 32 ∧
  (ev_TaskID ev = "" ∨ (hex_string (ev_TaskID ev) = true ∧ len (ev_TaskID ev) = 32)) ∧
  event_ok T (Hook clock ev).
Proof.
  apply ParseEvent_Ok in Hev as (Hp & Hprov & (n & Hn) & Hne & (raw & _ & Hs) & Ht).
  destruct (opaqueID_hex provider raw) as [Hsx Hsl]. rewrite <-Hs in Hsx, Hsl.
  assert (Htask : ev_TaskID ev = "" ∨ (hex_string (ev_TaskID ev) = true ∧ len (ev_TaskID ev) = 32)).
  { destruct Ht as [?|(raw' & _ & ->)]; [by left|right]. apply opaqueID_hex. }
  assert (Hname : ev_Name ev ∈ ["UserPromptSubmit"; "Stop"; "StopFailure"; "SessionEnd"; "SubagentStart"; "SubagentStop"; "PostToolUse"]).
  { rewrite Hn in *. unfold canonicalEventName in *. repeat case_bool_decide; try done; rewrite !elem_of_cons; tauto. }
  split; [by rewrite Hprov|]. split; [done|]. split; [done|]. split; [done|]. split; [done|].
  split; [done|]. split; [by apply hex_no_colon|]. intros _.
  pose proof (hex_printable _ Hsx) as Hsp. split; [apply printable_valid; [done|lia]|].
  unfold subTaskID.
  assert (Hid : ∃ id, printable id ∧ len id <= 32 ∧
    (if bool_decide (TrimSpace (ev_TaskID ev) = "") then "unknown" else TrimSpace (ev_TaskID ev)) = id).
  { destruct Htask as [-> | [Htx Htl]].
    - exists "unknown". split; [by split|]. split; [by vm_compute|done].
    - exists (ev_TaskID ev). split; [by apply hex_printable|]. split; [lia|].
      rewrite TrimSpace_visible by by apply hex_visible.
      rewrite bool_decide_false; [done|]. by intros E; rewrite E in Htl. }
  destruct Hid as (id & Hpr & Hl & ->). apply printable_valid.
  - apply printable_app; [done|]. apply printable_app; [by split|done].
  - rewrite !len_app. change (len ":") with 1. assert (0 <= len id) by (unfold len; lia). lia.
Qed.

(** ** A concrete exchange *)

Definition demo_payload : option json :=
  Some (JObject [("hook_event_name", JString "user_prompt_submit"); ("session_id", JString "raw"); ("cwd", JString "/home/u")]).
Definition demo_parsed : Event :=
  mkEvent ProviderCodex "UserPromptSubmit" (opaqueID ProviderCodex "raw") "" (10 * Second) false.
Definition demo_body : string := "{event}".
Definition demo_decode (body : string) : decoded :=
  if bool_decide (body = demo_body) then Decoded demo_parsed else InvalidJSON.
Definition demo_encode (ev : Event) : option string := if bool_decide (ev = demo_parsed) then Some demo_body else None.
Definition demo_server (secret : string) : HookServerConfig := mkHookServerConfig secret true MaxHookPayload.
Definition demo_forward : ForwardConfig := mkForwardConfig "http://127.0.0.1:47632/" "" "/home/u/secret".
Definition demo_read (path : string) : option string := if bool_decide (path = "/home/u/secret") then Some ("k" +:+ String "010" "") else None.
Definition demo_url (url : string) : bool := bool_decide (url = "http://127.0.0.1:47632").
Definition demo_unmarshal (body : string) : option json := None.

Lemma demo_parses : ParseEvent ProviderCodex "" demo_payload (10 * Second) false = Ok demo_parsed.
Proof. vm_compute. reflexivity. Qed.

Lemma ParseEvent_reportable_witness : event_ok (20 * Second) (Hook (15 * Second) demo_parsed).
Proof.
  apply (ParseEvent_reportable ProviderCodex "" demo_payload (10 * Second) false demo_parsed (15 * Second) (20 * Second)).
  - exact demo_parses.
  - by vm_compute.
Defined.

(** ** From the provider's payload to the ledger *)

Lemma substring_shift p s : Stdlib.Strings.String.substring (Stdlib.Strings.String.length p) (Stdlib.Strings.String.length (p +:+ s)) (p +:+ s) = s.
Proof.
  assert (H : ∀ n, (Stdlib.Strings.String.length s <= n)%nat →
    Stdlib.Strings.String.substring (Stdlib.Strings.String.length p) n (p +:+ s) = s).
  { intros n Hn. induction p as [|a p IH]; [by apply substring_all|exact IH]. }
  apply H. rewrite str_length_app. lia.
Qed.

Lemma HasPrefix_app p s : HasPrefix (p +:+ s) p = true.
Proof.
  unfold HasPrefix. induction p as [|a p IH]; [by destruct s|]. rewrite str_app_cons. cbn [Stdlib.Strings.String.prefix].
  destruct (Ascii.ascii_dec a a); [exact IH|done].
Qed.

Lemma TrimPrefix_app p s : TrimPrefix (p +:+ s) p = s.
Proof. unfold TrimPrefix. rewrite HasPrefix_app. apply substring_shift. Qed.

(** A bearer header carries a secret that has no space around it. *)
Lemma bearer_secret m p body fails secret s :
  TrimSpace secret = secret →
  validLocalSecret (mkHookRequest m p ("Bearer " +:+ secret) "" body fails) s = bool_decide (Sum256 s = Sum256 secret).
Proof.
  intros Ht. unfold validLocalSecret. cbn [hr_Authorization hr_Secret]. rewrite TrimPrefix_app, Ht.
  apply bool_decide_ext. case_bool_decide as E; [by rewrite E|done].
Qed.

Section delivery.
Context (DecodeEvent : string → decoded) (Unmarshal : string → option json).
Context (otherFloat : string → float64 * bool) (machineInt : float64 → Z).
Context (ReadFile : string → option string) (loopbackURL : string → bool) (EncodeEvent : Event → option string).

(** The agent as the forwarder sees it: a request is answered with the status
    of the local server on the ledger it has. *)
Definition agentAnswers (cfg : HookServerConfig) (l : Ledger) (clock : Time) (base : string) (r : hookRequest) : option Z :=
  Some (statusCode (ServeHook DecodeEvent Unmarshal otherFloat machineInt cfg l clock r).1.1).

(** A hook event reaches the ledger: when the hook process and the agent
    share a secret without surrounding space, and the base URL is on the
    loopback interface, a payload that [ParseEvent] accepts outside a probe is
    posted as a request that the agent answers with 204 after applying exactly
    that event to its ledger, and the hook process reports success; with a
    secret of another digest the agent answers 401, its ledger stays as it
    was, and the hook process reports that status. *)
Lemma event_delivered (c : ForwardConfig) (cfg : HookServerConfig) (l : Ledger) (clock now : Time)
    (provider : ProviderName) (override body secret : string) (payload : option json) (ev : Event)
    (Hparse : ParseEvent provider override payload now false = Ok ev) (Hprobe : ev_Probe ev = false)
    (Hcodec : EncodeEvent ev = Some body) (Hdecode : DecodeEvent body = Decoded ev)
    (Hsecret : resolvedSecret ReadFile c = Ok secret) (Htrim : TrimSpace secret = secret)
    (Hurl : loopbackURL (baseURL c) = true) (Hmax : 0 <= len body <= hs_MaxPayload cfg) :
  ∃ r, forwardRequest ReadFile loopbackURL c "/v1/events" body = Ok (baseURL c, r) ∧
    (hs_Secret cfg = secret →
       ServeHook DecodeEvent Unmarshal otherFloat machineInt cfg l clock r = (NoContent, Apply l clock ev, None) ∧
       ForwardEvent ReadFile loopbackURL EncodeEvent c ev (agentAnswers cfg l clock) = Ok tt) ∧
    (Sum256 (hs_Secret cfg) ≠ Sum256 secret →
       ServeHook DecodeEvent Unmarshal otherFloat machineInt cfg l clock r = (Unauthorized, l, None) ∧
       ForwardEvent ReadFile loopbackURL EncodeEvent c ev (agentAnswers cfg l clock) = Err (AgentReturned 401)).
Proof.
  set (r := mkHookRequest "POST" "/v1/events" ("Bearer " +:+ secret) "" body false).
  assert (Hreq : forwardRequest ReadFile loopbackURL c "/v1/events" body = Ok (baseURL c, r)).
  { unfold forwardRequest. rewrite Hsecret. cbn [mbind result_bind]. by rewrite Hurl. }
  assert (Hserve : ServeHook DecodeEvent Unmarshal otherFloat machineInt cfg l clock r =
    handleEvents DecodeEvent cfg l clock r) by done.
  assert (Hsend : ∀ status, (handleEvents DecodeEvent cfg l clock r).1.1 = status →
    ForwardEvent ReadFile loopbackURL EncodeEvent c ev (agentAnswers cfg l clock) =
    refuse (negb (statusCode status =? 204)) (AgentReturned (statusCode status))).
  { intros status Hs. unfold ForwardEvent. rewrite Hprobe, Hcodec. unfold forward. rewrite Hreq.
    cbn [mbind result_bind]. unfold agentAnswers. by rewrite Hserve, Hs. }
  exists r. split; [exact Hreq|]. rewrite Hserve.
  assert (Hauth : validLocalSecret r (hs_Secret cfg) = bool_decide (Sum256 (hs_Secret cfg) = Sum256 secret))
    by (unfold r; by rewrite bearer_secret).
  split.
  - intros Heq.
    assert (E : handleEvents DecodeEvent cfg l clock r = (NoContent, Apply l clock ev, None)).
    { unfold handleEvents. rewrite Hauth, bool_decide_true by (by rewrite Heq). cbn [negb].
      unfold decodeLimitedJSON. rewrite readLimitedBody_spec by lia. unfold r. cbn [hr_Body hr_BodyFails].
      rewrite (proj2 (Z.ltb_ge _ _)) by lia. cbn [orb]. rewrite Hdecode.
      apply ParseEvent_Ok in Hparse as (Hp & <- & _ & _ & (raw & _ & Hs) & _).
      rewrite (proj2 (acceptable_check ev)); [done|]. split; [done|]. split; [|done].
      intros E. pose proof (proj2 (opaqueID_hex (ev_Provider ev) raw)) as Hl. by rewrite <-Hs, E in Hl. }
    split; [exact E|]. rewrite (Hsend NoContent); [done|by rewrite E].
  - intros Hne.
    assert (E : handleEvents DecodeEvent cfg l clock r = (Unauthorized, l, None))
      by (unfold handleEvents; by rewrite Hauth, bool_decide_false).
    split; [exact E|]. rewrite (Hsend Unauthorized); [done|by rewrite E].
Qed.
End delivery.

Lemma ServeHook_guarded_witness :
  let r := mkHookRequest "POST" "/v1/events" "Bearer k" "" demo_body false in
  (ServeHook demo_decode demo_unmarshal noOther (λ _, 0) (demo_server "k") (NewLedger 0) (20 * Second) r).1.1 = NoContent ∧
  validLocalSecret r "k" = true.
Proof.
  intros r.
  pose proof (ServeHook_guarded demo_decode demo_unmarshal noOther (λ _, 0) (demo_server "k") (NewLedger 0) (20 * Second) r
    ltac:(by vm_compute)) as H.
  assert (E : (ServeHook demo_decode demo_unmarshal noOther (λ _, 0) (demo_server "k") (NewLedger 0) (20 * Second) r).1.1 = NoContent)
    by (vm_compute; reflexivity).
  split; [exact E|]. destruct (ServeHook _ _ _ _ _ _ _ r) as [[status l'] report]. cbn [fst] in E.
  destruct H as [_ [H _]]. apply (H E).
Defined.
