(* ===== verification/Delivery.v ===== *)
(** * internal/agent and cmd/quota-monitor: delivering a report

    [ReportOnce] of [agent.go] over its two ways out: the HTTPS request to a
    server, and the sink that the standalone mode of [main.go] gives the
    agent.  Both act on a world of their own, the server or the database.
    Encoding the report and the transport are arguments. *)

From S2P Require Import Prelude GoTime GoText GoFloat Model Validate Store Ledger HookServer Server Agent.

(** The request of [ReportOnce]. *)
Record outgoing := mkOutgoing { og_URL : string; og_Authorization : string; og_Payload : string }.

Inductive SinkError := InvalidLocalReport (e : ValidationError) | LocalStoreFailed (e : StoreError).

Inductive DeliveryError := SinkFailed (e : SinkError) | ReportNotEncoded | ReportNotSent | ServerReturned (status : Z).

#[global] Instance SinkError_eq_dec : EqDecision SinkError.
Proof. solve_decision. Defined.
#[global] Instance DeliveryError_eq_dec : EqDecision DeliveryError.
Proof. solve_decision. Defined.

Section report.
Context {W : Type} (Marshal : AgentReport → option string).
Context (sink : AgentReport → W → result SinkError unit * W) (Do : outgoing → W → option Z * W).

Definition reportEndpoint (c : Agent.Config) : string := TrimRightSlash (ServerURL c) +:+ "/api/v1/agent/report".

(** [Do] gives the status of the response, [None] when there is none. *)
Definition ReportOnce (a : Agent) (now ledgerNow : Time) (w : W) : result DeliveryError unit * Agent * W :=
  let '(report, a) := SnapshotReport a now ledgerNow in
  if ReportSink (cfg a) then
    let '(r, w) := sink report w in
    (match r with Ok _ => Ok tt | Err e => Err (SinkFailed e) end, a, w)
  else match Marshal report with
  | None => (Err ReportNotEncoded, a, w)
  | Some payload =>
    let '(answer, w) := Do (mkOutgoing (reportEndpoint (cfg a)) ("Bearer " +:+ Token (cfg a)) payload) w in
    (match answer with
     | None => Err ReportNotSent
     | Some status => refuse (negb (status =? 204)) (ServerReturned status)
     end, a, w)
  end.
End report.

(** The sink of [runStandalone], at its clock. *)
Definition localSink (now : Time) (report : AgentReport) (db : DB) : result SinkError unit * DB :=
  match ValidateAgentReport report now with
  | Err e => (Err (InvalidLocalReport e), db)
  | Ok _ =>
    match ReplaceAgentReport db report now with
    | (Ok _, db) => (Ok tt, db)
    | (Err e, db) => (Err (LocalStoreFailed e), db)
    end
  end.

(** A server behind the URL [base]. *)
Definition serverAnswers (Decode : string → result bodyError AgentReport) (base peer : string) (env : Around)
    (out : outgoing) (s : Server) : option Z * Server :=
  let '(response, s) :=
    ServeHTTP s (mkRequest "POST" (TrimPrefix (og_URL out) base) (og_Authorization out) peer (Decode (og_Payload out))) env in
  (Some (Status response), s).
