(* ===== verification/DeliveryFacts.v ===== *)
(** * From the agent to the display

    What an agent has collected is what the display shows once it has
    reported, through the server or through the standalone mode's sink. *)

From S2P Require Import Prelude GoTime GoText GoTextFacts GoFloat Digest Model HookEvent Ledger Limiter Validate Store StoreTokens StoreReports StoreSnapshot Version Firmware FirmwareFacts Server ServerFacts Claude Agent AgentFacts AgentSnapshot HookServer HookServerFacts Delivery.

(** ** What the display shows of a stored report *)

(** No other agent has an observation of the provider that is as new. *)
Definition newest (d : DB) (agent : string) (p : ProviderName) (ns : Z) : Prop :=
  ∀ a row, a ≠ agent → provider_reports d !! (a, p) = Some row → pv_observed_at_ns row < ns.

Lemma reported_displayed d report rcv t p r :
  ValidProvider p = true → providersOf report !! p = Some r → 0 < observedNano (pr_ObservedAt r) →
  newest d (ar_AgentID report) p (observedNano (pr_ObservedAt r)) →
  ds_Providers (BuildDisplaySnapshot (reported d report rcv) t) !! p = Some (snapshotOfRow (providerRowOf r) t).
Proof.
  intros Hp Hr Hpos Hnew. rewrite providers_lookup, Hp. f_equal. unfold providerEntry.
  assert (Hrow : provider_reports (reported d report rcv) !! (ar_AgentID report, p) = Some (providerRowOf r)).
  { rewrite reported_reports, decide_True by done. unfold providerTable. by rewrite lookup_fmap, Hr. }
  destruct (loadLatestProvider_cases (reported d report rcv) p t) as [[_ Hno]|(a & row & -> & Hl & _ & Hmax)].
  - specialize (Hno _ _ Hrow). cbn in Hno. lia.
  - cbn [fst]. destruct (decide (a = ar_AgentID report)) as [->|Hne]; [congruence|].
    rewrite reported_reports, decide_False in Hl by done. specialize (Hnew _ _ Hne Hl).
    specialize (Hmax _ _ Hrow). cbn in Hmax. destruct Hmax as [?|[? _]]; lia.
Qed.

Definition liveKey (report : AgentReport) (tk : ActiveTask) : string * string * string * taskRow :=
  (ar_AgentID report, at_Provider tk, at_SessionID tk, taskRowOf tk).

Lemma reported_live d report rcv t tk :
  content_ok report → tk ∈ tasksOf report → UnixNano (t - AgentOnlineWindow) <= UnixNano rcv →
  liveKey report tk ∈ liveTasks (reported d report rcv) t ↔ UnixNano (t - TaskTTL) <= UnixNano (at_LastSeenAt tk).
Proof.
  intros (_ & _ & Hnd) Htk Hon. unfold liveKey. rewrite liveTasks_elem. cbn [fst snd].
  rewrite reported_tasks, decide_True by done. cbn [agents reported]. rewrite lookup_insert_eq.
  assert (taskTable report !! (at_Provider tk, at_SessionID tk) = Some (taskRowOf tk)) as ->.
  { unfold taskTable. apply elem_of_list_to_map.
    - rewrite <-list_fmap_compose. exact Hnd.
    - apply list_elem_of_fmap. exists tk. by split. }
  split; [by intros (_ & row & _ & _ & H)|]. intros H. split; [done|]. by eexists.
Qed.

(** ** Reports of an agent *)

Section agent.
Context (urlParse : string → option URL) (loopback : string → bool).
Context (c : Agent.Config) (order : list (ProviderName * string)) (a : Agent) (es : list agentEvent).
Context (t0 T now ledgerNow received : Time).

(** The conditions of [snapshot_valid]: an agent that [New] built, sound
    events in order, and clocks that agree. *)
Definition runs_well : Prop :=
  Agent.New urlParse loopback c order = Ok a ∧ cf_Ledger c = None ∧
  Forall (event_ok T) es ∧ in_order DefaultTaskTTL t0 es ∧ zeroTime < t0 <= T ∧ T <= now ∧
  now <= received <= now + MaxReportAge ∧
  (length (Snapshot (ledger (agentRun a es)) ledgerNow).1 ≤ 256)%nat.

Definition sent : AgentReport := (SnapshotReport (agentRun a es) now ledgerNow).1.

(** JSON can express every reset it has to report. *)
Definition expressible : Prop := map_Forall (λ _ r, encodable (pr_Windows r) = true) (providers (agentRun a es)).

Lemma sent_valid : runs_well → ValidateAgentReport sent received = Ok tt.
Proof. intros (?&?&?&?&?&?&?&?). by apply (snapshot_valid urlParse loopback c order a es t0 T). Qed.

Lemma sent_id : ar_AgentID sent = AgentID (cfg (agentRun a es)).
Proof. unfold sent, SnapshotReport. by destruct (Snapshot _ _). Qed.

Lemma sent_table :
  providersOf sent = map_imap (λ p r, Some (overridden (cfg (agentRun a es)) p r)) (providers (agentRun a es)).
Proof. unfold sent, SnapshotReport, providersOf. by destruct (Snapshot _ _). Qed.

Lemma sent_providers p r :
  providers (agentRun a es) !! p = Some r → providersOf sent !! p = Some (overridden (cfg (agentRun a es)) p r).
Proof. intros Hr. by rewrite sent_table, map_lookup_imap, Hr. Qed.

Lemma sent_tasks : tasksOf sent = (Snapshot (ledger (agentRun a es)) ledgerNow).1.
Proof. unfold sent, SnapshotReport, tasksOf. by destruct (Snapshot _ _). Qed.

Lemma overridden_windows cfg p r : pr_Windows (overridden cfg p r) = pr_Windows r ∧ pr_ObservedAt (overridden cfg p r) = pr_ObservedAt r.
Proof. unfold overridden. repeat case_match; done. Qed.

Lemma sent_content : runs_well → expressible → content_ok sent.
Proof.
  intros Hw He. pose proof (sent_valid Hw) as Hv. apply validate_report_ok, report_ok_content in Hv as (Hps & Hts & Hnd & _).
  split; [|done]. rewrite Forall_forall in Hps |- *. intros [p r] Hin. split; [|exact (Hps _ Hin)].
  apply elem_of_map_to_list in Hin. rewrite sent_table, map_lookup_imap in Hin.
  destruct (providers (agentRun a es) !! p) as [r0|] eqn:Hr; [|done]. cbn in Hin. injection Hin as <-.
  cbn [snd]. rewrite (proj1 (overridden_windows _ p r0)). by apply (He p).
Qed.

(** What is displayed of the agent once its report is in the database [d]. *)
Definition displayed (d : DB) (before : DB) : Prop :=
  (∀ p r t, ValidProvider p = true → providers (agentRun a es) !! p = Some r → 0 < observedNano (pr_ObservedAt r) →
     newest before (AgentID (cfg (agentRun a es))) p (observedNano (pr_ObservedAt r)) →
     ds_Providers (BuildDisplaySnapshot d t) !! p =
       Some (snapshotOfRow (providerRowOf (overridden (cfg (agentRun a es)) p r)) t)) ∧
  (∀ tk t, tk ∈ (Snapshot (ledger (agentRun a es)) ledgerNow).1 → UnixNano (t - AgentOnlineWindow) <= UnixNano received →
     liveKey sent tk ∈ liveTasks d t ↔ UnixNano (t - TaskTTL) <= UnixNano (at_LastSeenAt tk)).

Lemma reported_all before : runs_well → expressible → displayed (reported before sent received) before.
Proof.
  intros Hw He. split.
  - intros p r t Hp Hr Hpos Hnew. destruct (overridden_windows (cfg (agentRun a es)) p r) as [_ Ho].
    rewrite <-Ho in Hpos, Hnew. rewrite <-sent_id in Hnew. apply reported_displayed; [done| |done|done].
    by apply sent_providers.
  - intros tk t Htk Hon. apply reported_live; [by apply sent_content|by rewrite sent_tasks|done].
Qed.
End agent.

Lemma New_fields urlParse loopback c order a :
  Agent.New urlParse loopback c order = Ok a →
  AgentID (cfg a) = AgentID c ∧ ServerURL (cfg a) = ServerURL c ∧ Token (cfg a) = Token c ∧ ReportSink (cfg a) = ReportSink c.
Proof.
  unfold Agent.New. intros (_ & H)%refuse_bind_Ok. apply bind_Ok in H as (_ & _ & H).
  apply bind_Ok in H as (m & _ & [= <-]). done.
Qed.

Lemma displayed_data a es now ledgerNow received d d' before :
  same_data d d' → displayed a es now ledgerNow received d before → displayed a es now ledgerNow received d' before.
Proof.
  intros Hs [H1 H2]. split.
  - intros p r t Hp Hr Hpos Hnew. rewrite (BuildDisplaySnapshot_data d d') by done. by apply H1.
  - intros tk t Htk Hon. rewrite <-H2 by done. destruct Hs as (Ha & _ & Ht), d as [x1 x2 x3 x4], d' as [y1 y2 y3 y4].
    cbn in Ha, Ht. subst. done.
Qed.

Lemma snapshot_cfg a es now ledgerNow : cfg (SnapshotReport (agentRun a es) now ledgerNow).2 = cfg a.
Proof. rewrite <-(agentRun_cfg a es). unfold SnapshotReport. by destruct (Snapshot _ _). Qed.


(** With the sink of [runStandalone], the report goes into the local database,
    which accepts it. *)
Lemma standalone_reports urlParse loopback c order a es t0 T now ledgerNow received Marshal Do d :
  runs_well urlParse loopback c order a es t0 T now ledgerNow received →
  expressible a es → ReportSink c = true → newer d (AgentID c) (UnixNano now) →
  ReportOnce Marshal (localSink received) Do (agentRun a es) now ledgerNow d =
  (Ok tt, (SnapshotReport (agentRun a es) now ledgerNow).2, reported d (sent a es now ledgerNow) received).
Proof.
  intros Hruns Hexpress Hsink Hnewer.
  pose proof (sent_valid _ _ _ _ _ _ _ _ _ _ _ Hruns) as Hvalid.
  pose proof (sent_content _ _ _ _ _ _ _ _ _ _ _ Hruns Hexpress) as Hcontent.
  destruct Hruns as (Hnew & _). apply New_fields in Hnew as (HID & _ & _ & Hsnk).
  assert (Hstore : storable d (sent a es now ledgerNow)).
  { split; [|done]. rewrite sent_id, agentRun_cfg, HID. unfold sent, SnapshotReport. destruct (Snapshot _ _). exact Hnewer. }
  assert (Hlocal : localSink received (sent a es now ledgerNow) d = (Ok tt, reported d (sent a es now ledgerNow) received)).
  { unfold localSink. rewrite Hvalid. destruct (ReplaceAgentReport_cases d (sent a es now ledgerNow) received) as [[_ ->]|[? _]]; done. }
  unfold ReportOnce. unfold sent in *.
  pose proof (snapshot_cfg a es now ledgerNow) as Hcfg.
  destruct (SnapshotReport (agentRun a es) now ledgerNow) as [report a']. cbn [fst snd] in *.
  by rewrite Hcfg, Hsnk, Hsink, Hlocal.
Qed.

(** ** A report of one provider and two tasks *)

Definition demo_minute : Time := demo_start + Minute.
Definition demo_remote (token : string) : Agent.Config :=
  Agent.mkConfig "desk" "https://monitor.example/" token true true None ∅ "" (15 * Second) (60 * Second) true (2 * Minute) None false false false.
Definition demo_parse (url : string) : option URL := Some (mkURL "https" false "monitor.example" "monitor.example").

Lemma demo_runs_well urlParse c a :
  Agent.New urlParse (λ _, false) c [] = Ok a → cf_Ledger c = None →
  ledger a = NewLedger DefaultTaskTTL → runs_well urlParse (λ _, false) c [] a demo_events demo_start demo_minute demo_minute demo_minute demo_minute.
Proof.
  intros E Hl Hled. split; [exact E|]. split; [exact Hl|]. split; [|split; [|split; [|split; [|split]]]].
  - repeat (apply Forall_cons; split); [| | |by apply Forall_nil]; [done| |done]. split; [done|].
    unfold sound. split_and!; try done. split; [|done]. intros w [= <-]. by unfold window_ok, percent.
  - by vm_compute.
  - by vm_compute.
  - done.
  - by vm_compute.
  - assert (Hrun : ledger (agentRun a demo_events) = ledger (agentRun (mkAgent (cfg a) (NewLedger DefaultTaskTTL) (providers a)) demo_events))
      by (destruct a as [x y z]; cbn in Hled |- *; by subst y).
    rewrite Hrun. vm_compute. lia.
Qed.

