(* ===== verification/Reporting.v ===== *)
(** * Reporting over an unreliable link

    [ReportOnce] of [agent.go] promises that the agent's state gets to the
    database; the loop around it repeats a report that failed.  What the agent
    relies on is the interface [Channel] with its laws, as [ReportSink] is in
    the source: a report that is acknowledged has been stored, one that is not
    has changed nothing so far, but it may still be on its way and arrive at
    any later time.  The standalone mode's sink and the HTTPS request to a
    server are its two instances.  The agent's theorem is proved against the
    interface alone. *)

From S2P Require Import Prelude GoTime GoText GoNet GoTextFacts GoFloat Model HookEvent Ledger Limiter Validate Store StoreTokens StoreReports StoreSnapshot Version Firmware Server ServerFacts Claude Agent AgentFacts AgentSnapshot HookServer HookServerFacts Delivery DeliveryFacts.

(** ** Databases that show the same *)

#[global] Instance same_data_equivalence : Equivalence same_data.
Proof.
  split.
  - by intros d.
  - intros d d' (H1 & H2 & H3). by split_and!.
  - intros d d' d'' (H1 & H2 & H3) (K1 & K2 & K3). split_and!; congruence.
Qed.

#[global] Instance newer_proper : Proper (same_data ==> eq ==> eq ==> iff) newer.
Proof. intros d d' (Ha & _) who ? <- s ? <-. unfold newer. by rewrite Ha. Qed.

#[global] Instance storable_proper : Proper (same_data ==> eq ==> iff) storable.
Proof. intros d d' H r ? <-. unfold storable. by rewrite H. Qed.

#[global] Instance shows_proper : Proper (same_data ==> eq ==> iff) shows.
Proof. intros d d' (Ha & Hp & Ht) r ? <-. unfold shows. by rewrite Ha, Hp, Ht. Qed.

#[global] Instance reported_proper : Proper (same_data ==> eq ==> eq ==> same_data) reported.
Proof. intros d d' (Ha & Hp & Ht) r ? <- t ? <-. unfold same_data, reported. simpl. by rewrite Ha, Hp, Ht. Qed.

#[global] Instance BuildDisplaySnapshot_proper : Proper (same_data ==> eq ==> eq) BuildDisplaySnapshot.
Proof. intros d d' H t ? <-. symmetry. by apply BuildDisplaySnapshot_data. Qed.

(** The rows of the agent [who] are the same. *)
Definition quiet (who : string) (d d' : DB) : Prop :=
  agents d' !! who = agents d !! who ∧
  (∀ p, provider_reports d' !! (who, p) = provider_reports d !! (who, p)) ∧
  (∀ p s, active_tasks d' !! (who, p, s) = active_tasks d !! (who, p, s)).

#[global] Instance quiet_equivalence who : Equivalence (quiet who).
Proof.
  split.
  - by intros d.
  - intros d d' (H1 & H2 & H3). by split_and!.
  - intros d d' d'' (H1 & H2 & H3) (K1 & K2 & K3). split_and!; intros; congruence.
Qed.

#[global] Instance same_data_quiet who : subrelation same_data (quiet who).
Proof. intros d d' (Ha & Hp & Ht). unfold quiet. by rewrite Ha, Hp, Ht. Qed.

Lemma shows_quiet who d d' r : ar_AgentID r = who → quiet who d d' → shows d r → shows d' r.
Proof. intros <- (Ha & Hp & Ht) (Hs1 & Hs2 & Hs3). unfold shows. setoid_rewrite Ha. setoid_rewrite Hp. by setoid_rewrite Ht. Qed.

(** Another agent's report leaves the rows alone. *)
Lemma reported_quiet who d r t : ar_AgentID r ≠ who → quiet who d (reported d r t).
Proof.
  intros Hne. split_and!.
  - cbn. by rewrite lookup_insert_ne.
  - intros p. rewrite reported_reports, decide_False; [done|congruence].
  - intros p s. rewrite reported_tasks, decide_False; [done|congruence].
Qed.

(** The report [r] becomes the agent's rows; it is newer than they were. *)
Definition published (d d' : DB) (r : AgentReport) : Prop :=
  storable d r ∧ ∃ t, same_data (reported d r t) d'.

Lemma published_shows d d' r : published d d' r → shows d' r.
Proof. intros (_ & t & <-). apply reported_shows. Qed.

Lemma shown_older d d' r r' :
  published d d' r' → shows d r → ar_AgentID r' = ar_AgentID r → UnixNano (ar_SentAt r) < UnixNano (ar_SentAt r').
Proof. intros ((Hn & _) & _) ((rcv & Ha) & _) He. rewrite <- He in Ha. apply (Hn _ Ha). Qed.

(** ** The interface *)

(** How the reports of the agent [who] travel, in a world [W]. *)
Class Channel (who : string) (W : Type) := {
  choice : Type;
  report : choice → Agent → Time → Time → W → result DeliveryError unit * Agent * W;
  drifts : W → W → Prop;           (* what happens without the agent *)
  rows : W → DB;
  pending : W → list AgentReport   (* given up by the agent, but still on their way *)
}.
Arguments choice : clear implicits.
Arguments choice _ _ {_}.

Class ChannelLaws (who : string) (W : Type) `{!Channel who W} := {
  usable : Agent.Config → Prop;
  sane : W → Prop;
  pending_law w r : sane w → r ∈ pending w → ar_AgentID r = who;
  report_law ch a now ledgerNow w res a' w' :
    AgentID (cfg a) = who → usable (cfg a) → sane w → report ch a now ledgerNow w = (res, a', w') →
    sane w' ∧ a' = (SnapshotReport a now ledgerNow).2 ∧
    let r := (SnapshotReport a now ledgerNow).1 in
    match res with
    | Ok _ => published (rows w) (rows w') r ∧ pending w' = pending w
    | Err _ => same_data (rows w) (rows w') ∧ pending w' ⊆ r :: pending w
    end;
  drift_law w w' :
    sane w → drifts w w' →
    sane w' ∧ pending w' ⊆ pending w ∧
    (quiet who (rows w) (rows w') ∨ ∃ r, r ∈ pending w ∧ published (rows w) (rows w') r)
}.

(** ** What the agent can rely on *)

Section agent.
Context {who : string} {W : Type} `{HC : !Channel who W, HL : !ChannelLaws who W}.
Implicit Types (a : Agent) (w : W) (r : AgentReport) (S : list AgentReport).

(** An agent at work: it takes something in, it reports (an attempt has a
    snapshot and an outcome), or something happens outside. *)
Inductive label := Happens (e : agentEvent) | Reports (r : AgentReport) (res : result DeliveryError unit) | Drifts.

Inductive step : Agent * W → label → Agent * W → Prop :=
| step_happens a w e : step (a, w) (Happens e) (agentStep a e, w)
| step_reports ch a now ledgerNow w res a' w' :
    report ch a now ledgerNow w = (res, a', w') →
    step (a, w) (Reports (SnapshotReport a now ledgerNow).1 res) (a', w')
| step_drifts a w w' : drifts w w' → step (a, w) Drifts (a, w').

Inductive steps : Agent * W → list label → Agent * W → Prop :=
| steps_nil s : steps s [] s
| steps_cons s l s1 tr s2 : step s l s1 → steps s1 tr s2 → steps s (l :: tr) s2.

(** The snapshots of a run's attempts. *)
Definition snapshots (tr : list label) : list AgentReport :=
  omap (λ l, match l with Reports r _ => Some r | _ => None end) tr.

(** [S] has everything that is still on its way. *)
Definition tracked S a w : Prop :=
  AgentID (cfg a) = who ∧ usable (cfg a) ∧ sane w ∧ pending w ⊆ S.

Lemma snapshot_who a now ledgerNow : ar_AgentID (SnapshotReport a now ledgerNow).1 = AgentID (cfg a).
Proof. unfold SnapshotReport. by destruct (Snapshot _ _). Qed.
Lemma snapshot_config a now ledgerNow : cfg (SnapshotReport a now ledgerNow).2 = cfg a.
Proof. unfold SnapshotReport. by destruct (Snapshot _ _). Qed.

(** One step: the agent's rows stay, or become a snapshot it has taken. *)
Lemma step_cases S a w l a' w' :
  tracked S a w → step (a, w) l (a', w') →
  tracked (snapshots [l] ++ S) a' w' ∧
  (quiet who (rows w) (rows w') ∨
   ∃ r, r ∈ snapshots [l] ++ S ∧ ar_AgentID r = who ∧ published (rows w) (rows w') r) ∧
  (∀ r, l = Reports r (Ok tt) → ar_AgentID r = who ∧ published (rows w) (rows w') r).
Proof.
  intros (Hid & Hu & Hs & Hp) Hstep. inversion Hstep as [? ? e|ch ? now ledgerNow ? res ? ? Hrep|? ? ? Hd]; subst; clear Hstep.
  - rewrite <- (agentStep_cfg a e) in Hid, Hu. split; [by split_and!|]. split; [by left|done].
  - pose proof (snapshot_who a now ledgerNow) as Hw. pose proof (snapshot_config a now ledgerNow) as Hc.
    destruct (report_law ch a now ledgerNow w res a' w' Hid Hu Hs Hrep) as (Hs' & -> & Hres). cbn zeta in Hres.
    destruct (SnapshotReport a now ledgerNow) as [r a']. cbn [fst snd] in *. rewrite Hid in Hw.
    assert (pending w' ⊆ r :: S) as Hpend 
      by (clear -Hp Hres; destruct res as [[]|]; destruct Hres as [_ Hsub]; [rewrite Hsub|]; set_solver).
    split; [by rewrite <- Hc in Hid, Hu; split_and!|]. destruct res as [[]|e]; destruct Hres as [Hpub _].
    + split; [right; exists r; split; [left|done]|]. by intros r' [= <-].
    + split; [left; by rewrite Hpub|done].
  - destruct (drift_law w w' Hs Hd) as (Hs' & Hsub & Hq).
    split; [split_and!; try done; set_solver|]. split; [|done].
    destruct Hq as [?|(r & Hr & Hpub)]; [by left|]. right. exists r. split; [set_solver|]. split; [by apply (pending_law w)|done].
Qed.

Lemma snapshots_app tr tr' : snapshots (tr ++ tr') = snapshots tr ++ snapshots tr'.
Proof. apply omap_app. Qed.
Lemma snapshots_cons l tr : snapshots (l :: tr) = snapshots [l] ++ snapshots tr.
Proof. apply (snapshots_app [l] tr). Qed.

Lemma steps_tracked S a w tr a' w' :
  tracked S a w → steps (a, w) tr (a', w') → tracked (snapshots tr ++ S) a' w'.
Proof.
  intros Ht Hsteps. revert S Ht. remember (a, w) as s eqn:Es. remember (a', w') as s' eqn:Es'.
  revert a w Es. induction Hsteps as [s|s l [a1 w1] tr s2 Hstep _ IH]; intros a w -> S Ht.
  - by injection Es' as -> ->.
  - apply step_cases with (S := S) in Hstep as (Ht1 & _); [|done].
    specialize (IH Es' _ _ eq_refl _ Ht1). destruct IH as (? & ? & ? & Hsub). split_and!; [done..|].
    rewrite snapshots_cons. set_solver.
Qed.

(** Along a run, what is shown is replaced only by newer snapshots. *)
Lemma steps_shows S a w tr a' w' r :
  tracked S a w → ar_AgentID r = who → shows (rows w) r → steps (a, w) tr (a', w') →
  ∃ r', (r' = r ∨ r' ∈ snapshots tr ++ S ∧ UnixNano (ar_SentAt r) < UnixNano (ar_SentAt r')) ∧
    ar_AgentID r' = who ∧ shows (rows w') r'.
Proof.
  intros Ht Hr Hshow Hsteps. revert S r Ht Hr Hshow. remember (a, w) as s eqn:Es. remember (a', w') as s' eqn:Es'.
  revert a w Es. induction Hsteps as [s|s l [a1 w1] tr s2 Hstep _ IH]; intros a w -> S r Ht Hr Hshow.
  - injection Es' as -> ->. exists r. eauto.
  - apply step_cases with (S := S) in Hstep as (Ht1 & Hrows & _); [|done].
    destruct Hrows as [Hq|(r1 & Hin & Hid & Hpub)].
    + apply (shows_quiet who _ (rows w1)) in Hshow; [|done..].
      destruct (IH Es' _ _ eq_refl _ r Ht1 Hr Hshow) as (r' & [->|[Hr' Hlt]] & Hid' & Hs'); [by eauto|].
      exists r'. split; [right; split; [rewrite snapshots_cons; set_solver|done]|done].
    + pose proof (shown_older _ _ _ _ Hpub Hshow) as Hlt. rewrite Hr, Hid in Hlt. specialize (Hlt eq_refl).
      destruct (IH Es' _ _ eq_refl _ r1 Ht1 Hid (published_shows _ _ _ Hpub)) as (r' & Hr' & Hid' & Hs').
      exists r'. split; [right|done]. rewrite snapshots_cons.
      destruct Hr' as [->|[Hr' Hlt']]; split; [set_solver|done|set_solver|lia].
Qed.

(** Whatever is shown after a run was shown before it, or is a snapshot. *)
Lemma steps_rows S a w tr a' w' :
  tracked S a w → steps (a, w) tr (a', w') →
  quiet who (rows w) (rows w') ∨ ∃ r, r ∈ snapshots tr ++ S ∧ ar_AgentID r = who ∧ shows (rows w') r.
Proof.
  intros Ht Hsteps. revert S Ht. remember (a, w) as s eqn:Es. remember (a', w') as s' eqn:Es'.
  revert a w Es. induction Hsteps as [s|s l [a1 w1] tr s2 Hstep Hrest IH]; intros a w -> S Ht.
  - injection Es' as -> ->. by left.
  - apply step_cases with (S := S) in Hstep as (Ht1 & Hrows & _); [|done].
    rewrite snapshots_cons. destruct Hrows as [Hq|(r1 & Hin & Hid & Hpub)].
    + destruct (IH Es' _ _ eq_refl _ Ht1) as [Hq'|(r & Hr & ? & ?)]; [left; by rewrite Hq|].
      right. exists r. split; [set_solver|done].
    + subst s2. destruct (steps_shows _ _ _ _ _ _ r1 Ht1 Hid (published_shows _ _ _ Hpub) Hrest) as (r & Hr & ? & ?).
      right. exists r. split; [set_solver|done].
Qed.

Lemma steps_app s tr1 tr2 s2 : steps s (tr1 ++ tr2) s2 → ∃ s1, steps s tr1 s1 ∧ steps s1 tr2 s2.
Proof.
  revert s. induction tr1 as [|l tr1 IH]; intros s H; simpl in H.
  - exists s. split; [constructor|done].
  - inversion H as [|? ? s1' ? ? Hl Hr]; subst. destruct (IH _ Hr) as (s2' & ? & ?). exists s2'. split; [by econstructor|done].
Qed.

(** A report that is acknowledged is shown, and then never anything older. *)
Lemma acknowledged a w tr1 r tr2 a' w' :
  AgentID (cfg a) = who → usable (cfg a) → sane w → pending w = [] →
  steps (a, w) (tr1 ++ Reports r (Ok tt) :: tr2) (a', w') →
  ∃ r', (r' = r ∨ r' ∈ snapshots tr1 ++ snapshots tr2 ∧ UnixNano (ar_SentAt r) < UnixNano (ar_SentAt r')) ∧
    shows (rows w') r'.
Proof.
  intros Hid Hu Hs Hp Hrun. assert (tracked [] a w) as Ht by (split_and!; [done..|by rewrite Hp]).
  apply steps_app in Hrun as ([a1 w1] & H1 & H2). apply steps_tracked with (S := []) in H1; [|done].
  inversion H2 as [|? ? [a2 w2] ? ? Hl Hr]; subst. rewrite app_nil_r in H1.
  apply step_cases with (S := snapshots tr1) in Hl as (Ht2 & _ & Hack); [|done]. destruct (Hack r eq_refl) as (Hr1 & Hpub).
  destruct (steps_shows _ _ _ _ _ _ r Ht2 Hr1 (published_shows _ _ _ Hpub) Hr) as (r' & Hr' & _ & Hshow).
  exists r'. split; [|done]. destruct Hr' as [->|[Hin Hlt]]; [by left|]. right. split; [|done].
  rewrite !elem_of_app in Hin. destruct Hin as [Hin|[Hin|Hin]]; [set_solver| |set_solver].
  apply list_elem_of_singleton in Hin. subst r'. lia.
Qed.
End agent.

(** ** The sink of the standalone mode *)

Section standalone.
Context (who : string).

(** Outside the agent, the other clients of the database: tokens, pruning, and
    other agents. *)
#[export] Instance sinkChannel : Channel who DB := {|
  choice := Time;   (* the clock of the sink *)
  report received a now ledgerNow d := ReportOnce (λ _, None) (localSink received) (λ _ d, (None, d)) a now ledgerNow d;
  drifts d d' := db_ok d' ∧ quiet who d d';
  rows d := d;
  pending _ := []
|}.

Lemma localSink_cases received r d :
  (storable d r ∧ localSink received r d = (Ok tt, reported d r received)) ∨ (∃ e, localSink received r d = (Err e, d)).
Proof.
  unfold localSink. destruct (ValidateAgentReport r received) as [[]|e]; [|right; by eexists].
  destruct (ReplaceAgentReport_cases d r received) as [[Hs ->]|[_ (e & -> & _)]]; [by left|right; by eexists].
Qed.

#[export] Program Instance sinkLaws : ChannelLaws who DB := {|
  usable c := ReportSink c = true;
  sane := db_ok
|}.
Next Obligation. intros w r _ Hr. by apply elem_of_nil in Hr. Qed.
Next Obligation.
  intros ch a now ledgerNow d res a' d' Hid Hu Hok Hrun. cbn [report sinkChannel] in Hrun. unfold ReportOnce in Hrun.
  pose proof (snapshot_config a now ledgerNow) as Hc. cbn [rows pending sinkChannel].
  destruct (SnapshotReport a now ledgerNow) as [r a1]. cbn [fst snd] in *. rewrite Hc, Hu in Hrun.
  destruct (localSink_cases ch r d) as [[Hs E]|[e E]]; rewrite E in Hrun; injection Hrun as <- <- <-.
  - split; [by apply reported_ok; [|destruct Hs]|]. split; [done|]. split; [|done]. split; [done|]. by exists ch.
  - split; [done|]. split; [done|]. split; [done|]. set_solver.
Qed.
Next Obligation. intros d d' _ [Hok Hq]. split; [done|]. split; [set_solver|]. by left. Qed.
End standalone.

(** ** The request to a server *)

(** A request is answered, or the agent gives it up; then it may still arrive
    later. *)
Record Link := mkLink { ln_server : Server; ln_flying : list outgoing }.

Section link.
Context (who base : string) (Marshal : AgentReport → option string) (Decode : string → result bodyError AgentReport).
Context (Hjson : ∀ r body, Marshal r = Some body → Decode body = Ok r).

Inductive fate := Answered (peer : string) (env : Around) | GivenUp.

Definition Do (f : fate) (out : outgoing) (l : Link) : option Z * Link :=
  match f with
  | Answered peer env =>
    let '(status, s) := serverAnswers Decode base peer env out (ln_server l) in (status, mkLink s (ln_flying l))
  | GivenUp => (None, mkLink (ln_server l) (out :: ln_flying l))
  end.

(** Outside the agent: a request that was given up arrives, other requests are
    served, tokens are created and revoked. *)
Inductive linkDrifts : Link → Link → Prop :=
| arrives s before out after peer env :
    linkDrifts (mkLink s (before ++ out :: after)) (mkLink (serverAnswers Decode base peer env out s).2 (before ++ after))
| serves s flying request env :
    (∀ id row, presents s request ScopeAgentWrite id row → tk_agent_id row ≠ Some who) →
    linkDrifts (mkLink s flying) (mkLink (ServeHTTP s request env).2 flying)
| edits s flying db : db_ok db → same_data (store s) db → linkDrifts (mkLink s flying) (mkLink (setStore s db) flying).

Definition decoded (out : outgoing) : option AgentReport :=
  match Decode (og_Payload out) with Ok r => Some r | Err _ => None end.

#[export] Instance linkChannel : Channel who Link := {|
  choice := fate;
  report f a now ledgerNow l := ReportOnce Marshal (λ _ l, (Err (LocalStoreFailed ErrStaleReport), l)) (Do f) a now ledgerNow l;
  drifts := linkDrifts;
  rows l := store (ln_server l);
  pending l := omap decoded (ln_flying l)
|}.

(** A request of this agent. *)
Definition ours (out : outgoing) : Prop :=
  og_URL out = base +:+ reportPath ∧ ∃ r, Decode (og_Payload out) = Ok r ∧ ar_AgentID r = who.

Lemma omap_less {A B} (f : A → option B) l1 x l2 : omap f (l1 ++ l2) ⊆ omap f (l1 ++ x :: l2).
Proof. intros y. rewrite !list_elem_of_omap. intros (z & Hz & Hf). exists z. split; [set_solver|done]. Qed.

Lemma serverAnswers_report out s peer env r :
  db_ok (store s) → og_URL out = base +:+ reportPath → Decode (og_Payload out) = Ok r →
  let '(status, s') := serverAnswers Decode base peer env out s in
  db_ok (store s') ∧
  match status with
  | Some 204 => published (store s) (store s') r
  | _ => same_data (store s) (store s')
  end.
Proof.
  intros Hok Hurl Hdec. unfold serverAnswers. rewrite Hurl, TrimPrefix_app, ServeHTTP_report, Hdec.
  destruct (handleAgentReport _ _ _) as [resp s'] eqn:E. apply report_isolated in E as (Hyes & Hno & _ & Hok'); [|done].
  split; [done|]. destruct (decide (Status resp = 204)) as [E|E].
  - rewrite E. destruct (Hyes E) as (r' & _ & _ & [= <-] & _ & _ & _ & Hs & Hd). split; [done|]. by eexists.
  - specialize (Hno E). by repeat case_match.
Qed.

Lemma authenticate_ok s request scope limit c res s' :
  db_ok (store s) → authenticate s request scope limit c = (res, s') → db_ok (store s') ∧ same_data (store s) (store s').
Proof.
  intros Hok Ha. split; [|by eapply authenticate_data]. apply authenticate_cases in Ha as (_ & _ & [->|(record & Hr)] & _); [done|].
  destruct (AuthenticateToken_cases (store s) (parseBearer (Authorization request)).1 scope (atUse c) Hok) as [(id & row & _ & E)|[_ E]];
    rewrite E in Hr; [|done]. injection Hr as _ <-. by apply useToken_ok.
Qed.

(** Either the answer is not 204 and no row of a table of reports changed, or
    the request carried an accepted report of its token's agent. *)
Lemma ServeHTTP_effect s request env resp s' :
  db_ok (store s) → ServeHTTP s request env = (resp, s') →
  db_ok (store s') ∧
  (Status resp ≠ 204 ∧ same_data (store s) (store s') ∨
   Status resp = 204 ∧ ∃ report id row, Body request = Ok report ∧ presents s request ScopeAgentWrite id row ∧
     tk_agent_id row = Some (ar_AgentID report) ∧ report_ok report (atHandle (clock env)) ∧ storable (store s) report ∧
     same_data (reported (store s) report (atHandle (clock env))) (store s')).
Proof.
  intros Hok. unfold ServeHTTP. destruct (PathUnescape (Path request)) as [path|]; [|intros [= <- <-]; split; [done|by left]].
  destruct (_ || _); [intros [= <- <-]; split; [done|by left]|].
  destruct (muxTarget (Method request) (Path request)) as [| |segments]; [intros [= <- <-]; split; [done|by left]..|].
  assert (∀ scope limit res s1, authenticate s request scope limit (clock env) = (res, s1) →
            db_ok (store s1) ∧ same_data (store s) (store s1) ∧ match res with Err e => Status e ≠ 204 | Ok _ => True end) as Hread.
  { intros scope limit res s1 H. pose proof H as (_ & _ & _ & He)%authenticate_cases. apply authenticate_ok in H as (? & ?); [|done].
    split_and!; [done..|]. destruct res as [|e]; [done|]. by destruct He as [->|(n & ->)]. }
  destruct (route (Method request) segments); try (intros [= <- <-]; split; [done|by left]).
  - unfold handleHealth. intros [= <- <-]. destruct (_ || _); (split; [done|left; split; [by case_match|done]]).
  - intros E. apply report_isolated in E as (Hyes & Hno & _ & Hok'); [|done]. split; [done|].
    destruct (decide (Status resp = 204)) as [E|E]; [right; auto|left; auto].
  - unfold handleDisplaySnapshot. destruct (authenticate _ _ _ _ _) as [[?|?] s1] eqn:E; apply Hread in E as (? & ? & ?);
      intros [= <- <-]; (split; [done|by left]).
  - unfold handleFirmwareManifest. destruct (authenticate _ _ _ _ _) as [[?|?] s1] eqn:E; apply Hread in E as (? & ? & ?);
      [case_match|]; intros [= <- <-]; (split; [done|left; split; [|done]]); try done. by destruct e.
  - unfold handleFirmwareDownload. destruct (authenticate _ _ _ _ _) as [[?|?] s1] eqn:E; apply Hread in E as (? & ? & ?);
      repeat case_match; intros [= <- <-]; (split; [done|left; split; [|done]]); try done. by destruct e.
Qed.

(** No request moves the rows of an agent whose token it does not carry. *)
Lemma ServeHTTP_quiet s request env :
  db_ok (store s) → (∀ id row, presents s request ScopeAgentWrite id row → tk_agent_id row ≠ Some who) →
  db_ok (store (ServeHTTP s request env).2) ∧ quiet who (store s) (store (ServeHTTP s request env).2).
Proof.
  intros Hok Hother. destruct (ServeHTTP s request env) as [resp s'] eqn:E. cbn [snd].
  apply ServeHTTP_effect in E as (Hok' & [[_ Hd]|(_ & r & id & row & _ & Hp & Hrow & _ & _ & Hd)]); [..|done]; (split; [done|]).
  - by rewrite Hd.
  - rewrite <- Hd. apply reported_quiet. intros <-. by apply (Hother id row).
Qed.

#[export] Program Instance linkLaws : ChannelLaws who Link := {|
  usable c := ReportSink c = false ∧ TrimRightSlash (ServerURL c) = base;
  sane l := db_ok (store (ln_server l)) ∧ Forall ours (ln_flying l)
|}.
Next Obligation.
  intros l r [_ Hours] (out & Hout & Hd)%list_elem_of_omap. rewrite Forall_forall in Hours.
  destruct (Hours out Hout) as (_ & r' & Hr' & Hid). unfold decoded in Hd. rewrite Hr' in Hd. by injection Hd as <-.
Qed.
Next Obligation.
  intros f a now ledgerNow l res a' l' Hid [Hsink Hbase] [Hok Hours] Hrun. cbn [report linkChannel] in Hrun. unfold ReportOnce in Hrun.
  pose proof (snapshot_config a now ledgerNow) as Hc. pose proof (snapshot_who a now ledgerNow) as Hw. cbn [rows pending linkChannel].
  destruct (SnapshotReport a now ledgerNow) as [r a1]. cbn [fst snd] in *. rewrite Hc, Hsink in Hrun.
  destruct (Marshal r) as [body|] eqn:Em; [|injection Hrun as <- <- <-; split; [done|]; split; [done|]; split; [done|(clear; set_solver)]].
  apply Hjson in Em. remember (mkOutgoing (reportEndpoint (cfg a)) ("Bearer " +:+ Token (cfg a)) body) as out eqn:Eout.
  assert (ours out ∧ decoded out = Some r) as [Hout Hdec].
  { subst out. unfold ours, decoded, reportEndpoint. cbn [og_URL og_Payload]. rewrite Hbase, Em. split; [|done].
    split; [done|]. exists r. by rewrite Hw. }
  destruct f as [peer env|]; cbn [Do] in Hrun.
  - pose proof (serverAnswers_report out (ln_server l) peer env r Hok (proj1 Hout)) as Hserve.
    replace (Decode (og_Payload out)) with (Ok r : result bodyError AgentReport) in Hserve by (by subst out). specialize (Hserve eq_refl).
    destruct (serverAnswers Decode base peer env out (ln_server l)) as [status s1]. destruct Hserve as [Hok1 Hserve].
    destruct status as [z|]; injection Hrun as <- <- <-; cbn [ln_server ln_flying].
    + split; [done|]. split; [done|]. destruct (decide (z = 204)) as [->|Hz]; [done|].
      rewrite (proj2 (Z.eqb_neq _ _) Hz). cbn. split; [by repeat case_match|(clear; set_solver)].
    + split; [done|]. split; [done|]. split; [done|(clear; set_solver)].
  - injection Hrun as <- <- <-. cbn [ln_server ln_flying]. split; [split; [done|by constructor]|]. split; [done|]. split; [done|].
    cbn [omap list_omap]. by rewrite Hdec.
Qed.
Next Obligation.
  intros l l' [Hok Hours] Hd. destruct Hd as [s before out after peer env|s flying request env Hother|s flying db Hdb Hsame];
    cbn [ln_server ln_flying rows pending linkChannel] in *.
  - apply Forall_app in Hours as [Hb Ha]. apply Forall_cons in Ha as [(Hurl & r & Hr & Hid) Ha].
    pose proof (serverAnswers_report out s peer env r Hok Hurl Hr) as Hserve.
    destruct (serverAnswers Decode base peer env out s) as [status s1]. destruct Hserve as [Hok1 Hserve]. cbn [snd].
    split; [split; [done|by apply Forall_app]|]. split; [apply omap_less|].
    destruct (decide (status = Some 204)) as [->|Hne].
    + right. exists r. split; [|done]. rewrite omap_app. apply elem_of_app. right. cbn [omap list_omap].
      unfold decoded at 1. rewrite Hr. left.
    + left. assert (same_data (store s) (store s1)) as Hs by (by repeat case_match). by rewrite Hs.
  - destruct (ServeHTTP_quiet s request env Hok Hother) as [Hok1 Hq]. split; [done|]. split; [done|]. by left.
  - split; [done|]. split; [done|]. left. by rewrite Hsame.
Qed.
End link.

(** C10. Never rolled back: an agent that reports over HTTPS, with any of its
    requests answered, lost or overtaken by later ones, with other agents,
    displays and administrators at work on the server and new events at the
    agent in between: the rows of the agent in the database are at any time
    those that were there at first or exactly one snapshot of the agent; and
    once a report has been acknowledged, they are that snapshot or one that was
    taken later by the agent's clock, however late an older request arrives. *)
Theorem Reports_never_rolled_back (Marshal : AgentReport → option string) (Decode : string → result bodyError AgentReport)
    (a a' : Agent) (s : Server) (l : Link)
    (tr : list label)
    (Hjson : ∀ r body, Marshal r = Some body → Decode body = Ok r)
    (Hsink : ReportSink (cfg a) = false) (Hok : db_ok (store s))
    (Hrun : steps (HC := linkChannel (AgentID (cfg a)) (TrimRightSlash (ServerURL (cfg a))) Marshal Decode)
              (a, mkLink s []) tr (a', l)) :
  (quiet (AgentID (cfg a)) (store s) (store (ln_server l)) ∨ ∃ r, r ∈ snapshots tr ∧ shows (store (ln_server l)) r) ∧
  (∀ before r after, tr = before ++ Reports r (Ok tt) :: after →
     ∃ r', (r' = r ∨ r' ∈ snapshots before ++ snapshots after ∧ UnixNano (ar_SentAt r) < UnixNano (ar_SentAt r')) ∧
       shows (store (ln_server l)) r').
Proof.
  set (C := linkChannel (AgentID (cfg a)) (TrimRightSlash (ServerURL (cfg a))) Marshal Decode) in *.
  set (L := linkLaws (AgentID (cfg a)) (TrimRightSlash (ServerURL (cfg a))) Marshal Decode Hjson).
  split.
  - destruct (steps_rows (HC := C) (HL := L) [] a (mkLink s []) tr a' l) as [Hq|(r & Hr & _ & Hs)]; [|done|by left|].
    + split_and!; [done|done|done|apply list_subseteq_nil].
    + right. exists r. by rewrite app_nil_r in Hr.
  - intros before r after ->. by apply (acknowledged (HC := C) (HL := L) a (mkLink s []) before r after a').
Qed.

(** ** A late report *)

Definition demo_first : AgentReport := (SnapshotReport (mkAgent (demo_remote demo_raw) (NewLedger DefaultTaskTTL) ∅) demo_start demo_start).1.
Definition demo_poll : agentEvent :=
  Collected (mkCollectionResult ProviderCodex (mkProviderReport demo_start "authenticated" "pro" "codex" noWindows "") false).
Definition demo_fresh : Agent := mkAgent (demo_remote demo_raw) (NewLedger DefaultTaskTTL) ∅.
Definition demo_later : AgentReport := (SnapshotReport (agentStep demo_fresh demo_poll) demo_minute demo_minute).1.
Definition demo_encode (r : AgentReport) : option string :=
  if bool_decide (r = demo_first) then Some "1" else if bool_decide (r = demo_later) then Some "2" else None.
Definition demo_decode (s : string) : result bodyError AgentReport :=
  if bool_decide (s = "1") then Ok demo_first else if bool_decide (s = "2") then Ok demo_later else Err BodyInvalid.
Definition demo_api : Server :=
  Server.New (Server.mkConfig 0 0 0 0 0 "")
    (match CreateToken emptyDB (mkCreateTokenRequest ScopeAgentWrite "desk" "desk") (Some demo_secret) (Some demo_id) demo_start with
     | Ok (_, d) => d | Err _ => emptyDB end) ∅.

Lemma demo_api_ok : db_ok (store demo_api).
Proof.
  unfold demo_api. cbn [store Server.New].
  destruct (CreateToken _ _ _ _ _) as [[ct d]|e] eqn:E; [|apply emptyDB_ok]. by apply (CreateToken_ok _ _ _ _ _ _ _ emptyDB_ok E).
Qed.

Lemma arrives_at who base Decode l before out after peer env :
  ln_flying l = before ++ out :: after →
  linkDrifts who base Decode l (mkLink (serverAnswers Decode base peer env out (ln_server l)).2 (before ++ after)).
Proof. destruct l as [s flying]. cbn [ln_flying ln_server]. intros ->. constructor. Qed.

Lemma step_call {who W} `{HC : !Channel who W} ch a now ledgerNow w res :
  (report ch a now ledgerNow w).1.1 = res →
  step (a, w) (Reports (SnapshotReport a now ledgerNow).1 res) ((report ch a now ledgerNow w).1.2, (report ch a now ledgerNow w).2).
Proof. intros <-. destruct (report ch a now ledgerNow w) as [[res a'] w'] eqn:E. by apply (step_reports ch). Qed.

(** The first report is given up and arrives after the second one has been
    acknowledged. *)
Lemma Reports_never_rolled_back_witness :
  let tr := [Reports demo_first (Err ReportNotSent); Happens demo_poll; Reports demo_later (Ok tt); Drifts] in
  ∃ a' l, steps (HC := linkChannel "desk" "https://monitor.example" demo_encode demo_decode) (demo_fresh, mkLink demo_api []) tr (a', l) ∧
    ln_flying l = [] ∧ shows (store (ln_server l)) demo_later.
Proof.
  intros tr. set (C := linkChannel "desk" "https://monitor.example" demo_encode demo_decode).
  set (env := mkAround (mkClock demo_minute demo_minute demo_minute demo_minute) true (λ _, false)).
  set (x1 := report (Channel := C) GivenUp demo_fresh demo_start demo_start (mkLink demo_api [])).
  set (x2 := report (Channel := C) (Answered "10.0.0.1:9" env) (agentStep x1.1.2 demo_poll) demo_minute demo_minute x1.2).
  assert (steps (HC := C) (demo_fresh, mkLink demo_api []) tr
    (x2.1.2, mkLink (serverAnswers demo_decode "https://monitor.example" "10.0.0.1:9" env (mkOutgoing "https://monitor.example/api/v1/agent/report" ("Bearer " +:+ demo_raw) "1") (ln_server x2.2)).2 [])) as Hrun.
  { eapply steps_cons; [apply (step_call (HC := C) GivenUp demo_fresh demo_start demo_start); vm_compute; reflexivity|].
    eapply steps_cons; [apply step_happens|].
    replace demo_later with (SnapshotReport (agentStep x1.1.2 demo_poll) demo_minute demo_minute).1 by (vm_compute; reflexivity).
    eapply steps_cons; [apply (step_call (HC := C) (Answered "10.0.0.1:9" env)); vm_compute; reflexivity|].
    eapply steps_cons; [|apply steps_nil]. apply step_drifts. apply (arrives_at _ _ _ x2.2 [] _ []). vm_compute. reflexivity. }
  assert (∀ r body, demo_encode r = Some body → demo_decode body = Ok r) as Hjson.
  { intros r body. unfold demo_encode. do 2 (case_bool_decide; [by intros [= <-]; subst|]). done. }
  destruct (Reports_never_rolled_back demo_encode demo_decode demo_fresh x2.1.2 demo_api _ tr Hjson eq_refl demo_api_ok Hrun) as [_ H].
  eexists _, _. split; [exact Hrun|]. split; [reflexivity|].
  destruct (H [Reports demo_first (Err ReportNotSent); Happens demo_poll] demo_later [Drifts] eq_refl) as (r' & [->|[Hin Hlt]] & Hs); [exact Hs|].
  exfalso. apply list_elem_of_singleton in Hin. subst r'. vm_compute in Hlt. discriminate Hlt.
Defined.
