(* ===== verification/StatusLine.v ===== *)
(** * internal/hooks and cmd/quota-monitor: the status line helper

    [LoadPreviousStatusLine] of [install.go] and [runHookStatusLine] of
    [main.go]: the helper that Claude runs in place of the user's own status
    line.  Decoding the recorded value as a [PreviousStatusLine], the
    transport and the shell are arguments. *)

From S2P Require Import Prelude GoText Json HookConfig Install HookEvent HookServer.

Section helper.
Context (fails : nat → bool) (UnmarshalState : content → option installState).
Context (UnmarshalStatusLine : json → option PreviousStatusLine).

(** A missing state file is an error here. *)
Definition LoadPreviousStatusLine (statePath : string) : IO (option PreviousStatusLine) :=
  old ← readInstallState fails UnmarshalState statePath;
  match old with
  | None => throw (CallFailed "read state")
  | Some state =>
    match st_PreviousStatusLineExists state, st_PreviousStatusLine state with
    | true, Some recorded =>
      match UnmarshalStatusLine recorded with
      | None => throw BadState
      | Some previous => mret (if bool_decide (ps_Command previous = "") then None else Some previous)
      end
    | _, _ => mret None
    end
  end.

(** [readLimited]: [None] is a failed read, or an input over the limit. *)
Definition readLimited (input : option string) (maximum : Z) : option string :=
  match input with Some s => if maximum <? len s then None else Some s | None => None end.

(** The helper after its flags: what it prints.  It never fails. *)
Definition runHookStatusLine (GOOS : string) (ReadFile : string → option string) (loopbackURL : string → bool)
    (c : ForwardConfig) (statePath : string) (input : option string)
    (send : string → hookRequest → option Z) (run : list string → string → option string) : IO string := λ w,
  match readLimited input MaxHookPayload with
  | None => (Ok "", w)
  | Some payload =>
    let '(loaded, w) := LoadPreviousStatusLine statePath w in
    let previous := match loaded with Ok previous => previous | Err _ => None end in
    let '(_, output) := RunStatusLineWrapper ReadFile loopbackURL GOOS c payload previous send run in
    (Ok (match output with Some (Some text) => text | _ => "" end), w)
  end.
End helper.
