(* ===== verification/StatusLineFacts.v ===== *)
(** * The user's status line survives the wrapper

    However often the hooks are installed again, the helper runs the command
    that the first installation replaced. *)

From S2P Require Import Prelude GoText GoFloat Json HookConfig HookConfigFacts Install InstallFacts HookEvent HookServer StatusLine.

Section wrapped.
Context (home : option string) (GOOS : string) (loopbackURL : string → bool).
Context (Join : list string → string) (Clean : string → string).
Context (UnmarshalRoot : string → option (option (list (string * json)))).
Context (UnmarshalState : content → option installState).
Context (UnmarshalStatusLine : json → option PreviousStatusLine).

Abbreviation defaults := (withDefaults home GOOS loopbackURL Join).

(** A successful run of [Install] with some configuration for the given state
    file and configuration of Claude, from files to files. *)
Definition installs (statePath claudePath : string) (fs fs' : FS) : Prop :=
  ∃ fails cs ks c cfg w r,
    defaults c = Ok cfg ∧ StatePath cfg = statePath ∧ ClaudeConfigPath cfg = claudePath ∧ files w = fs ∧
    (Install fails home GOOS loopbackURL Join Clean UnmarshalRoot UnmarshalState cs ks c w).1 = Ok r ∧
    files (Install fails home GOOS loopbackURL Join Clean UnmarshalRoot UnmarshalState cs ks c w).2 = fs'.

(** Another installation, or somebody else's change to other files. *)
Definition laterStep (statePath claudePath : string) (fs fs' : FS) : Prop :=
  installs statePath claudePath fs fs' ∨
  (fs' !! statePath = fs !! statePath ∧ fs' !! claudePath = fs !! claudePath).

(** The recorded status line is [v], and Claude runs the wrapper. *)
Definition records (statePath claudePath : string) (v : json) (fs : FS) : Prop :=
  (∃ s m, fs !! statePath = Some (mkFile (StateFile s) m) ∧ st_Version s = 1 ∧
     st_PreviousStatusLineExists s = true ∧ st_PreviousStatusLine s = Some v) ∧
  (∃ root m wrapper, fs !! claudePath = Some (mkFile (JsonFile root) m) ∧
     field root "statusLine" = Some wrapper ∧ isManagedValue wrapper = true).

(** What an installation writes to the two files. *)
Lemma installs_written statePath claudePath fs fs' :
  installs statePath claudePath fs fs' →
  ∃ cfg claude km, startOf UnmarshalRoot fs claudePath = Some (Some claude, km) ∧
    (∃ m, fs' !! statePath = Some (mkFile (StateFile (newState (f ← fs !! statePath; decodeState UnmarshalState (payload f))
        cfg (claudeMerged cfg claude))) m)) ∧
    (∃ root m wrapper, fs' !! claudePath = Some (mkFile (JsonFile root) m) ∧
       field root "statusLine" = Some wrapper ∧ isManagedValue wrapper = true).
Proof.
  intros (fails & cs & ks & c & cfg & w & r & Hcfg & <- & <- & Hw & Hr & Hfs).
  pose proof (Install_spec fails home GOOS loopbackURL Join Clean UnmarshalRoot UnmarshalState cs ks c fs w Hw) as Hi.
  destruct (Install _ _ _ _ _ _ _ _ _ _ c w) as [r0 w']. cbn [fst snd] in *. subst r0. subst fs'.
  destruct Hi as (cfg0 & codex & claude & cm & km & (Hc & _ & Hk) & Hn & Hf).
  assert (cfg0 = cfg) as -> by congruence.
  pose proof (applied_installed UnmarshalState cs ks fs cfg codex claude cm km Hn) as Ha. rewrite <-Hf in Ha.
  destruct Ha as (Hs & _ & _ & Hl & _). exists cfg, claude, km. split; [done|]. split; [eauto|].
  eexists _, _, _. split; [exact Hl|]. unfold withWrapper. rewrite field_setField, bool_decide_true by done. split; [done|].
  apply managedStatusLine_managed, statusCommand_marked.
Qed.

Lemma merged_statusLine cfg claude : field (claudeMerged cfg claude) "statusLine" = field claude "statusLine".
Proof. by apply field_merge_other. Qed.

Lemma records_first statePath claudePath fs fs' claude km v :
  startOf UnmarshalRoot fs claudePath = Some (Some claude, km) → field claude "statusLine" = Some v → isManagedValue v = false →
  installs statePath claudePath fs fs' → records statePath claudePath v fs'.
Proof.
  intros Hstart Hv Hm (cfg & claude' & km' & Hs & (m & Hst) & Hw)%installs_written. split; [|done].
  assert (claude' = claude) as -> by congruence. eexists _, m. split; [exact Hst|].
  unfold newState. cbn [st_Version st_PreviousStatusLineExists st_PreviousStatusLine].
  rewrite merged_statusLine, Hv, Hm. split; [|done]. destruct (f ← _; _) as [s|]; [|done]. by destruct (Z.eqb_spec (st_Version s) 1).
Qed.

Lemma records_again statePath claudePath fs fs' v :
  records statePath claudePath v fs → installs statePath claudePath fs fs' → records statePath claudePath v fs'.
Proof.
  intros [(s & m & Hs & Hver & Hex & Hprev) (root & m' & wrapper & Hroot & Hf & Hmark)]
    (cfg & claude & km & Hstart & (m2 & Hst) & Hw)%installs_written. split; [|done].
  unfold startOf in Hstart. rewrite Hroot in Hstart. cbn in Hstart. injection Hstart as <- <-.
  eexists _, m2. split; [exact Hst|]. rewrite Hs. cbn [mbind option_bind decodeState payload].
  unfold newState. cbn [st_Version st_PreviousStatusLineExists st_PreviousStatusLine].
  rewrite merged_statusLine, Hf, Hmark, Hver, Z.eqb_refl, Hex, Hprev. done.
Qed.

Lemma records_later statePath claudePath fs fs' v :
  records statePath claudePath v fs → rtc (laterStep statePath claudePath) fs fs' → records statePath claudePath v fs'.
Proof.
  intros H Hs. induction Hs as [fs|fs fs1 fs' [Hi|[H1 H2]] _ IH]; [done|..]; apply IH; [by eapply records_again|].
  unfold records. by rewrite H1, H2.
Qed.

Lemma Load_records fails statePath claudePath v previous w :
  records statePath claudePath v (files w) → UnmarshalStatusLine v = Some previous → ps_Command previous ≠ "" →
  match (LoadPreviousStatusLine fails UnmarshalState UnmarshalStatusLine statePath w).1 with
  | Ok loaded => loaded = Some previous
  | Err _ => fails (count w) = true
  end.
Proof.
  intros [(s & m & Hs & _ & Hex & Hprev) _] Hdec Hne.
  unfold LoadPreviousStatusLine, readInstallState, getFiles, call, mbind, IO_bind.
  destruct (fails (count w)) eqn:Hf; [done|]. cbn [files]. rewrite Hs. cbn [decodeState payload].
  unfold mret, IO_ret. rewrite Hex, Hprev, Hdec. rewrite bool_decide_false by done. done.
Qed.

(** C30. The user keeps their status line: after the hooks were installed over
    a configuration of Claude with a status line, and however often they are
    installed again, by whatever version of the executable, the helper that
    Claude then runs starts the user's own command through the shell on
    exactly the input it was given and prints what that command prints,
    whether or not the quota data could be forwarded, for an input of at most
    64 KiB and if the state file can be read. *)
Theorem Status_line_survives (statePath claudePath : string) (fs0 fs1 : FS) (w : World)
    (claude : list (string * json)) (km : Z) (v : json) (previous : PreviousStatusLine)
    (fails : nat → bool) (os : string) (ReadFile : string → option string) (loopback : string → bool)
    (c : ForwardConfig) (input : string) (send : string → hookRequest → option Z) (run : list string → string → option string)
    (Hstart : startOf UnmarshalRoot fs0 claudePath = Some (Some claude, km))
    (Hv : field claude "statusLine" = Some v) (Huser : isManagedValue v = false)
    (Hdecode : UnmarshalStatusLine v = Some previous) (Hcommand : TrimSpace (ps_Command previous) ≠ "")
    (Hfirst : installs statePath claudePath fs0 fs1) (Hlater : rtc (laterStep statePath claudePath) fs1 (files w))
    (Hread : fails (count w) = false) (Hinput : len input <= MaxHookPayload) :
  (runHookStatusLine fails UnmarshalState UnmarshalStatusLine os ReadFile loopback c statePath (Some input) send run w).1 =
  Ok (default "" (run (shellCommand os (ps_Command previous)) input)).
Proof.
  pose proof (records_later _ _ _ _ v (records_first _ _ _ _ _ _ _ Hstart Hv Huser Hfirst) Hlater) as Hrec.
  assert (Hne : ps_Command previous ≠ "") by (intros E; by rewrite E in Hcommand).
  pose proof (Load_records fails _ _ _ _ w Hrec Hdecode Hne) as Hload.
  unfold runHookStatusLine, readLimited. rewrite (proj2 (Z.ltb_ge _ _)) by done.
  destruct (LoadPreviousStatusLine _ _ _ statePath w) as [[loaded|e] w']; cbn [fst] in Hload; [|congruence]. subst loaded.
  unfold RunStatusLineWrapper. rewrite bool_decide_false by done. by destruct (run _ _).
Qed.
End wrapped.

(** ** A status line, installed over twice *)

Definition demo_line : json := JObject [("type", JString "command"); ("command", JString "date")].
Definition demo_claude : list (string * json) := [("statusLine", demo_line)].
Definition demo_first : FS := {["/home/u/.claude/settings.json" := mkFile (JsonFile demo_claude) 0x1a4]}.
Definition demo_decode (v : json) : option PreviousStatusLine :=
  match v with JObject f => match field f "command" with Some (JString c) => Some (mkPreviousStatusLine "command" c) | _ => None end | _ => None end.
Definition demo_run (stamp : string) (w : World) :=
  Install (λ _, false) None "linux" (λ _, true) slash id (λ _, None) (λ _, None) stamp stamp InstallFacts.demo_config w.
Definition demo_once : World := (demo_run "t1" (mkWorld demo_first 0 0)).2.
Definition demo_twice : World := (demo_run "t2" demo_once).2.

Lemma demo_installs stamp w :
  is_ok (demo_run stamp w).1 = true →
  installs None "linux" (λ _, true) slash id (λ _, None) (λ _, None) "/home/u/.quota-monitor/hooks-state.json"
    "/home/u/.claude/settings.json" (files w) (files (demo_run stamp w).2).
Proof.
  intros H. destruct (demo_run stamp w) as [[r|e] w'] eqn:E; [|done].
  exists (λ _, false), stamp, stamp, InstallFacts.demo_config, demo_full, w, r.
  split; [vm_compute; reflexivity|]. split; [reflexivity|]. split; [reflexivity|]. split; [reflexivity|].
  unfold demo_run in E. rewrite E. done.
Qed.

Lemma Status_line_survives_witness :
  (runHookStatusLine (λ _, false) (λ _, None) demo_decode "linux" (λ _, None) (λ _, false)
     (mkForwardConfig "" "" "") "/home/u/.quota-monitor/hooks-state.json" (Some "{}") (λ _ _, None)
     (λ args input, Some (joinSpace args +:+ input)) demo_twice).1 = Ok "/bin/sh -c date{}".
Proof.
  apply (Status_line_survives None "linux" (λ _, true) slash id (λ _, None) (λ _, None) demo_decode
    "/home/u/.quota-monitor/hooks-state.json" "/home/u/.claude/settings.json" demo_first (files demo_once) demo_twice
    demo_claude 0x1a4 demo_line (mkPreviousStatusLine "command" "date")).
  - vm_compute. reflexivity.
  - vm_compute. reflexivity.
  - vm_compute. reflexivity.
  - vm_compute. reflexivity.
  - vm_compute. discriminate.
  - apply (demo_installs "t1" (mkWorld demo_first 0 0)). vm_compute. reflexivity.
  - apply rtc_once. left. apply (demo_installs "t2" demo_once). vm_compute. reflexivity.
  - reflexivity.
  - vm_compute. discriminate.
Defined.
