(* ===== verification/Provision.v ===== *)
(** * cmd/quota-monitor: secrets and the display token on disk

    [loadOrCreateSecret], [readSecretFile], [resolveUserPath] and
    [ensureDisplayToken] of [main.go], over the files they touch and the
    store's database.  A file is its bytes and its mode.  Every call to the
    operating system or to the database is numbered; an oracle decides which of
    them fail, and how many bytes a failing write has written.  A database call
    that fails changes nothing.  Random bytes, the clock, the
    environment and [filepath]'s functions are arguments. *)

From S2P Require Import Prelude GoTime GoText Digest Model Validate Store.

Abbreviation Disk := (gmap string (string * Z)).

Record World := mkWorld { disk : Disk; db : DB; calls : nat }.

Definition IO (A : Type) : Type := World → A * World.
#[global] Instance IO_ret : MRet IO := λ A a w, (a, w).
#[global] Instance IO_bind : MBind IO := λ A B f m w, let '(a, w) := m w in f a w.

Definition setDisk (f : Disk → Disk) : IO unit := λ w, (tt, mkWorld (f (disk w)) (db w) (calls w)).
Definition withDB {A} (f : DB → A * DB) : IO A := λ w, let '(a, d) := f (db w) in (a, mkWorld (disk w) d (calls w)).

Inductive ProvisionError :=
| PathEmpty | NoHome | ReadFailed | SecretEmpty | NoRandom | DirFailed | WriteFailed | OpenFailed
| TokenFileEmpty | TokenMismatch | ChmodFailed | TokenFailed (e : StoreError).

#[global] Instance ProvisionError_eq_dec : EqDecision ProvisionError.
Proof. solve_decision. Defined.

(** What [os.ReadFile] gives. *)
Inductive readResult := Contents (payload : string) | NotExist | ReadError.

Section calls.
Context (fails : nat → bool) (partial : nat → nat).

(** Whether the next call succeeds. *)
Definition call : IO bool := λ w, (negb (fails (calls w)), mkWorld (disk w) (db w) (S (calls w))).

Definition ReadFile (path : string) : IO readResult := λ w,
  let '(ok, w) := call w in
  (if ok then match disk w !! path with Some f => Contents f.1 | None => NotExist end else ReadError, w).

(** A call of the store: nothing when the database fails. *)
Definition callDB {A} (f : DB → A * DB) : IO (option A) :=
  ok ← call;
  if ok : bool then answer ← withDB f; mret (Some answer) else mret None.

(** A write at the end of an open file; a failing one has written a prefix. *)
Definition Write (path data : string) : IO bool := λ w,
  let n := calls w in
  let '(ok, w) := call w in
  let written := if ok then data else Stdlib.Strings.String.substring 0 (partial n) data in
  (ok, mkWorld (alter (λ f : string * Z, (f.1 +:+ written, f.2)) path (disk w)) (db w) (calls w)).

(** [os.WriteFile]: open with O_TRUNC, write, close; the mode of an existing
    file is kept. *)
Definition WriteFile (path data : string) (mode : Z) : IO bool :=
  opened ← call;
  if negb opened then mret false
  else
    _ ← setDisk (λ d, <[path := ("", match d !! path with Some f => f.2 | None => mode end)]> d);
    written ← Write path data;
    closed ← call;
    mret (written && closed).

(** O_CREATE with O_EXCL. *)
Definition OpenExclusive (path : string) (mode : Z) : IO bool := λ w,
  let '(ok, w) := call w in
  match disk w !! path with
  | Some _ => (false, w)
  | None => if ok then (true, mkWorld (<[path := ("", mode)]> (disk w)) (db w) (calls w)) else (false, w)
  end.

Definition Chmod (path : string) (mode : Z) : IO bool := λ w,
  let '(ok, w) := call w in
  (ok, if ok then mkWorld (alter (λ f : string * Z, (f.1, mode)) path (disk w)) (db w) (calls w) else w).

(** ** The shared secret *)

Definition newline : string := String "010"%char "".

Definition createSecret (path : string) (random : option (list Z)) : IO (result ProvisionError string) :=
  match random with
  | None => mret (Err NoRandom)
  | Some buffer =>
    let secret := b64_encode buffer in
    made ← call;
    if negb made then mret (Err DirFailed)
    else
      written ← WriteFile path (secret +:+ newline) 0x180;
      mret (if written : bool then Ok secret else Err WriteFailed)
  end.

Definition loadOrCreateSecret (path : string) (random : option (list Z)) : IO (result ProvisionError string) :=
  read ← ReadFile path;
  match read with
  | Contents payload =>
    let secret := TrimSpace payload in
    if negb (bool_decide (secret = "")) then mret (Ok secret) else createSecret path random
  | NotExist => createSecret path random
  | ReadError => mret (Err ReadFailed)
  end.

(** ** Paths *)

Section paths.
Context (ExpandEnv : string → string) (UserHomeDir : option string).
Context (Join : string → string → string) (IsAbs : string → bool) (Clean : string → string).

(** [strings.TrimLeft(s, `/\`)]. *)
Fixpoint TrimLeftSlashes (s : string) : string :=
  match s with
  | String a rest => if bool_decide (a = "/"%char ∨ a = "\"%char) then TrimLeftSlashes rest else s
  | EmptyString => ""
  end.

(** A leading tilde names the home directory. *)
Definition expandHome (path : string) : result ProvisionError string :=
  if bool_decide (path = "~") || HasPrefix path "~/" || HasPrefix path "~\" then
    match UserHomeDir with
    | None => Err NoHome
    | Some home => Ok (Join home (TrimLeftSlashes (Stdlib.Strings.String.substring 1 (Stdlib.Strings.String.length path) path)))
    end
  else Ok path.

Definition readSecretFile (baseDir path : string) : IO (result ProvisionError string) :=
  if bool_decide (path = "") then mret (Err PathEmpty)
  else match expandHome (ExpandEnv path) with
  | Err e => mret (Err e)
  | Ok path =>
    let path := if IsAbs path then path else Join baseDir path in
    read ← ReadFile path;
    match read with
    | Contents payload =>
      let secret := TrimSpace payload in mret (if bool_decide (secret = "") then Err SecretEmpty else Ok secret)
    | _ => mret (Err ReadFailed)
    end
  end.

Definition resolveUserPath (value : string) : result ProvisionError string :=
  let value := ExpandEnv (TrimSpace value) in
  if bool_decide (value = "") then Err PathEmpty
  else value ← expandHome value; Ok (Clean value).
End paths.

(** ** The display token *)

Definition displayRequest : CreateTokenRequest := mkCreateTokenRequest ScopeDisplayRead "" "standalone display".

(** The errors after the token was created revoke it again; whether that
    succeeded is not looked at. *)
Definition abandon (created : CreatedToken) (now : Time) (e : ProvisionError) : IO (result ProvisionError bool) :=
  _ ← callDB (λ d, RevokeToken d (tr_ID (ct_Record created)) now);
  mret (Err e).

Definition storeToken (path : string) (created : CreatedToken) (now : Time) : IO (result ProvisionError bool) :=
  made ← call;
  if negb made then abandon created now DirFailed
  else
    opened ← OpenExclusive path 0x180;
    if negb opened then abandon created now OpenFailed
    else
      written ← Write path (ct_RawToken created +:+ newline);
      synced ← (if written : bool then call else mret false);
      closed ← call;
      if synced && closed then mret (Ok true) else abandon created now WriteFailed.

(** [ensureDisplayToken], at one reading of the clock; [secret] and [idBytes]
    are the random bytes of the new token. *)
Definition ensureDisplayToken (path : string) (secret idBytes : option (list Z)) (now : Time)
    : IO (result ProvisionError bool) :=
  read ← ReadFile path;
  match read with
  | Contents payload =>
    let raw := TrimSpace payload in
    if bool_decide (raw = "") then mret (Err TokenFileEmpty)
    else
      auth ← callDB (λ d, AuthenticateToken d raw ScopeDisplayRead now);
      match auth with
      | None | Some (Err _) => mret (Err TokenMismatch)
      | Some (Ok _) => ok ← Chmod path 0x180; mret (if ok : bool then Ok false else Err ChmodFailed)
      end
  | ReadError => mret (Err ReadFailed)
  | NotExist =>
    created ← callDB (λ d, match CreateToken d displayRequest secret idBytes now with
                           | Ok (created, d) => (Ok created, d) | Err e => (Err e, d) end);
    match created with
    | None => mret (Err (TokenFailed InsertTokenFailed))
    | Some (Err e) => mret (Err (TokenFailed e))
    | Some (Ok created) => storeToken path created now
    end
  end.
End calls.

(** ** A first run and a second one *)

Definition noFaults (n : nat) : bool := false.
Definition demo_bytes : list Z := seqZ 7 32.
Definition demo_idBytes : list Z := seqZ 60 12.

Example first_and_second_run :
  let '(r1, w1) := ensureDisplayToken noFaults (λ _, O) "t" (Some demo_bytes) (Some demo_idBytes) 5 (mkWorld ∅ emptyDB 0) in
  let '(r2, w2) := ensureDisplayToken noFaults (λ _, O) "t" None None 6 w1 in
  (r1, r2) = (Ok true, Ok false) ∧ disk w1 = disk w2.
Proof. vm_compute. split; reflexivity. Qed.
