(* ===== verification/ProvisionFacts.v ===== *)
(** * Facts about secrets and the display token on disk

    What a successful run leaves behind serves every later one, and a run that
    fails leaves no usable token; what a failed write leaves behind. *)

From S2P Require Import Prelude GoTime GoText GoTextFacts GoFloat GoStrconv Json Digest Model HookEvent Ledger Limiter Validate Store StoreTokens Version Firmware FirmwareFacts Server ServerFacts Claude ClaudeUsage HookServer Provision.

(** ** Tokens that can still be used *)

Definition usable (d : DB) (raw : string) (scope : TokenScope) (id : string) : Prop := ∃ r, bearer d raw scope id r.

Lemma usable_useToken d raw scope id used ns : usable (useToken d used ns) raw scope id ↔ usable d raw scope id.
Proof.
  unfold usable, bearer, useToken. cbn [tokens setTokens]. split.
  - intros (r & Hv & Hl & Hr & Hs & Hrev & Hd). apply lookup_alter_Some in Hr as [(-> & r0 & Hr & ->)|[_ Hr]]; eauto 10.
  - intros (r & Hv & Hl & Hr & Hs & Hrev & Hd). destruct (decide (used = id)) as [->|Hne].
    + eexists. split; [exact Hv|]. split; [exact Hl|]. rewrite lookup_alter_eq, Hr. split; [reflexivity|]. done.
    + exists r. rewrite lookup_alter_ne by done. done.
Qed.

(** Creating a token and revoking it leaves the usable tokens as they were. *)
Lemma usable_revoked d req s i now ct d' raw scope id :
  CreateToken d req s i now = Ok (ct, d') →
  usable (RevokeToken d' (tr_ID (ct_Record ct)) now).2 raw scope id ↔ usable d raw scope id.
Proof.
  intros (sb & ib & _ & _ & _ & _ & _ & (Hn & _ & _ & ->)%insertToken_Some)%CreateToken_Ok.
  set (new := tr_ID (ct_Record ct)) in *.
  match goal with |- usable (RevokeToken ?d' _ _).2 _ _ _ ↔ _ => destruct (RevokeToken_cases d' new now) as [(r & Hr & _ & ->)|[Hno _]] end.
  - cbn [snd tokens setTokens]. unfold usable, bearer. cbn [tokens setTokens].
    rewrite lookup_alter. destruct (decide (new = id)) as [<-|Hne].
    + rewrite lookup_insert_eq, Hn. split; [|naive_solver].
      intros (r' & _ & _ & [= <-] & _ & Hrev & _). done.
    + by rewrite lookup_insert_ne.
  - exfalso. apply (Hno _ (lookup_insert_eq _ _ _)). done.
Qed.

Lemma CreateToken_new_only d req s i now ct d' :
  CreateToken d req s i now = Ok (ct, d') →
  tokens d !! tr_ID (ct_Record ct) = None ∧ ∃ r, tokens d' = <[tr_ID (ct_Record ct) := r]> (tokens d) ∧ tk_revoked_at_ns r = None.
Proof.
  intros (sb & ib & _ & _ & _ & _ & _ & (Hn & _ & _ & ->)%insertToken_Some)%CreateToken_Ok.
  split; [done|]. eexists. split; reflexivity.
Qed.

(** ** The branches of [storeToken] *)

(** What the file holds after the calls that create it. *)
Definition tokenFile (payload : string) : string * Z := (payload, 0x180).

(** Two calls from [n] on that failed, the second one being the last. *)
Definition twoFailures (fails : nat → bool) (n : nat) (w' : World) : Prop :=
  ∃ i j, (n <= i < j)%nat ∧ fails i = true ∧ fails j = true ∧ calls w' = S j.

Lemma abandon_cases fails ct now e w r w' :
  abandon fails ct now e w = (r, w') →
  r = Err e ∧ disk w' = disk w ∧ calls w' = S (calls w) ∧
  ((fails (calls w) = false ∧ db w' = (RevokeToken (db w) (tr_ID (ct_Record ct)) now).2) ∨
   (fails (calls w) = true ∧ db w' = db w)).
Proof.
  unfold abandon, callDB, withDB, call, mbind, IO_bind, mret, IO_ret. cbn [disk db calls].
  destruct (fails (calls w)) eqn:Ef; cbn [negb]; cbv beta iota zeta; cbn [disk db calls].
  - intros [= <- <-]. cbn [disk db calls]. split_and!; [done..|by right].
  - destruct (RevokeToken (db w) _ now) as [x d]. intros [= <- <-]. cbn [disk db calls snd]. split_and!; [done..|by left].
Qed.

(** The step was abandoned after call [i] failed. *)
Ltac abandoned i Hi :=
  cbn [negb andb disk db calls]; cbv beta iota zeta; cbn [disk db calls];
  intros (-> & Hdisk & Hcalls & Hdb)%abandon_cases; cbn [disk db calls] in Hdisk, Hcalls, Hdb; right;
  split; [done|split; [destruct Hdb as [[_ Hdb]|[Hf Hdb]]; [by left|right; split; [exact Hdb|]];
                       eexists i, _; split; [|split; [exact Hi|split; [exact Hf|exact Hcalls]]]; lia
                      |rewrite Hdisk]].

Lemma storeToken_cases fails partial path ct now w r w' :
  disk w !! path = None → storeToken fails partial path ct now w = (r, w') →
  (r = Ok true ∧ db w' = db w ∧ disk w' = <[path := tokenFile (ct_RawToken ct +:+ newline)]> (disk w)) ∨
  (is_ok r = false ∧
   (db w' = (RevokeToken (db w) (tr_ID (ct_Record ct)) now).2 ∨ (db w' = db w ∧ twoFailures fails (calls w) w')) ∧
   (disk w' = disk w ∨ ∃ n, disk w' = <[path := tokenFile (Stdlib.Strings.String.substring 0 n (ct_RawToken ct +:+ newline))]> (disk w)) ).
Proof.
  intros Hnone. unfold storeToken, OpenExclusive, Write, call, mbind, IO_bind, mret, IO_ret.
  assert (Hsub : ∀ s, ∃ n, s = Stdlib.Strings.String.substring 0 n s).
  { intros s. exists (Stdlib.Strings.String.length s). induction s as [|a s IH]; [done|]. cbn. by rewrite <-IH. }
  assert (Halter : ∀ (d : Disk) s, alter (λ f : string * Z, (f.1 +:+ s, f.2)) path (<[path := ("", 0x180)]> d) =
                                   <[path := tokenFile s]> d)
    by (intros d s; by rewrite alter_insert_eq).
  destruct (Hsub (ct_RawToken ct +:+ newline)) as [all Hall].
  destruct (fails (calls w)) eqn:H1; cbn [negb]; cbv beta iota zeta; [abandoned (calls w) H1; auto|].
  cbn [disk db calls].
  rewrite Hnone. destruct (fails (S (calls w))) eqn:H2; cbn [negb]; cbv beta iota zeta; [abandoned (S (calls w)) H2; auto|].
  cbn [disk db calls]. rewrite !Halter.
  destruct (fails (S (S (calls w)))) eqn:H3; cbn [negb]; cbv beta iota zeta; [abandoned (S (S (calls w))) H3; eauto|].
  cbn [disk db calls]. rewrite Hall at 1 2.
  destruct (fails (S (S (S (calls w))))) eqn:H4; cbn [negb andb]; cbv beta iota zeta; [abandoned (S (S (S (calls w)))) H4; eauto|].
  destruct (fails (S (S (S (S (calls w)))))) eqn:H5; cbn [negb andb]; cbv beta iota zeta; [abandoned (S (S (S (S (calls w))))) H5; eauto|].
  intros [= <- <-]. left. by rewrite <-Hall.
Qed.

(** ** The display token *)

Section display.
Context (fails : nat → bool) (partial : nat → nat).

(** What a run reads, tries and leaves. *)
Lemma ensureDisplayToken_cases path secret idBytes now w r w' :
  db_ok (db w) → ensureDisplayToken fails partial path secret idBytes now w = (r, w') →
  (∃ payload mode, disk w !! path = Some (payload, mode) ∧
     ((is_ok r = false ∧ disk w' = disk w ∧ db w' = db w) ∨
      (∃ id row, bearer (db w) (TrimSpace payload) ScopeDisplayRead id row ∧ db w' = useToken (db w) id (UnixNano now) ∧
         ((r = Ok false ∧ disk w' = <[path := tokenFile payload]> (disk w)) ∨ (is_ok r = false ∧ disk w' = disk w))))) ∨
  (disk w !! path = None ∧ is_ok r = false ∧ disk w' = disk w ∧ db w' = db w) ∨
  (disk w !! path = None ∧ ∃ ct d w1, CreateToken (db w) displayRequest secret idBytes now = Ok (ct, d) ∧
     disk w1 = disk w ∧ db w1 = d ∧ calls w1 = S (S (calls w)) ∧ storeToken fails partial path ct now w1 = (r, w')).
Proof.
  intros Hok. unfold ensureDisplayToken, ReadFile, callDB, withDB, call, mbind, IO_bind, mret, IO_ret. cbn [disk db calls].
  destruct (fails (calls w)); cbn [negb]; cbv beta iota zeta; cbn [disk db calls].
  { intros [= <- <-]. destruct (disk w !! path) as [[payload mode]|] eqn:Ef; [left; eauto 10|right; by left]. }
  destruct (disk w !! path) as [[payload mode]|] eqn:Ef; cbn [fst]; cbn [disk db calls].
  - intros H. left. exists payload, mode. split; [done|].
    destruct (bool_decide (TrimSpace payload = "")); cbn [disk db calls] in H; [injection H as <- <-; by left|].
    destruct (fails (S (calls w))); cbn [negb] in H; cbv beta iota zeta in H; cbn [disk db calls] in H; [injection H as <- <-; by left|].
    destruct (AuthenticateToken_cases (db w) (TrimSpace payload) ScopeDisplayRead now Hok) as [(id & row & Hb & E)|[_ E]];
      rewrite E in H; cbv beta iota zeta in H; [|injection H as <- <-; by left].
    right. exists id, row. split; [done|]. unfold Chmod, call in H. cbn [disk db calls] in H.
    destruct (fails (S (S (calls w)))); cbn [negb] in H; cbv beta iota zeta in H; injection H as <- <-; cbn [db disk];
      (split; [done|]); [by right|left; split; [done|]].
    apply map_eq. intros p. destruct (decide (path = p)) as [<-|Hne].
    + by rewrite lookup_alter_eq, lookup_insert_eq, Ef.
    + by rewrite lookup_alter_ne, lookup_insert_ne.
  - destruct (fails (S (calls w))); cbn [negb]; cbv beta iota zeta; cbn [disk db calls]; [intros [= <- <-]; right; by left|].
    destruct (CreateToken (db w) displayRequest secret idBytes now) as [[ct d]|e] eqn:E; cbv beta iota zeta.
    + intros H. right. right. split; [done|]. exists ct, d. eexists. split; [done|]. split; [|split; [|split; [|exact H]]]; done.
    + intros [= <- <-]. right. left. done.
Qed.
End display.

(** A run without faults over a file that holds a usable token. *)
Lemma second_run partial path payload s i later w :
  db_ok (db w) → disk w !! path = Some (tokenFile payload) → (∃ id, usable (db w) (TrimSpace payload) ScopeDisplayRead id) →
  ∃ w', ensureDisplayToken noFaults partial path s i later w = (Ok false, w') ∧ disk w' = disk w ∧
    ∀ raw scope id, usable (db w') raw scope id ↔ usable (db w) raw scope id.
Proof.
  intros Hok Hf (id & row & Hb).
  destruct (ensureDisplayToken noFaults partial path s i later w) as [r w'] eqn:E.
  unfold ensureDisplayToken, ReadFile, callDB, withDB, Chmod, call, mbind, IO_bind, mret, IO_ret, noFaults in E.
  cbn [negb disk db calls] in E. cbv beta iota zeta in E. cbn [disk db calls] in E. rewrite Hf in E. cbn [fst tokenFile] in E.
  pose proof Hb as (_ & Hl & _). rewrite bool_decide_false in E by (intros E'; rewrite E' in Hl; change (len "") with 0 in Hl; lia).
  destruct (AuthenticateToken_cases (db w) (TrimSpace payload) ScopeDisplayRead later Hok)
    as [(id' & row' & _ & Ha)|[Hno _]]; [|by destruct (Hno _ _ Hb)].
  cbn [disk db calls] in E. rewrite Ha in E. cbv beta iota zeta in E. cbn [disk db calls] in E. injection E as <- <-.
  eexists. split; [done|]. cbn [disk db]. split.
  - apply map_eq. intros p. destruct (decide (path = p)) as [<-|Hne]; [by rewrite lookup_alter_eq, Hf|by rewrite lookup_alter_ne].
  - intros raw scope id0. apply usable_useToken.
Qed.

Lemma rawToken_visible b : visible_string ("qmon_" +:+ b64_encode b).
Proof. apply visible_app; [by repeat constructor|apply b64_visible]. Qed.

(** The display token survives restarts: when the start-up step succeeds,
    the file it leaves is private to the user and holds a token that
    authenticates for the display; a later start without faults accepts that
    file, changes neither it nor which tokens are usable, and creates nothing.
    The step creates a token exactly when the file was absent, and then a
    display that presents the file's text to the server that is started next
    gets the snapshot. *)
Theorem Display_token_survives (fails : nat → bool) (partial : nat → nat) (path : string)
    (secret idBytes : option (list Z)) (now : Time) (w w' : World) (created : bool)
    (Hok : db_ok (db w)) (Hsecret : length (default [] secret) = 32%nat)
    (Hrun : ensureDisplayToken fails partial path secret idBytes now w = (Ok created, w')) :
  ∃ payload, disk w' = <[path := tokenFile payload]> (disk w) ∧
    (∃ id, usable (db w') (TrimSpace payload) ScopeDisplayRead id) ∧
    (created = true ↔ disk w !! path = None) ∧
    (∀ partial' s i later n, ∃ w'', 
       ensureDisplayToken noFaults partial' path s i later (mkWorld (disk w') (db w') n) = (Ok false, w'') ∧
       disk w'' = disk w' ∧ ∀ raw scope id, usable (db w'') raw scope id ↔ usable (db w') raw scope id) ∧
    (created = true → ∀ cfg files peer body env, ∃ s',
       ServeHTTP (New cfg (db w') files)
         (mkRequest "GET" snapshotPath ("Bearer " +:+ TrimSpace payload) peer body) env =
       (writeJSON (SnapshotPayload (BuildDisplaySnapshot (db w') (atHandle (clock env)))), s')).
Proof.
  apply ensureDisplayToken_cases in Hrun; [|done].
  assert (Hlater : ∀ payload, db_ok (db w') → disk w' !! path = Some (tokenFile payload) →
    (∃ id, usable (db w') (TrimSpace payload) ScopeDisplayRead id) → ∀ partial' s i later n, ∃ w'',
       ensureDisplayToken noFaults partial' path s i later (mkWorld (disk w') (db w') n) = (Ok false, w'') ∧
       disk w'' = disk w' ∧ ∀ raw scope id, usable (db w'') raw scope id ↔ usable (db w') raw scope id).
  { intros payload Hok' Hd Hu partial' s i later n.
    exact (second_run partial' path payload s i later (mkWorld (disk w') (db w') n) Hok' Hd Hu). }
  destruct Hrun as [(payload & mode & Hf & [[H _]|(id & row & Hb & Hdb & [[[= ->] Hdisk]|[H _]])])
                   |[(_ & H & _)|(Hf & ct & d & w1 & Hcreate & Hd1 & Hdb1 & _ & Hst)]]; try done.
  - exists payload. assert (Hu : ∃ id, usable (db w') (TrimSpace payload) ScopeDisplayRead id).
    { exists id. rewrite Hdb. apply usable_useToken. by exists row. }
    split; [done|]. split; [done|]. split; [by rewrite Hf|]. split; [|done].
    apply (Hlater payload); [rewrite Hdb; by apply useToken_ok|by rewrite Hdisk, lookup_insert_eq|done].
  - apply storeToken_cases in Hst; [|by rewrite Hd1]. destruct Hst as [([= ->] & Hdb & Hdisk)|[H _]]; [|done].
    rewrite Hdb1 in Hdb. rewrite Hd1 in Hdisk. subst d.
    exists (ct_RawToken ct +:+ newline). destruct (CreateToken_bearer _ _ _ _ _ _ _ Hsecret Hcreate) as (row & Hb & _).
    pose proof (CreateToken_ok _ _ _ _ _ _ _ Hok Hcreate) as Hok'.
    pose proof Hcreate as Hc. apply CreateToken_Ok in Hc as (sb & ib & -> & _ & Hraw & _).
    assert (Htrim : TrimSpace (ct_RawToken ct +:+ newline) = ct_RawToken ct)
      by (rewrite Hraw; apply TrimSpace_line, rawToken_visible).
    rewrite <-Hdb in *. rewrite Htrim.
    assert (Hu : ∃ id, usable (db w') (ct_RawToken ct) ScopeDisplayRead id) by (eexists; by exists row).
    split; [done|]. split; [done|]. split; [by rewrite Hf|]. split.
    + apply (Hlater (ct_RawToken ct +:+ newline)); [done|by rewrite Hdisk, lookup_insert_eq|by rewrite Htrim].
    + intros _ cfg files peer body env. eapply fresh_display; [done| |exact Hb]. rewrite Hraw. by apply rawToken_header.
Qed.

Lemma Display_token_survives_witness :
  ∃ payload, TrimSpace payload = "qmon_" +:+ b64_encode demo_bytes ∧
  let w' := (ensureDisplayToken noFaults (λ _, O) "t" (Some demo_bytes) (Some demo_idBytes) 5 (mkWorld ∅ emptyDB 0)).2 in
  ∃ id, usable (db w') (TrimSpace payload) ScopeDisplayRead id.
Proof.
  destruct (ensureDisplayToken noFaults (λ _, O) "t" (Some demo_bytes) (Some demo_idBytes) 5 (mkWorld ∅ emptyDB 0)) as [r w'] eqn:E.
  assert (Hr : r = Ok true) by (apply (f_equal fst) in E; vm_compute in E; by rewrite <-E).
  assert (Hd : disk w' = (ensureDisplayToken noFaults (λ _, O) "t" (Some demo_bytes) (Some demo_idBytes) 5 (mkWorld ∅ emptyDB 0)).2.(disk))
    by (by rewrite E). subst r.
  destruct (Display_token_survives noFaults (λ _, O) "t" (Some demo_bytes) (Some demo_idBytes) 5 (mkWorld ∅ emptyDB 0) w' true
    emptyDB_ok eq_refl E) as (payload & Hdisk & Hu & _).
  exists payload. split; [|exact Hu]. rewrite Hdisk in Hd. apply (f_equal (.!! "t")) in Hd. rewrite lookup_insert_eq in Hd.
  vm_compute in Hd. injection Hd as ->. vm_compute. reflexivity.
Defined.

(** C32. What a start-up step that fails leaves behind, whichever calls to the
    operating system and to the database fail and however much of the file was
    written: no reported data changes, a token file that was there keeps its
    contents, and no other file changes.  If at most one call fails, the tokens
    that authenticate afterwards are exactly those that did before: a token that
    was created is revoked again.  When they are not, the revocation itself was
    the last call and failed, after an earlier call had failed: its error is
    discarded, and the database is the one with the new token, still active. *)
Theorem Display_token_no_orphan (fails : nat → bool) (partial : nat → nat) (path : string)
    (secret idBytes : option (list Z)) (now : Time) (w w' : World) (e : ProvisionError)
    (Hok : db_ok (db w))
    (Hrun : ensureDisplayToken fails partial path secret idBytes now w = (Err e, w')) :
  same_data (db w) (db w') ∧
  (is_Some (disk w !! path) → disk w' = disk w) ∧ (∀ p, p ≠ path → disk w' !! p = disk w !! p) ∧
  ((∀ i j, fails i = true → fails j = true → i = j) →
     ∀ raw scope id, usable (db w') raw scope id ↔ usable (db w) raw scope id) ∧
  ((∀ raw scope id, usable (db w') raw scope id ↔ usable (db w) raw scope id) ∨
   ∃ i j ct, (calls w < i < j)%nat ∧ fails i = true ∧ fails j = true ∧ calls w' = S j ∧
     CreateToken (db w) displayRequest secret idBytes now = Ok (ct, db w')).
Proof.
  apply ensureDisplayToken_cases in Hrun; [|done].
  destruct Hrun as [(payload & mode & Hf & [(_ & -> & ->)|(id & row & _ & -> & [[H _]|[_ ->]])])
                   |[(Hf & _ & -> & ->)|(Hf & ct & d & w1 & Hcreate & Hd1 & Hdb1 & Hc1 & Hst)]]; try done;
    [split; [done|]; split; [done|]; split; [done|]; split; [done|by left]| |split; [done|]; split; [done|]; split; [done|]; split; [done|by left]|].
  - pose proof (usable_useToken (db w)) as Hu. split; [done|]. split; [done|]. split; [done|]. split; [intros _|left]; intros; apply Hu.
  - apply storeToken_cases in Hst; [|by rewrite Hd1]. destruct Hst as [([=] & _)|(_ & Hdb & Hdisk)].
    rewrite Hdb1, Hc1 in Hdb. rewrite Hd1 in Hdisk. rewrite Hf.
    assert (Hdata : same_data (db w) d).
    { pose proof Hcreate as Hc. apply CreateToken_Ok in Hc as (sb & ib & _ & _ & _ & _ & _ & (_ & _ & _ & ->)%insertToken_Some). done. }
    assert (Hfiles : (is_Some (None : option (string * Z)) → disk w' = disk w) ∧ ∀ p, p ≠ path → disk w' !! p = disk w !! p).
    { split; [by intros [? ?]|]. intros p Hp. destruct Hdisk as [-> | [n ->]]; [done|]. by rewrite lookup_insert_ne. }
    destruct Hdb as [Hdb|[Hdb (i & j & Hij & Hi & Hj & Hlast)]].
    + split; [|split; [apply Hfiles|split; [apply Hfiles|split; [intros _|left]]]].
      * rewrite Hdb. destruct (RevokeToken_cases d (tr_ID (ct_Record ct)) now) as [(r & _ & _ & ->)|[_ ->]]; done.
      * intros raw scope id. rewrite Hdb. by apply (usable_revoked _ _ _ _ _ _ _ _ _ _ Hcreate).
      * intros raw scope id. rewrite Hdb. by apply (usable_revoked _ _ _ _ _ _ _ _ _ _ Hcreate).
    + split; [by rewrite Hdb|split; [apply Hfiles|split; [apply Hfiles|split]]].
      * intros Hone. specialize (Hone i j Hi Hj). lia.
      * right. exists i, j, ct. split_and!; [lia|lia|done..|by rewrite Hdb].
Qed.

(** A full disk: the write fails, and so does the revocation.  The error is
    reported, and the token that nobody has seen stays active. *)
Example unrevoked_token :
  let full (n : nat) := bool_decide (n = 4 ∨ n = 6)%nat in
  let '(r, w') := ensureDisplayToken full (λ _, O) "t" (Some demo_bytes) (Some demo_idBytes) 5 (mkWorld ∅ emptyDB 0) in
  r = Err WriteFailed ∧
  is_ok (AuthenticateToken (db w') ("qmon_" +:+ b64_encode demo_bytes) ScopeDisplayRead 6).1 = true.
Proof. vm_compute. split; reflexivity. Qed.

(** The calls of a first run, by number from its start. *)
Definition syncFails (w : World) (n : nat) : bool := bool_decide (n = calls w + 5)%nat.

(** A token file that could not be synced blocks every later start: the
    step revokes the token but keeps the file it created, so each later start,
    without any fault, finds a file that "does not match the database" and
    refuses to run until somebody removes it. *)
Theorem Failed_sync_sticks (partial partial' : nat → nat) (path : string) (secret idBytes s i : option (list Z))
    (now later : Time) (n : nat) (w : World)
    (Hok : db_ok (db w)) (Hnew : disk w !! path = None) (Hlen : length (default [] secret) = 32%nat)
    (Hcreate : is_ok (CreateToken (db w) displayRequest secret idBytes now) = true) :
  let '(r, w') := ensureDisplayToken (syncFails w) partial path secret idBytes now w in
  r = Err WriteFailed ∧
  (ensureDisplayToken noFaults partial' path s i later (mkWorld (disk w') (db w') n)).1 = Err TokenMismatch.
Proof.
  destruct (CreateToken (db w) displayRequest secret idBytes now) as [[ct d]|e] eqn:E; [|done].
  assert (H0 : syncFails w (calls w) = false) by (apply bool_decide_eq_false; lia).
  assert (H1 : syncFails w (S (calls w)) = false) by (apply bool_decide_eq_false; lia).
  assert (H2 : syncFails w (S (S (calls w))) = false) by (apply bool_decide_eq_false; lia).
  assert (H3 : syncFails w (S (S (S (calls w)))) = false) by (apply bool_decide_eq_false; lia).
  assert (H4 : syncFails w (S (S (S (S (calls w))))) = false) by (apply bool_decide_eq_false; lia).
  assert (H5 : syncFails w (S (S (S (S (S (calls w)))))) = true) by (apply bool_decide_eq_true; lia).
  assert (H6 : syncFails w (S (S (S (S (S (S (calls w))))))) = false) by (apply bool_decide_eq_false; lia).
  assert (H7 : syncFails w (S (S (S (S (S (S (S (calls w)))))))) = false) by (apply bool_decide_eq_false; lia).
  destruct (ensureDisplayToken (syncFails w) _ _ _ _ _ w) as [r w'] eqn:Hrun.
  unfold ensureDisplayToken, ReadFile, storeToken, abandon, OpenExclusive, Write, callDB, withDB, call, mbind, IO_bind, mret, IO_ret in Hrun.
  repeat (first [rewrite H0 in Hrun|rewrite H1 in Hrun|rewrite H2 in Hrun|rewrite H3 in Hrun|rewrite H4 in Hrun
                |rewrite H5 in Hrun|rewrite H6 in Hrun|rewrite H7 in Hrun
                |rewrite Hnew in Hrun|rewrite E in Hrun|rewrite alter_insert_eq in Hrun];
          cbn [negb andb disk db calls fst snd] in Hrun; cbv beta iota zeta in Hrun; cbn [disk db calls fst snd] in Hrun).
  assert (Hrev : db w' = (RevokeToken d (tr_ID (ct_Record ct)) now).2 ∧ r = Err WriteFailed ∧
                 disk w' = <[path := tokenFile (ct_RawToken ct +:+ newline)]> (disk w)).
  { destruct (RevokeToken d (tr_ID (ct_Record ct)) now). by injection Hrun as <- <-. }
  clear Hrun. destruct Hrev as (Hdb & -> & Hdisk). split; [done|].
  pose proof (CreateToken_ok _ _ _ _ _ _ _ Hok E) as Hok'.
  pose proof E as Hc. apply CreateToken_Ok in Hc as (sb & ib & -> & _ & Hraw & _ & _ & (_ & Hfresh & _)%insertToken_Some).
  assert (Htrim : TrimSpace (ct_RawToken ct +:+ newline) = ct_RawToken ct)
    by (rewrite Hraw; apply TrimSpace_line, rawToken_visible).
  unfold ensureDisplayToken, ReadFile, callDB, withDB, call, mbind, IO_bind, mret, IO_ret, noFaults.
  cbn [negb disk db calls]. cbv beta iota zeta. cbn [disk db calls].
  rewrite Hdisk, lookup_insert_eq. cbn [fst tokenFile]. rewrite Htrim.
  rewrite bool_decide_false by (rewrite Hraw; done). cbn [disk db calls].
  destruct (AuthenticateToken_cases (db w') (ct_RawToken ct) ScopeDisplayRead later) as [(id & row & Hb & _)|[_ ->]];
    [rewrite Hdb; by apply RevokeToken_ok| |done].
  assert (Hu : usable (db w') (ct_RawToken ct) ScopeDisplayRead id) by (by exists row).
  rewrite Hdb, (usable_revoked _ _ _ _ _ _ _ _ _ _ E) in Hu. destruct Hu as (r0 & _ & _ & Hr0 & _ & _ & Hd0).
  by destruct (Hfresh id r0).
Qed.

Lemma Failed_sync_sticks_witness :
  let w := mkWorld ∅ emptyDB 0 in
  let '(r, w') := ensureDisplayToken (syncFails w) (λ _, O) "t" (Some demo_bytes) (Some demo_idBytes) 5 w in
  r = Err WriteFailed ∧
  (ensureDisplayToken noFaults (λ _, O) "t" None None 6 (mkWorld (disk w') (db w') 0)).1 = Err TokenMismatch.
Proof.
  apply (Failed_sync_sticks (λ _, O) (λ _, O) "t" (Some demo_bytes) (Some demo_idBytes) None None 5 6 0 (mkWorld ∅ emptyDB 0));
    [apply emptyDB_ok|reflexivity|reflexivity|vm_compute; reflexivity].
Defined.

Lemma Display_token_no_orphan_witness :
  let w := mkWorld ∅ emptyDB 0 in
  let w' := (ensureDisplayToken (syncFails w) (λ _, O) "t" (Some demo_bytes) (Some demo_idBytes) 5 w).2 in
  same_data (db w) (db w') ∧ ¬ (∃ raw scope id, usable (db w') raw scope id).
Proof.
  intros w w'.
  destruct (ensureDisplayToken (syncFails w) (λ _, O) "t" (Some demo_bytes) (Some demo_idBytes) 5 w) as [r w1] eqn:E.
  assert (Hr : r = Err WriteFailed) by (apply (f_equal fst) in E; vm_compute in E; by rewrite <-E). subst r.
  destruct (Display_token_no_orphan (syncFails w) (λ _, O) "t" (Some demo_bytes) (Some demo_idBytes) 5 w w1 WriteFailed
    emptyDB_ok E) as (Hd & _ & _ & H & _).
  assert (Hone : ∀ i j, syncFails w i = true → syncFails w j = true → i = j)
    by (intros i j Hi%bool_decide_eq_true Hj%bool_decide_eq_true; congruence).
  specialize (H Hone). change w' with w1. split; [exact Hd|]. intros (raw & scope & id & Hu). rewrite H in Hu. revert Hu. intros (row & _ & _ & Hrow & _). cbn [w db tokens emptyDB] in Hrow. by rewrite lookup_empty in Hrow.
Defined.

(** ** The shared secret *)

Section secret.
Context (fails : nat → bool) (partial : nat → nat).

Lemma createSecret_Ok path random w s w' :
  createSecret fails partial path random w = (Ok s, w') →
  ∃ b mode, random = Some b ∧ s = b64_encode b ∧ disk w' = <[path := (s +:+ newline, mode)]> (disk w) ∧ db w' = db w.
Proof.
  destruct random as [b|]; [|done].
  unfold createSecret, WriteFile, Write, setDisk, call, mbind, IO_bind, mret, IO_ret.
  destruct (fails (calls w)); cbn [negb]; cbv beta iota zeta; cbn [disk db calls]; [done|].
  destruct (fails (S (calls w))); cbn [negb]; cbv beta iota zeta; cbn [disk db calls]; [done|].
  destruct (fails (S (S (calls w)))); cbn [negb andb]; cbv beta iota zeta; cbn [disk db calls]; [done|].
  destruct (fails (S (S (S (calls w))))); cbn [negb andb]; cbv beta iota zeta; cbn [disk db calls]; [done|].
  intros [= <- <-]. eexists b, _. split; [done|]. split; [done|]. cbn [disk db]. split; [|done].
  by rewrite alter_insert_eq.
Qed.

(** What a reader of the file at [path] gets, as the hook helper does. *)
Definition readDisk (d : Disk) (path : string) : option string := fst <$> d !! path.

(** One secret for both ends: after [loadOrCreateSecret] succeeded, the
    secret it returned is not empty and has no space around it, the hook
    helper that is given the same file resolves exactly that secret, and a
    later start without faults returns it again and writes nothing. *)
Theorem Secret_shared (path url : string) (random : option (list Z)) (w w' : World) (secret : string)
    (Hrandom : random ≠ Some []) (Hpath : path ≠ "")
    (Hrun : loadOrCreateSecret fails partial path random w = (Ok secret, w')) :
  secret ≠ "" ∧ TrimSpace secret = secret ∧
  resolvedSecret (readDisk (disk w')) (mkForwardConfig url "" path) = Ok secret ∧
  (∀ partial' random' n, ∃ w'',
     loadOrCreateSecret noFaults partial' path random' (mkWorld (disk w') (db w') n) = (Ok secret, w'') ∧
     disk w'' = disk w' ∧ db w'' = db w') ∧
  (∀ p, p ≠ path → disk w' !! p = disk w !! p).
Proof.
  assert (Hlater : ∀ payload mode, disk w' !! path = Some (payload, mode) → TrimSpace payload = secret → secret ≠ "" →
    resolvedSecret (readDisk (disk w')) (mkForwardConfig url "" path) = Ok secret ∧
    (∀ partial' random' n, ∃ w'',
       loadOrCreateSecret noFaults partial' path random' (mkWorld (disk w') (db w') n) = (Ok secret, w'') ∧
       disk w'' = disk w' ∧ db w'' = db w')).
  { intros payload mode Hf Ht Hne. split.
    - unfold resolvedSecret, readDisk. cbn [fc_Secret fc_SecretFile]. rewrite Hf. cbn [fmap option_fmap option_map fst].
      rewrite Ht, (bool_decide_false (_ ≠ "")) by tauto. rewrite (bool_decide_false (path = "")) by done.
      by rewrite (bool_decide_false (secret = "")).
    - intros partial' random' n. unfold loadOrCreateSecret, ReadFile, call, mbind, IO_bind, mret, IO_ret, noFaults.
      cbn [negb disk db calls]. cbv beta iota zeta. cbn [disk]. rewrite Hf. cbn [fst]. rewrite Ht.
      rewrite bool_decide_false by done. cbn [negb]. eexists. split; [done|done]. }
  unfold loadOrCreateSecret, ReadFile, call, mbind, IO_bind, mret, IO_ret in Hrun. cbn [disk db calls] in Hrun.
  destruct (fails (calls w)); cbn [negb] in Hrun; cbv beta iota zeta in Hrun; [done|]. cbn [disk] in Hrun.
  assert (Hcreate : ∀ w0, disk w0 = disk w → createSecret fails partial path random w0 = (Ok secret, w') →
    ∃ mode, disk w' = <[path := (secret +:+ newline, mode)]> (disk w) ∧ TrimSpace (secret +:+ newline) = secret ∧
      TrimSpace secret = secret ∧ secret ≠ "").
  { intros w0 Hw0 (b & mode & -> & -> & Hd & _)%createSecret_Ok. rewrite Hw0 in Hd. exists mode.
    split; [done|]. split; [apply TrimSpace_line, b64_visible|]. split; [apply TrimSpace_visible, b64_visible|].
    by destruct b as [|? [|? [|? ?]]]. }
  assert (Hfinish : ∀ mode, disk w' = <[path := (secret +:+ newline, mode)]> (disk w) → TrimSpace (secret +:+ newline) = secret →
    TrimSpace secret = secret → secret ≠ "" → _) by (intros mode Hd Ht Hs Hne;
    destruct (Hlater (secret +:+ newline) mode) as [H1 H2]; [by rewrite Hd, lookup_insert_eq|done|done|];
    exact (conj Hne (conj Hs (conj H1 (conj H2 (λ p Hp, eq_trans (f_equal (.!! p) Hd) (lookup_insert_ne _ _ _ _ (not_eq_sym Hp)))))))).
  destruct (disk w !! path) as [[payload mode]|] eqn:Hf; cbn [fst] in Hrun.
  - destruct (bool_decide (TrimSpace payload = "")) eqn:Hb; cbn [negb] in Hrun.
    + apply Hcreate in Hrun as (mode' & Hd & Ht & Hs & Hne); [|done]. by apply (Hfinish mode').
    + injection Hrun as <- <-. apply bool_decide_eq_false in Hb. split; [done|]. split; [apply TrimSpace_idemp|].
      cbn [disk db] in *. destruct (Hlater payload mode Hf eq_refl Hb) as [H1 H2]. split; [exact H1|]. split; [exact H2|done].
  - apply Hcreate in Hrun as (mode' & Hd & Ht & Hs & Hne); [|done]. by apply (Hfinish mode').
Qed.
End secret.

Lemma Secret_shared_witness :
  let w' := (loadOrCreateSecret noFaults (λ _, O) "s" (Some demo_bytes) (mkWorld ∅ emptyDB 0)).2 in
  resolvedSecret (readDisk (disk w')) (mkForwardConfig "" "" "s") = Ok (b64_encode demo_bytes).
Proof.
  intros w'. apply (Secret_shared noFaults (λ _, O) "s" "" (Some demo_bytes) (mkWorld ∅ emptyDB 0) w' (b64_encode demo_bytes));
    [discriminate|discriminate|unfold w'; vm_compute; reflexivity].
Defined.

Definition writeFails (w : World) (n : nat) : bool := bool_decide (n = calls w + 3)%nat.

Lemma substring_app k s t :
  (k <= Stdlib.Strings.String.length s)%nat → Stdlib.Strings.String.substring 0 k (s +:+ t) = Stdlib.Strings.String.substring 0 k s.
Proof.
  revert k. induction s as [|a s IH]; intros [|k] Hk; [by destruct t|cbn in Hk; lia|done|].
  rewrite str_app_cons. cbn in Hk |- *. f_equal. apply IH. lia.
Qed.

Lemma substring_nonempty k s :
  (0 < k)%nat → (k <= Stdlib.Strings.String.length s)%nat → Stdlib.Strings.String.substring 0 k s ≠ "".
Proof. destruct k as [|k], s as [|a s]; cbn; [lia..|done]. Qed.

(** A secret whose write failed midway is trusted by the next start: the
    step that creates the shared secret reports the failure but keeps the file
    it had begun, and a later start, which only checks that the file is not
    empty, returns the first bytes, as few as one, as the secret. *)
Theorem Truncated_secret_accepted (partial partial' : nat → nat) (path : string) (b : list Z)
    (random' : option (list Z)) (n k : nat) (w : World)
    (Hnew : disk w !! path = None) (Hk : partial (calls w + 3)%nat = k) (Hpos : (0 < k)%nat)
    (Hlen : (k <= Stdlib.Strings.String.length (b64_encode b))%nat) :
  let '(r, w') := loadOrCreateSecret (writeFails w) partial path (Some b) w in
  r = Err WriteFailed ∧
  (loadOrCreateSecret noFaults partial' path random' (mkWorld (disk w') (db w') n)).1 =
    Ok (Stdlib.Strings.String.substring 0 k (b64_encode b)).
Proof.
  destruct (loadOrCreateSecret (writeFails w) _ _ _ w) as [r w'] eqn:Hrun.
  assert (H0 : writeFails w (calls w) = false) by (apply bool_decide_eq_false; lia).
  assert (H1 : writeFails w (S (calls w)) = false) by (apply bool_decide_eq_false; lia).
  assert (H2 : writeFails w (S (S (calls w))) = false) by (apply bool_decide_eq_false; lia).
  assert (H3 : writeFails w (S (S (S (calls w)))) = true) by (apply bool_decide_eq_true; lia).
  replace (calls w + 3)%nat with (S (S (S (calls w)))) in Hk by lia.
  set (left := Stdlib.Strings.String.substring 0 k (b64_encode b)).
  assert (Hdisk : r = Err WriteFailed ∧ disk w' = <[path := (left, 0x180)]> (disk w)).
  { unfold loadOrCreateSecret, ReadFile, createSecret, WriteFile, Write, setDisk, call, mbind, IO_bind, mret, IO_ret in Hrun.
    repeat (first [rewrite H0 in Hrun|rewrite H1 in Hrun|rewrite H2 in Hrun|rewrite H3 in Hrun|rewrite Hnew in Hrun];
            cbn [negb andb disk db calls fst snd] in Hrun; cbv beta iota zeta in Hrun; cbn [disk db calls fst snd] in Hrun).
    injection Hrun as <- <-. cbn [disk]. split; [done|]. rewrite alter_insert_eq, Hk, substring_app by done. done. }
  destruct Hdisk as [-> Hd]. split; [done|].
  assert (Hv : visible_string left) by apply visible_prefix, b64_visible.
  assert (Hne : left ≠ "") by by apply substring_nonempty.
  unfold loadOrCreateSecret, ReadFile, call, mbind, IO_bind, mret, IO_ret, noFaults.
  cbn [negb disk db calls]. cbv beta iota zeta. cbn [disk]. rewrite Hd, lookup_insert_eq. cbn [fst].
  rewrite TrimSpace_visible, bool_decide_false by done. done.
Qed.

Lemma Truncated_secret_accepted_witness :
  let w := mkWorld ∅ emptyDB 0 in
  let w' := (loadOrCreateSecret (writeFails w) (λ _, 1%nat) "s" (Some demo_bytes) w).2 in
  (loadOrCreateSecret noFaults (λ _, O) "s" None w').1 = Ok "B".
Proof.
  intros w w'.
  pose proof (Truncated_secret_accepted (λ _, 1%nat) (λ _, O) "s" demo_bytes None (calls w') 1 w
    eq_refl eq_refl (le_n 1) ltac:(vm_compute; lia)) as H.
  unfold w' at 1. destruct (loadOrCreateSecret (writeFails w) (λ _, 1%nat) "s" (Some demo_bytes) w) as [r w1] eqn:E.
  destruct H as [_ H]. exact H.
Defined.
