(* ===== verification/Settings.v ===== *)
(** * cmd/quota-monitor: the agent's configuration file

    [durationOrDefault], [loadAgentConfig] and [runAgent] of [main.go], over
    the files of [Provision].  Decoding the JSON object (with unknown fields
    refused), the environment and [filepath]'s functions are arguments. *)

From S2P Require Import Prelude GoTime GoText GoDate GoFloat GoStrconv GoDuration Digest Model HookEvent Ledger Validate Store HookServer Server Agent Delivery Provision.

Record agentFileConfig := mkAgentFileConfig {
  fc_AgentID : string;
  fc_ServerURL : string;
  fc_TokenFile : string;
  fc_HookAddr : string;
  fc_HookSecretFile : string;
  fc_CodexCommand : string;
  fc_ClaudeCommand : string;
  fc_PlanOverrides : gmap ProviderName string;
  fc_ReportInterval : string;
  fc_CollectInterval : string;
  fc_SequentialCollection : bool;
  fc_MaxBackoff : string;
  fc_AllowInsecureHTTP : bool
}.

Inductive SettingsError :=
| ConfigUnreadable | ConfigUndecodable | TrailingData | IncompleteConfig
| AgentToken (e : ProvisionError) | AgentHookSecret (e : ProvisionError)
| BadInterval (field : string) | AgentRefused (e : ConfigError) | NotDelivered (e : DeliveryError).

Definition durationOrDefault (value : string) (fallback : Duration) : option Duration :=
  if bool_decide (TrimSpace value = "") then Some fallback
  else match ParseDuration value with
  | Some d => if d <=? 0 then None else Some d
  | None => None
  end.

(** ** Reading the file *)

Section settings.
Context (fails : nat → bool).
Context (ExpandEnv : string → string) (UserHomeDir : option string).
Context (Join : string → string → string) (IsAbs : string → bool) (Dir : string → string).

(** The first value of the text, and whether anything follows it. *)
Context (Decode : string → option (agentFileConfig * bool)).

Definition loadAgentConfig (path : string) : IO (result SettingsError agentFileConfig) :=
  read ← ReadFile fails path;
  mret match read with
  | Contents payload =>
    match Decode payload with
    | None => Err ConfigUndecodable
    | Some (cfg, trailing) =>
      _ ← refuse trailing TrailingData;
      _ ← refuse (bool_decide (fc_AgentID cfg = "") || bool_decide (fc_ServerURL cfg = "") ||
                  bool_decide (fc_TokenFile cfg = "") || bool_decide (fc_HookSecretFile cfg = "")) IncompleteConfig;
      Ok cfg
    end
  | _ => Err ConfigUnreadable
  end.

(** [runAgent] up to the configuration it hands to the agent. *)
Definition agentSettings (configPath : string) : IO (result SettingsError Config) :=
  loaded ← loadAgentConfig configPath;
  match loaded with
  | Err e => mret (Err e)
  | Ok file =>
    let baseDir := Dir configPath in
    token ← readSecretFile fails ExpandEnv UserHomeDir Join IsAbs baseDir (fc_TokenFile file);
    match token with
    | Err e => mret (Err (AgentToken e))
    | Ok token =>
      secret ← readSecretFile fails ExpandEnv UserHomeDir Join IsAbs baseDir (fc_HookSecretFile file);
      match secret with
      | Err e => mret (Err (AgentHookSecret e))
      | Ok hookSecret =>
        mret match durationOrDefault (fc_ReportInterval file) DefaultReportInterval with
        | None => Err (BadInterval "reportInterval")
        | Some reportInterval =>
          match durationOrDefault (fc_CollectInterval file) DefaultCollectInterval with
          | None => Err (BadInterval "collectInterval")
          | Some collectInterval =>
            match durationOrDefault (fc_MaxBackoff file) (2 * Minute) with
            | None => Err (BadInterval "maxBackoff")
            | Some maxBackoff =>
              Ok (mkConfig (fc_AgentID file) (fc_ServerURL file) token true true None (fc_PlanOverrides file) hookSecret
                    reportInterval collectInterval (fc_SequentialCollection file) maxBackoff None false false
                    (fc_AllowInsecureHTTP file))
            end
          end
        end
      end
    end
  end.
End settings.

(** The [--once] branch of [runAgent]. *)
Definition runAgentOnce {W} (urlParse : string → option URL) (loopback : string → bool) (order : list (ProviderName * string))
    (c : Config) (answer : ProviderName → ProviderReport * bool) (releases : ProviderName → bool)
    (arrival : list ProviderName → list ProviderName) (Marshal : AgentReport → option string)
    (sink : AgentReport → W → result SinkError unit * W) (Do : outgoing → W → option Z * W)
    (now ledgerNow : Time) (w : W) : result SettingsError Agent * W :=
  match New urlParse loopback c order with
  | Err e => (Err (AgentRefused e), w)
  | Ok instance =>
    let '(instance, _, _) := CollectOnce instance answer releases arrival in
    match ReportOnce Marshal sink Do instance now ledgerNow w with
    | (Ok _, instance, w) => (Ok instance, w)
    | (Err e, _, w) => (Err (NotDelivered e), w)
    end
  end.

Example intervals :
  map (λ s, durationOrDefault s (15 * Second)) [""; "  "; "1m"; "0s"; "-1s"; "15"; "2562047h47m16.854775807s"; "2562047h47m16.854775808s"] =
  [Some (15 * Second); Some (15 * Second); Some Minute; None; None; None; Some max_int64; None].
Proof. vm_compute. reflexivity. Qed.
