(* ===== verification/Service.v ===== *)
(** * internal/agent: service files

    [service.go] and the paths [runService] of [main.go] gives it: the
    scheduled task of Windows, the systemd user unit, and their quoting.
    [filepath.Dir] and [filepath.Abs], which depend on the system, are
    arguments; [path.Dir] is Go's, on the [Clean] of [Server]. *)

From S2P Require Import Prelude GoText GoNet Server.

Record ServiceFileConfig := mkServiceFileConfig {
  sv_Executable : string;
  sv_ConfigPath : string;
  sv_FirmwareDirectory : string;
  sv_WorkingDirectory : string;
  sv_WindowsUserID : string;
  sv_Mode : string
}.

Inductive ServiceError :=
| ConfigPathRequired | UnsupportedMode (mode : string) | ExecutableRequired | UnsupportedTarget (target : string) | NoAbsolutePath.

#[global] Instance ServiceError_eq_dec : EqDecision ServiceError.
Proof. solve_decision. Defined.

Definition dquote : string := String "034" "".
Definition quoted (s : string) : string := dquote +:+ s +:+ dquote.

(** The replacer of [systemdEscape], byte by byte. *)
Fixpoint escapeUnit (s : string) : string :=
  match s with
  | EmptyString => ""
  | String a s =>
    if bool_decide (a = "\"%char) then "\\" +:+ escapeUnit s
    else if bool_decide (a = "034"%char) then "\" +:+ dquote +:+ escapeUnit s
    else if bool_decide (a = "%"%char) then "%%" +:+ escapeUnit s
    else String a (escapeUnit s)
  end.
Definition systemdEscape (value : string) : string := quoted (escapeUnit value).

(** [html.EscapeString]. *)
Fixpoint EscapeString (s : string) : string :=
  match s with
  | EmptyString => ""
  | String a s =>
    if bool_decide (a = "&"%char) then "&amp;" +:+ EscapeString s
    else if bool_decide (a = "'"%char) then "&#39;" +:+ EscapeString s
    else if bool_decide (a = "<"%char) then "&lt;" +:+ EscapeString s
    else if bool_decide (a = ">"%char) then "&gt;" +:+ EscapeString s
    else if bool_decide (a = "034"%char) then "&#34;" +:+ EscapeString s
    else String a (EscapeString s)
  end.

(** The description and the arguments. *)
Definition serviceCommand (cfg : ServiceFileConfig) : result ServiceError (string * string) :=
  let mode := ToLower (TrimSpace (sv_Mode cfg)) in
  let mode := if bool_decide (mode = "") then "agent" else mode in
  if bool_decide (mode = "agent") then
    _ ← refuse (bool_decide (sv_ConfigPath cfg = "")) ConfigPathRequired;
    Ok ("Codex and Claude quota monitor agent", "agent --config " +:+ systemdEscape (sv_ConfigPath cfg))
  else if bool_decide (mode = "standalone") then Ok ("Codex and Claude standalone quota monitor", "standalone")
  else Err (UnsupportedMode (sv_Mode cfg)).

Definition isStandalone (cfg : ServiceFileConfig) : bool := EqualFold (TrimSpace (sv_Mode cfg)) "standalone".

(** ** Windows *)

Definition windowsArguments (cfg : ServiceFileConfig) (arguments : string) : string :=
  if HasPrefix arguments "agent --config " then
    "agent --config &quot;" +:+ EscapeString (sv_ConfigPath cfg) +:+ "&quot;"
  else if isStandalone cfg && negb (bool_decide (sv_FirmwareDirectory cfg = "")) then
    arguments +:+ " --firmware-dir &quot;" +:+ EscapeString (sv_FirmwareDirectory cfg) +:+ "&quot;"
  else arguments.

Definition taskHead : string :=
  "<?xml version=" +:+ quoted "1.0" +:+ " encoding=" +:+ quoted "UTF-8" +:+ "?>
<Task version=" +:+ quoted "1.4" +:+ " xmlns=" +:+ quoted "http://schemas.microsoft.com/windows/2004/02/mit/task" +:+ ">
  <Triggers>
    <LogonTrigger><Enabled>true</Enabled></LogonTrigger>
  </Triggers>
  <Principals>
    <Principal id=" +:+ quoted "Author" +:+ ">".
Definition taskSettings : string :=
  "
      <LogonType>InteractiveToken</LogonType>
      <RunLevel>LeastPrivilege</RunLevel>
    </Principal>
  </Principals>
  <Settings>
    <MultipleInstancesPolicy>IgnoreNew</MultipleInstancesPolicy>
    <DisallowStartIfOnBatteries>false</DisallowStartIfOnBatteries>
    <StopIfGoingOnBatteries>false</StopIfGoingOnBatteries>
    <ExecutionTimeLimit>PT0S</ExecutionTimeLimit>
    <RestartOnFailure><Interval>PT1M</Interval><Count>10</Count></RestartOnFailure>
  </Settings>
  <Actions Context=" +:+ quoted "Author" +:+ ">
    <Exec>
      <Command>".
Definition taskEnd : string :=
  "</WorkingDirectory>
    </Exec>
  </Actions>
</Task>
".

Definition GenerateWindowsTaskXML (filepathDir : string → string) (cfg : ServiceFileConfig) : result ServiceError string :=
  _ ← refuse (bool_decide (sv_Executable cfg = "")) ExecutableRequired;
  '(_, arguments) ← serviceCommand cfg;
  let arguments := windowsArguments cfg arguments in
  let working := if bool_decide (sv_WorkingDirectory cfg = "") then filepathDir (sv_Executable cfg) else sv_WorkingDirectory cfg in
  let principal := if bool_decide (sv_WindowsUserID cfg = "") then ""
    else "
      <UserId>" +:+ EscapeString (sv_WindowsUserID cfg) +:+ "</UserId>" in
  Ok (taskHead +:+ principal +:+ taskSettings +:+ EscapeString (sv_Executable cfg) +:+ "</Command>
      <Arguments>" +:+ arguments +:+ "</Arguments>
      <WorkingDirectory>" +:+ EscapeString working +:+ taskEnd).

(** ** systemd *)

(** [path.Dir]. *)
Definition pathDir (p : string) : string :=
  Clean (match cutLast slash p with Some (dir, _) => dir +:+ "/" | None => "" end).

Definition unitArguments (cfg : ServiceFileConfig) (arguments : string) : string :=
  if isStandalone cfg then
    if bool_decide (sv_FirmwareDirectory cfg = "")
    then arguments +:+ " --firmware-dir=" +:+ quoted "%h/.local/share/quota-monitor/firmware"
    else arguments +:+ " --firmware-dir " +:+ systemdEscape (sv_FirmwareDirectory cfg)
  else arguments.

Definition unitWorking (cfg : ServiceFileConfig) : string :=
  if bool_decide (sv_WorkingDirectory cfg = "") then
    if bool_decide (sv_ConfigPath cfg = "") then pathDir (sv_Executable cfg) else pathDir (sv_ConfigPath cfg)
  else sv_WorkingDirectory cfg.

Definition unitEnvironment : string :=
  "
# Covers conventional per-user and system-wide CLI installs. nvm/asdf paths
# are versioned, so agent.json should use absolute codexCommand and
# claudeCommand values on those installations.
Environment=" +:+ quoted "PATH=%h/.local/bin:%h/.local/share/pnpm:%h/.npm-global/bin:/usr/local/bin:/usr/bin:/bin" +:+ "
ExecStart=".
Definition unitEnd : string :=
  "
Restart=on-failure
RestartSec=15s
NoNewPrivileges=true
PrivateTmp=true
ProtectSystem=full
# Provider CLIs and quota-monitor update per-user credential, cache, database,
# token, and firmware files. " +:+ quoted "strict" +:+ " would make HOME read-only as part of the
# whole filesystem even with ProtectHome=false; " +:+ quoted "full" +:+ " still protects
# /usr, /boot, and /etc while leaving the unprivileged user's state writable.
ProtectHome=false
UMask=0077

[Install]
WantedBy=default.target
".

Definition GenerateSystemdUnit (cfg : ServiceFileConfig) : result ServiceError string :=
  _ ← refuse (bool_decide (sv_Executable cfg = "")) ExecutableRequired;
  '(description, arguments) ← serviceCommand cfg;
  Ok ("[Unit]
Description=" +:+ description +:+ "
After=network-online.target
Wants=network-online.target

[Service]
Type=simple
WorkingDirectory=" +:+ systemdEscape (unitWorking cfg) +:+ unitEnvironment +:+
      systemdEscape (sv_Executable cfg) +:+ " " +:+ unitArguments cfg arguments +:+ unitEnd).

(** ** The command that writes them *)

Definition isLetter (a : ascii) : bool := is_upper (zb a) || is_lower (zb a).

(** An absolute path of either system is kept. *)
Definition resolveServicePath (Abs : string → option string) (value : string) : result ServiceError string :=
  if HasPrefix value "/" || HasPrefix value "\\" ||
     match value with
     | String d (String c (String s _)) => isLetter d && bool_decide (c = ":"%char) && bool_decide (s = "\"%char ∨ s = "/"%char)
     | _ => false
     end
  then Ok value
  else match Abs value with Some path => Ok path | None => Err NoAbsolutePath end.

(** [runService] after its flags are parsed: the contents it writes. *)
Definition serviceContents (Abs : string → option string) (filepathDir : string → string) (target : string) (flags : ServiceFileConfig)
    : result ServiceError string :=
  _ ← refuse (bool_decide (sv_Executable flags = "")) ExecutableRequired;
  _ ← refuse (EqualFold (sv_Mode flags) "agent" && bool_decide (sv_ConfigPath flags = "")) ConfigPathRequired;
  executable ← resolveServicePath Abs (sv_Executable flags);
  config ← (if bool_decide (sv_ConfigPath flags = "") then Ok "" else resolveServicePath Abs (sv_ConfigPath flags));
  let cfg := mkServiceFileConfig executable config (sv_FirmwareDirectory flags) (sv_WorkingDirectory flags)
               (sv_WindowsUserID flags) (sv_Mode flags) in
  let target' := ToLower target in
  if bool_decide (target' = "windows") then GenerateWindowsTaskXML filepathDir cfg
  else if bool_decide (target' = "systemd") || bool_decide (target' = "linux") then GenerateSystemdUnit cfg
  else Err (UnsupportedTarget target).

Example pathDir_cases : pathDir <$> ["/etc/q/agent.json"; "agent.json"; "/agent.json"; "a//b/"; ""] = ["/etc/q"; "."; "/"; "a/b"; "."].
Proof. vm_compute. reflexivity. Qed.
