(* ===== verification/ServiceFacts.v ===== *)
(** * Facts about service files

    What systemd reads in the unit's command line and what the task scheduler
    reads in the XML are the executable and the paths that were configured; for
    the unit, if the paths hold no dollar sign, which [systemdEscape] does not
    double, and no line break. *)

From S2P Require Import Prelude GoText GoTextFacts GoNet Version Server Service.

(** ** Texts put together from pieces *)

Fixpoint glue (l l' : list string) : list string :=
  match l with
  | [] => l'
  | [x] => match l' with [] => [x] | y :: l' => (x +:+ y) :: l' end
  | x :: l => x :: glue l l'
  end.

Lemma Split_app c s t : Split c (s +:+ t) = glue (Split c s) (Split c t).
Proof.
  induction s as [|a s IH]; [cbn; destruct (Split c t) eqn:E; [by apply Split_ne in E|done]|].
  rewrite str_app_cons. cbn [Split]. rewrite IH. destruct (bool_decide (a = c)).
  - cbn [glue]. destruct (Split c s) eqn:E; [by apply Split_ne in E|done].
  - destruct (Split c s) as [|x l] eqn:E; [by apply Split_ne in E|].
    destruct (Split c t) as [|y m] eqn:E'; [by apply Split_ne in E'|].
    destruct l as [|z l]; cbn [glue]; [by rewrite str_app_cons|done].
Qed.

Lemma has_byte_app_false c s t : has_byte c (s +:+ t) = false ↔ has_byte c s = false ∧ has_byte c t = false.
Proof.
  induction s as [|a s IH]; [cbn; tauto|]. rewrite str_app_cons. cbn [has_byte]. rewrite !orb_false_iff, IH. tauto.
Qed.

(** ** How systemd reads a unit

    A reading of systemd.syntax and systemd.service: a directive is a line
    that starts with its name and an equals sign; a command line is split at
    spaces outside quotes, with the two escapes used here; then specifiers are
    expanded; then, except in the program's path, environment variables are
    substituted.  Single quotes and semicolons outside double quotes, other
    escapes and other specifiers are not read, and neither is a program that is
    not a clean absolute path or that holds a quote, a backslash or a control
    character.  Lines end at LF, CR or NUL and are UTF-8: the values the
    theorems are about hold none of the three. *)

Fixpoint strip (p s : string) : option string :=
  match p, s with
  | EmptyString, _ => Some s
  | String a p, String b s => if Ascii.eqb a b then strip p s else None
  | String _ _, EmptyString => None
  end.

Definition nl : ascii := "010"%char.
Definition dq : ascii := "034"%char.
Definition backslash : ascii := "\"%char.

Definition directive (name unit_ : string) : list string := omap (strip (name +:+ "=")) (Split nl unit_).

Definition extend (cur : option string) (a : ascii) : option string := Some (default "" cur +:+ String a "").

(** [inq]: inside double quotes; [cur]: the word begun. *)
Fixpoint commandWords (inq : bool) (cur : option string) (s : string) : option (list string) :=
  match s with
  | EmptyString => if inq then None else Some (match cur with Some w => [w] | None => [] end)
  | String a s =>
    if inq then
      if Ascii.eqb a dq then commandWords false cur s
      else if Ascii.eqb a backslash then
        match s with
        | String b s => if Ascii.eqb b dq || Ascii.eqb b backslash then commandWords true (extend cur b) s else None
        | EmptyString => None
        end
      else commandWords true (extend cur a) s
    else if Ascii.eqb a " " then
      match cur with Some w => cons w <$> commandWords false None s | None => commandWords false None s end
    else if Ascii.eqb a dq then commandWords true (Some (default "" cur)) s
    else if Ascii.eqb a "'" || Ascii.eqb a backslash || Ascii.eqb a ";" then None
    else commandWords false (extend cur a) s
  end.

Fixpoint specifiers (home s : string) : option string :=
  match s with
  | EmptyString => Some ""
  | String a s =>
    if Ascii.eqb a "%" then
      match s with
      | String b s =>
        if Ascii.eqb b "%" then String "%" <$> specifiers home s
        else if Ascii.eqb b "h" then String.append home <$> specifiers home s
        else None
      | EmptyString => None
      end
    else String a <$> specifiers home s
  end.

(** A path that systemd takes for the program to run. *)
Definition programPath (p : string) : bool :=
  HasPrefix p "/" && negb (bool_decide (p = "/")) && bool_decide (Clean p = p) &&
  forallb (λ a, (32 <=? zb a) && negb (Ascii.eqb a "127" || Ascii.eqb a dq || Ascii.eqb a "'" || Ascii.eqb a backslash))
    (Stdlib.Strings.String.list_ascii_of_string p).

(** The substitution of environment variables in an argument: [env] gives a
    variable's value, [SplitValue] the words of a value. *)
Section environment.
Context (env : string → option string) (SplitValue : string → list string).

(** Inside a word [${NAME}] is the value, empty if there is none, and two
    dollar signs are one; [name] is the part of a name that was read. *)
Fixpoint substitute (name : option string) (s : string) : string :=
  match s with
  | EmptyString => match name with Some n => "${" +:+ n | None => "" end
  | String a s =>
    match name with
    | Some n => if Ascii.eqb a "}" then default "" (env n) +:+ substitute None s else substitute (Some (n +:+ String a "")) s
    | None =>
      if Ascii.eqb a "$" then
        match s with
        | String b t =>
          if Ascii.eqb b "$" then String "$" (substitute None t)
          else if Ascii.eqb b "{" then substitute (Some "") t
          else String "$" (substitute None s)
        | EmptyString => "$"
        end
      else String a (substitute None s)
    end
  end.

(** A word that is [$NAME] is replaced by the words of its value. *)
Definition argument (w : string) : list string :=
  match w with
  | String a s =>
    if Ascii.eqb a "$" && negb (HasPrefix s "$" || HasPrefix s "{")
    then match env s with Some v => SplitValue v | None => [] end
    else [substitute None w]
  | EmptyString => [w]
  end.

(** The program and the arguments of a command line. *)
Definition argv (home line : string) : option (list string) :=
  words ← commandWords false None line;
  words ← mapM (specifiers home) words;
  match words with
  | program :: args => if programPath program then Some (program :: concat (argument <$> args)) else None
  | [] => None
  end.

(** Without a dollar sign nothing is substituted. *)
Lemma substitute_plain s : has_byte "$" s = false → substitute None s = s.
Proof.
  induction s as [|a s IH]; [done|]. cbn [has_byte substitute]. intros [Ha Hs]%orb_false_iff.
  apply bool_decide_eq_false in Ha. by rewrite (proj2 (Ascii.eqb_neq a "$") Ha), IH.
Qed.

Lemma argument_plain w : has_byte "$" w = false → argument w = [w].
Proof.
  intros Hw. destruct w as [|a s]; [done|]. unfold argument. rewrite substitute_plain by done.
  cbn [has_byte] in Hw. apply orb_false_iff in Hw as [Ha _]. apply bool_decide_eq_false in Ha.
  by rewrite (proj2 (Ascii.eqb_neq a "$") Ha).
Qed.

Lemma arguments_plain ws : Forall (λ w, has_byte "$" w = false) ws → concat (argument <$> ws) = ws.
Proof. induction 1 as [|w ws Hw _ IH]; [done|]. rewrite fmap_cons. cbn [concat]. by rewrite argument_plain, IH. Qed.
End environment.

(** [systemdEscape] leaves dollar signs alone: the service of a user whose
    path holds one gets another path. *)
Example dollar_path :
  argv (λ n, if bool_decide (n = "HOME") then Some "/home/u" else None) (λ v, [v]) "/home/u"
    ("/usr/bin/q agent --config " +:+ systemdEscape "/srv/a$$b/${HOME}/agent.json") =
  Some ["/usr/bin/q"; "agent"; "--config"; "/srv/a$b//home/u/agent.json"].
Proof. vm_compute. reflexivity. Qed.

(** *** Reading what was escaped *)

Fixpoint doublePercent (s : string) : string :=
  match s with
  | EmptyString => ""
  | String a s => if Ascii.eqb a "%" then "%%" +:+ doublePercent s else String a (doublePercent s)
  end.

Lemma specifiers_double home s : specifiers home (doublePercent s) = Some s.
Proof.
  induction s as [|a s IH]; [done|]. cbn [doublePercent]. destruct (Ascii.eqb_spec a "%") as [->|Hne].
  - change ("%%" +:+ doublePercent s) with (String "%" (String "%" (doublePercent s))). cbn. by rewrite IH.
  - cbn [specifiers]. rewrite (proj2 (Ascii.eqb_neq a "%") Hne), IH. done.
Qed.

Lemma string_snoc_app w a t : (w +:+ String a "") +:+ t = w +:+ String a t.
Proof. induction w as [|b w IH]; [done|]. by rewrite !str_app_cons, IH. Qed.

Lemma words_plain w a t : a ≠ dq → a ≠ backslash → commandWords true (Some w) (String a t) = commandWords true (Some (w +:+ String a "")) t.
Proof. intros H1 H2. cbn [commandWords]. by rewrite (proj2 (Ascii.eqb_neq a dq) H1), (proj2 (Ascii.eqb_neq a backslash) H2). Qed.

Lemma words_escape w b t : b = dq ∨ b = backslash →
  commandWords true (Some w) (String backslash (String b t)) = commandWords true (Some (w +:+ String b "")) t.
Proof. by intros [-> | ->]. Qed.

Lemma app_empty w : w +:+ "" = w.
Proof. induction w as [|b w IH]; [done|]. by rewrite str_app_cons, IH. Qed.

Lemma words_escaped w s rest :
  commandWords true (Some w) (escapeUnit s +:+ String dq rest) = commandWords false (Some (w +:+ doublePercent s)) rest.
Proof.
  revert w. induction s as [|a s IH]; intros w; [by rewrite app_empty|]. cbn [escapeUnit doublePercent].
  destruct (decide (a = backslash)) as [->|H1]; [rewrite bool_decide_true by done|rewrite (bool_decide_false (a = "\"%char)) by done].
  { change ("\\" +:+ escapeUnit s) with (String backslash (String backslash (escapeUnit s))). rewrite !str_app_cons, words_escape by auto.
    rewrite IH. cbn [Ascii.eqb]. by rewrite string_snoc_app. }
  destruct (decide (a = dq)) as [->|H2]; [rewrite bool_decide_true by done|rewrite (bool_decide_false (a = "034"%char)) by done].
  { change ("\" +:+ dquote +:+ escapeUnit s) with (String backslash (String dq (escapeUnit s))). rewrite !str_app_cons, words_escape by auto.
    rewrite IH. by rewrite string_snoc_app. }
  destruct (Ascii.eqb_spec a "%") as [->|H3]; [rewrite bool_decide_true by done|rewrite (bool_decide_false (a = "%"%char)) by done].
  { change ("%%" +:+ escapeUnit s) with (String "%" (String "%" (escapeUnit s))). rewrite !str_app_cons, !words_plain by done.
    rewrite IH, string_snoc_app, string_snoc_app. done. }
  rewrite str_app_cons, words_plain by done. rewrite IH. by rewrite string_snoc_app.
Qed.

(** An escaped value is one word, and specifiers give the value back. *)
Lemma systemdEscape_app s rest : systemdEscape s +:+ rest = String dq (escapeUnit s +:+ String dq rest).
Proof.
  unfold systemdEscape, quoted. rewrite <-!str_app_assoc. change (dquote +:+ rest) with (String dq rest). done.
Qed.

Lemma words_systemdEscape cur s rest :
  commandWords false cur (systemdEscape s +:+ rest) = commandWords false (Some (default "" cur +:+ doublePercent s)) rest.
Proof. rewrite systemdEscape_app. cbn [commandWords Ascii.eqb]. apply words_escaped. Qed.

Lemma words_end s : commandWords false None (systemdEscape s) = Some [doublePercent s].
Proof. rewrite <-(app_empty (systemdEscape s)), words_systemdEscape. done. Qed.

Lemma words_next s rest : commandWords false None (systemdEscape s +:+ " " +:+ rest) = cons (doublePercent s) <$> commandWords false None rest.
Proof. rewrite words_systemdEscape. done. Qed.

(** An escaped value keeps to its line. *)
Lemma escapeUnit_line s : has_byte nl s = false → has_byte nl (escapeUnit s) = false.
Proof.
  induction s as [|a s IH]; [done|]. cbn [has_byte escapeUnit]. intros [Ha Hs]%orb_false_iff. specialize (IH Hs).
  repeat case_bool_decide; rewrite ?has_byte_app_false; cbn [has_byte]; try (split_and!; done).
  all: by rewrite ?IH, ?orb_false_r; apply bool_decide_eq_false.
Qed.

Lemma systemdEscape_line s : has_byte nl s = false → Split nl (systemdEscape s) = [systemdEscape s].
Proof.
  intros H. apply Split_plain. unfold systemdEscape, quoted. rewrite !has_byte_app_false. split_and!; [done|by apply escapeUnit_line|done].
Qed.

(** ** The unit *)

Definition expectedArgv (home : string) (cfg : ServiceFileConfig) : list string :=
  sv_Executable cfg ::
  if isStandalone cfg then
    "standalone" ::
    (if bool_decide (sv_FirmwareDirectory cfg = "")
     then ["--firmware-dir=" +:+ home +:+ "/.local/share/quota-monitor/firmware"]
     else ["--firmware-dir"; sv_FirmwareDirectory cfg])
  else ["agent"; "--config"; sv_ConfigPath cfg].

(** The lines of the unit that start the program and name its directory. *)
Lemma unit_directive d w args u :
  Split nl d = [d] → Split nl w = [w] → Split nl args = [args] →
  u = "[Unit]
Description=" +:+ d +:+ "
After=network-online.target
Wants=network-online.target

[Service]
Type=simple
WorkingDirectory=" +:+ w +:+ unitEnvironment +:+ args +:+ unitEnd →
  directive "ExecStart" u = [args] ∧ directive "WorkingDirectory" u = [w].
Proof.
  intros Hd Hw Ha ->. unfold directive. rewrite !Split_app, Hd, Hw, Ha. split.
  - transitivity [args +:+ ""]; [vm_compute; reflexivity|by rewrite app_empty].
  - transitivity [w +:+ ""]; [vm_compute; reflexivity|by rewrite app_empty].
Qed.

Lemma agent_command cfg :
  TrimSpace (sv_Mode cfg) ∈ [""; "agent"] →
  isStandalone cfg = false ∧
  serviceCommand cfg = (_ ← refuse (bool_decide (sv_ConfigPath cfg = "")) ConfigPathRequired;
    Ok ("Codex and Claude quota monitor agent", "agent --config " +:+ systemdEscape (sv_ConfigPath cfg))).
Proof.
  unfold isStandalone, serviceCommand. rewrite !elem_of_cons. intros [-> | [-> | []%elem_of_nil]]; split; reflexivity.
Qed.

Lemma standalone_command cfg :
  TrimSpace (sv_Mode cfg) = "standalone" →
  isStandalone cfg = true ∧ serviceCommand cfg = Ok ("Codex and Claude standalone quota monitor", "standalone").
Proof. unfold isStandalone, serviceCommand. intros ->. split; reflexivity. Qed.

(** A value that keeps to its line. *)
Definition unitValue (s : string) : bool := negb (has_byte nl s || has_byte "013" s || has_byte NUL s).

Lemma unitValue_nl s : unitValue s = true → has_byte nl s = false.
Proof. unfold unitValue. rewrite negb_true_iff, !orb_false_iff. tauto. Qed.

(** In the systemd unit there is exactly one [ExecStart] line, and systemd
    reads it as the executable followed by the agent's configuration file, or
    by the standalone mode's firmware directory, each exactly as given,
    whatever quotes, backslashes, spaces and percent signs they contain.  The
    working directory is quoted as well. *)
Lemma unit_argv (env : string → option string) (SplitValue : string → list string) (home : string) (cfg : ServiceFileConfig) (contents : string)
    (Hmode : TrimSpace (sv_Mode cfg) ∈ [""; "agent"; "standalone"])
    (Hlines : Forall (λ s, unitValue s = true)
       [sv_Executable cfg; sv_ConfigPath cfg; sv_FirmwareDirectory cfg; unitWorking cfg])
    (Hprogram : programPath (sv_Executable cfg) = true)
    (Hdollar : Forall (λ s, has_byte "$" s = false) [home; sv_ConfigPath cfg; sv_FirmwareDirectory cfg])
    (Hrun : GenerateSystemdUnit cfg = Ok contents) :
  ∃ line, directive "ExecStart" contents = [line] ∧ directive "WorkingDirectory" contents = [systemdEscape (unitWorking cfg)] ∧
      argv env SplitValue home line = Some (expectedArgv home cfg).
Proof.
  rewrite !Forall_cons in Hlines. destruct Hlines as (Hexe%unitValue_nl & Hcfg%unitValue_nl & Hfw%unitValue_nl & Hwork%unitValue_nl & _).
  assert (Hplain : Forall (λ w, has_byte "$" w = false) (tail (expectedArgv home cfg))).
  { rewrite !Forall_cons in Hdollar. destruct Hdollar as (Hh & Hc & Hf & _). unfold expectedArgv. cbn [tail].
    repeat case_match; repeat constructor; try done. rewrite !has_byte_app, Hh. reflexivity. }
  unfold GenerateSystemdUnit in Hrun. rewrite refuse_bind_Ok in Hrun. destruct Hrun as [_ Hrun].
  assert (Hexe' : ∀ rest, Split nl rest = [rest] → Split nl (systemdEscape (sv_Executable cfg) +:+ " " +:+ rest) =
                          [systemdEscape (sv_Executable cfg) +:+ " " +:+ rest]).
  { intros rest Hrest. rewrite !Split_app, systemdEscape_line, Hrest by done. done. }
  assert (Hargv : ∀ rest words, commandWords false None rest = Some words → mapM (specifiers home) words = Some (tail (expectedArgv home cfg)) →
    argv env SplitValue home (systemdEscape (sv_Executable cfg) +:+ " " +:+ rest) = Some (expectedArgv home cfg)).
  { intros rest words Hw Hm. unfold argv. rewrite words_next, Hw. cbn [fmap option_fmap option_map mbind option_bind mapM].
    rewrite specifiers_double. cbn [mbind option_bind]. rewrite Hm. cbn [mbind option_bind mret option_ret]. rewrite Hprogram, arguments_plain by done. done. }
  assert (Hfinish : ∀ d rest words, Split nl d = [d] → Split nl rest = [rest] → commandWords false None rest = Some words →
    mapM (specifiers home) words = Some (tail (expectedArgv home cfg)) →
    Ok (E := ServiceError) ("[Unit]
Description=" +:+ d +:+ "
After=network-online.target
Wants=network-online.target

[Service]
Type=simple
WorkingDirectory=" +:+ systemdEscape (unitWorking cfg) +:+ unitEnvironment +:+
      systemdEscape (sv_Executable cfg) +:+ " " +:+ rest +:+ unitEnd) = Ok contents →
    ∃ line, directive "ExecStart" contents = [line] ∧ directive "WorkingDirectory" contents = [systemdEscape (unitWorking cfg)] ∧
      argv env SplitValue home line = Some (expectedArgv home cfg)).
  { intros d rest words Hd Hr Hw Hm Hc. eexists. apply and_assoc. split; [|by apply (Hargv rest words)].
    apply (unit_directive d (systemdEscape (unitWorking cfg)) _ contents Hd (systemdEscape_line _ Hwork) (Hexe' _ Hr)).
    injection Hc as <-. by rewrite <-!str_app_assoc. }
  assert (Hcases : TrimSpace (sv_Mode cfg) ∈ [""; "agent"] ∨ TrimSpace (sv_Mode cfg) = "standalone") by set_solver.
  destruct Hcases as [Hm|Hm].
  - destruct (agent_command cfg Hm) as [Hs Hc]. rewrite Hc in Hrun.
    destruct (bool_decide (sv_ConfigPath cfg = "")); cbn [refuse mbind result_bind] in Hrun; [done|]. unfold unitArguments in Hrun. unfold expectedArgv in *. rewrite Hs in *.
    eapply (Hfinish _ ("agent --config " +:+ systemdEscape (sv_ConfigPath cfg))); [| | | |exact Hrun].
    + done.
    + rewrite Split_app, systemdEscape_line by done. done.
    + change (commandWords false None ("agent --config " +:+ systemdEscape (sv_ConfigPath cfg)))
        with (cons "agent" <$> (cons "--config" <$> commandWords false None (systemdEscape (sv_ConfigPath cfg)))).
      rewrite words_end. reflexivity.
    + cbn [mapM]. change (specifiers home "agent") with (Some "agent"). change (specifiers home "--config") with (Some "--config").
      rewrite specifiers_double. reflexivity.
  - destruct (standalone_command cfg Hm) as [Hs Hc]. rewrite Hc in Hrun. cbn [mbind result_bind] in Hrun.
    unfold unitArguments in Hrun. unfold expectedArgv in *. rewrite Hs in *.
    destruct (decide (sv_FirmwareDirectory cfg = "")) as [Hf|Hf]; [rewrite bool_decide_true in * by done|rewrite bool_decide_false in * by done].
    + eapply (Hfinish _ ("standalone --firmware-dir=" +:+ quoted "%h/.local/share/quota-monitor/firmware")); [| | | |exact Hrun]; try reflexivity.
    + eapply (Hfinish _ ("standalone --firmware-dir " +:+ systemdEscape (sv_FirmwareDirectory cfg))); [| | | |exact Hrun].
      * done.
      * rewrite Split_app, systemdEscape_line by done. done.
      * change (commandWords false None ("standalone --firmware-dir " +:+ systemdEscape (sv_FirmwareDirectory cfg)))
          with (cons "standalone" <$> (cons "--firmware-dir" <$> commandWords false None (systemdEscape (sv_FirmwareDirectory cfg)))).
        rewrite words_end. reflexivity.
      * cbn [mapM]. change (specifiers home "standalone") with (Some "standalone").
        change (specifiers home "--firmware-dir") with (Some "--firmware-dir"). rewrite specifiers_double. reflexivity.
Qed.

Definition demo_service (mode : string) : ServiceFileConfig :=
  mkServiceFileConfig "/opt/a b/100%/q" ("/home/u/a" +:+ dquote +:+ ".json") "/srv/fw\x" "" "S-1-5<>" mode.

(** ** How the task scheduler reads the XML

    An element's text ends where the next tag begins, and the entities in it
    are replaced. *)

Definition lt : ascii := "<"%char.

Definition texts (name doc : string) : list string := omap (strip (name +:+ ">")) (Split lt doc).

(** Everything between a left and a right angle bracket. *)
Fixpoint tagName (piece : string) : string :=
  match piece with
  | EmptyString => ""
  | String a piece => if Ascii.eqb a ">" then "" else String a (tagName piece)
  end.
Definition tags (doc : string) : list string := tagName <$> tail (Split lt doc).

Fixpoint unescape (s : string) : string :=
  match s with
  | String "&" (String "a" (String "m" (String "p" (String ";" s)))) => String "&" (unescape s)
  | String "&" (String "#" (String "3" (String "9" (String ";" s)))) => String "'" (unescape s)
  | String "&" (String "l" (String "t" (String ";" s))) => String "<" (unescape s)
  | String "&" (String "g" (String "t" (String ";" s))) => String ">" (unescape s)
  | String "&" (String "#" (String "3" (String "4" (String ";" s)))) => String "034" (unescape s)
  | String "&" (String "q" (String "u" (String "o" (String "t" (String ";" s))))) => String "034" (unescape s)
  | String a s => String a (unescape s)
  | EmptyString => EmptyString
  end.

Lemma unescape_plain a s : a ≠ "&"%char → unescape (String a s) = String a (unescape s).
Proof. destruct a as [[] [] [] [] [] [] [] []]; try done. Qed.

Lemma unescape_app s t : unescape (EscapeString s +:+ t) = s +:+ unescape t.
Proof.
  induction s as [|a s IH]; [done|]. cbn [EscapeString].
  destruct (decide (a = "&"%char)) as [->|H1]; [rewrite bool_decide_true by done; rewrite (str_app_cons _ s), <-IH; done|].
  rewrite (bool_decide_false (a = "&"%char)) by done.
  destruct (decide (a = "'"%char)) as [->|H2]; [rewrite bool_decide_true by done; rewrite (str_app_cons _ s), <-IH; done|].
  rewrite (bool_decide_false (a = "'"%char)) by done.
  destruct (decide (a = "<"%char)) as [->|H3]; [rewrite bool_decide_true by done; rewrite (str_app_cons _ s), <-IH; done|].
  rewrite (bool_decide_false (a = "<"%char)) by done.
  destruct (decide (a = ">"%char)) as [->|H4]; [rewrite bool_decide_true by done; rewrite (str_app_cons _ s), <-IH; done|].
  rewrite (bool_decide_false (a = ">"%char)) by done.
  destruct (decide (a = "034"%char)) as [->|H5]; [rewrite bool_decide_true by done; rewrite (str_app_cons _ s), <-IH; done|].
  rewrite (bool_decide_false (a = "034"%char)) by done.
  rewrite !str_app_cons, unescape_plain by done. by rewrite IH.
Qed.

Lemma unescape_EscapeString s : unescape (EscapeString s) = s.
Proof. rewrite <-(app_empty (EscapeString s)), unescape_app. apply app_empty. Qed.

Lemma EscapeString_no_tag s : Split lt (EscapeString s) = [EscapeString s].
Proof.
  apply Split_plain. induction s as [|a s IH]; [done|]. cbn [EscapeString].
  repeat case_bool_decide; rewrite ?has_byte_app_false; cbn [has_byte]; try (split; done).
  rewrite IH, orb_false_r. by apply bool_decide_eq_false.
Qed.

Definition expectedArguments (cfg : ServiceFileConfig) : string :=
  if isStandalone cfg then
    if bool_decide (sv_FirmwareDirectory cfg = "") then "standalone"
    else "standalone --firmware-dir " +:+ quoted (sv_FirmwareDirectory cfg)
  else "agent --config " +:+ quoted (sv_ConfigPath cfg).

Definition taskTags (user : bool) : list string :=
  ["?xml version=" +:+ quoted "1.0" +:+ " encoding=" +:+ quoted "UTF-8" +:+ "?";
   "Task version=" +:+ quoted "1.4" +:+ " xmlns=" +:+ quoted "http://schemas.microsoft.com/windows/2004/02/mit/task";
   "Triggers"; "LogonTrigger"; "Enabled"; "/Enabled"; "/LogonTrigger"; "/Triggers"; "Principals";
   "Principal id=" +:+ quoted "Author"] ++
  (if user then ["UserId"; "/UserId"] else []) ++
  ["LogonType"; "/LogonType"; "RunLevel"; "/RunLevel"; "/Principal"; "/Principals"; "Settings";
   "MultipleInstancesPolicy"; "/MultipleInstancesPolicy"; "DisallowStartIfOnBatteries"; "/DisallowStartIfOnBatteries";
   "StopIfGoingOnBatteries"; "/StopIfGoingOnBatteries"; "ExecutionTimeLimit"; "/ExecutionTimeLimit";
   "RestartOnFailure"; "Interval"; "/Interval"; "Count"; "/Count"; "/RestartOnFailure"; "/Settings";
   "Actions Context=" +:+ quoted "Author"; "Exec"; "Command"; "/Command"; "Arguments"; "/Arguments";
   "WorkingDirectory"; "/WorkingDirectory"; "/Exec"; "/Actions"; "/Task"].

Lemma task_document (user : bool) (u e a w doc : string) :
  Split lt u = [u] → Split lt e = [e] → Split lt a = [a] → Split lt w = [w] →
  doc = taskHead +:+ (if user then "
      <UserId>" +:+ u +:+ "</UserId>" else "") +:+ taskSettings +:+ e +:+ "</Command>
      <Arguments>" +:+ a +:+ "</Arguments>
      <WorkingDirectory>" +:+ w +:+ taskEnd →
  texts "Command" doc = [e] ∧ texts "Arguments" doc = [a] ∧ texts "WorkingDirectory" doc = [w] ∧
  texts "UserId" doc = (if user then [u] else []) ∧ tags doc = taskTags user.
Proof.
  intros Hu He Ha Hw ->. unfold texts, tags.
  assert (H : ∀ x l, [x +:+ ""] = l → [x] = l) by (intros x l <-; by rewrite app_empty).
  destruct user; rewrite !Split_app, ?Hu, He, Ha, Hw.
  - split; [symmetry; apply H; vm_compute; reflexivity|]. split; [symmetry; apply H; vm_compute; reflexivity|].
    split; [symmetry; apply H; vm_compute; reflexivity|]. split; [symmetry; apply H; vm_compute; reflexivity|].
    vm_compute. reflexivity.
  - split; [symmetry; apply H; vm_compute; reflexivity|]. split; [symmetry; apply H; vm_compute; reflexivity|].
    split; [symmetry; apply H; vm_compute; reflexivity|]. split; vm_compute; reflexivity.
Qed.

(** The scheduled task starts the program that was configured, and
    nothing in the configuration can change the task: the XML that is
    generated has the same tags whatever its inputs, only the user's presence
    adds one element, and the texts of the command, its arguments, the
    directory and the user are, once the entities are replaced, exactly the
    ones given. *)
Theorem Windows_task_command (filepathDir : string → string) (cfg : ServiceFileConfig) (doc : string)
    (Hmode : TrimSpace (sv_Mode cfg) ∈ [""; "agent"; "standalone"])
    (Hrun : GenerateWindowsTaskXML filepathDir cfg = Ok doc) :
  unescape <$> texts "Command" doc = [sv_Executable cfg] ∧
  unescape <$> texts "Arguments" doc = [expectedArguments cfg] ∧
  unescape <$> texts "WorkingDirectory" doc =
    [if bool_decide (sv_WorkingDirectory cfg = "") then filepathDir (sv_Executable cfg) else sv_WorkingDirectory cfg] ∧
  unescape <$> texts "UserId" doc = (if bool_decide (sv_WindowsUserID cfg = "") then [] else [sv_WindowsUserID cfg]) ∧
  tags doc = taskTags (negb (bool_decide (sv_WindowsUserID cfg = ""))).
Proof.
  unfold GenerateWindowsTaskXML in Hrun. rewrite refuse_bind_Ok in Hrun. destruct Hrun as [_ Hrun].
  set (working := if bool_decide (sv_WorkingDirectory cfg = "") then filepathDir (sv_Executable cfg) else sv_WorkingDirectory cfg) in *.
  assert (Hargs : ∃ d args, serviceCommand cfg = Ok (d, args) ∧ Split lt (windowsArguments cfg args) = [windowsArguments cfg args] ∧
    unescape (windowsArguments cfg args) = expectedArguments cfg).
  { assert (Hquot : ∀ p s, unescape p = p → Split lt p = [p] → (∀ t, unescape (p +:+ t) = p +:+ unescape t) →
      Split lt (p +:+ "&quot;" +:+ EscapeString s +:+ "&quot;") = [p +:+ "&quot;" +:+ EscapeString s +:+ "&quot;"] ∧
      unescape (p +:+ "&quot;" +:+ EscapeString s +:+ "&quot;") = p +:+ quoted s).
    { intros p s Hp1 Hp2 Hp3. split; [rewrite !Split_app, Hp2, EscapeString_no_tag; done|]. rewrite Hp3.
      change (unescape ("&quot;" +:+ EscapeString s +:+ "&quot;")) with (String dq (unescape (EscapeString s +:+ "&quot;"))).
      by rewrite unescape_app. }
    unfold windowsArguments, expectedArguments.
    assert (Hcases : TrimSpace (sv_Mode cfg) ∈ [""; "agent"] ∨ TrimSpace (sv_Mode cfg) = "standalone") by set_solver.
    destruct Hcases as [Hm|Hm].
    - destruct (agent_command cfg Hm) as [Hs Hc]. rewrite Hs, Hc in *.
      destruct (bool_decide (sv_ConfigPath cfg = "")); cbn [refuse mbind result_bind] in *; [done|].
      do 2 eexists. split; [done|].
      change (HasPrefix ("agent --config " +:+ systemdEscape (sv_ConfigPath cfg)) "agent --config ") with true.
      by apply (Hquot "agent --config ").
    - destruct (standalone_command cfg Hm) as [Hs Hc]. rewrite Hs, Hc in *. do 2 eexists. split; [done|].
      change (HasPrefix "standalone" "agent --config ") with false.
      destruct (bool_decide (sv_FirmwareDirectory cfg = "")); cbn [negb andb]; [done|].
      by apply (Hquot "standalone --firmware-dir "). }
  destruct Hargs as (d & args & Hc & Ha & Hua). rewrite Hc in Hrun. cbn [mbind result_bind] in Hrun. injection Hrun as Hrun.
  destruct (task_document (negb (bool_decide (sv_WindowsUserID cfg = ""))) (EscapeString (sv_WindowsUserID cfg))
    (EscapeString (sv_Executable cfg)) (windowsArguments cfg args) (EscapeString working) doc) as (-> & -> & -> & -> & ->);
    try apply EscapeString_no_tag; [done| |].
  - rewrite <-Hrun. by destruct (bool_decide (sv_WindowsUserID cfg = "")).
  - rewrite !fmap_cons, !fmap_nil, !unescape_EscapeString, Hua.
    destruct (bool_decide (sv_WindowsUserID cfg = "")); [done|]. cbn [negb]. by rewrite fmap_cons, unescape_EscapeString.
Qed.

Lemma Windows_task_command_witness :
  match GenerateWindowsTaskXML id (demo_service " agent ") with
  | Ok doc => unescape <$> texts "UserId" doc = ["S-1-5<>"] ∧ tags doc = taskTags true
  | Err _ => False
  end.
Proof.
  destruct (GenerateWindowsTaskXML id (demo_service " agent ")) as [doc|e] eqn:E; [|vm_compute in E; discriminate E].
  destruct (Windows_task_command id (demo_service " agent ") doc) as (_ & _ & _ & Hu & Ht).
  - vm_compute. right. left.
  - exact E.
  - split; [exact Hu|exact Ht].
Defined.
