(* ===== verification/Notifier.v ===== *)
(** * cmd/quota-monitor: what the standalone mode logs about the providers

    [providerStatusNotifier.Observe] and [disabledProviderCollector] of
    [main.go].  A log line is one of four notices. *)

From S2P Require Import Prelude GoTime GoText GoTextFacts GoFloat Model.

(** [strings.HasSuffix]. *)
Fixpoint HasSuffix (s suffix : string) : bool :=
  bool_decide (s = suffix) || match s with String _ s => HasSuffix s suffix | EmptyString => false end.

Inductive notice :=
| LoginNeeded (p : ProviderName)       (* with the command to run *)
| LoginRestored (p : ProviderName)
| LoginFine (p : ProviderName)
| Unavailable (p : ProviderName).

#[global] Instance notice_eq_dec : EqDecision notice.
Proof. solve_decision. Defined.

(** [n.last]; an absent entry reads as the empty string. *)
Abbreviation statusTable := (gmap ProviderName string).

Definition stateOf (r : ProviderReport) : string := pr_AuthState r +:+ "|" +:+ pr_ErrorCode r.

Definition Observe (last : statusTable) (provider : ProviderName) (report : ProviderReport) : list notice * statusTable :=
  let state := stateOf report in
  let previous := default "" (last !! provider) in
  if bool_decide (previous = state) then ([], last)
  else
    let last := <[provider := state]> last in
    let loginRequired := bool_decide (pr_AuthState report = "unauthenticated") || bool_decide (pr_ErrorCode report = "not_authenticated") in
    if loginRequired then ([LoginNeeded provider], last)
    else if bool_decide (pr_AuthState report = "authenticated") then
      (if HasPrefix previous "unauthenticated|" || HasSuffix previous "|not_authenticated"
       then [LoginRestored provider] else [LoginFine provider], last)
    else if bool_decide (pr_ErrorCode report ≠ "") then ([Unavailable provider], last)
    else ([], last).

(** A history of observations. *)
Definition observeAll (last : statusTable) (h : list (ProviderName * ProviderReport)) : list notice * statusTable :=
  foldl (λ s pr, let '(ns, last) := Observe s.2 pr.1 pr.2 in (s.1 ++ ns, last)) ([], last) h.

(** [Collect] of a provider that is switched off. *)
Definition disabledProviderCollector (now : Time) : ProviderReport :=
  mkProviderReport now "disabled" "off" "standalone-disabled" noWindows "".

(** ** The recorded states *)

Definition bar : ascii := "|"%char.
Definition plain (r : ProviderReport) : Prop := has_byte bar (pr_AuthState r) = false ∧ has_byte bar (pr_ErrorCode r) = false.

Lemma prefix_bar a u e :
  has_byte bar a = false → has_byte bar u = false → HasPrefix (a +:+ String bar e) (u +:+ String bar "") = bool_decide (a = u).
Proof.
  unfold HasPrefix. revert u. induction a as [|x a IH]; intros [|y u]; cbn [has_byte]; intros Ha Hu.
  - by destruct e.
  - apply orb_false_iff in Hu as [Hy _]. apply bool_decide_eq_false in Hy. rewrite bool_decide_false by done.
    change ("" +:+ String bar e) with (String bar e). rewrite str_app_cons. cbn [Stdlib.Strings.String.prefix].
    by destruct (Ascii.ascii_dec y bar).
  - apply orb_false_iff in Ha as [Hx _]. apply bool_decide_eq_false in Hx. rewrite bool_decide_false by done.
    change ("" +:+ String bar "") with (String bar ""). rewrite str_app_cons. cbn [Stdlib.Strings.String.prefix].
    destruct (Ascii.ascii_dec bar x); [by subst|done].
  - apply orb_false_iff in Ha as [_ Ha]. apply orb_false_iff in Hu as [_ Hu].
    rewrite !str_app_cons. cbn [Stdlib.Strings.String.prefix]. destruct (Ascii.ascii_dec y x) as [->|Hne].
    + rewrite IH by done. apply bool_decide_ext. split; congruence.
    + rewrite bool_decide_false; [done|]. congruence.
Qed.

Lemma suffix_absent e u : has_byte bar e = false → HasSuffix e (String bar u) = false.
Proof.
  induction e as [|x e IH]; [done|]. cbn [has_byte HasSuffix]. intros [Hx He]%orb_false_iff.
  apply bool_decide_eq_false in Hx. rewrite IH by done. rewrite bool_decide_false; [done|]. congruence.
Qed.

Lemma suffix_bar a e u :
  has_byte bar a = false → has_byte bar e = false → HasSuffix (a +:+ String bar e) (String bar u) = bool_decide (e = u).
Proof.
  intros Ha He. induction a as [|x a IH].
  - change ("" +:+ String bar e) with (String bar e). cbn [HasSuffix]. rewrite suffix_absent, orb_false_r by done.
    apply bool_decide_ext. split; congruence.
  - cbn [has_byte] in Ha. apply orb_false_iff in Ha as [Hx Ha]. apply bool_decide_eq_false in Hx.
    rewrite str_app_cons. cbn [HasSuffix]. rewrite IH, bool_decide_false by (done || congruence). done.
Qed.

Lemma stateOf_inj r r' : plain r → plain r' → stateOf r = stateOf r' → pr_AuthState r = pr_AuthState r' ∧ pr_ErrorCode r = pr_ErrorCode r'.
Proof.
  intros [Ha He] [Ha' He'] E. unfold stateOf in E.
  assert (Hp : HasPrefix (pr_AuthState r +:+ String bar (pr_ErrorCode r)) (pr_AuthState r' +:+ String bar "") = true).
  { change (String bar (pr_ErrorCode r)) with ("|" +:+ pr_ErrorCode r). rewrite E.
    change ("|" +:+ pr_ErrorCode r') with (String bar (pr_ErrorCode r')). rewrite prefix_bar by done. by rewrite bool_decide_true. }
  rewrite prefix_bar in Hp by done. apply bool_decide_eq_true in Hp. split; [done|].
  rewrite Hp in E. apply str_app_inv in E. by injection E.
Qed.

(** The last report of a provider. *)
Fixpoint lastOf (p : ProviderName) (h : list (ProviderName * ProviderReport)) : option ProviderReport :=
  match h with
  | [] => None
  | (q, r) :: h => match lastOf p h with Some r' => Some r' | None => if bool_decide (q = p) then Some r else None end
  end.

Lemma lastOf_snoc p h q r : lastOf p (h ++ [(q, r)]) = if bool_decide (q = p) then Some r else lastOf p h.
Proof. induction h as [|[q' r'] h IH]; simpl; [done|]. rewrite IH. by case_bool_decide. Qed.

Lemma insert_spec (last : statusTable) p s q : <[p := s]> last !! q = if bool_decide (p = q) then Some s else last !! q.
Proof. case_bool_decide as Hq; [rewrite <- Hq; apply lookup_insert_eq|by apply lookup_insert_ne]. Qed.

Lemma Observe_table last p r q : (Observe last p r).2 !! q = if bool_decide (p = q) then Some (stateOf r) else last !! q.
Proof.
  unfold Observe. destruct (decide (default "" (last !! p) = stateOf r)) as [E|E].
  - rewrite (bool_decide_true _ E). cbn [snd]. case_bool_decide as Hq; [rewrite <- Hq|done].
    destruct (last !! p) as [s|]; cbn in E; [by subst|]. exfalso. unfold stateOf in E. by destruct (pr_AuthState r).
  - rewrite (bool_decide_false _ E). rewrite <- insert_spec.
    destruct (_ || _); [done|]. destruct (bool_decide (pr_AuthState r = _)); [done|]. by destruct (bool_decide (pr_ErrorCode r ≠ _)).
Qed.

Lemma observeAll_snoc last h p r :
  observeAll last (h ++ [(p, r)]) =
  ((observeAll last h).1 ++ (Observe (observeAll last h).2 p r).1, (Observe (observeAll last h).2 p r).2).
Proof. unfold observeAll. rewrite foldl_app. cbn [foldl fst snd]. by destruct (Observe _ p r). Qed.

Lemma observeAll_table h p : (observeAll ∅ h).2 !! p = stateOf <$> lastOf p h.
Proof.
  induction h as [|[q r] h IH] using rev_ind; [done|]. rewrite observeAll_snoc, lastOf_snoc. cbn [snd].
  rewrite Observe_table, IH. by case_bool_decide.
Qed.

Definition needsLogin (r : ProviderReport) : Prop := pr_AuthState r = "unauthenticated" ∨ pr_ErrorCode r = "not_authenticated".
#[global] Instance needsLogin_dec r : Decision (needsLogin r).
Proof. unfold needsLogin. apply _. Defined.

Lemma needsLogin_bool r :
  bool_decide (pr_AuthState r = "unauthenticated") || bool_decide (pr_ErrorCode r = "not_authenticated") = bool_decide (needsLogin r).
Proof.
  apply eq_true_iff_eq. rewrite orb_true_iff, !bool_decide_eq_true. done.
Qed.

(** Two reports look alike to the notifier. *)
Definition sameState (r r' : ProviderReport) : Prop := pr_AuthState r = pr_AuthState r' ∧ pr_ErrorCode r = pr_ErrorCode r'.
#[global] Instance sameState_dec r r' : Decision (sameState r r').
Proof. unfold sameState. apply _. Defined.

(** A property of the previous report, when there is one. *)
Definition previously (P : ProviderReport → Prop) (o : option ProviderReport) : Prop := match o with Some r => P r | None => False end.
#[global] Instance previously_dec P `{∀ r, Decision (P r)} o : Decision (previously P o).
Proof. destruct o; apply _. Defined.

(** What should be said about a report, given the provider's previous one. *)
Definition expectedNotices (previous : option ProviderReport) (p : ProviderName) (r : ProviderReport) : list notice :=
  if decide (previously (λ r', sameState r' r) previous) then []
  else if decide (needsLogin r) then [LoginNeeded p]
  else if decide (pr_AuthState r = "authenticated") then
    if decide (previously needsLogin previous) then [LoginRestored p] else [LoginFine p]
  else if decide (pr_ErrorCode r = "") then [] else [Unavailable p].

(** What [Observe] says is decided by three tests. *)
Lemma Observe_says last p r (same restored : Prop) `{Decision same, Decision restored} :
  (default "" (last !! p) = stateOf r ↔ same) →
  (let previous := default "" (last !! p) in
   HasPrefix previous "unauthenticated|" || HasSuffix previous "|not_authenticated" = bool_decide restored) →
  (Observe last p r).1 =
  if decide same then [] else if decide (needsLogin r) then [LoginNeeded p]
  else if decide (pr_AuthState r = "authenticated") then if decide restored then [LoginRestored p] else [LoginFine p]
  else if decide (pr_ErrorCode r = "") then [] else [Unavailable p].
Proof.
  intros Hsame Hrest. unfold Observe. cbv zeta in *. rewrite needsLogin_bool, Hrest, (bool_decide_ext _ _ Hsame).
  rewrite !decide_bool_decide. destruct (bool_decide same); [done|]. destruct (bool_decide (needsLogin r)); [done|].
  destruct (bool_decide (pr_AuthState r = _)); [by destruct (bool_decide restored)|].
  destruct (decide (pr_ErrorCode r = "")) as [E|E].
  - rewrite (bool_decide_true (pr_ErrorCode r = "")), bool_decide_false by tauto. done.
  - rewrite (bool_decide_false (pr_ErrorCode r = "")), bool_decide_true by tauto. done.
Qed.

Lemma lastOf_plain p h r : Forall (λ pr, plain pr.2) h → lastOf p h = Some r → plain r.
Proof.
  induction h as [|[q x] h IH]; [done|]. intros [Hx Hh]%Forall_cons. cbn [lastOf].
  destruct (lastOf p h) as [y|]; [intros [= <-]; by apply IH|]. case_bool_decide; [|done]. by intros [= <-].
Qed.

(** The log follows the changes of state and nothing else: after any
    history of reports, the next report of a provider is silent when its state
    equals that of the provider's previous report, asks for a login exactly
    when it says one is needed, and announces a recovery exactly when the
    previous report of that provider needed a login, whatever the other
    provider reported in between. *)
Theorem Observe_follows_changes (h : list (ProviderName * ProviderReport)) (p : ProviderName) (r : ProviderReport)
    (Hh : Forall (λ pr, plain pr.2) h) (Hr : plain r) :
  (observeAll ∅ (h ++ [(p, r)])).1 = (observeAll ∅ h).1 ++ expectedNotices (lastOf p h) p r.
Proof.
  rewrite observeAll_snoc. cbn [fst]. f_equal. unfold expectedNotices. apply Observe_says; rewrite observeAll_table.
  - destruct (lastOf p h) as [r'|] eqn:E; cbn [fmap option_fmap option_map default previously].
    + split; [by apply stateOf_inj; [eapply lastOf_plain|]|]. unfold sameState, stateOf, id. by intros [-> ->].
    + split; [unfold stateOf; by destruct (pr_AuthState r)|done].
  - destruct (lastOf p h) as [r'|] eqn:E; [|done].
    destruct (lastOf_plain _ _ _ Hh E) as [Ha He].
    transitivity (bool_decide (pr_AuthState r' = "unauthenticated") || bool_decide (pr_ErrorCode r' = "not_authenticated")).
    + f_equal; [by apply (prefix_bar _ "unauthenticated")|by apply (suffix_bar _ _ "not_authenticated")].
    + rewrite needsLogin_bool. by apply bool_decide_ext.
Qed.

Definition demo_status (auth error : string) : ProviderReport := mkProviderReport 0 auth "" "" noWindows error.

Lemma Observe_follows_changes_witness :
  (observeAll ∅ ([("codex", demo_status "unauthenticated" ""); ("claude", demo_status "authenticated" "");
                  ("codex", demo_status "unauthenticated" "")] ++ [("codex", demo_status "authenticated" "")])).1 =
  [LoginNeeded "codex"; LoginFine "claude"] ++ [LoginRestored "codex"].
Proof.
  rewrite Observe_follows_changes.
  - vm_compute. reflexivity.
  - repeat (apply Forall_cons; split; [split; reflexivity|]). by apply Forall_nil.
  - split; reflexivity.
Defined.
