(* ===== verification/Standalone.v ===== *)
(** * cmd/quota-monitor: the standalone mode

    [runStandalone] of [main.go] from its parsed flags to the schedulers, over
    the disk of [Provision] and the database file of [Migrate], and the
    decision of its last lines, once one of its parts has ended.  The server
    and the agent share the database. *)

From S2P Require Import Prelude GoTime GoText GoFloat Digest Model HookEvent Ledger Limiter Validate Store Migrate Version Firmware Server Claude Agent HookServer Delivery Provision Notifier.

Record standaloneFlags := mkStandaloneFlags {
  sf_DBPath : string;
  sf_DisplayTokenPath : string;
  sf_HookAddress : string;
  sf_HookSecretPath : string;
  sf_AgentID : string;
  sf_EnableCodex : bool;
  sf_EnableClaude : bool;
  sf_CodexPlan : string;
  sf_ClaudePlan : string;
  sf_CollectInterval : Duration;
  sf_SequentialCollection : bool;
  sf_PersistInterval : Duration;
  sf_LogFormat : string;
  sf_FirmwareDir : string
}.

Inductive StartError :=
| NoProvider | BadIntervals | BadLogFormat | NoDatabaseDir | DatabaseFailed (e : OpenError)
| BadTokenPath (e : ProvisionError) | TokenStepFailed (e : ProvisionError)
| BadSecretPath (e : ProvisionError) | SecretStepFailed (e : ProvisionError)
| ListenFailed | AgentRejected (e : ConfigError) | InitialReportFailed (e : DeliveryError).

(** [newQuotaLogger] accepts two formats. *)
Definition newQuotaLogger (format : string) : bool := bool_decide (ToLower (TrimSpace format) ∈ ["json"; "text"]).

(** A database that is a file needs its directory. *)
Definition needsDir (path : string) : bool := negb (bool_decide (path = ":memory:")) && negb (HasPrefix path "file:").

Definition planOverrides (fl : standaloneFlags) : gmap ProviderName string :=
  let overrides := if bool_decide (TrimSpace (sf_CodexPlan fl) = "") then ∅ else {[ProviderCodex := sf_CodexPlan fl]} in
  if bool_decide (TrimSpace (sf_ClaudePlan fl) = "") then overrides else <[ProviderClaude := sf_ClaudePlan fl]> overrides.

(** The agent's configuration; its sink is [localSink]. *)
Definition standaloneConfig (fl : standaloneFlags) (hookSecret : string) : Agent.Config :=
  Agent.mkConfig (sf_AgentID fl) "" "" true true None (planOverrides fl) hookSecret (sf_PersistInterval fl) (sf_CollectInterval fl)
    (sf_SequentialCollection fl) 0 None true true false.

(** What a collector of the standalone mode answers: a provider that is
    switched off is disabled. *)
Definition standaloneAnswer (fl : standaloneFlags) (now : Time) (answer : ProviderName → ProviderReport * bool) (p : ProviderName)
    : ProviderReport * bool :=
  if (if bool_decide (p = ProviderCodex) then sf_EnableCodex fl else sf_EnableClaude fl) then answer p
  else (disabledProviderCollector now, false).

Record machine := mkMachine { mc_disk : Disk; mc_file : Migrate.file }.

(** Which calls fail, step by step. *)
Record faults := mkFaults {
  ft_mkdir : bool;
  ft_open : nat → bool; ft_commits : nat → bool;
  ft_token : nat → bool; ft_secret : nat → bool; ft_partial : nat → nat;
  ft_listen : bool
}.
Definition faultless : faults := mkFaults false (λ _, false) (λ _, false) (λ _, false) (λ _, false) (λ _, O) false.

(** The random bytes of the token, of its identifier and of the secret. *)
Record entropy := mkEntropy { rn_token : option (list Z); rn_id : option (list Z); rn_secret : option (list Z) }.

Record running := mkRunning { rn_agent : Agent; rn_server : Server; rn_created : bool }.

Section start.
Context (ExpandEnv : string → string) (UserHomeDir : option string).
Context (Join : string → string → string) (Clean : string → string).
Context (urlParse : string → option URL) (loopback : string → bool).

Definition onRows (m : machine) (rows : DB) : machine := mkMachine (mc_disk m) (Migrate.mkFile (fl_schema (mc_file m)) (fl_applied (mc_file m)) rows).

(** A step of [Provision] on the machine. *)
Definition provision {A} (step : Provision.IO A) (m : machine) : A * machine :=
  let '(r, w) := step (mkWorld (mc_disk m) (fl_rows (mc_file m)) 0) in
  (r, onRows (mkMachine (disk w) (mc_file m)) (Provision.db w)).

Definition secretStep (fl : standaloneFlags) (ft : faults) (rn : entropy) (m : machine) : result StartError string * machine :=
  if bool_decide (TrimSpace (sf_HookAddress fl) = "") then (Ok "", m)
  else match resolveUserPath ExpandEnv UserHomeDir Join Clean (sf_HookSecretPath fl) with
  | Err e => (Err (BadSecretPath e), m)
  | Ok path =>
    match provision (loadOrCreateSecret (ft_secret ft) (ft_partial ft) path (rn_secret rn)) m with
    | (Ok secret, m) => (Ok secret, m)
    | (Err e, m) => (Err (SecretStepFailed e), m)
    end
  end.

(** The agent collects once and stores its first report. *)
Definition initialReport (fl : standaloneFlags) (a : Agent) (answer : ProviderName → ProviderReport * bool)
    (releases : ProviderName → bool) (arrival : list ProviderName → list ProviderName)
    (now ledgerNow received : Time) (m : machine) : result DeliveryError unit * Agent * machine :=
  let '(a, _, _) := CollectOnce a (standaloneAnswer fl now answer) releases arrival in
  let '(r, a, rows) := ReportOnce (λ _, None) (localSink received) (λ _ d, (None, d)) a now ledgerNow (fl_rows (mc_file m)) in
  (r, a, onRows m rows).

Definition startStandalone (fl : standaloneFlags) (ft : faults) (rn : entropy) (order : list (ProviderName * string))
    (answer : ProviderName → ProviderReport * bool) (releases : ProviderName → bool)
    (arrival : list ProviderName → list ProviderName) (files : Dir) (now ledgerNow received : Time) (m : machine)
    : result StartError running * machine :=
  if negb (sf_EnableCodex fl) && negb (sf_EnableClaude fl) then (Err NoProvider, m)
  else if (sf_CollectInterval fl <=? 0) || (sf_PersistInterval fl <=? 0) then (Err BadIntervals, m)
  else if negb (newQuotaLogger (sf_LogFormat fl)) then (Err BadLogFormat, m)
  else if needsDir (sf_DBPath fl) && ft_mkdir ft then (Err NoDatabaseDir, m)
  else match Open (ft_open ft) (ft_commits ft) migrations (sf_DBPath fl) now (mkSession (mc_file m) 0) with
  | (Err e, s) => (Err (DatabaseFailed e), mkMachine (mc_disk m) (ss_file s))
  | (Ok _, s) =>
    let m := mkMachine (mc_disk m) (ss_file s) in
    match resolveUserPath ExpandEnv UserHomeDir Join Clean (sf_DisplayTokenPath fl) with
    | Err e => (Err (BadTokenPath e), m)
    | Ok tokenPath =>
      match provision (ensureDisplayToken (ft_token ft) (ft_partial ft) tokenPath (rn_token rn) (rn_id rn) now) m with
      | (Err e, m) => (Err (TokenStepFailed e), m)
      | (Ok created, m) =>
        match secretStep fl ft rn m with
        | (Err e, m) => (Err e, m)
        | (Ok hookSecret, m) =>
          if ft_listen ft then (Err ListenFailed, m)
          else match Agent.New urlParse loopback (standaloneConfig fl hookSecret) order with
          | Err e => (Err (AgentRejected e), m)
          | Ok instance =>
            match initialReport fl instance answer releases arrival now ledgerNow received m with
            | (Err e, _, m) => (Err (InitialReportFailed e), m)
            | (Ok _, instance, m) =>
              let api := Server.New (Server.mkConfig 0 0 0 0 0 (sf_FirmwareDir fl)) (fl_rows (mc_file m)) files in
              (Ok (mkRunning instance api created), m)
            end
          end
        end
      end
    end
  end.
End start.

(** ** The end *)

Inductive exitError := ServerClosedError | NetClosedError | OtherError (text : string).

#[global] Instance exitError_eq_dec : EqDecision exitError.
Proof. solve_decision. Defined.

(** What ended first: a signal, the server or the agent. *)
Inductive ending :=
| Signalled
| ServerEnded (e : option exitError)
| AgentEnded (e : option exitError).

(** How the agent answers to the cancellation, when it had not ended before. *)
Inductive agentStop := StoppedWith (e : option exitError) | StillRunning.

Inductive runError := APIFailed (e : exitError) | CollectorFailed (e : exitError) | CollectorStuck | ShutdownFailed (e : exitError).

(** [runErr] as [runStandalone] returns it. *)
Definition standaloneExit (first : ending) (shutdown : option exitError) (agent : agentStop) : option runError :=
  let '(runErr, agentFinished) :=
    match first with
    | Signalled => (None, false)
    | ServerEnded (Some e) => (if decide (e = ServerClosedError ∨ e = NetClosedError) then None else Some (APIFailed e), false)
    | ServerEnded None => (None, false)
    | AgentEnded (Some e) => (Some (CollectorFailed e), true)
    | AgentEnded None => (None, true)
    end in
  let runErr :=
    if agentFinished : bool then runErr
    else match agent with
    | StoppedWith (Some e) => match runErr with None => Some (CollectorFailed e) | _ => runErr end
    | StoppedWith None => runErr
    | StillRunning => match runErr with None => Some CollectorStuck | _ => runErr end
    end in
  match runErr, shutdown with
  | None, Some e => if decide (e = NetClosedError) then None else Some (ShutdownFailed e)
  | _, _ => runErr
  end.
