(* ===== verification/StandaloneFacts.v ===== *)
(** * The standalone mode: it starts, shows what it collected, and starts again

    The steps of [startStandalone] without faults, and their composition. *)

From S2P Require Import Prelude GoTime GoText GoTextFacts GoFloat GoStrconv Digest Model HookEvent Ledger Limiter Validate Store StoreTokens StoreReports StoreSnapshot Migrate MigrateFacts Version Firmware FirmwareFacts Server ServerFacts Claude Agent AgentFacts AgentSnapshot HookServer HookServerFacts Delivery DeliveryFacts Provision ProvisionFacts Notifier Standalone.

(** ** Opening the database *)

Definition openable (f : Migrate.file) : Prop := ∃ v, (v <= 1)%nat ∧ at_version migrations f v.

Lemma migrations_valid : is_Some (execAll base (concat migrations)).
Proof. apply (bool_decide_unpack _). vm_compute. exact I. Qed.

Lemma open_succeeds path now f :
  TrimSpace path ≠ "" → openable f →
  ∃ s, Open (λ _, false) (λ _, false) migrations path now (mkSession f 0) = (Ok tt, s) ∧
    openable (ss_file s) ∧ fl_rows (ss_file s) = fl_rows f.
Proof.
  intros Hp (v & Hv & Hat). destruct (Open (λ _, false) (λ _, false) migrations path now (mkSession f 0)) as [r s] eqn:E.
  change migrations with (firstn 1 migrations) in E at 1.
  eapply (MigrateFacts.Open_spec migrations migrations_valid) in E; [|done..|exact Hat].
  destruct E as [(v' & _ & Hat' & [Hrows _] & Hv' & _) [_ Hgood]]. specialize (Hgood (λ _, eq_refl)).
  rewrite decide_True in Hgood by done. subst r. exists s. split_and!; [done| |done]. exists v'. split; [|done].
  by rewrite (Hv' Hv eq_refl).
Qed.

(** ** The display token *)

(** The token file is missing and a token can be made, or it holds one of the
    display's tokens. *)
Definition tokenReady (path : string) (rn : entropy) (now : Time) (d : Disk) (rows : DB) : Prop :=
  (d !! path = None ∧ is_ok (CreateToken rows displayRequest (rn_token rn) (rn_id rn) now) = true) ∨
  ∃ payload b, d !! path = Some (tokenFile payload) ∧ TrimSpace payload = "qmon_" +:+ b64_encode b ∧ length b = 32%nat ∧
    ∃ id, usable rows (TrimSpace payload) ScopeDisplayRead id.

(** The state after the step. *)
Definition tokenStored (path payload : string) (d : Disk) (rows : DB) : Prop :=
  d !! path = Some (tokenFile payload) ∧
  ∃ b, TrimSpace payload = "qmon_" +:+ b64_encode b ∧ length b = 32%nat ∧ ∃ id, usable rows (TrimSpace payload) ScopeDisplayRead id.

Lemma ensure_creates partial path s i now w ct d :
  disk w !! path = None → CreateToken (db w) displayRequest s i now = Ok (ct, d) →
  ∃ w', ensureDisplayToken (λ _, false) partial path s i now w = (Ok true, w') ∧
    disk w' = <[path := tokenFile (ct_RawToken ct +:+ newline)]> (disk w) ∧ db w' = d.
Proof.
  intros Hnew E. destruct (ensureDisplayToken (λ _, false) partial path s i now w) as [r w'] eqn:Hrun.
  unfold ensureDisplayToken, ReadFile, storeToken, OpenExclusive, Write, callDB, withDB, call, mbind, IO_bind, mret, IO_ret in Hrun.
  cbn [negb disk db calls] in Hrun; cbv beta iota zeta in Hrun; cbn [disk db calls] in Hrun.
  repeat (first [rewrite Hnew in Hrun|rewrite E in Hrun|rewrite alter_insert_eq in Hrun];
          cbn [negb andb disk db calls fst snd] in Hrun; cbv beta iota zeta in Hrun; cbn [disk db calls fst snd] in Hrun).
  injection Hrun as <- <-. eexists. split; [done|]. done.
Qed.

Lemma ensure_succeeds partial path rn now w :
  db_ok (db w) → length (default [] (rn_token rn)) = 32%nat → tokenReady path rn now (disk w) (db w) →
  ∃ created payload w', ensureDisplayToken (λ _, false) partial path (rn_token rn) (rn_id rn) now w = (Ok created, w') ∧
    (created = true ↔ disk w !! path = None) ∧ tokenStored path payload (disk w') (db w') ∧
    db_ok (db w') ∧ same_data (db w) (db w').
Proof.
  intros Hok Hlen [[Hnew Hct]|(payload & b & Hf & Htrim & Hb & Hu)].
  - destruct (CreateToken (db w) displayRequest (rn_token rn) (rn_id rn) now) as [[ct d]|e] eqn:E; [|done].
    destruct (ensure_creates partial path _ _ _ w ct d Hnew E) as (w' & Hrun & Hd & Hdb).
    exists true, (ct_RawToken ct +:+ newline), w'. rewrite Hd, Hdb.
    destruct (CreateToken_bearer _ _ _ _ _ _ _ Hlen E) as (row & Hbear & _).
    pose proof E as Hc. apply CreateToken_Ok in Hc as (sb & ib & Hsb & _ & Hraw & _ & _ & (_ & _ & _ & Hd')%insertToken_Some).
    assert (Htrim : TrimSpace (ct_RawToken ct +:+ newline) = ct_RawToken ct) by (rewrite Hraw; apply TrimSpace_line, rawToken_visible).
    split_and!; [done|done| |by eapply CreateToken_ok|by rewrite Hd'].
    split; [by rewrite lookup_insert_eq|]. exists sb. rewrite Htrim. split_and!; [done|by rewrite Hsb in Hlen|].
    eexists. by exists row.
  - destruct (second_run partial path payload (rn_token rn) (rn_id rn) now w Hok Hf Hu) as (w' & Hrun & Hd & Husable).
    exists false, payload, w'. change noFaults with (λ _ : nat, false) in Hrun. rewrite Hrun, Hd, Hf.
    apply ensureDisplayToken_cases in Hrun; [|done].
    assert (Hdata : db_ok (db w') ∧ same_data (db w) (db w')).
    { destruct Hrun as [(? & ? & _ & [(Hx & _)|(id & row & _ & -> & _)])|[(Hx & _)|(Hx & _)]]; [done| |congruence..].
      split; [by apply useToken_ok|done]. }
    split; [done|]. split; [by split|]. split; [|done]. split; [done|]. exists b. split_and!; [done|done|]. destruct Hu as [id Hu]. exists id. by apply Husable.
Qed.

(** ** The shared secret *)

Lemma secret_succeeds partial path b w :
  ∃ secret w', loadOrCreateSecret (λ _, false) partial path (Some b) w = (Ok secret, w') ∧ db w' = db w ∧
    ∀ p payload mode, disk w !! p = Some (payload, mode) → TrimSpace payload ≠ "" → disk w' !! p = Some (payload, mode).
Proof.
  unfold loadOrCreateSecret, createSecret, ReadFile, WriteFile, Write, setDisk, call, mbind, IO_bind, mret, IO_ret.
  cbn [negb]. cbv beta iota zeta. cbn [disk db calls].
  destruct (disk w !! path) as [[old m]|] eqn:Ef; cbn [fst snd].
  - destruct (bool_decide (TrimSpace old = "")) eqn:Eb; cbn [negb andb].
    + cbv beta iota zeta. cbn [disk db calls negb andb]. eexists _, _. split; [reflexivity|]. split; [done|].
      cbn [disk]. intros p payload mode Hp Hne. destruct (decide (p = path)) as [->|Hpp].
      * apply bool_decide_eq_true in Eb. rewrite Ef in Hp. injection Hp as -> ->. done.
      * rewrite lookup_alter_ne, lookup_insert_ne by done. done.
    + eexists _, _. split; [reflexivity|]. split; done.
  - cbv beta iota zeta. cbn [disk db calls negb andb]. eexists _, _. split; [reflexivity|]. split; [done|].
    cbn [disk]. intros p payload mode Hp Hne. destruct (decide (p = path)) as [->|Hpp]; [congruence|].
    rewrite lookup_alter_ne, lookup_insert_ne by done. done.
Qed.

(** ** Collecting *)

Lemma storeAll_run a items : (storeAll a items).1 = agentRun a (Collected <$> items).
Proof.
  rewrite storeAll_providers. revert a. induction items as [|x items IH]; intros a; [done|]. cbn [foldl fmap list_fmap agentRun].
  rewrite IH. done.
Qed.

Lemma both_collected a answer :
  providers a = ∅ → cf_Codex (cfg a) = true → cf_Claude (cfg a) = true →
  let a' := (storeAll a (itemOf answer <$> configuredCollectors (cfg a))).1 in
  providers a' = {[ProviderCodex := (answer ProviderCodex).1; ProviderClaude := (answer ProviderClaude).1]} ∧ ledger a' = ledger a.
Proof.
  intros Hp Hc Hl. cbn zeta. rewrite storeAll_providers. unfold configuredCollectors. rewrite Hc, Hl.
  cbn [app fmap list_fmap foldl]. unfold setProvider. cbn [cfg providers ledger cr_provider itemOf]. rewrite Hp.
  rewrite lookup_empty. rewrite lookup_insert_ne by done. rewrite lookup_empty. unfold storedReport. cbn [cr_failed cr_report].
  split; [|done].
  assert (E : ∀ p, (if cr_failed (itemOf answer p) then cr_report (itemOf answer p) else cr_report (itemOf answer p)) = (answer p).1)
    by (intros p; by destruct (cr_failed _)).
  rewrite !E, insert_insert_ne by done. by rewrite insert_empty.
Qed.

(** A new ledger has nothing to report. *)
Lemma new_ledger_empty d t : (Snapshot (NewLedger d) t).1 = [].
Proof. reflexivity. Qed.

(** ** The whole start *)

Section start.
Context (ExpandEnv : string → string) (UserHomeDir : option string).
Context (Join : string → string → string) (Clean : string → string).
Context (urlParse : string → option URL) (loopback : string → bool).
Context (fl : standaloneFlags) (order : list (ProviderName * string)).
Context (answer : ProviderName → ProviderReport * bool) (releases : ProviderName → bool) (arrival : list ProviderName → list ProviderName).
Context (tokenPath : string).
Abbreviation resolve := (resolveUserPath ExpandEnv UserHomeDir Join Clean).
Abbreviation start := (startStandalone ExpandEnv UserHomeDir Join Clean urlParse loopback fl faultless).

(** Flags that are accepted. *)
Record flags_ok : Prop := {
  fo_provider : sf_EnableCodex fl || sf_EnableClaude fl = true;
  fo_intervals : 0 < sf_CollectInterval fl ∧ 0 < sf_PersistInterval fl;
  fo_format : newQuotaLogger (sf_LogFormat fl) = true;
  fo_db : TrimSpace (sf_DBPath fl) ≠ "";
  fo_token : resolve (sf_DisplayTokenPath fl) = Ok tokenPath;
  fo_secret : TrimSpace (sf_HookAddress fl) = "" ∨ ∃ path, resolve (sf_HookSecretPath fl) = Ok path;
  fo_agent : ∀ secret, is_ok (Agent.New urlParse loopback (standaloneConfig fl secret) order) = true
}.

(** Answers of the tools at [now]. *)
Definition answers_ok (now : Time) : Prop :=
  (∀ p, sound now (answer p).1 ∧ encodable (pr_Windows (answer p).1) = true) ∧ ∀ l, arrival l ≡ₚ l.

(** A machine that can start at [now]. *)
Record machine_ready (rn : entropy) (now : Time) (m : machine) : Prop := {
  mr_file : openable (mc_file m);
  mr_rows : db_ok (fl_rows (mc_file m));
  mr_token : tokenReady tokenPath rn now (mc_disk m) (fl_rows (mc_file m));
  mr_newer : newer (fl_rows (mc_file m)) (sf_AgentID fl) (UnixNano now)
}.

Definition entropy_ok (rn : entropy) : Prop := length (default [] (rn_token rn)) = 32%nat ∧ is_Some (rn_secret rn).

Lemma secretStep_succeeds rn m :
  flags_ok → entropy_ok rn →
  ∃ secret m', secretStep ExpandEnv UserHomeDir Join Clean fl faultless rn m = (Ok secret, m') ∧ mc_file m' = mc_file m ∧
    ∀ p payload mode, mc_disk m !! p = Some (payload, mode) → TrimSpace payload ≠ "" → mc_disk m' !! p = Some (payload, mode).
Proof.
  intros Hfl [_ [b Hb]]. unfold secretStep. case_bool_decide as Hh; [by exists "", m|].
  destruct (fo_secret Hfl) as [?|[path ->]]; [done|]. unfold provision. rewrite Hb.
  destruct (secret_succeeds (ft_partial faultless) path b (mkWorld (mc_disk m) (fl_rows (mc_file m)) 0)) as (s & w' & E & Hdb & Hkeep).
  cbn [ft_secret faultless]. rewrite E. exists s. eexists. split; [reflexivity|]. split; [|exact Hkeep].
  cbn [onRows mc_file mc_disk]. rewrite Hdb. cbn. by destruct (mc_file m).
Qed.

(** The collected reports, as the agent holds them. *)
Definition collectedEvents (now : Time) : list agentEvent :=
  Collected <$> (itemOf (standaloneAnswer fl now answer) <$> [ProviderCodex; ProviderClaude]).

Lemma standaloneAnswer_ok now p :
  zeroTime < now → answers_ok now →
  sound now (standaloneAnswer fl now answer p).1 ∧ encodable (pr_Windows (standaloneAnswer fl now answer p).1) = true.
Proof.
  intros Hz [Ha _]. unfold standaloneAnswer.
  match goal with |- context [if ?b then answer p else _] => destruct b; [apply Ha|] end. cbn [fst]. split; [|done].
  unfold sound. cbn. split_and!; try done; lia.
Qed.

Lemma start_runs_well secret a now ledgerNow received :
  Agent.New urlParse loopback (standaloneConfig fl secret) order = Ok a → zeroTime < now → answers_ok now →
  now <= received <= now + MaxReportAge →
  runs_well urlParse loopback (standaloneConfig fl secret) order a (collectedEvents now) now now now ledgerNow received ∧
  expressible a (collectedEvents now) ∧
  providers (agentRun a (collectedEvents now)) =
    {[ProviderCodex := (standaloneAnswer fl now answer ProviderCodex).1; ProviderClaude := (standaloneAnswer fl now answer ProviderClaude).1]}.
Proof.
  intros Ha Hz Hans Hrec.
  assert (Hfields : providers a = ∅ ∧ cf_Codex (cfg a) = true ∧ cf_Claude (cfg a) = true ∧ ledger a = NewLedger DefaultTaskTTL).
  { unfold Agent.New in Ha. apply refuse_bind_Ok in Ha as (_ & H). apply bind_Ok in H as (_ & _ & H).
    by apply bind_Ok in H as (ov & _ & [= <-]). }
  destruct Hfields as (Hp & Hc & Hl & Hled).
  destruct (both_collected a (standaloneAnswer fl now answer) Hp Hc Hl) as [Hprov Hledger].
  rewrite storeAll_run in Hprov, Hledger. unfold configuredCollectors in Hprov, Hledger. rewrite Hc, Hl in Hprov, Hledger.
  change (providers (agentRun a (collectedEvents now)) = {[ProviderCodex := (standaloneAnswer fl now answer ProviderCodex).1;
    ProviderClaude := (standaloneAnswer fl now answer ProviderClaude).1]}) in Hprov.
  change (ledger (agentRun a (collectedEvents now)) = ledger a) in Hledger.
  split; [|split; [|exact Hprov]].
  - split_and!; try done; try lia.
    + repeat (apply Forall_cons; split); [| |by apply Forall_nil]; (split; [done|]); by apply standaloneAnswer_ok.
    + rewrite Hledger, Hled, new_ledger_empty. cbn. lia.
  - unfold expressible. rewrite Hprov. intros p r Hr.
    apply lookup_insert_Some in Hr as [[_ <-]|[_ Hr]]; [by apply standaloneAnswer_ok|].
    apply lookup_singleton_Some in Hr as [_ <-]. by apply standaloneAnswer_ok.
Qed.

(** Where a start leads. *)
Lemma start_unfold rn files now ledgerNow received m :
  flags_ok → entropy_ok rn → answers_ok now → zeroTime < now → now <= received <= now + MaxReportAge → machine_ready rn now m →
  ∃ secret a payload st m' created, 
    start rn order answer releases arrival files now ledgerNow received m = (Ok st, m') ∧
    Agent.New urlParse loopback (standaloneConfig fl secret) order = Ok a ∧
    rn_server st = Server.New (Server.mkConfig 0 0 0 0 0 (sf_FirmwareDir fl)) (fl_rows (mc_file m')) files ∧
    rn_created st = created ∧ (created = true ↔ mc_disk m !! tokenPath = None) ∧
    openable (mc_file m') ∧ db_ok (fl_rows (mc_file m')) ∧
    tokenStored tokenPath payload (mc_disk m') (fl_rows (mc_file m')) ∧
    ∃ rows, same_data (fl_rows (mc_file m)) rows ∧
      fl_rows (mc_file m') = reported rows (sent a (collectedEvents now) now ledgerNow) received.
Proof.
  intros Hfl Hrn Hans Hz Hrec [Hfile Hrows Htok Hnewer]. unfold startStandalone.
  assert (negb (sf_EnableCodex fl) && negb (sf_EnableClaude fl) = false) as ->.
  { pose proof (fo_provider Hfl). by destruct (sf_EnableCodex fl), (sf_EnableClaude fl). }
  destruct (fo_intervals Hfl) as [Hi1 Hi2]. rewrite !(proj2 (Z.leb_gt _ 0)) by lia. cbn [orb].
  rewrite (fo_format Hfl). cbn [negb ft_mkdir ft_open ft_commits ft_token ft_partial ft_listen faultless]. rewrite andb_false_r.
  destruct (open_succeeds (sf_DBPath fl) now (mc_file m) (fo_db Hfl) Hfile) as (s & -> & Hfile1 & Hrows1).
  rewrite (fo_token Hfl). unfold provision at 1. cbn [mc_disk mc_file].
  destruct (ensure_succeeds (λ _, O) tokenPath rn now (mkWorld (mc_disk m) (fl_rows (ss_file s)) 0))
    as (created & payload & w1 & -> & Hcreated & Hstored & Hok1 & Hdata1);
    [cbn; by rewrite Hrows1|apply Hrn|cbn [disk db]; by rewrite Hrows1|].
  cbn [disk db] in Hcreated, Hdata1. rewrite Hrows1 in Hdata1.
  destruct (secretStep_succeeds rn (onRows (mkMachine (disk w1) (ss_file s)) (db w1)) Hfl Hrn) as (secret & m2 & -> & Hm2 & Hkeep).
  cbn [onRows mc_file mc_disk] in Hm2, Hkeep.
  pose proof (fo_agent Hfl secret) as Hagent. destruct (Agent.New urlParse loopback (standaloneConfig fl secret) order) as [a|e] eqn:Ea; [|done].
  destruct (start_runs_well secret a now ledgerNow received Ea Hz Hans Hrec) as (Hruns & Hexpr & _).
  unfold initialReport. rewrite Hm2. cbn [fl_rows].
  destruct (CollectOnce a (standaloneAnswer fl now answer) releases arrival) as [[a1 ns] cs] eqn:Ec.
  assert (Ha1 : a1 = agentRun a (collectedEvents now)).
  { apply (f_equal (λ x, x.1.1)) in Ec. cbn [fst] in Ec. rewrite CollectOnce_items, storeAll_run in Ec by apply Hans.
    rewrite <- Ec. unfold collectedEvents. do 2 f_equal. clear -Ea. unfold Agent.New in Ea. apply refuse_bind_Ok in Ea as (_ & H).
    apply bind_Ok in H as (_ & _ & H). by apply bind_Ok in H as (ov & _ & [= <-]). }
  subst a1. clear Ec.
  assert (Hnewer1 : newer (db w1) (AgentID (standaloneConfig fl secret)) (UnixNano now)).
  { unfold newer in *. destruct Hdata1 as (Hag & _). rewrite Hag. exact Hnewer. }
  rewrite (standalone_reports urlParse loopback (standaloneConfig fl secret) order a (collectedEvents now) now now now ledgerNow received
             (λ _, None) (λ _ d, (None, d)) (db w1) Hruns Hexpr eq_refl Hnewer1).
  eexists secret, a, payload, _, _, created. split; [reflexivity|]. cbn [rn_server rn_created onRows mc_file mc_disk fl_rows].
  rewrite Hm2. cbn [fl_schema fl_applied fl_rows].
  split_and!; [done..| | | |].
  - destruct Hfile1 as (v & Hv & Hat). exists v. split; [done|exact Hat].
  - apply reported_ok; [done|]. by apply (sent_content urlParse loopback (standaloneConfig fl secret) order a (collectedEvents now) now now now ledgerNow received).
  - destruct Hstored as (Hd & b & Htrim & Hb & id & Hu). split.
    + apply Hkeep; [done|]. rewrite Htrim. done.
    + exists b. split_and!; [done|done|]. by exists id.
  - by exists (db w1).
Qed.
End start.


Definition demo_flags : standaloneFlags :=
  mkStandaloneFlags "data/monitor.db" "data/display.token" "127.0.0.1:47632" "data/hook-secret" "cloud-standalone" true false "" "max20"
    Minute true (15 * Second) "text" "".
Definition demo_rn : entropy := mkEntropy (Some demo_bytes) (Some demo_idBytes) (Some demo_bytes).
Definition demo_tools (p : ProviderName) : ProviderReport * bool := (mkProviderReport demo_start "authenticated" "pro" "codex" noWindows "", false).
Definition new_machine : machine := mkMachine ∅ newFile.

