(* ===== verification/Lifecycle.v ===== *)
(** * internal/agent: the life of a running agent

    [run], [closeCollectors] of [agent.go] and [RunHookServer],
    [ServeHookServer] of [hookserver.go] as a transition system.  Four
    goroutines take part: the scheduler loop, the collection worker, the
    goroutine of the hook server and the one in [http.Server.Serve].  A step is
    what one goroutine does between two points where it can block; a channel of
    capacity one is an option.  The environment cancels the context, fires the
    timers and fails the listener. *)

From S2P Require Import Prelude GoTime GoText HookEvent Ledger HookServer Agent.

(** The errors the shutdown distinguishes. *)
Inductive goError := ErrServerClosed | ErrCanceled | ErrOther (text : string).

#[global] Instance goError_eq_dec : EqDecision goError.
Proof. solve_decision. Defined.

(** ** The hook server's goroutines *)

Inductive serveState := NotServing | Serving | Served.

#[global] Instance serveState_eq_dec : EqDecision serveState.
Proof. solve_decision. Defined.

Inductive hookState :=
| HookNone                            (* no secret: never started *)
| HookListening                       (* before [net.Listen] has returned *)
| HookServing                         (* at the select of [ServeHookServer] *)
| HookShutdown                        (* inside [server.Shutdown] *)
| HookWaiting                         (* at [<-done] *)
| HookSending (e : option goError)    (* at [hookErrors <- ...] *)
| HookEnded.

Record hookServer := mkHookServer {
  hk_state : hookState;
  hk_serve : serveState;
  hk_shutdown : bool;               (* [server.Shutdown] was called *)
  hk_done : option goError          (* the channel [done] *)
}.

Definition setHook (h : hookServer) (st : hookState) : hookServer := mkHookServer st (hk_serve h) (hk_shutdown h) (hk_done h).

(** [http.Server.Serve] returns [http.ErrServerClosed] exactly when the server
    was shut down; that is not an error of [ServeHookServer]. *)
Definition served (e : goError) : option goError := if decide (e = ErrServerClosed) then None else Some e.

Inductive hookLabel :=
| Listened (listener : result goError string)   (* [net.Listen] gave an error or the listener's address *)
| ServeReturns (e : goError)
| SeesCancel
| SeesDone
| ShutdownReturns (e : option goError)
| Waited.

#[global] Instance hookLabel_eq_dec : EqDecision hookLabel.
Proof. solve_decision. Defined.

Section hook.
Context (isLoopbackAddress : string → bool) (cfg : HookServerConfig) (l : option Ledger).

(** [ServeHookServer] up to its select. *)
Definition startServing (address : string) (h : hookServer) : hookServer :=
  if negb (isLoopbackAddress address) then setHook h (HookSending (Some (ErrOther "hook ingestion must listen on loopback")))
  else match NewHookHandler cfg l with
  | Err _ => setHook h (HookSending (Some (ErrOther "hook handler")))
  | Ok _ => mkHookServer HookServing Serving false None
  end.

Definition hookStep (cancelled : bool) (h : hookServer) (e : hookLabel) : option hookServer :=
  match e, hk_state h with
  | Listened (Err e), HookListening => Some (setHook h (HookSending (Some e)))
  | Listened (Ok address), HookListening => Some (startServing address h)
  | ServeReturns e, _ =>
    if bool_decide (hk_serve h = Serving) && Bool.eqb (bool_decide (e = ErrServerClosed)) (hk_shutdown h)
    then Some (mkHookServer (hk_state h) Served (hk_shutdown h) (Some e)) else None
  | SeesCancel, HookServing => if cancelled then Some (mkHookServer HookShutdown (hk_serve h) true (hk_done h)) else None
  | SeesDone, HookServing =>
    match hk_done h with Some e => Some (mkHookServer (HookSending (served e)) (hk_serve h) (hk_shutdown h) None) | None => None end
  | ShutdownReturns None, HookShutdown => Some (setHook h HookWaiting)
  | ShutdownReturns (Some e), HookShutdown => Some (setHook h (HookSending (Some e)))
  | Waited, HookWaiting =>
    match hk_done h with Some e => Some (mkHookServer (HookSending (served e)) (hk_serve h) (hk_shutdown h) None) | None => None end
  | _, _ => None
  end.
End hook.

(** ** The scheduler, the worker and their channels *)

Inductive loopState :=
| Looping                            (* at the select *)
| Reporting                          (* inside [ReportOnce] *)
| Stopping (e : option goError)      (* in the deferred clean-up *)
| Returned (e : option goError).

Inductive timerState := Idle | Armed (delay : Duration) | Fired.

Record life := mkLife {
  lf_cancelled : bool;                     (* the context *)
  lf_loop : loopState;
  lf_worker : worker;                      (* with [collectionRequests] *)
  lf_exited : bool;                        (* [collectionWorker.Done] *)
  lf_collectionCancelled : bool;           (* [cancelCollection] was called *)
  lf_closed : bool;                        (* [closeCollectors] was called *)
  lf_ticker : bool;                        (* [collectTicker.C] *)
  lf_timer : timerState;                   (* [reportTimer] *)
  lf_backoff : Duration;
  lf_hook : hookServer;
  lf_hookErrors : option (option goError)  (* the channel [hookErrors] *)
}.

Inductive lifeLabel :=
| Cancel | TickerFires | TimerFires                   (* the environment *)
| LoopDone | LoopHook | LoopTick | LoopReport         (* the cases of the select *)
| ReportEnds (attempt : option Duration)              (* [ReportOnce] failed, or succeeded after a time *)
| CleanUp                                             (* [collectionWorker.Wait] and [closeCollectors] *)
| WorkerBegins | WorkerEnds | WorkerExits
| HookStep (e : hookLabel) | HookSends.

#[global] Instance lifeLabel_eq_dec : EqDecision lifeLabel.
Proof. solve_decision. Defined.

Definition onTimer (s : life) (loop : loopState) (timer : timerState) (backoff : Duration) : life :=
  mkLife (lf_cancelled s) loop (lf_worker s) (lf_exited s) (lf_collectionCancelled s) (lf_closed s) (lf_ticker s) timer
    backoff (lf_hook s) (lf_hookErrors s).
Definition onTicker (s : life) (w : worker) (ticker : bool) : life :=
  mkLife (lf_cancelled s) (lf_loop s) w (lf_exited s) (lf_collectionCancelled s) (lf_closed s) ticker (lf_timer s)
    (lf_backoff s) (lf_hook s) (lf_hookErrors s).
Definition onHook (s : life) (h : hookServer) (errors : option (option goError)) : life :=
  mkLife (lf_cancelled s) (lf_loop s) (lf_worker s) (lf_exited s) (lf_collectionCancelled s) (lf_closed s) (lf_ticker s) (lf_timer s)
    (lf_backoff s) h errors.

(** [return] from the loop runs the deferred calls, the first of which is
    [cancelCollection]. *)
Definition leave (s : life) (e : option goError) : life :=
  mkLife (lf_cancelled s) (Stopping e) (lf_worker s) (lf_exited s) true (lf_closed s) (lf_ticker s) (lf_timer s)
    (lf_backoff s) (lf_hook s) (lf_hookErrors s).

(** [collectionCtx.Done()] is closed. *)
Definition collectionDone (s : life) : bool := lf_cancelled s || lf_collectionCancelled s.

Section run.
Context (isLoopbackAddress : string → bool) (c : Config) (l : option Ledger).

Definition hookConfig : HookServerConfig := mkHookServerConfig (HookSecret c) true 0.

Definition lifeStep (s : life) (e : lifeLabel) : option life :=
  match e with
  | Cancel => Some (mkLife true (lf_loop s) (lf_worker s) (lf_exited s) (lf_collectionCancelled s) (lf_closed s) (lf_ticker s)
                      (lf_timer s) (lf_backoff s) (lf_hook s) (lf_hookErrors s))
  | TickerFires => Some (onTicker s (lf_worker s) true)
  | TimerFires => match lf_timer s with Armed _ => Some (onTimer s (lf_loop s) Fired (lf_backoff s)) | _ => None end
  | LoopDone => match lf_loop s with Looping => if lf_cancelled s then Some (leave s None) else None | _ => None end
  | LoopHook =>
    match lf_loop s, lf_hookErrors s with
    | Looping, Some e =>
      let s := onHook s (lf_hook s) None in
      match e with
      | Some e => Some (if decide (e = ErrCanceled) then s else leave s (Some e))
      | None => Some s
      end
    | _, _ => None
    end
  | LoopTick =>
    match lf_loop s with
    | Looping => if lf_ticker s then w ← workerStep (lf_worker s) Request; Some (onTicker s w false) else None
    | _ => None
    end
  | LoopReport => match lf_loop s, lf_timer s with Looping, Fired => Some (onTimer s Reporting Idle (lf_backoff s)) | _, _ => None end
  | ReportEnds attempt =>
    match lf_loop s with
    | Reporting =>
      let '(delay, backoff) := reportAttempt c (lf_backoff s) attempt in Some (onTimer s Looping (Armed delay) backoff)
    | _ => None
    end
  | CleanUp =>
    match lf_loop s with
    | Stopping e =>
      if lf_exited s then
        Some (mkLife (lf_cancelled s) (Returned e) (lf_worker s) true (lf_collectionCancelled s) true (lf_ticker s) (lf_timer s)
                (lf_backoff s) (lf_hook s) (lf_hookErrors s))
      else None
    | _ => None
    end
  | WorkerBegins => if lf_exited s then None else w ← workerStep (lf_worker s) Begin; Some (onTicker s w (lf_ticker s))
  | WorkerEnds => w ← workerStep (lf_worker s) Finish; Some (onTicker s w (lf_ticker s))
  | WorkerExits =>
    if collectionDone s && negb (lf_exited s) && negb (collecting (lf_worker s)) then
      Some (mkLife (lf_cancelled s) (lf_loop s) (lf_worker s) true (lf_collectionCancelled s) (lf_closed s) (lf_ticker s) (lf_timer s)
              (lf_backoff s) (lf_hook s) (lf_hookErrors s))
    else None
  | HookStep e =>
    h ← hookStep isLoopbackAddress hookConfig l (lf_cancelled s) (lf_hook s) e; Some (onHook s h (lf_hookErrors s))
  | HookSends =>
    match hk_state (lf_hook s), lf_hookErrors s with
    | HookSending e, None => Some (onHook s (setHook (lf_hook s) HookEnded) (Some e))
    | _, _ => None
    end
  end.

(** [run] when it reaches its loop; [requestInitialCollection] is true in [Run]
    and false in [RunAfterInitialCollection]. *)
Definition startLife (requestInitialCollection : bool) : life :=
  mkLife false Looping (initialWorker requestInitialCollection) false false false false (Armed 0) (ReportInterval c)
    (mkHookServer (if decide (HookSecret c = "") then HookNone else HookListening) NotServing false None) None.

Fixpoint lifeRun (s : life) (es : list lifeLabel) : option life :=
  match es with [] => Some s | e :: es => s ← lifeStep s e; lifeRun s es end.
End run.

(** The environment's steps; the others are the program's, among them the
    calls that a cancelled context ends: a collection, a report and
    [server.Shutdown]. *)
Definition ofEnvironment (s : life) (e : lifeLabel) : bool :=
  match e with
  | Cancel | TickerFires | TimerFires => true
  | HookStep (ServeReturns _) => negb (hk_shutdown (lf_hook s))
  | _ => false
  end.
