(* ===== verification/Loopback.v ===== *)
(** * Loopback addresses

    [isLoopbackAddress] of [hookserver.go], the test of [isLoopbackHost] of
    [agent.go] and [validateLoopbackURL] of [event.go], over Go's [net].
    [url.Parse] is an argument.  The hook server of [Lifecycle] serves on
    loopback addresses only. *)

From S2P Require Import Prelude GoTime GoText GoTextFacts GoNet GoNetFacts HookEvent Ledger HookServer Agent Lifecycle.

(** [net.ParseIP(host)] is an address, and a loopback one. *)
Definition loopbackIP (host : string) : bool :=
  match ParseIP host with Some ip => IsLoopback ip | None => false end.

Definition isLoopbackAddress (address : string) : bool :=
  match splitHost address with
  | Some host => EqualFold host "localhost" || loopbackIP host
  | None => false
  end.

Definition validateLoopbackURL (urlParse : string → option URL) (value : string) : bool :=
  match urlParse value with
  | None => false
  | Some parsed =>
    negb (bool_decide (Hostname parsed = "")) && bool_decide (Scheme parsed ∈ ["http"; "https"]) &&
    (EqualFold (Hostname parsed) "localhost" || loopbackIP (Hostname parsed))
  end.

Example loopback_addresses :
  map isLoopbackAddress ["127.0.0.1:47632"; "127.9.8.7:1"; "[::1]:47632"; "LocalHost:80"; "[::ffff:127.0.0.1]:80"] = replicate 5 true ∧
  map isLoopbackAddress ["0.0.0.0:47632"; "[::]:47632"; ":47632"; "127.0.0.1"; "127.1:80"; "[::1%lo]:80"; "128.0.0.1:80"; "localhost.evil:80"] = replicate 8 false.
Proof. vm_compute. done. Qed.

(** ** The three tests *)

Lemma EqualFold_head c s : plain c ∨ c = ":"%char → EqualFold (String c s) "localhost" = false.
Proof.
  intros Hc. unfold EqualFold. apply bool_decide_eq_false.
  assert (map fold_rune (runes "localhost") = [108; 111; 99; 97; 108; 104; 111; 115; 116]) as -> by by vm_compute.
  assert (zb c < 128 ∧ fold_rune (zb c) ≠ 108) as [Hlt Hne].
  { destruct Hc as [Hc| ->]; [|by split]. unfold plain, hexDigit, is_digit, within in Hc. unfold fold_rune, is_upper, within.
    repeat case_match; lia || done. }
  unfold runes. rewrite chunks_ascii by done. rewrite fmap_cons. change (ascii_chunk c).1 with (zb c). rewrite map_cons. congruence.
Qed.

Lemma IPString_head ip : ip_ok ip → ∃ c s, IPString ip = String c s ∧ (plain c ∨ c = ":"%char).
Proof.
  intros Hip. destruct (To4 ip) as [l|] eqn:E4.
  - destruct (To4_inv ip l Hip E4) as (g & h & -> & -> & Hg & Hh). unfold IPString. rewrite E4.
    destruct (bytes_of_group g Hg) as [Ha _]. pose proof (byteText_plain _ Ha) as Hp. unfold v4Text.
    destruct (byteText (g / 256)) as [|c s] eqn:E; [by destruct (byteText_ne (g / 256) ""); rewrite str_app_nil|].
    destruct Hp as [Hc _]. rewrite str_app_cons. eauto.
  - rewrite To4_None_text by done. destruct Hip as [Hlen Hok].
    assert (Hgap : ∀ gs s, Forall group_ok gs → ∃ c t, groupsText gs +:+ "::" +:+ s = String c t ∧ (plain c ∨ c = ":"%char)).
    { intros [|g gs] s Hgs; [eexists _, _; split; [done|by right]|]. inversion Hgs.
      destruct (groupsText_head g gs ("::" +:+ s)) as (c & t & -> & Hc); eauto. }
    unfold v6Text. destruct (longestZeros 0 ip (O, O)) as [i [|n]]; [|by apply Hgap, Forall_take].
    destruct ip as [|g ip]; [done|]. inversion Hok. destruct (groupsText_head g ip "") as (c & t & E & Hc); [done|].
    rewrite str_app_nil in E. rewrite E. eauto.
Qed.

Lemma host_test ip : ip_ok ip → EqualFold (IPString ip) "localhost" || loopbackIP (IPString ip) = IsLoopback ip.
Proof.
  intros Hip. destruct (IPString_head ip Hip) as (c & s & E & Hc). unfold loopbackIP. rewrite ParseIP_IPString by done.
  by rewrite E, EqualFold_head.
Qed.

Lemma isLoopbackAddress_text ip port : ip_ok ip → port_ok port → isLoopbackAddress (TCPAddrString ip "" port) = IsLoopback ip.
Proof. intros Hip Hp. unfold isLoopbackAddress. rewrite splitHost_TCPAddr by done. by apply host_test. Qed.

(** ** The hook server *)

Lemma hookStep_serves cfg l b h e h' : hookStep isLoopbackAddress cfg l b h e = Some h' → hk_serve h' ≠ NotServing →
  hk_serve h ≠ NotServing ∨ ∃ address, e = Listened (Ok address) ∧ isLoopbackAddress address = true ∧ hs_Secret cfg ≠ "".
Proof.
  intros H Hs. destruct e as [[address|e]|e| | |[e|]|]; simpl in H.
  - destruct (hk_state h); try done. injection H as <-. unfold startServing in Hs.
    destruct (isLoopbackAddress address) eqn:El; simpl in Hs; [|by left].
    unfold NewHookHandler in Hs. destruct (decide (hs_Secret cfg = "")) as [E|E]; [rewrite bool_decide_true in Hs by done; by left|].
    right. eauto.
  - destruct (hk_state h); try done. injection H as <-. by left.
  - left. intros E. rewrite E, bool_decide_false in H by done. by destruct (hk_state h).
  - destruct (hk_state h), b; try done. injection H as <-. by left.
  - destruct (hk_state h), (hk_done h); try done. injection H as <-. by left.
  - destruct (hk_state h); try done. injection H as <-. by left.
  - destruct (hk_state h); try done. injection H as <-. by left.
  - destruct (hk_state h), (hk_done h); try done. injection H as <-. by left.
Qed.

Lemma lifeStep_serves c l s e s' : lifeStep isLoopbackAddress c l s e = Some s' → hk_serve (lf_hook s') ≠ NotServing →
  hk_serve (lf_hook s) ≠ NotServing ∨
  ∃ address, e = HookStep (Listened (Ok address)) ∧ isLoopbackAddress address = true ∧ HookSecret c ≠ "".
Proof.
  intros H Hs. destruct e as [| | | | | | | | | | | |e|]; simpl in H;
    try (left; repeat case_match; simplify_option_eq; done).
  apply bind_Some in H as (h & Hh & [= <-]). simpl in Hs.
  destruct (hookStep_serves _ _ _ _ _ _ Hh Hs) as [?|(address & -> & ? & ?)]; [by left|]. right. eauto.
Qed.

Lemma lifeRun_serves c l s es s' : lifeRun isLoopbackAddress c l s es = Some s' → hk_serve (lf_hook s') ≠ NotServing →
  hk_serve (lf_hook s) ≠ NotServing ∨
  ∃ address, HookStep (Listened (Ok address)) ∈ es ∧ isLoopbackAddress address = true ∧ HookSecret c ≠ "".
Proof.
  revert s. induction es as [|e es IH]; intros s; simpl; [intros [= ->]; auto|].
  intros (s1 & H1 & H2)%bind_Some Hs. destruct (IH s1 H2 Hs) as [Hs1|(address & ? & ?)].
  - destruct (lifeStep_serves _ _ _ _ _ H1 Hs1) as [?|(address & -> & ?)]; [by left|]. right. exists address. set_solver.
  - right. exists address. set_solver.
Qed.

(** C31. Hooks stay on the machine: the address that a listener is bound to
    passes the test exactly when it is one of 127.0.0.0/8, written as such or
    inside IPv6, or the address [::1], whatever the port; the host test of the
    agent's plain-HTTP servers and of the hooks' URL agree with it; and in every
    run of an agent, the hook server serves only after [net.Listen] has given it
    an address that passes, and only with a secret. *)
Theorem Hooks_stay_local (c : Config) (l : option Ledger) (initial : bool) (es : list lifeLabel) (s : life)
    (Hrun : lifeRun isLoopbackAddress c l (startLife c initial) es = Some s) (Hserve : hk_serve (lf_hook s) ≠ NotServing) :
  (HookSecret c ≠ "" ∧ ∃ address, HookStep (Listened (Ok address)) ∈ es ∧ isLoopbackAddress address = true) ∧
  ∀ ip port, ip_ok ip → port_ok port →
    (isLoopbackAddress (TCPAddrString ip "" port) = true ↔
       ip = [0; 0; 0; 0; 0; 0; 0; 1] ∨ ∃ b h, 0 <= b < 256 ∧ ip = v4Prefix ++ [127 * 256 + b; h]) ∧
    isLoopbackHost loopbackIP (IPString ip) = isLoopbackAddress (TCPAddrString ip "" port) ∧
    ∀ urlParse value parsed, urlParse value = Some parsed → Hostname parsed = IPString ip → Scheme parsed ∈ ["http"; "https"] →
      validateLoopbackURL urlParse value = isLoopbackAddress (TCPAddrString ip "" port).
Proof.
  split.
  - destruct (lifeRun_serves _ _ _ _ _ Hrun Hserve) as [H|(address & ? & ? & ?)]; [by destruct H|]. eauto.
  - intros ip port Hip Hport. rewrite isLoopbackAddress_text by done. split_and!.
    + unfold IsLoopback. destruct (To4 ip) as [l4|] eqn:E4.
      * destruct (To4_inv ip l4 Hip E4) as (g & h & -> & -> & Hg & Hh). rewrite Z.eqb_eq. split.
        -- intros E. right. exists (g mod 256), h. pose proof (Z.div_mod g 256 ltac:(lia)). split; [apply Z.mod_pos_bound; lia|].
           by replace (127 * 256 + g mod 256) with g by lia.
        -- intros [[=]|(b & h' & Hb & E)]. simplify_eq. rewrite Z.add_comm, Z.div_add by lia. rewrite Z.div_small; lia.
      * rewrite bool_decide_eq_true. split; [by left|]. by intros [-> |(b & h & Hb & ->)].
    + by apply host_test.
    + intros urlParse value parsed Hp Hh Hsch. unfold validateLoopbackURL. rewrite Hp, Hh, host_test by done.
      destruct (IPString_head ip Hip) as (x & t & E & _). by rewrite E, bool_decide_false, (bool_decide_true (_ ∈ _)).
Qed.

Definition local_config : Config :=
  mkConfig "a" "" "" true true None ∅ "secret" 15 60 false 120 None true false false.

Definition local_run : list lifeLabel := [HookStep (Listened (Ok "[::1]:47632"))].

Lemma Hooks_stay_local_witness :
  ∃ s, lifeRun isLoopbackAddress local_config (Some (NewLedger 0)) (startLife local_config true) local_run = Some s ∧
    hk_serve (lf_hook s) = Serving ∧
    isLoopbackAddress (TCPAddrString [0; 0; 0; 0; 0; 0; 0; 1] "" "80") = true.
Proof.
  eexists. split; [vm_compute; reflexivity|]. split; [reflexivity|].
  refine (proj2 (proj1 (proj2 (Hooks_stay_local local_config (Some (NewLedger 0)) true local_run _ _ _) _ "80" _ _)) _).
  - vm_compute. reflexivity.
  - by vm_compute.
  - split; [done|]. by rewrite !Forall_cons.
  - by repeat split; vm_compute.
  - by left.
Defined.
