(* ===== verification/LifecycleFacts.v ===== *)
(** * The life of a running agent: safety and termination

    The invariant of the reachable states, a measure that every step of the
    program decreases once the run is leaving, and the absence of deadlocks. *)

From S2P Require Import Prelude GoTime GoText HookEvent Ledger HookServer Agent AgentFacts Lifecycle.

(** ** The invariant *)

Definition hook_ok (cancelled : bool) (h : hookServer) (errors : option (option goError)) : Prop :=
  match hk_state h with
  | HookNone => hk_serve h = NotServing
  | HookListening => hk_serve h = NotServing ∧ hk_shutdown h = false ∧ errors = None
  | HookServing =>
    hk_shutdown h = false ∧ errors = None ∧ (hk_serve h = Serving ∧ hk_done h = None ∨ hk_serve h = Served ∧ is_Some (hk_done h))
  | HookShutdown | HookWaiting =>
    cancelled = true ∧ hk_shutdown h = true ∧ errors = None ∧
    (hk_serve h = Serving ∧ hk_done h = None ∨ hk_serve h = Served ∧ is_Some (hk_done h))
  | HookSending _ => errors = None ∧ (hk_serve h = Serving → hk_shutdown h = true)
  | HookEnded => hk_serve h = Serving → hk_shutdown h = true
  end.

Definition loop_ok (s : life) : Prop :=
  match lf_loop s with
  | Looping | Reporting => lf_collectionCancelled s = false ∧ lf_closed s = false
  | Stopping e => lf_collectionCancelled s = true ∧ lf_closed s = false
  | Returned e => lf_collectionCancelled s = true ∧ lf_closed s = true ∧ lf_exited s = true
  end.

(** A run that is leaving without having been cancelled was given an error by
    the hook server. *)
Definition reason_ok (s : life) : Prop :=
  match lf_loop s with
  | Stopping e | Returned e =>
    match e with
    | Some e => hk_state (lf_hook s) = HookEnded ∧ e ≠ ErrCanceled
    | None => lf_cancelled s = true
    end
  | _ => True
  end.

Record life_ok (s : life) : Prop := {
  ok_hook : hook_ok (lf_cancelled s) (lf_hook s) (lf_hookErrors s);
  ok_loop : loop_ok s;
  ok_reason : reason_ok s;
  ok_worker : lf_exited s = true → collecting (lf_worker s) = false ∧ collectionDone s = true;
  ok_errors : is_Some (lf_hookErrors s) → hk_state (lf_hook s) = HookEnded
}.

(** A step that was taken, one case a branch of its guards. *)
Ltac step_cases H :=
  repeat match type of H with
  | Some _ = Some _ => injection H as <-
  | mbind _ _ = Some _ => let w := fresh "w" in let Hw := fresh "Hw" in apply bind_Some in H as (w & Hw & H)
  | _ => case_match; try done
  end.

Section facts.
Context (isLoopbackAddress : string → bool) (c : Config) (l : option Ledger).
Abbreviation lifeStep := (lifeStep isLoopbackAddress c l).
Abbreviation lifeRun := (lifeRun isLoopbackAddress c l).
Abbreviation hookStep := (hookStep isLoopbackAddress (hookConfig c) l).

Lemma startLife_ok b : life_ok (startLife c b).
Proof. split; cbn; [|done..|by intros [? ?]]. by destruct (decide (HookSecret c = "")). Qed.

Lemma hookStep_ok cancelled h errors e h' :
  hook_ok cancelled h errors → (is_Some errors → hk_state h = HookEnded) → hookStep cancelled h e = Some h' →
  hook_ok cancelled h' errors ∧ (is_Some errors → hk_state h' = HookEnded).
Proof.
  intros Hok Herr Hs. destruct h as [st serve shut done_]. unfold hook_ok in Hok. cbn [hk_state hk_serve hk_shutdown hk_done] in *.
  destruct e as [[a|e]|e| | |[e|]|]; cbn in Hs.
  - destruct st; try done. injection Hs as <-. destruct Hok as (-> & -> & ->). split; [|by intros [? ?]].
    unfold startServing. destruct (isLoopbackAddress a); [|by split]. destruct (NewHookHandler _ _); [by split_and!; auto|by split].
  - destruct st; try done. injection Hs as <-. destruct Hok as (-> & -> & ->). split; [by split|by intros [? ?]].
  - destruct (_ && _) eqn:E; [|done]. injection Hs as <-. cbn. split; [|done].
    apply andb_true_iff in E as [E _]. apply bool_decide_eq_true in E. subst serve.
    destruct st; cbn in *; naive_solver.
  - destruct st; try done. destruct cancelled; [|done]. injection Hs as <-. cbn. destruct Hok as (_ & -> & H). naive_solver.
  - destruct st; try done. destruct done_; [|done]. injection Hs as <-. cbn. destruct Hok as (_ & -> & H). naive_solver.
  - destruct st; try done. injection Hs as <-. cbn. naive_solver.
  - destruct st; try done. injection Hs as <-. cbn. naive_solver.
  - destruct st; try done. destruct done_; [|done]. injection Hs as <-. cbn. naive_solver.
Qed.

Lemma hookStep_ended cancelled h e h' : hookStep cancelled h e = Some h' → hk_state h = HookEnded → hk_state h' = HookEnded.
Proof.
  intros Hs Hst. destruct h as [st serve shut done_]. cbn in Hst. subst st.
  destruct e as [[a|e]|e| | |[e|]|]; try done. cbn in Hs. destruct (_ && _); [|done]. by injection Hs as <-.
Qed.

Lemma hook_ok_cancel h errors cancelled : hook_ok cancelled h errors → hook_ok true h errors.
Proof. unfold hook_ok. destruct (hk_state h); naive_solver. Qed.

Lemma lifeStep_ok s e s' : life_ok s → lifeStep s e = Some s' → life_ok s'.
Proof.
  intros [Hh Hl Hr Hw He] Hs. destruct e; cbn [Lifecycle.lifeStep] in Hs.
  - injection Hs as <-. split; cbn; [by eapply hook_ok_cancel|done| |naive_solver|done].
    unfold reason_ok in *. cbn. destruct (lf_loop s) as [| |[]|[]]; naive_solver.
  - by injection Hs as <-.
  - destruct (lf_timer s); [done| |done]. by injection Hs as <-.
  - destruct (lf_loop s) eqn:El; try done. destruct (lf_cancelled s) eqn:Ec; [|done]. injection Hs as <-.
    unfold loop_ok in Hl. rewrite El in Hl. destruct Hl as [_ Hcl].
    split; cbn; [by rewrite Ec in *|done|done| |done].
    intros Hx. apply Hw in Hx as [? _]. unfold collectionDone. cbn. by rewrite Ec.
  - destruct (lf_loop s) eqn:El; try done. unfold loop_ok in Hl. rewrite El in Hl. destruct Hl as [Hcc Hcl].
    destruct (lf_hookErrors s) as [e|] eqn:Ee; [|done]. specialize (He (mk_is_Some _ _ eq_refl)).
    assert (Hh' : hook_ok (lf_cancelled s) (lf_hook s) None) by (unfold hook_ok in *; by rewrite He in *).
    assert (Hlisten : life_ok (onHook s (lf_hook s) None)).
    { split; cbn; [done|unfold loop_ok; cbn; by rewrite El|unfold reason_ok; cbn; by rewrite El|done|by intros [? ?]]. }
    destruct e as [e|]; [|by injection Hs as <-]. destruct (decide (e = ErrCanceled)) as [|Hne]; [by injection Hs as <-|].
    injection Hs as <-. split; cbn; [done|done|by split| |by intros [? ?]].
    intros Hx. apply Hw in Hx as [? Hd]. split; [done|]. unfold collectionDone. cbn. apply orb_true_r.
  - destruct (lf_loop s) eqn:El; try done. destruct (lf_ticker s); [|done]. cbn in Hs. injection Hs as <-. by split.
  - destruct (lf_loop s) eqn:El; try done. destruct (lf_timer s); try done. injection Hs as <-.
    unfold loop_ok in Hl. rewrite El in Hl. by split.
  - destruct (lf_loop s) eqn:El; try done. destruct (reportAttempt _ _ _) as [d b]. injection Hs as <-.
    unfold loop_ok in Hl. rewrite El in Hl. by split.
  - destruct (lf_loop s) eqn:El; try done. destruct (lf_exited s) eqn:Ex; [|done]. injection Hs as <-.
    unfold loop_ok, reason_ok in *. rewrite El in *. split; try done. unfold loop_ok. cbn. naive_solver.
  - destruct (lf_exited s) eqn:Ex; [done|]. apply bind_Some in Hs as (w & _ & [= <-]). split; cbn; try done. by rewrite Ex.
  - apply bind_Some in Hs as (w & Hstep & [= <-]). split; cbn; try done. intros Hx. destruct (Hw Hx) as [Hc Hd].
    cbn in Hstep. by rewrite Hc in Hstep.
  - destruct (collectionDone s) eqn:Ed; [|done]. destruct (lf_exited s) eqn:Ex; [done|].
    destruct (collecting (lf_worker s)) eqn:Ec; [done|]. injection Hs as <-. cbn. split; cbn; try done.
    + unfold loop_ok in *. cbn. destruct (lf_loop s); naive_solver.
  - apply bind_Some in Hs as (h & Hstep & [= <-]). destruct (hookStep_ok _ _ _ _ _ Hh He Hstep) as [Hh' He'].
    split; cbn; try done. unfold reason_ok in *. cbn. destruct (lf_loop s) as [| |[]|[]]; try done.
    + split; [|naive_solver]. by eapply hookStep_ended; [|apply Hr].
    + split; [|naive_solver]. by eapply hookStep_ended; [|apply Hr].
  - destruct (hk_state (lf_hook s)) eqn:Eh; try done. destruct (lf_hookErrors s) eqn:Ee; [done|]. injection Hs as <-.
    unfold hook_ok in Hh. rewrite Eh in Hh. split; cbn; try done; [by apply Hh|].
    unfold reason_ok in *. cbn. destruct (lf_loop s) as [| |[]|[]]; naive_solver.
Qed.

Lemma lifeRun_ok s es s' : life_ok s → lifeRun s es = Some s' → life_ok s'.
Proof.
  revert s. induction es as [|e es IH]; intros s Hok Hrun; [by injection Hrun as <-|].
  cbn in Hrun. apply bind_Some in Hrun as (s1 & Hs & Hrun). eapply IH; [|done]. by eapply lifeStep_ok.
Qed.

(** ** Leaving *)

Definition rankHook (st : hookState) : nat :=
  match st with
  | HookNone | HookEnded => 0 | HookSending _ => 2 | HookWaiting => 3 | HookShutdown => 4 | HookServing => 5 | HookListening => 7
  end.
Definition rankLoop (loop : loopState) : nat :=
  match loop with Returned _ => 0 | Stopping _ => 1 | Looping => 2 | Reporting => 3 end.
Definition weigh (b : bool) (n : nat) : nat := if b then n else 0.

(** The steps the program can still take by itself, at most. *)
Definition measure (s : life) : nat :=
  rankHook (hk_state (lf_hook s)) + weigh (bool_decide (hk_serve (lf_hook s) = Serving)) 1 +
  weigh (bool_decide (is_Some (lf_hookErrors s))) 1 + rankLoop (lf_loop s) +
  weigh (lf_ticker s) 5 + weigh (match lf_timer s with Fired => true | _ => false end) 2 +
  weigh (requested (lf_worker s)) 4 + weigh (collecting (lf_worker s)) 1 + weigh (negb (lf_exited s)) 1.

Lemma measure_bound s : (measure s <= 25)%nat.
Proof.
  unfold measure, weigh.
  assert (rankHook (hk_state (lf_hook s)) <= 7)%nat by (destruct (hk_state _); cbn; lia).
  assert (rankLoop (lf_loop s) <= 3)%nat by (destruct (lf_loop s); cbn; lia).
  repeat case_match; lia.
Qed.

Lemma hookStep_measure cancelled h e h' :
  hookStep cancelled h e = Some h' → (match e with ServeReturns _ => hk_shutdown h | _ => true end) = true →
  (rankHook (hk_state h') + weigh (bool_decide (hk_serve h' = Serving)) 1 <
   rankHook (hk_state h) + weigh (bool_decide (hk_serve h = Serving)) 1)%nat.
Proof.
  intros Hs He. destruct h as [st serve shut done_]. cbn [hk_state hk_serve hk_shutdown hk_done] in *.
  destruct e as [[a|e]|e| | |[e|]|]; cbn in Hs.
  - destruct st; try done. injection Hs as <-. unfold startServing.
    destruct (isLoopbackAddress a); [destruct (NewHookHandler _ _)|]; cbn; unfold weigh; case_match; lia.
  - destruct st; try done. injection Hs as <-. cbn. lia.
  - destruct (_ && _) eqn:E; [|done]. apply andb_true_iff in E as [E _]. injection Hs as <-. rewrite E.
    cbn [hk_state hk_serve]. rewrite (bool_decide_false (Served = Serving)) by done. unfold weigh. lia.
  - destruct st; try done. destruct cancelled; [|done]. injection Hs as <-. cbn. lia.
  - destruct st; try done. destruct done_; [|done]. injection Hs as <-. cbn. lia.
  - destruct st; try done. injection Hs as <-. cbn. lia.
  - destruct st; try done. injection Hs as <-. cbn. lia.
  - destruct st; try done. destruct done_; [|done]. injection Hs as <-. cbn. lia.
Qed.

(** Every step of the program uses up some of it. *)
Lemma lifeStep_measure s e s' :
  lifeStep s e = Some s' → ofEnvironment s e = false → (measure s' < measure s)%nat.
Proof.
  intros Hs He. destruct e; cbn [Lifecycle.lifeStep] in Hs; try done; unfold measure.
  - destruct (lf_loop s) eqn:El; try done. destruct (lf_cancelled s); [|done]. injection Hs as <-. cbn. lia.
  - destruct (lf_loop s) eqn:El; try done. destruct (lf_hookErrors s) as [e|] eqn:Ee; [|done].
    destruct e as [e|]; [destruct (decide (e = ErrCanceled))|]; injection Hs as <-; cbn; rewrite ?El; cbn; lia.
  - destruct (lf_loop s) eqn:El; try done. destruct (lf_ticker s) eqn:Et; [|done]. cbn in Hs. injection Hs as <-. cbn.
    rewrite El. cbn. lia.
  - destruct (lf_loop s) eqn:El; try done. destruct (lf_timer s) eqn:Et; try done. injection Hs as <-. cbn. lia.
  - destruct (lf_loop s) eqn:El; try done. destruct (reportAttempt _ _ _) as [d b]. injection Hs as <-. cbn.
    unfold weigh. repeat case_match; lia.
  - destruct (lf_loop s) eqn:El; try done. destruct (lf_exited s) eqn:Ex; [|done]. injection Hs as <-. cbn. lia.
  - destruct (lf_exited s) eqn:Ex; [done|]. apply bind_Some in Hs as (w & Hw & [= <-]). cbn in Hw.
    destruct (requested (lf_worker s)); [|done]. destruct (collecting (lf_worker s)); [done|]. injection Hw as <-.
    cbn. rewrite Ex. cbn. lia.
  - apply bind_Some in Hs as (w & Hw & [= <-]). cbn in Hw. destruct (collecting (lf_worker s)); [|done]. injection Hw as <-. cbn. lia.
  - destruct (collectionDone s); [|done]. destruct (lf_exited s) eqn:Ex; [done|]. destruct (collecting (lf_worker s)) eqn:Ec; [done|].
    injection Hs as <-. cbn. rewrite Ec. cbn. lia.
  - apply bind_Some in Hs as (h & Hw & [= <-]). cbn.
    enough (rankHook (hk_state h) + weigh (bool_decide (hk_serve h = Serving)) 1 <
            rankHook (hk_state (lf_hook s)) + weigh (bool_decide (hk_serve (lf_hook s) = Serving)) 1)%nat by lia.
    eapply hookStep_measure; [done|]. destruct e; try done. cbn in He. by apply negb_false_iff in He.
  - destruct (hk_state (lf_hook s)) eqn:Eh; try done. destruct (lf_hookErrors s) eqn:Ee; [done|]. injection Hs as <-. cbn.
    lia.
Qed.

(** A run is leaving once its context is done or its loop has returned. *)
Definition leaving (s : life) : Prop :=
  lf_cancelled s = true ∨ match lf_loop s with Looping | Reporting => False | _ => True end.

(** Nothing of it is left: the loop has returned, the collectors are closed,
    and no goroutine of it runs. *)
Definition stopped (s : life) : Prop :=
  match lf_loop s with Returned _ => True | _ => False end ∧
  lf_closed s = true ∧ lf_exited s = true ∧ collecting (lf_worker s) = false ∧
  (hk_state (lf_hook s) = HookNone ∨ hk_state (lf_hook s) = HookEnded) ∧ hk_serve (lf_hook s) ≠ Serving.

Lemma leaving_step s e s' : leaving s → lifeStep s e = Some s' → leaving s'.
Proof.
  unfold leaving. intros [Hc|Hl] Hs; [left|right]; destruct e; cbn [Lifecycle.lifeStep] in Hs; step_cases Hs; cbn; try done.
  all: by repeat case_match.
Qed.

(** A run that is leaving is never stuck before it has stopped. *)
Lemma hook_progress cancelled h errors :
  hook_ok cancelled h errors → cancelled = true →
  (hk_state h = HookNone ∨ hk_state h = HookEnded) ∧ hk_serve h ≠ Serving ∨ (∃ e, hk_state h = HookSending e) ∨
  ∃ e h', hookStep cancelled h e = Some h' ∧ (match e with ServeReturns _ => hk_shutdown h | _ => true end) = true.
Proof.
  intros Hok ->. destruct h as [st serve shut done_]. unfold hook_ok in Hok. cbn [hk_state hk_serve hk_shutdown hk_done] in *.
  destruct st.
  - left. split; [auto|congruence].
  - right; right. by exists (Listened (Err ErrCanceled)); eexists.
  - right; right. by exists SeesCancel; eexists.
  - right; right. by exists (ShutdownReturns None); eexists.
  - right; right. destruct Hok as (_ & -> & _ & [[-> ->]|[-> [e ->]]]).
    + by exists (ServeReturns ErrServerClosed); eexists.
    + by exists Waited; eexists.
  - eauto.
  - destruct serve; [left; auto| |left; auto]. right; right. rewrite Hok by done. by exists (ServeReturns ErrServerClosed); eexists.
Qed.

Lemma step_progress s :
  life_ok s → leaving s → stopped s ∨ ∃ e s', lifeStep s e = Some s' ∧ ofEnvironment s e = false.
Proof.
  intros [Hh Hl Hr Hw He] Hleave.
  destruct (lf_loop s) as [| |e|e] eqn:El.
  - destruct Hleave as [Hc|Hx]; [|by rewrite El in Hx]. right. exists LoopDone. cbn. rewrite El, Hc. by eexists.
  - right. exists (ReportEnds None). cbn. rewrite El. by eexists.
  - right. unfold loop_ok in Hl. rewrite El in Hl. destruct Hl as [Hcc _].
    destruct (lf_exited s) eqn:Ex; [exists CleanUp; cbn; rewrite El, Ex; by eexists|].
    destruct (collecting (lf_worker s)) eqn:Ec.
    + exists WorkerEnds. cbn. rewrite Ec. by eexists.
    + exists WorkerExits. cbn. unfold collectionDone. rewrite Hcc, Ex, Ec, orb_true_r. by eexists.
  - unfold loop_ok, reason_ok in *. rewrite El in *. destruct Hl as (_ & Hcl & Hex). destruct (Hw Hex) as [Hcol _].
    assert (Hdone : (hk_state (lf_hook s) = HookNone ∨ hk_state (lf_hook s) = HookEnded) ∧ hk_serve (lf_hook s) ≠ Serving ∨
                    ∃ e s', lifeStep s e = Some s' ∧ ofEnvironment s e = false).
    { destruct e as [e|].
      - destruct Hr as [Hended _]. unfold hook_ok in Hh. rewrite Hended in Hh.
        destruct (decide (hk_serve (lf_hook s) = Serving)) as [Hsv|Hsv]; [|left; auto]. right.
        exists (HookStep (ServeReturns ErrServerClosed)). cbn. rewrite Hsv, (Hh Hsv). by eexists.
      - destruct (hook_progress _ _ _ Hh Hr) as [?|[[e Hs]|(e & h' & Hs & Henv)]]; [by left|right|right].
        + exists HookSends. unfold hook_ok in Hh. rewrite Hs in Hh. destruct Hh as [Hn _]. cbn. rewrite Hs, Hn. by eexists.
        + exists (HookStep e). cbn [Lifecycle.lifeStep]. rewrite Hs. eexists. split; [done|]. destruct e; try done. cbn. by rewrite Henv. }
    destruct Hdone as [[H1 H2]|H]; [left|by right]. unfold stopped. rewrite El. by split_and!.
Qed.

(** ** The worker of a run is the coalescing worker *)

Definition workerLabel (e : lifeLabel) : option workerEvent :=
  match e with LoopTick => Some Request | WorkerBegins => Some Begin | WorkerEnds => Some Finish | _ => None end.

Lemma lifeStep_worker s e s' :
  lifeStep s e = Some s' →
  match workerLabel e with Some w => workerStep (lf_worker s) w = Some (lf_worker s') | None => lf_worker s' = lf_worker s end.
Proof. intros Hs. destruct e; cbn [Lifecycle.lifeStep workerLabel] in *; step_cases Hs; try done. by case_match. Qed.

Lemma lifeRun_worker s es s' : lifeRun s es = Some s' → workerRun (lf_worker s) (omap workerLabel es) (lf_worker s').
Proof.
  revert s. induction es as [|e es IH]; intros s Hrun; [injection Hrun as <-; constructor|].
  cbn [Lifecycle.lifeRun] in Hrun. apply bind_Some in Hrun as (s1 & Hs & Hrun). apply IH in Hrun.
  apply lifeStep_worker in Hs. cbn [omap list_omap]. destruct (workerLabel e); [by econstructor|by rewrite <- Hs].
Qed.

Lemma omap_count es :
  length (filter (eq Begin) (omap workerLabel es)) = length (filter (eq WorkerBegins) es) ∧
  length (filter (eq Request) (omap workerLabel es)) = length (filter (eq LoopTick) es).
Proof.
  induction es as [|e es [IH1 IH2]]; [done|].
  destruct e; split; first [exact IH1|exact IH2|exact (f_equal S IH1)|exact (f_equal S IH2)].
Qed.

Lemma closed_exited s : life_ok s → lf_closed s = true → lf_exited s = true.
Proof.
  intros Hok Hc. pose proof (ok_loop _ Hok) as Hl. unfold loop_ok in Hl.
  destruct (lf_loop s); [destruct Hl; congruence..|by destruct Hl as (_ & _ & ?)].
Qed.

(** A closed run stays closed, and collects nothing any more. *)
Lemma closed_step s e s' :
  life_ok s → lf_closed s = true → lifeStep s e = Some s' → e ≠ WorkerBegins ∧ lf_closed s' = true.
Proof.
  intros Hok Hc Hs. pose proof (closed_exited s Hok Hc) as Hx.
  split.
  - intros ->. cbn in Hs. by rewrite Hx in Hs.
  - destruct e; cbn [Lifecycle.lifeStep] in Hs; step_cases Hs; try done. by case_match.
Qed.

Lemma closed_run s es s' :
  life_ok s → lf_closed s = true → lifeRun s es = Some s' → WorkerBegins ∉ es.
Proof.
  revert s. induction es as [|e es IH]; intros s Hok Hc Hrun; [by apply not_elem_of_nil|].
  cbn [Lifecycle.lifeRun] in Hrun. apply bind_Some in Hrun as (s1 & Hs & Hrun).
  destruct (closed_step _ _ _ Hok Hc Hs) as [Hne Hc1]. apply not_elem_of_cons. split; [done|].
  eapply IH; [|done..]. by eapply lifeStep_ok.
Qed.

(** The steps of the program alone. *)
Fixpoint programRun (s : life) (es : list lifeLabel) : option life :=
  match es with
  | [] => Some s
  | e :: es => if ofEnvironment s e then None else s ← lifeStep s e; programRun s es
  end.

Lemma programRun_measure s es s' : programRun s es = Some s' → (length es + measure s' <= measure s)%nat.
Proof.
  revert s. induction es as [|e es IH]; intros s Hrun; [injection Hrun as <-; cbn; lia|].
  cbn in Hrun. destruct (ofEnvironment s e) eqn:He; [done|]. apply bind_Some in Hrun as (s1 & Hs & Hrun).
  apply IH in Hrun. apply lifeStep_measure in Hs; [|done]. cbn. lia.
Qed.

Lemma programRun_keeps s es s' : life_ok s → leaving s → programRun s es = Some s' → life_ok s' ∧ leaving s'.
Proof.
  revert s. induction es as [|e es IH]; intros s Hok Hl Hrun; [by injection Hrun as <-|].
  cbn in Hrun. destruct (ofEnvironment s e) eqn:He; [done|]. apply bind_Some in Hrun as (s1 & Hs & Hrun).
  eapply IH; [by eapply lifeStep_ok|by eapply leaving_step|done].
Qed.

Lemma programRun_stops n s :
  (measure s <= n)%nat → life_ok s → leaving s → ∃ es s', programRun s es = Some s' ∧ stopped s'.
Proof.
  revert s. induction n as [|n IH]; intros s Hn Hok Hl.
  - destruct (step_progress s Hok Hl) as [Hst|(e & s1 & Hs & He)]; [by exists [], s|].
    apply lifeStep_measure in Hs; [lia|done].
  - destruct (step_progress s Hok Hl) as [Hst|(e & s1 & Hs & He)]; [by exists [], s|].
    destruct (IH s1) as (es & s' & Hrun & Hst).
    + apply lifeStep_measure in Hs; [lia|done].
    + by eapply lifeStep_ok.
    + by eapply leaving_step.
    + exists (e :: es), s'. split; [|done]. cbn. by rewrite He, Hs.
Qed.

End facts.

(** C21. The agent always stops: once its context is cancelled, or its hook
    server has failed and the loop has returned, the goroutines of the run take
    at most twenty-five more steps by themselves, whatever is pending and
    however they are scheduled; a schedule that cannot be continued has ended
    with the loop returned, both collectors closed, and the worker, the hook
    server's goroutine and its listener gone; and such a schedule exists.  So no
    goroutine is left blocked on a channel, and the wait for the worker ends. *)
Theorem Run_stops (isLoopbackAddress : string → bool) (c : Config) (l : option Ledger) (initial : bool)
    (es : list lifeLabel) (s : life)
    (Hrun : lifeRun isLoopbackAddress c l (startLife c initial) es = Some s) (Hleave : leaving s) :
  (∀ es' s', programRun isLoopbackAddress c l s es' = Some s' →
    (length es' <= 25)%nat ∧
    ((∀ e, ofEnvironment s' e = false → lifeStep isLoopbackAddress c l s' e = None) → stopped s')) ∧
  ∃ es' s', programRun isLoopbackAddress c l s es' = Some s' ∧ stopped s'.
Proof.
  assert (Hok : life_ok s) by (eapply lifeRun_ok; [apply startLife_ok|done]). split.
  - intros es' s' Hrun'. split.
    + apply programRun_measure in Hrun'. pose proof (measure_bound s). lia.
    + intros Hstuck. destruct (programRun_keeps _ _ _ _ _ _ Hok Hleave Hrun') as [Hok' Hl'].
      destruct (step_progress isLoopbackAddress c l s' Hok' Hl') as [?|(e & s1 & Hs & He)]; [done|].
      by rewrite Hstuck in Hs.
  - by eapply programRun_stops.
Qed.

(** C22. The worker is the only one to use the collectors, one round at a time:
    in every run a second round of collection begins only after the first has
    ended, each round but the initial one answers a tick of its own, and the
    collectors are closed only after the last round has ended and before the
    run returns.  A run returns an error only when the hook server has failed,
    and the hook server never waits to report that. *)
Theorem Run_collects_safely (isLoopbackAddress : string → bool) (c : Config) (l : option Ledger) (initial : bool)
    (es : list lifeLabel) (s : life) (Hrun : lifeRun isLoopbackAddress c l (startLife c initial) es = Some s) :
  (∀ es1 es2 es3, es = es1 ++ WorkerBegins :: es2 ++ WorkerBegins :: es3 → WorkerEnds ∈ es2) ∧
  (length (filter (eq WorkerBegins) es) <= length (filter (eq LoopTick) es) + (if initial then 1 else 0))%nat ∧
  (lf_closed s = true → collecting (lf_worker s) = false ∧ lf_exited s = true ∧
     ∀ es' s', lifeRun isLoopbackAddress c l s es' = Some s' → WorkerBegins ∉ es') ∧
  (∀ e, lf_loop s = Returned e → lf_closed s = true ∧
     match e with Some e => hk_state (lf_hook s) = HookEnded ∧ e ≠ ErrCanceled | None => lf_cancelled s = true end) ∧
  (∀ e, hk_state (lf_hook s) = HookSending e → lf_hookErrors s = None).
Proof.
  assert (Hok : life_ok s) by (eapply lifeRun_ok; [apply startLife_ok|done]). split_and!.
  - intros es1 es2 es3 ->. apply lifeRun_worker in Hrun. rewrite omap_app in Hrun. cbn [omap list_omap workerLabel] in Hrun.
    rewrite omap_app in Hrun. cbn [omap list_omap workerLabel] in Hrun.
    destruct (worker_coalesces _ _ _ Hrun) as [Hserial _]. specialize (Hserial _ _ _ eq_refl).
    apply list_elem_of_omap in Hserial as (e & Hin & He). by destruct e.
  - apply lifeRun_worker in Hrun. destruct (worker_coalesces _ _ _ Hrun) as (_ & _ & Hcount).
    by rewrite (proj1 (omap_count es)), (proj2 (omap_count es)) in Hcount.
  - intros Hc. pose proof (closed_exited s Hok Hc) as Hx.
    split_and!; [by apply (ok_worker _ Hok)|done|]. intros es' s'. by apply closed_run.
  - intros e El. pose proof (ok_loop _ Hok) as Hl. pose proof (ok_reason _ Hok) as Hr. unfold loop_ok, reason_ok in *.
    rewrite El in *. split; [by apply Hl|done].
  - intros e Eh. pose proof (ok_hook _ Hok) as Hh. unfold hook_ok in Hh. rewrite Eh in Hh. by apply Hh.
Qed.

(** A run that is cancelled in the middle of a collection. *)
Definition demo_life : list lifeLabel :=
  [HookStep (Listened (Ok "127.0.0.1:47632")); WorkerBegins; TickerFires; LoopTick; TimerFires; LoopReport; Cancel].
Definition demo_leaving : list lifeLabel :=
  [HookStep SeesCancel; ReportEnds None; LoopDone; HookStep (ServeReturns ErrServerClosed); WorkerEnds; WorkerExits;
   HookStep (ShutdownReturns None); HookStep Waited; CleanUp; HookSends].
Definition demo_life_config : Config :=
  mkConfig "desk" "" "" true true None ∅ "secret" (15 * Second) (60 * Second) false (2 * Minute) None true false false.
Definition demo_life_start : life := startLife demo_life_config true.

Lemma Run_stops_witness :
  ∃ s, lifeRun (λ _, true) demo_life_config (Some (NewLedger 0)) demo_life_start demo_life = Some s ∧
    lf_loop s = Reporting ∧ collecting (lf_worker s) = true ∧
    ∃ es' s', programRun (λ _, true) demo_life_config (Some (NewLedger 0)) s es' = Some s' ∧ stopped s'.
Proof.
  eexists. split; [vm_compute; reflexivity|]. split; [reflexivity|]. split; [reflexivity|].
  refine (proj2 (Run_stops (λ _, true) demo_life_config (Some (NewLedger 0)) true demo_life _ _ _)); [vm_compute; reflexivity|by left].
Defined.

Lemma Run_collects_safely_witness :
  ∃ s, lifeRun (λ _, true) demo_life_config (Some (NewLedger 0)) demo_life_start (demo_life ++ demo_leaving) = Some s ∧
    lf_loop s = Returned None ∧ lf_closed s = true.
Proof.
  eexists. split; [vm_compute; reflexivity|]. split; [reflexivity|].
  refine (proj1 (proj1 (proj2 (proj2 (proj2 (Run_collects_safely (λ _, true) demo_life_config (Some (NewLedger 0)) true
    (demo_life ++ demo_leaving) _ _)))) None _)); [vm_compute; reflexivity|reflexivity].
Defined.
