(* ===== verification/SettingsFacts.v ===== *)
(** * What the agent's configuration file gives the agent

    [loadAgentConfig] of [main.go]: the intervals that a successful reading
    gives are positive and are the durations that were written, the defaults
    stand for blank ones, and the disk is only read. *)

From S2P Require Import Prelude GoTime GoText GoTextFacts GoDate GoFloat GoStrconv GoDuration Version GoDurationFacts Digest Model HookEvent Ledger Validate Store HookServer Server Agent Delivery Provision Settings Lifecycle.

Lemma durationOrDefault_some value fallback d :
  0 < fallback <= max_int64 → durationOrDefault value fallback = Some d →
  0 < d ∧ (TrimSpace value = "" ∧ d = fallback ∨ TrimSpace value ≠ "" ∧ ParseDuration value = Some d).
Proof.
  intros Hf. unfold durationOrDefault. case_bool_decide as Hb; [intros [= <-]; split; [lia|by left]|].
  destruct (ParseDuration value) as [x|]; [|done]. destruct (Z.leb_spec x 0); [done|]. intros [= ->]. auto.
Qed.

Lemma spell_visible l : Forall digit l → visible_string (spell l).
Proof.
  induction 1 as [|d l Hd Hl IH]; [by constructor|]. change (spell (d :: l)) with (String (chr (d + 48)) (spell l)).
  constructor; [|done]. unfold visible. unfold digit in Hd. rewrite zb_chr; lia.
Qed.

Lemma writeDuration_visible parts : Forall part_ok parts → visible_string (writeDuration parts).
Proof.
  induction 1 as [|[ds u] parts [Hd _] _ IH]; [by constructor|]. cbn [writeDuration].
  apply visible_app; [by apply spell_visible|]. apply visible_app; [|done]. destruct u; repeat constructor; done.
Qed.

(** What is written as parts is read as their sum. *)
Lemma durationOrDefault_write parts fallback d :
  Forall part_ok parts → parts ≠ [] → totalDuration parts <= max_int64 →
  durationOrDefault (writeDuration parts) fallback = Some d → d = totalDuration parts.
Proof.
  intros Hp Hne Ht. unfold durationOrDefault. rewrite TrimSpace_visible by by apply writeDuration_visible.
  rewrite ParseDuration_write by done. case_bool_decide as Hb.
  - exfalso. destruct Hp as [|[ds u] parts' [_ Hn] _]; [done|]. cbn [writeDuration fst] in *. by destruct ds.
  - destruct (_ <=? 0); [done|]. by intros [= ->].
Qed.

Section settings.
Context (fails : nat → bool).
Context (ExpandEnv : string → string) (UserHomeDir : option string).
Context (Join : string → string → string) (IsAbs : string → bool) (Dir : string → string).
Context (Decode : string → option (agentFileConfig * bool)).
Abbreviation read := (readSecretFile fails ExpandEnv UserHomeDir Join IsAbs).

Lemma readSecretFile_spec baseDir path w r w' :
  read baseDir path w = (r, w') →
  disk w' = disk w ∧ db w' = db w ∧
  (∀ secret, r = Ok secret → secret ≠ "" ∧ ∃ file payload mode, disk w !! file = Some (payload, mode) ∧ secret = TrimSpace payload).
Proof.
  unfold readSecretFile, ReadFile, call, mbind, IO_bind, mret, IO_ret.
  case_bool_decide as Hp; [by intros [= <- <-]|]. destruct (expandHome _ _ _) as [p|e]; [|by intros [= <- <-]]. cbv zeta.
  destruct (fails (calls w)); cbn [negb]; cbv beta iota zeta; cbn [disk db calls]; [by intros [= <- <-]|].
  set (file := if IsAbs p then p else Join baseDir p). destruct (disk w !! file) as [[payload mode]|] eqn:Ef; cbn [fst]; [|by intros [= <- <-]].
  intros [= <- <-]. split_and!; [done|done|]. intros secret. case_bool_decide as Hs; [done|]. intros [= <-]. split; [done|]. eauto.
Qed.

Lemma loadAgentConfig_spec path w r w' :
  loadAgentConfig fails Decode path w = (r, w') →
  disk w' = disk w ∧ db w' = db w ∧
  (∀ file, r = Ok file → ∃ payload mode, disk w !! path = Some (payload, mode) ∧ Decode payload = Some (file, false) ∧
     fc_AgentID file ≠ "" ∧ fc_ServerURL file ≠ "").
Proof.
  unfold loadAgentConfig, ReadFile, call, mbind, IO_bind, mret, IO_ret.
  destruct (fails (calls w)); cbn [negb]; cbv beta iota zeta; cbn [disk db calls]; [by intros [= <- <-]|].
  destruct (disk w !! path) as [[payload mode]|] eqn:Ef; cbn [fst]; [|by intros [= <- <-]].
  intros [= <- <-]. split_and!; [done|done|]. intros file. destruct (Decode payload) as [[cfg [|]]|] eqn:Ed; try done.
  cbn. intros H. apply bind_Ok in H as ([] & Hr & Heq). injection Heq as ->. exists payload, mode. split_and!; [done|done| |].
  - intros E. by rewrite E, bool_decide_true in Hr.
  - intros E. by rewrite E, (bool_decide_true ("" = "")), orb_true_r in Hr.
Qed.

End settings.

(** An interval of the file, or its default. *)
Definition intervalOf (value : string) (fallback d : Duration) : Prop :=
  0 < d ∧ (TrimSpace value = "" → d = fallback) ∧
  (∀ parts, Forall part_ok parts → parts ≠ [] → totalDuration parts <= max_int64 → value = writeDuration parts → d = totalDuration parts).

Lemma durationOrDefault_interval value fallback d :
  0 < fallback <= max_int64 → durationOrDefault value fallback = Some d → intervalOf value fallback d.
Proof.
  intros Hf Hd. destruct (durationOrDefault_some _ _ _ Hf Hd) as [Hpos Hcase]. split_and!; [done|by destruct Hcase as [[_ ?]|[? _]]|].
  intros parts Hp Hne Ht ->. by eapply durationOrDefault_write.
Qed.

Lemma New_intervals urlParse loopback c order a :
  New urlParse loopback c order = Ok a → 0 < ReportInterval c → 0 < CollectInterval c → 0 < MaxBackoff c →
  ReportInterval (cfg a) = ReportInterval c ∧ CollectInterval (cfg a) = CollectInterval c ∧ MaxBackoff (cfg a) = MaxBackoff c ∧
  HookSecret (cfg a) = HookSecret c.
Proof.
  unfold New. intros (_ & H)%refuse_bind_Ok. apply bind_Ok in H as (_ & _ & H). apply bind_Ok in H as (m & _ & [= <-]).
  intros H1 H2 H3. cbn. unfold orDuration. by rewrite !(proj2 (Z.leb_gt _ 0)) by lia.
Qed.

(** The configuration file means what it says: when the agent's settings
    are read, whatever calls fail on the way, the disk is not touched, and a
    result is complete: it comes from the one JSON value of the file, the token
    and the hook secret are the texts of the files that it names, without the
    space around them and never empty, and each interval is the default when
    the field is blank and otherwise the sum of the parts it is written as,
    never zero, negative or the result of an overflow.  The agent built from
    it keeps these intervals and starts its hook server. *)
Theorem Settings_mean (fails : nat → bool) (ExpandEnv : string → string) (UserHomeDir : option string)
    (Join : string → string → string) (IsAbs : string → bool) (Dir : string → string)
    (Decode : string → option (agentFileConfig * bool)) (path : string) (w w' : World) (c : Config)
    (Hrun : agentSettings fails ExpandEnv UserHomeDir Join IsAbs Dir Decode path w = (Ok c, w')) :
  disk w' = disk w ∧ db w' = db w ∧
  ∃ payload mode file, disk w !! path = Some (payload, mode) ∧ Decode payload = Some (file, false) ∧
    AgentID c = fc_AgentID file ∧ AgentID c ≠ "" ∧ ServerURL c = fc_ServerURL file ∧ ServerURL c ≠ "" ∧
    PlanOverrides c = fc_PlanOverrides file ∧
    Forall (λ secret, secret ≠ "" ∧ TrimSpace secret = secret ∧ ∃ name text m, disk w !! name = Some (text, m) ∧ secret = TrimSpace text)
      [Token c; HookSecret c] ∧
    intervalOf (fc_ReportInterval file) DefaultReportInterval (ReportInterval c) ∧
    intervalOf (fc_CollectInterval file) DefaultCollectInterval (CollectInterval c) ∧
    intervalOf (fc_MaxBackoff file) (2 * Minute) (MaxBackoff c) ∧
    (∀ urlParse loopback order a initial, New urlParse loopback c order = Ok a →
       ReportInterval (cfg a) = ReportInterval c ∧ CollectInterval (cfg a) = CollectInterval c ∧ MaxBackoff (cfg a) = MaxBackoff c ∧
       hk_state (lf_hook (startLife (cfg a) initial)) = HookListening).
Proof.
  unfold agentSettings in Hrun. unfold mbind at 1, IO_bind at 1 in Hrun.
  destruct (loadAgentConfig _ _ _ _) as [rl w1] eqn:E1. apply loadAgentConfig_spec in E1 as (Hd1 & Hb1 & H1).
  destruct rl as [file|e]; [|done]. destruct (H1 file eq_refl) as (payload & mode & Hf & Hdec & Hid & Hurl).
  unfold mbind at 1, IO_bind at 1 in Hrun.
  destruct (readSecretFile _ _ _ _ _ _ (fc_TokenFile file) w1) as [rt w2] eqn:E2. apply readSecretFile_spec in E2 as (Hd2 & Hb2 & H2).
  destruct rt as [token|e]; [|done]. destruct (H2 token eq_refl) as (Ht & tf & tp & tm & Htf & Htp).
  unfold mbind, IO_bind in Hrun.
  destruct (readSecretFile _ _ _ _ _ _ (fc_HookSecretFile file) w2) as [rs w3] eqn:E3. apply readSecretFile_spec in E3 as (Hd3 & Hb3 & H3).
  destruct rs as [secret|e]; [|done]. destruct (H3 secret eq_refl) as (Hs & sf & sp & sm & Hsf & Hsp).
  unfold mret, IO_ret in Hrun.
  destruct (durationOrDefault (fc_ReportInterval file) _) as [ri|] eqn:Er; [|done].
  destruct (durationOrDefault (fc_CollectInterval file) _) as [ci|] eqn:Ec; [|done].
  destruct (durationOrDefault (fc_MaxBackoff file) _) as [mb|] eqn:Em; [|done].
  apply durationOrDefault_interval in Er, Ec, Em; [|done..].
  assert (Hc : c = mkConfig (fc_AgentID file) (fc_ServerURL file) token true true None (fc_PlanOverrides file) secret ri ci
                     (fc_SequentialCollection file) mb None false false (fc_AllowInsecureHTTP file) ∧ w' = w3) by (by injection Hrun).
  clear Hrun. destruct Hc as [-> ->]. cbn [AgentID ServerURL PlanOverrides Token HookSecret ReportInterval CollectInterval MaxBackoff].
  split_and!; [congruence..|]. exists payload, mode, file. split_and!; try done.
  - rewrite Hd1 in Htf. rewrite Hd2, Hd1 in Hsf.
    repeat (apply Forall_cons; split); [| |by apply Forall_nil].
    + split_and!; [done|rewrite Htp; apply TrimSpace_idemp|eauto].
    + split_and!; [done|rewrite Hsp; apply TrimSpace_idemp|eauto].
  - intros urlParse loopback order a initial Ha.
    apply New_intervals in Ha as (-> & -> & -> & Hsec); [|apply Er|apply Ec|apply Em].
    split_and!; [done..|]. cbn in Hsec |- *. rewrite Hsec. by rewrite decide_False.
Qed.

Definition demo_file : agentFileConfig :=
  mkAgentFileConfig "desk" "https://monitor.example" "token" "" "secret" "" "" ∅ "1m30s" "" false " " false.
Definition demo_disk : Disk := {["agent.json" := ("{}", 0x180); "token" := ("qmon_abc
", 0x180); "secret" := (" s3cret ", 0x180)]}.
Definition demo_settings : IO (result SettingsError Config) :=
  agentSettings noFaults id None (λ _ p, p) (λ _, false) (λ _, ".") (λ _, Some (demo_file, false)) "agent.json".

Lemma Settings_mean_witness :
  match demo_settings (mkWorld demo_disk emptyDB 0) with
  | (Ok c, _) => Token c = "qmon_abc" ∧ HookSecret c = "s3cret" ∧ ReportInterval c = 90 * Second ∧ 0 < MaxBackoff c
  | _ => False
  end.
Proof.
  destruct (demo_settings (mkWorld demo_disk emptyDB 0)) as [[c|e] w'] eqn:E; [|vm_compute in E; discriminate E].
  destruct (Settings_mean noFaults id None (λ _ p, p) (λ _, false) (λ _, ".") (λ _, Some (demo_file, false)) "agent.json"
    (mkWorld demo_disk emptyDB 0) w' c E) as (_ & _ & payload & mode & file & _ & Hdec & _ & _ & _ & _ & _ & _ & Hri & _ & (Hmb & _) & _).
  injection Hdec as <-.
  assert (Hc : c = mkConfig "desk" "https://monitor.example" "qmon_abc" true true None ∅ "s3cret" (90 * Second) DefaultCollectInterval
    false (2 * Minute) None false false false) by (vm_compute in E; injection E as <- _; reflexivity).
  split_and!; [by rewrite Hc|by rewrite Hc| |exact Hmb].
  exact (proj2 (proj2 Hri) [([1], UMinute); ([3; 0], USecond)] ltac:(repeat (apply Forall_cons; split); [split; [repeat constructor; done|done]|split; [repeat constructor; done|done]|by apply Forall_nil]) ltac:(done) ltac:(vm_compute; discriminate) eq_refl).
Defined.
