(* ===== verification/Commands.v ===== *)
(** * cmd/quota-monitor: the command line

    [run] of [main.go] with its sub-commands and their flags, over Go's [flag]:
    what a list of arguments asks for, and the exit status.  The token
    commands, the hook forwarder, the lookup of a login tool and the doctor are
    here too.  The environment, [os.Executable], the operating system's name
    and [filepath.Join] are arguments. *)

From S2P Require Import Prelude GoTime GoText GoDuration GoFlag Json Digest Model HookEvent Ledger Validate Store Migrate Version Firmware HookServer Agent StatusLine Standalone Service.

(** What is left to do once the arguments are understood. *)
Inductive invocation :=
| RunStandalone (listen codexCommand claudeCommand : string) (fl : standaloneFlags)
| RunServer (listen dbPath logFormat firmwareDir : string)
| RunAgent (configPath : string) (once : bool)
| HooksInstall (executable home hookURL secretPath statePath : string)
| HooksUninstall (home secretPath statePath : string)
| HookForward (provider : ProviderName) (c : ForwardConfig)
| HookStatusLine (c : ForwardConfig) (statePath : string)
| ServiceGenerate (target : string) (cfg : ServiceFileConfig) (output : string)
| TokenCreate (dbPath : string) (req : CreateTokenRequest) (jsonOutput : bool)
| TokenList (dbPath : string)
| TokenRevoke (dbPath id : string)
| FirmwarePublish (o : PublishOptions)
| Doctor (healthURL : string)
| Login (provider executable : string) (commandArgs : list string)
| PrintVersion.

Inductive CommandError :=
| FlagFailed (e : flagError) | Positional | Incomplete | NoSubcommand | UnknownSubcommand (name : string) | UnknownProvider (name : string).

(** The flags of a command that takes no other arguments. *)
Definition onlyFlags (fs : FlagSet) (args : list string) : result CommandError FlagSet :=
  match Parse fs args with
  | Err e => Err (FlagFailed e)
  | Ok (fs, rest) => _ ← refuse (negb (bool_decide (rest = []))) Positional; Ok fs
  end.

Section flags.
Context (Getenv : string → string) (GOOS Executable : string) (Join : string → string → string).

Definition envOr (name fallback : string) : string :=
  let value := TrimSpace (Getenv name) in if bool_decide (value = "") then fallback else value.

Definition defaultFirmwareDir : string :=
  if bool_decide (GOOS = "linux") then "/var/lib/quota-monitor/firmware" else Join "data" "firmware".

Definition localHookURL : string := "http://127.0.0.1:47632".

(** ** The long-running modes *)

Definition standaloneDefaults : FlagSet := list_to_map [
  ("listen", VString (envOr "QUOTA_MONITOR_LISTEN" "127.0.0.1:8787"));
  ("db", VString (envOr "QUOTA_MONITOR_DB" "data/monitor.db"));
  ("display-token-file", VString (envOr "QUOTA_MONITOR_DISPLAY_TOKEN_FILE" "data/display.token"));
  ("hook-addr", VString (envOr "QUOTA_MONITOR_HOOK_ADDR" "127.0.0.1:47632"));
  ("hook-secret-file", VString (envOr "QUOTA_MONITOR_HOOK_SECRET_FILE" "data/hook-secret"));
  ("agent-id", VString (envOr "QUOTA_MONITOR_AGENT_ID" "cloud-standalone"));
  ("codex-command", VString (envOr "QUOTA_MONITOR_CODEX_COMMAND" "codex"));
  ("claude-command", VString (envOr "QUOTA_MONITOR_CLAUDE_COMMAND" "claude"));
  ("codex", VBool true); ("claude", VBool true);
  ("codex-plan", VString ""); ("claude-plan", VString "");
  ("collect-interval", VDuration DefaultCollectInterval);
  ("sequential-collection", VBool true);
  ("persist-interval", VDuration DefaultReportInterval);
  ("log-format", VString (envOr "QUOTA_MONITOR_LOG_FORMAT" "text"));
  ("firmware-dir", VString (envOr "QUOTA_MONITOR_FIRMWARE_DIR" defaultFirmwareDir)) ].

Definition standaloneCommand (args : list string) : result CommandError invocation :=
  fs ← onlyFlags standaloneDefaults args;
  Ok (RunStandalone (stringOf fs "listen") (stringOf fs "codex-command") (stringOf fs "claude-command")
        (mkStandaloneFlags (stringOf fs "db") (stringOf fs "display-token-file") (stringOf fs "hook-addr") (stringOf fs "hook-secret-file")
           (stringOf fs "agent-id") (boolOf fs "codex") (boolOf fs "claude") (stringOf fs "codex-plan") (stringOf fs "claude-plan")
           (durationOf fs "collect-interval") (boolOf fs "sequential-collection") (durationOf fs "persist-interval")
           (stringOf fs "log-format") (stringOf fs "firmware-dir"))).

Definition serverCommand (args : list string) : result CommandError invocation :=
  fs ← onlyFlags {[
    "listen" := VString (envOr "QUOTA_MONITOR_LISTEN" "127.0.0.1:8787");
    "db" := VString (envOr "QUOTA_MONITOR_DB" "data/monitor.db");
    "log-format" := VString (envOr "QUOTA_MONITOR_LOG_FORMAT" "json");
    "firmware-dir" := VString (envOr "QUOTA_MONITOR_FIRMWARE_DIR" defaultFirmwareDir) ]} args;
  Ok (RunServer (stringOf fs "listen") (stringOf fs "db") (stringOf fs "log-format") (stringOf fs "firmware-dir")).

Definition agentDefaults : FlagSet :=
  {[ "config" := VString (envOr "QUOTA_MONITOR_AGENT_CONFIG" "agent.json"); "once" := VBool false ]}.

Definition agentCommand (args : list string) : result CommandError invocation :=
  fs ← onlyFlags agentDefaults args; Ok (RunAgent (stringOf fs "config") (boolOf fs "once")).

(** ** Hooks *)

Definition hooksInstallCommand (args : list string) : result CommandError invocation :=
  fs ← onlyFlags {[ "executable" := VString Executable; "home" := VString ""; "url" := VString localHookURL;
    "secret-file" := VString ""; "state-file" := VString "" ]} args;
  _ ← refuse (bool_decide (stringOf fs "executable" = "")) Incomplete;
  Ok (HooksInstall (stringOf fs "executable") (stringOf fs "home") (stringOf fs "url") (stringOf fs "secret-file") (stringOf fs "state-file")).

Definition hooksUninstallCommand (args : list string) : result CommandError invocation :=
  fs ← onlyFlags {[ "home" := VString ""; "secret-file" := VString ""; "state-file" := VString "" ]} args;
  Ok (HooksUninstall (stringOf fs "home") (stringOf fs "secret-file") (stringOf fs "state-file")).

Definition hooksCommand (args : list string) : result CommandError invocation :=
  match args with
  | [] => Err NoSubcommand
  | name :: args =>
    if bool_decide (name = "install") then hooksInstallCommand args
    else if bool_decide (name = "uninstall") then hooksUninstallCommand args
    else Err (UnknownSubcommand name)
  end.

Definition forwardDefaults : FlagSet :=
  {[ "provider" := VString ""; "url" := VString localHookURL; "secret-file" := VString ""; "managed-by" := VString "" ]}.

Definition hookForwardCommand (args : list string) : result CommandError invocation :=
  fs ← onlyFlags forwardDefaults args;
  _ ← refuse (bool_decide (stringOf fs "provider" = "") || bool_decide (stringOf fs "secret-file" = "")) Incomplete;
  Ok (HookForward (stringOf fs "provider") (mkForwardConfig (stringOf fs "url") "" (stringOf fs "secret-file"))).

Definition statusLineDefaults : FlagSet :=
  {[ "url" := VString localHookURL; "secret-file" := VString ""; "state-file" := VString ""; "managed-by" := VString "" ]}.

Definition hookStatusLineCommand (args : list string) : result CommandError invocation :=
  fs ← onlyFlags statusLineDefaults args;
  _ ← refuse (bool_decide (stringOf fs "secret-file" = "") || bool_decide (stringOf fs "state-file" = "")) Incomplete;
  Ok (HookStatusLine (mkForwardConfig (stringOf fs "url") "" (stringOf fs "secret-file")) (stringOf fs "state-file")).

Definition hookHelperCommand (args : list string) : result CommandError invocation :=
  match args with
  | [] => Err NoSubcommand
  | name :: args =>
    if bool_decide (name = "forward") then hookForwardCommand args
    else if bool_decide (name = "statusline") then hookStatusLineCommand args
    else Err (UnknownSubcommand name)
  end.

(** ** Service files, tokens, firmware *)

Definition serviceCommand (args : list string) : result CommandError invocation :=
  match args with
  | "generate" :: args =>
    fs ← onlyFlags {[ "target" := VString (if bool_decide (GOOS = "windows") then "windows" else "systemd");
      "mode" := VString "agent"; "executable" := VString Executable; "config" := VString ""; "firmware-dir" := VString "";
      "working-directory" := VString ""; "windows-user-id" := VString ""; "output" := VString "" ]} args;
    Ok (ServiceGenerate (stringOf fs "target")
          (mkServiceFileConfig (stringOf fs "executable") (stringOf fs "config") (stringOf fs "firmware-dir")
             (stringOf fs "working-directory") (stringOf fs "windows-user-id") (stringOf fs "mode")) (stringOf fs "output"))
  | _ => Err NoSubcommand
  end.

Definition tokenDBFlag : flagValue := VString (envOr "QUOTA_MONITOR_DB" "data/monitor.db").

Definition tokenCreateCommand (args : list string) : result CommandError invocation :=
  fs ← onlyFlags {[ "db" := tokenDBFlag; "scope" := VString ""; "agent-id" := VString ""; "label" := VString ""; "json" := VBool false ]} args;
  _ ← refuse (bool_decide (stringOf fs "scope" = "")) Incomplete;
  Ok (TokenCreate (stringOf fs "db") (mkCreateTokenRequest (stringOf fs "scope") (stringOf fs "agent-id") (stringOf fs "label")) (boolOf fs "json")).

Definition tokenRevokeCommand (args : list string) : result CommandError invocation :=
  fs ← onlyFlags {[ "db" := tokenDBFlag; "id" := VString "" ]} args;
  _ ← refuse (bool_decide (stringOf fs "id" = "")) Incomplete;
  Ok (TokenRevoke (stringOf fs "db") (stringOf fs "id")).

Definition tokenCommand (args : list string) : result CommandError invocation :=
  match args with
  | [] => Err NoSubcommand
  | name :: args =>
    if bool_decide (name = "create") then tokenCreateCommand args
    else if bool_decide (name = "list") then fs ← onlyFlags {[ "db" := tokenDBFlag ]} args; Ok (TokenList (stringOf fs "db"))
    else if bool_decide (name = "revoke") then tokenRevokeCommand args
    else Err (UnknownSubcommand name)
  end.

Definition firmwareCommand (args : list string) : result CommandError invocation :=
  match args with
  | "publish" :: args =>
    fs ← onlyFlags {[ "board" := VString ""; "version" := VString ""; "file" := VString "";
      "firmware-dir" := VString (envOr "QUOTA_MONITOR_FIRMWARE_DIR" defaultFirmwareDir) ]} args;
    _ ← refuse (bool_decide (TrimSpace (stringOf fs "board") = "") || bool_decide (TrimSpace (stringOf fs "version") = "") ||
                bool_decide (TrimSpace (stringOf fs "file") = "")) Incomplete;
    Ok (FirmwarePublish (mkPublishOptions (stringOf fs "firmware-dir") (stringOf fs "board") (stringOf fs "version") (stringOf fs "file") zeroTime))
  | _ => Err NoSubcommand
  end.

(** ** Doctor and login *)

Definition doctorCommand (args : list string) : result CommandError invocation :=
  fs ← onlyFlags {[ "health-url" := VString "" ]} args;
  _ ← refuse (bool_decide (stringOf fs "health-url" = "")) Incomplete;
  Ok (Doctor (stringOf fs "health-url")).

Definition loginCommand (args : list string) : result CommandError invocation :=
  match args with
  | [arg] =>
    let provider := ToLower (TrimSpace arg) in
    if bool_decide (provider = "codex") then Ok (Login provider "codex" ["login"; "--device-auth"])
    else if bool_decide (provider = "claude") then Ok (Login provider "claude" ["auth"; "login"; "--claudeai"])
    else Err (UnknownProvider provider)
  | _ => Err Positional
  end.

(** ** [run] *)

Inductive request := BadUsage | ShowHelp | Understood (r : result CommandError invocation).

Definition interpret (args : list string) : request :=
  match args with
  | [] => BadUsage
  | name :: args =>
    if bool_decide (name = "standalone") then Understood (standaloneCommand args)
    else if bool_decide (name = "server") then Understood (serverCommand args)
    else if bool_decide (name = "agent") then Understood (agentCommand args)
    else if bool_decide (name = "hooks") then Understood (hooksCommand args)
    else if bool_decide (name = "hook") then Understood (hookHelperCommand args)
    else if bool_decide (name = "service") then Understood (serviceCommand args)
    else if bool_decide (name = "token") then Understood (tokenCommand args)
    else if bool_decide (name = "firmware") then Understood (firmwareCommand args)
    else if bool_decide (name = "doctor") then Understood (doctorCommand args)
    else if bool_decide (name = "login") then Understood (loginCommand args)
    else if bool_decide (name ∈ ["version"; "--version"; "-version"]) then Understood (Ok PrintVersion)
    else if bool_decide (name ∈ ["help"; "--help"; "-h"]) then ShowHelp
    else BadUsage
  end.

(** The exit status; [perform] is whether the command succeeds. *)
Definition run (perform : invocation → bool) (args : list string) : Z :=
  match interpret args with
  | BadUsage => 2
  | ShowHelp => 0
  | Understood (Ok i) => if perform i then 0 else 1
  | Understood (Err _) => 1
  end.
End flags.

(** ** The token commands *)

Inductive TokenCommandError := NoDirectory | StoreNotOpened (e : OpenError) | StoreFailed (e : StoreError).

(** The calls that fail: creating the directory, and those of [Open]. *)
Record storeFaults := mkStoreFaults { st_mkdir : bool; st_open : nat → bool; st_commits : nat → bool }.

Definition openTokenStore (ft : storeFaults) (path : string) (now : Time) (f : Migrate.file) : result TokenCommandError unit * Migrate.file :=
  if needsDir path && st_mkdir ft then (Err NoDirectory, f)
  else match Open (st_open ft) (st_commits ft) migrations path now (mkSession f 0) with
  | (Err e, s) => (Err (StoreNotOpened e), ss_file s)
  | (Ok _, s) => (Ok tt, ss_file s)
  end.

Definition lf : string := String "010" "".

Section tokens.
Context (EncodeCreated : CreatedToken → string) (EncodeRecords : list TokenRecord → string).

Definition tokenText (created : CreatedToken) : string :=
  let record := ct_Record created in
  "Token ID: " +:+ tr_ID record +:+ lf +:+ "Scope: " +:+ tr_Scope record +:+ lf +:+
  (if bool_decide (tr_AgentID record = "") then "" else "Agent ID: " +:+ tr_AgentID record +:+ lf) +:+
  "Bearer token (shown once): " +:+ ct_RawToken created +:+ lf.

(** What the command prints, and the database file it leaves. *)
Definition runTokenCreate (ft : storeFaults) (dbPath : string) (req : CreateTokenRequest) (jsonOutput : bool)
    (secret idBytes : option (list Z)) (now : Time) (f : Migrate.file) : result TokenCommandError string * Migrate.file :=
  match openTokenStore ft dbPath now f with
  | (Err e, f) => (Err e, f)
  | (Ok _, f) =>
    match CreateToken (fl_rows f) req secret idBytes now with
    | Err e => (Err (StoreFailed e), f)
    | Ok (created, rows) =>
      (Ok (if jsonOutput then EncodeCreated created else tokenText created), Migrate.mkFile (fl_schema f) (fl_applied f) rows)
    end
  end.

Definition runTokenList (ft : storeFaults) (dbPath : string) (now : Time) (f : Migrate.file) : result TokenCommandError string * Migrate.file :=
  match openTokenStore ft dbPath now f with
  | (Err e, f) => (Err e, f)
  | (Ok _, f) => (Ok (EncodeRecords (ListTokens (fl_rows f))), f)
  end.

Definition runTokenRevoke (ft : storeFaults) (dbPath id : string) (now : Time) (f : Migrate.file)
    : result TokenCommandError string * Migrate.file :=
  match openTokenStore ft dbPath now f with
  | (Err e, f) => (Err e, f)
  | (Ok _, f) =>
    match RevokeToken (fl_rows f) id now with
    | (Err e, _) => (Err (StoreFailed e), f)
    | (Ok _, rows) => (Ok ("revoked " +:+ id +:+ lf), Migrate.mkFile (fl_schema f) (fl_applied f) rows)
    end
  end.
End tokens.

(** ** The hook forwarder *)

(** What became of the event: [None] when the input was ignored.  The command
    succeeds all the same. *)
Definition runHookForward (ReadFile : string → option string) (loopbackURL : string → bool) (EncodeEvent : Event → option string)
    (Unmarshal : string → option json) (probing : bool) (provider : ProviderName) (c : ForwardConfig) (input : option string)
    (now : Time) (send : string → hookRequest → option Z) : option (result ForwardError unit) :=
  match readLimited input MaxHookPayload with
  | None => None
  | Some payload =>
    match ParseEvent provider "" (Unmarshal payload) now probing with
    | Err _ => None
    | Ok event => Some (ForwardEvent ReadFile loopbackURL EncodeEvent c event send)
    end
  end.

(** ** The login tool and the doctor *)

Inductive statResult := RegularFile | OtherFile | MissingFile | StatFailed.
Inductive LoginError := NotInPath | NoHomeDirectory | NotFound (candidate : string) | NotInspected (candidate : string) | NotRegular (candidate : string).

Definition resolveLoginExecutableForOS (Join4 : string → string → string → string → string) (stat : string → statResult)
    (name goos : string) (lookPath : string → option string) (userHomeDir : option string) : result LoginError string :=
  match lookPath name with
  | Some path => Ok path
  | None =>
    if bool_decide (goos = "windows") then Err NotInPath
    else match userHomeDir with
    | None => Err NoHomeDirectory
    | Some home =>
      let candidate := Join4 home ".local" "bin" name in
      match stat candidate with
      | MissingFile => Err (NotFound candidate)
      | StatFailed => Err (NotInspected candidate)
      | OtherFile => Err (NotRegular candidate)
      | RegularFile => Ok candidate
      end
    end
  end.

(** [runDoctor] on the answer to its request: the status and the body. *)
Definition runDoctor (answer : option (Z * string)) : option string :=
  '(status, body) ← answer;
  if status =? 200 then Some ("server healthy: " +:+ TrimSpace (Stdlib.Strings.String.substring 0 4096 body) +:+ lf) else None.

Example commands_read :
  let env := λ name, if bool_decide (name = "QUOTA_MONITOR_DB") then " /var/q.db " else "" in
  map (interpret env "linux" "/usr/bin/q" (λ a b, a +:+ "/" +:+ b))
    [[]; ["help"]; ["bogus"]; ["agent"; "-once"; "--config=/etc/a.json"]; ["token"; "revoke"; "--id"; "tok_1"]; ["agent"; "x"];
     ["standalone"; "--help"]; ["login"; " Codex "]; ["hook"; "forward"; "--provider"; "codex"]] =
  [BadUsage; ShowHelp; BadUsage; Understood (Ok (RunAgent "/etc/a.json" true)); Understood (Ok (TokenRevoke "/var/q.db" "tok_1"));
   Understood (Err Positional); Understood (Err (FlagFailed HelpRequested));
   Understood (Ok (Login "codex" "codex" ["login"; "--device-auth"])); Understood (Err Incomplete)].
Proof. vm_compute. reflexivity. Qed.
