(* ===== verification/CommandsFacts.v ===== *)
(** * Facts about the command line

    What the program writes down for others to run is what it then reads: the
    service unit, the hooks' commands and the identifiers that the token
    commands print. *)

From S2P Require Import Prelude GoTime GoText GoTextFacts GoFloat GoStrconv GoDuration GoFlag Json Digest Model HookEvent HookConfig HookConfigFacts Install Ledger Validate Store StoreTokens Migrate MigrateFacts Version Firmware HookServer HookServerFacts Agent StatusLine Service ServiceFacts Standalone StandaloneFacts Commands.

Section facts.
Context (Getenv : string → string) (GOOS Executable : string) (Join : string → string → string).
Abbreviation interpret := (interpret Getenv GOOS Executable Join).

(** ** The service *)

Lemma agent_read path : interpret ["agent"; "--config"; path] = Understood (Ok (RunAgent path false)).
Proof.
  unfold Commands.interpret. cbn [bool_decide]. unfold agentCommand, onlyFlags.
  change "--config" with ("--" +:+ "config"). rewrite (Parse_string _ "config" (envOr Getenv "QUOTA_MONITOR_AGENT_CONFIG" "agent.json")) by done.
  reflexivity.
Qed.

(** The standalone mode with its defaults and a firmware directory. *)
Definition defaultStandalone (dir : string) : invocation :=
  RunStandalone (envOr Getenv "QUOTA_MONITOR_LISTEN" "127.0.0.1:8787") (envOr Getenv "QUOTA_MONITOR_CODEX_COMMAND" "codex")
    (envOr Getenv "QUOTA_MONITOR_CLAUDE_COMMAND" "claude")
    (mkStandaloneFlags (envOr Getenv "QUOTA_MONITOR_DB" "data/monitor.db")
       (envOr Getenv "QUOTA_MONITOR_DISPLAY_TOKEN_FILE" "data/display.token") (envOr Getenv "QUOTA_MONITOR_HOOK_ADDR" "127.0.0.1:47632")
       (envOr Getenv "QUOTA_MONITOR_HOOK_SECRET_FILE" "data/hook-secret") (envOr Getenv "QUOTA_MONITOR_AGENT_ID" "cloud-standalone")
       true true "" "" DefaultCollectInterval true DefaultReportInterval (envOr Getenv "QUOTA_MONITOR_LOG_FORMAT" "text") dir).

Lemma standalone_read dir : interpret ["standalone"; "--firmware-dir"; dir] = Understood (Ok (defaultStandalone dir)).
Proof.
  unfold Commands.interpret. cbn [bool_decide]. unfold standaloneCommand, onlyFlags. change "--firmware-dir" with ("--" +:+ "firmware-dir").
  erewrite Parse_string by (done || reflexivity). reflexivity.
Qed.

Lemma standalone_read_value dir : interpret ["standalone"; "--firmware-dir=" +:+ dir] = Understood (Ok (defaultStandalone dir)).
Proof.
  unfold Commands.interpret. cbn [bool_decide]. unfold standaloneCommand, onlyFlags.
  change ("--firmware-dir=" +:+ dir) with ("--" +:+ "firmware-dir" +:+ "=" +:+ dir).
  erewrite Parse_string_value by done. reflexivity.
Qed.

(** C33. The service's command line is read as what was configured: in the
    systemd unit there is exactly one [ExecStart] line; systemd, after
    unquoting, specifiers and the substitution of environment variables,
    whatever the environment, reads it as the executable and arguments that
    the program understands as the agent on exactly the configuration file that
    was given, or as the standalone mode with its defaults and exactly the
    firmware directory that was given, whatever quotes, backslashes, spaces and
    percent signs these two paths contain and even if they look like flags.
    The executable must be a clean absolute path without quotes, backslashes
    and control characters, as systemd demands; no path may hold a line break
    or a NUL; and the configuration file, the firmware directory and the home
    directory hold no dollar sign, which [systemdEscape] does not double.  The
    one [WorkingDirectory] line has its path inside quotes. *)
Theorem Service_runs_configured (env : string → option string) (SplitValue : string → list string) (home : string)
    (cfg : ServiceFileConfig) (contents : string)
    (Hmode : TrimSpace (sv_Mode cfg) ∈ [""; "agent"; "standalone"])
    (Hlines : Forall (λ s, unitValue s = true)
       [sv_Executable cfg; sv_ConfigPath cfg; sv_FirmwareDirectory cfg; unitWorking cfg])
    (Hprogram : programPath (sv_Executable cfg) = true)
    (Hdollar : Forall (λ s, has_byte "$" s = false) [home; sv_ConfigPath cfg; sv_FirmwareDirectory cfg])
    (Hrun : GenerateSystemdUnit cfg = Ok contents) :
  ∃ line words, directive "ExecStart" contents = [line] ∧
    argv env SplitValue home line = Some (sv_Executable cfg :: words) ∧
    interpret words = Understood (Ok
      (if isStandalone cfg then
         defaultStandalone (if bool_decide (sv_FirmwareDirectory cfg = "") then home +:+ "/.local/share/quota-monitor/firmware"
                            else sv_FirmwareDirectory cfg)
       else RunAgent (sv_ConfigPath cfg) false)) ∧
    directive "WorkingDirectory" contents = [systemdEscape (unitWorking cfg)].
Proof.
  destruct (unit_argv env SplitValue home cfg contents Hmode Hlines Hprogram Hdollar Hrun) as (line & Hline & Hdir & Hargv).
  exists line, (tail (expectedArgv home cfg)).
  split; [done|split; [exact Hargv|split; [|exact Hdir]]]. unfold expectedArgv. cbn [tail]. destruct (isStandalone cfg); [|apply agent_read].
  case_bool_decide; [apply standalone_read_value|apply standalone_read].
Qed.

(** ** The hooks *)

Lemma forward_read provider hookURL secretPath : provider ≠ "" → secretPath ≠ "" →
  interpret ["hook"; "forward"; "--provider"; provider; "--url"; hookURL; "--secret-file"; secretPath; "--managed-by"; ManagedMarker] =
    Understood (Ok (HookForward provider (mkForwardConfig hookURL "" secretPath))).
Proof.
  intros Hp Hs. change (Understood (hookForwardCommand
    ["--provider"; provider; "--url"; hookURL; "--secret-file"; secretPath; "--managed-by"; ManagedMarker]) = Understood (Ok (HookForward provider (mkForwardConfig hookURL "" secretPath)))).
  f_equal. unfold hookForwardCommand, onlyFlags.
  change "--provider" with ("--" +:+ "provider"). erewrite Parse_string by (done || reflexivity).
  change "--url" with ("--" +:+ "url"). erewrite Parse_string by (done || reflexivity).
  change "--secret-file" with ("--" +:+ "secret-file"). erewrite Parse_string by (done || reflexivity).
  change "--managed-by" with ("--" +:+ "managed-by"). erewrite Parse_string by (done || reflexivity).
  cbn [Parse]. rewrite bool_decide_true by done. cbn [negb refuse mbind result_bind].
  change (stringOf _ "provider") with provider. change (stringOf _ "secret-file") with secretPath. change (stringOf _ "url") with hookURL.
  by rewrite !bool_decide_false.
Qed.

Lemma statusline_read hookURL secretPath statePath : secretPath ≠ "" → statePath ≠ "" →
  interpret ["hook"; "statusline"; "--url"; hookURL; "--secret-file"; secretPath; "--state-file"; statePath; "--managed-by"; ManagedMarker] =
    Understood (Ok (HookStatusLine (mkForwardConfig hookURL "" secretPath) statePath)).
Proof.
  intros Hp Hs. change (Understood (hookStatusLineCommand
    ["--url"; hookURL; "--secret-file"; secretPath; "--state-file"; statePath; "--managed-by"; ManagedMarker]) = Understood (Ok (HookStatusLine (mkForwardConfig hookURL "" secretPath) statePath))).
  f_equal. unfold hookStatusLineCommand, onlyFlags.
  change "--url" with ("--" +:+ "url"). erewrite Parse_string by (done || reflexivity).
  change "--secret-file" with ("--" +:+ "secret-file"). erewrite Parse_string by (done || reflexivity).
  change "--state-file" with ("--" +:+ "state-file"). erewrite Parse_string by (done || reflexivity).
  change "--managed-by" with ("--" +:+ "managed-by"). erewrite Parse_string by (done || reflexivity).
  cbn [Parse]. rewrite bool_decide_true by done. cbn [negb refuse mbind result_bind].
  change (stringOf _ "secret-file") with secretPath. change (stringOf _ "state-file") with statePath. change (stringOf _ "url") with hookURL.
  by rewrite !bool_decide_false.
Qed.
Section delivery.
Context (DecodeEvent : string → decoded) (Unmarshal : string → option json).
Context (otherFloat : string → float64 * bool) (machineInt : float64 → Z).
Context (ReadFile : string → option string) (loopbackURL : string → bool) (EncodeEvent : Event → option string).

(** C12. An installed hook reaches the ledger: outside Windows, the command that
    the installer writes for a provider is split by a POSIX shell into the
    executable and arguments that the program understands as the forwarder
    for this provider with the hook URL and the secret file that were
    installed, whatever characters they hold, and the status line command
    likewise.  Run on an input of at most 64 KiB that is an event outside a
    probe, with the secret file holding a secret and the URL on the loopback
    interface, the forwarder posts a request; if the encoded event is decoded to
    the same event and within the payload bound of the agent, an agent with this secret answers it with 204
    after applying exactly that event to its ledger, and an agent whose secret
    has another digest refuses it with its ledger unchanged. *)
Theorem Installed_hook_delivers (targetOS executable : string) (provider : ProviderName) (hookURL secretPath statePath : string)
    (cfg : HookServerConfig) (l : Ledger) (clock now : Time) (input body text : string) (ev : Event)
    (Hos : targetOS ≠ "windows") (Hpath : secretPath ≠ "") (Hstate : statePath ≠ "")
    (Hparse : ParseEvent provider "" (Unmarshal input) now false = Ok ev) (Hprobe : ev_Probe ev = false)
    (Hinput : len input <= MaxHookPayload)
    (Hcodec : EncodeEvent ev = Some body) (Hdecode : DecodeEvent body = Decoded ev) (Hmax : 0 <= len body <= hs_MaxPayload cfg)
    (Hfile : ReadFile secretPath = Some text) (Hsecret : TrimSpace text ≠ "") :
  let c := mkForwardConfig hookURL "" secretPath in
  loopbackURL (baseURL c) = true →
  (∃ words, shellWords Outside None (statusCommand targetOS executable hookURL secretPath statePath) = Some (executable :: words) ∧
    interpret words = Understood (Ok (HookStatusLine c statePath))) ∧
  (∃ words, shellWords Outside None (hookCommand targetOS executable provider hookURL secretPath) = Some (executable :: words) ∧
    interpret words = Understood (Ok (HookForward provider c))) ∧
  ∃ r, forwardRequest ReadFile loopbackURL c "/v1/events" body = Ok (baseURL c, r) ∧
    let result := runHookForward ReadFile loopbackURL EncodeEvent Unmarshal false provider c (Some input) now
                    (agentAnswers DecodeEvent Unmarshal otherFloat machineInt cfg l clock) in
    (hs_Secret cfg = TrimSpace text →
       result = Some (Ok tt) ∧
       ServeHook DecodeEvent Unmarshal otherFloat machineInt cfg l clock r = (NoContent, Apply l clock ev, None)) ∧
    (Sum256 (hs_Secret cfg) ≠ Sum256 (TrimSpace text) →
       result = Some (Err (AgentReturned 401)) ∧
       ServeHook DecodeEvent Unmarshal otherFloat machineInt cfg l clock r = (Unauthorized, l, None)).
Proof.
  intros c Hurl.
  assert (Hprovider : provider ≠ "") by (intros ->; by unfold ParseEvent in Hparse).
  assert (Hres : resolvedSecret ReadFile c = Ok (TrimSpace text)).
  { unfold resolvedSecret, c. cbn [fc_Secret fc_SecretFile]. rewrite bool_decide_false by (by intros []). rewrite bool_decide_false by done.
    cbn [refuse mbind result_bind]. rewrite Hfile. by rewrite bool_decide_false. }
  split; [|split].
  - eexists. split; [by apply managedCommand_words|by apply statusline_read].
  - eexists. split; [by apply managedCommand_words|by apply forward_read].
  - destruct (event_delivered DecodeEvent Unmarshal otherFloat machineInt ReadFile loopbackURL EncodeEvent c cfg l clock now provider ""
      body (TrimSpace text) (Unmarshal input) ev Hparse Hprobe Hcodec Hdecode Hres (TrimSpace_idemp text) Hurl Hmax)
      as (r & Hr & Hok & Hno).
    assert (Hrun : ∀ send, runHookForward ReadFile loopbackURL EncodeEvent Unmarshal false provider c (Some input) now send =
      Some (ForwardEvent ReadFile loopbackURL EncodeEvent c ev send)).
    { intros send. unfold runHookForward, readLimited. rewrite (proj2 (Z.ltb_ge _ _)) by done. by rewrite Hparse. }
    exists r. split; [done|]. rewrite Hrun. cbn zeta. split; intros H; [destruct (Hok H) as [? ->]|destruct (Hno H) as [? ->]]; done.
Qed.
End delivery.
End facts.

Definition demo_input (s : string) : option json := if bool_decide (s = "payload") then demo_payload else None.

Lemma Installed_hook_delivers_witness :
  runHookForward demo_read demo_url demo_encode demo_input false ProviderCodex (mkForwardConfig "http://127.0.0.1:47632" "" "/home/u/secret")
    (Some "payload") (10 * Second) (agentAnswers demo_decode demo_input noOther (λ _, 0) (demo_server "k") (NewLedger 0) (20 * Second)) = Some (Ok tt) ∧
  ∃ words, shellWords Outside None (hookCommand "linux" "/opt/a b/q" ProviderCodex "http://127.0.0.1:47632" "/home/u/secret") = Some ("/opt/a b/q" :: words) ∧
    Commands.interpret (λ _, "") "linux" "" (λ a b, a) words =
      Understood (Ok (HookForward ProviderCodex (mkForwardConfig "http://127.0.0.1:47632" "" "/home/u/secret"))).
Proof.
  destruct (Installed_hook_delivers (λ _, "") "linux" "" (λ a b, a) demo_decode demo_input noOther (λ _, 0) demo_read demo_url demo_encode
    "linux" "/opt/a b/q" ProviderCodex "http://127.0.0.1:47632" "/home/u/secret" "/home/u/state" (demo_server "k") (NewLedger 0) (20 * Second)
    (10 * Second) "payload" demo_body ("k" +:+ String "010" "") demo_parsed) as (_ & Hw & r & _ & Hok & _).
  - done.
  - done.
  - done.
  - exact demo_parses.
  - done.
  - by vm_compute.
  - by vm_compute.
  - by vm_compute.
  - by vm_compute.
  - by vm_compute.
  - by vm_compute.
  - by vm_compute.
  - split; [|exact Hw]. apply Hok. by vm_compute.
Defined.

Lemma Service_runs_configured_witness :
  match GenerateSystemdUnit (demo_service "standalone") with
  | Ok contents => ∃ line words, directive "ExecStart" contents = [line] ∧
      argv (λ _, None) (λ v, [v]) "/home/u" line = Some (sv_Executable (demo_service "standalone") :: words) ∧
      Commands.interpret (λ _, "") "linux" "" (λ a b, a) words = Understood (Ok (defaultStandalone (λ _, "") "/srv/fw\x")) ∧
      directive "WorkingDirectory" contents = [quoted "/home/u"]
  | Err _ => False
  end.
Proof.
  destruct (GenerateSystemdUnit (demo_service "standalone")) as [contents|e] eqn:E; [|vm_compute in E; discriminate E].
  apply (Service_runs_configured (λ _, "") "linux" "" (λ a b, a) (λ _, None) (λ v, [v]) "/home/u" (demo_service "standalone") contents).
  - vm_compute. right. right. left.
  - repeat (apply Forall_cons; split; [vm_compute; reflexivity|]). apply Forall_nil. exact I.
  - vm_compute. reflexivity.
  - repeat (apply Forall_cons; split; [vm_compute; reflexivity|]). apply Forall_nil. exact I.
  - exact E.
Defined.

(** ** The token commands *)

Definition noStoreFaults : storeFaults := mkStoreFaults false (λ _, false) (λ _, false).

Lemma openTokenStore_succeeds path now f : TrimSpace path ≠ "" → openable f →
  ∃ f', openTokenStore noStoreFaults path now f = (Ok tt, f') ∧ openable f' ∧ fl_rows f' = fl_rows f.
Proof.
  intros Hp Hf. destruct (open_succeeds path now f Hp Hf) as (s & Hs & Ho & Hr). exists (ss_file s). split_and!; [|done..].
  unfold openTokenStore. rewrite andb_false_r. cbn [st_open st_commits noStoreFaults]. by rewrite Hs.
Qed.

(** A revoked token is nobody's: digests are unique. *)
Lemma revoked_unusable db raw scope id r later now :
  db_ok db → bearer db raw scope id r →
  ∀ scope', AuthenticateToken (RevokeToken db id now).2 raw scope' later = (Err ErrInvalidToken, (RevokeToken db id now).2).
Proof.
  intros Hok (_ & _ & Hid & _ & Hrev & Hd) scope'. pose proof (RevokeToken_ok db id now Hok) as Hok'.
  destruct (RevokeToken_cases db id now) as [(r0 & Hr0 & _ & E)|[Hno _]]; [|by destruct (Hno r Hid)].
  rewrite E in *. cbn [snd] in *. simplify_eq.
  destruct (AuthenticateToken_cases _ raw scope' later Hok') as [(id' & r' & (_ & _ & Hid' & _ & Hrev' & Hd') & _)|[_ ->]]; [|done].
  exfalso. simpl in Hid'. destruct (decide (id = id')) as [<-|Hne].
  - rewrite lookup_alter_eq, Hid in Hid'. injection Hid' as <-. done.
  - rewrite lookup_alter_ne in Hid' by done. apply Hne. apply (ok_unique _ Hok id id' r r'); congruence.
Qed.

(** The token commands are the life of a token: on a database that this
    program can open, [token create] either fails and leaves the rows as they
    were, or prints the identifier and the value of a token that from then on
    authenticates under its own scope, with the agent it was made for, and
    under no other; [token revoke] with the identifier that was printed then
    succeeds, once, after which the value authenticates under no scope, and
    neither command changes any other token. *)
Theorem Token_commands (EncodeCreated : CreatedToken → string) (dbPath : string) (req : CreateTokenRequest) (jsonOutput : bool)
    (secret idBytes : option (list Z)) (now : Time) (f f1 : Migrate.file) (r : result TokenCommandError string)
    (Hpath : TrimSpace dbPath ≠ "") (Hf : openable f) (Hrows : db_ok (fl_rows f)) (Hsecret : length (default [] secret) = 32%nat)
    (Hrun : runTokenCreate EncodeCreated noStoreFaults dbPath req jsonOutput secret idBytes now f = (r, f1)) :
  match r with
  | Err _ => fl_rows f1 = fl_rows f
  | Ok out => ∃ created,
      let id := tr_ID (ct_Record created) in let raw := ct_RawToken created in
      out = (if jsonOutput then EncodeCreated created else tokenText created) ∧
      (∀ later, ∃ record, (AuthenticateToken (fl_rows f1) raw (rq_Scope req) later).1 = Ok record ∧
         tr_ID record = id ∧ tr_AgentID record = TrimSpace (rq_AgentID req)) ∧
      (∀ scope later, scope ≠ rq_Scope req → (AuthenticateToken (fl_rows f1) raw scope later).1 = Err ErrInvalidToken) ∧
      ∀ later, ∃ f2, runTokenRevoke noStoreFaults dbPath id later f1 = (Ok ("revoked " +:+ id +:+ lf), f2) ∧
        (∀ scope t, (AuthenticateToken (fl_rows f2) raw scope t).1 = Err ErrInvalidToken) ∧
        (∀ t, (runTokenRevoke noStoreFaults dbPath id t f2).1 = Err (StoreFailed ErrTokenNotFound)) ∧
        (∀ id', id' ≠ id → tokens (fl_rows f2) !! id' = tokens (fl_rows f) !! id')
  end.
Proof.
  destruct (openTokenStore_succeeds dbPath now f Hpath Hf) as (f' & Ho & Hf' & Hr'). unfold runTokenCreate in Hrun. rewrite Ho, Hr' in Hrun.
  destruct (CreateToken (fl_rows f) req secret idBytes now) as [[created rows]|e] eqn:Ec; injection Hrun as <- <-; [|exact Hr'].
  pose proof (CreateToken_ok _ _ _ _ _ _ _ Hrows Ec) as Hok.
  destruct (CreateToken_bearer _ _ _ _ _ _ _ Hsecret Ec) as (row & Hb & Hag). exists created. cbn zeta. cbn [fl_rows].
  destruct (CreateToken_authenticates _ _ _ _ _ now now created Hrows Hsecret Ec) as [_ Hother].
  split_and!; [done| | |].
  - intros later. destruct (CreateToken_authenticates _ _ _ _ _ now later created Hrows Hsecret Ec) as [(t & -> & _) _]. by eexists.
  - intros scope later Hne. destruct (CreateToken_authenticates _ _ _ _ _ now later created Hrows Hsecret Ec) as [_ H]. by rewrite H.
  - intros later. set (f1 := Migrate.mkFile (fl_schema f') (fl_applied f') rows).
    destruct (openTokenStore_succeeds dbPath later f1 Hpath Hf') as (f1' & Ho1 & Hf1 & Hr1).
    pose proof Hb as (_ & _ & Hid & _ & Hrev & _).
    destruct (RevokeToken_cases rows (tr_ID (ct_Record created)) later) as [(row' & Hid' & _ & E)|[Hno _]]; [|by destruct (Hno row Hid)].
    eexists. split; [unfold runTokenRevoke; rewrite Ho1, Hr1; cbn [fl_rows f1]; rewrite E; reflexivity|]. cbn [fl_rows].
    split_and!.
    + intros scope t. pose proof (revoked_unusable _ _ _ _ _ t later Hok Hb scope) as Hdead. rewrite E in Hdead. cbn [snd] in Hdead. by rewrite Hdead.
    + intros t. set (f2 := Migrate.mkFile _ _ _). destruct (openTokenStore_succeeds dbPath t f2 Hpath Hf1) as (f2' & Ho2 & _ & Hr2).
      unfold runTokenRevoke. rewrite Ho2, Hr2. cbn [fl_rows f2].
      destruct (RevokeToken_cases (setTokens rows (alter (revokedRow (UnixNano later)) (tr_ID (ct_Record created)) (tokens rows)))
        (tr_ID (ct_Record created)) t) as [(r2 & Hr2' & Hv & _)|[_ ->]]; [|done].
      simpl in Hr2'. rewrite lookup_alter_eq, Hid in Hr2'. injection Hr2' as <-. done.
    + intros id' Hne. simpl. rewrite lookup_alter_ne by done.
      apply CreateToken_Ok in Ec as (sb & ib & _ & _ & _ & _ & _ & (_ & _ & _ & ->)%insertToken_Some). simpl. by rewrite lookup_insert_ne.
Qed.

Lemma Token_commands_witness :
  match runTokenCreate (λ _, "") noStoreFaults "q.db" (mkCreateTokenRequest ScopeAgentWrite " mac-1 " "laptop") false
          (Some demo_secret) (Some demo_id) 1000 newFile with
  | (Ok out, f1) => HasPrefix out "Token ID: tok_" = true ∧
      ∃ id f2, runTokenRevoke noStoreFaults "q.db" id 2000 f1 = (Ok ("revoked " +:+ id +:+ lf), f2)
  | (Err _, _) => False
  end.
Proof.
  destruct (runTokenCreate (λ _, "") noStoreFaults "q.db" (mkCreateTokenRequest ScopeAgentWrite " mac-1 " "laptop") false
          (Some demo_secret) (Some demo_id) 1000 newFile) as [r f1] eqn:E.
  pose proof (Token_commands (λ _, "") "q.db" (mkCreateTokenRequest ScopeAgentWrite " mac-1 " "laptop") false
    (Some demo_secret) (Some demo_id) 1000 newFile f1 r ltac:(by vm_compute)
    ltac:(exists O; split; [lia|]; right; split_and!; [done| |done]; intros i; cbn; rewrite lookup_empty; split; [by intros [? ?]|lia])
    emptyDB_ok ltac:(by vm_compute) E) as H.
  destruct r as [out|e]; [|vm_compute in E; discriminate E]. split; [vm_compute in E; by injection E as <- _|].
  destruct H as (created & _ & _ & _ & H). destruct (H 2000) as (f2 & H2 & _). by exists (tr_ID (ct_Record created)), f2.
Defined.
