(* ===== verification/ClaudeProbe.v ===== *)
(** * internal/collector: the commands that the Claude collector runs

    [NewClaude], [Collect], [CollectClaudeAuth] and [CollectClaudeUsage] of
    [claude.go] over a command runner, [ExecRunner]'s environment, and
    [IsProbeEnvironment] of [event.go]: the probes of the monitor are not tasks
    of the user.  The parser of [ClaudeUsage] reads the output. *)

From S2P Require Import Prelude GoTime GoText GoNet GoNetFacts GoDate GoFloat Json Model HookEvent HookServer Codex Claude ClaudeUsage StatusLine Commands.

Record ClaudeConfig := mkClaudeConfig { cc_Command : string; cc_Timeout : Duration }.

Definition NewClaude (cfg : ClaudeConfig) : ClaudeConfig :=
  mkClaudeConfig (if bool_decide (cc_Command cfg = "") then "claude" else cc_Command cfg)
    (if cc_Timeout cfg <=? 0 then 30 * Second else cc_Timeout cfg).

(** One call of [CommandRunner.Run]. *)
Record runnerCall := mkRunnerCall { rc_command : string; rc_args : list string; rc_env : list string }.

#[global] Instance runnerCall_eq_dec : EqDecision runnerCall.
Proof. solve_decision. Defined.

Definition ProbeEnvironment : string := "QUOTA_MONITOR_PROBE=1".

Definition authCall (cfg : ClaudeConfig) : runnerCall :=
  mkRunnerCall (cc_Command cfg) ["auth"; "status"; "--json"] ["NO_COLOR=1"; ProbeEnvironment].
Definition usageCall (cfg : ClaudeConfig) : runnerCall :=
  mkRunnerCall (cc_Command cfg) ["-p"; "/usage"; "--output-format"; "stream-json"; "--verbose"; "--no-session-persistence"]
    ["NO_COLOR=1"; ProbeEnvironment; "CLAUDE_CODE_QUOTA_MONITOR_PROBE=1"].

(** [ExecRunner]: the environment of the child; of two entries of a name the
    last one counts. *)
Definition childEnvironment (environ : list string) (call : runnerCall) : list string := environ ++ rc_env call.
Definition Getenv (env : list string) (name : string) : string :=
  foldl (λ v entry, match cut "=" entry with Some (k, x) => if bool_decide (k = name) then x else v | None => v end) "" env.

Definition IsProbeEnvironment (env : list string) : bool :=
  bool_decide (Getenv env "QUOTA_MONITOR_PROBE" = "1") || bool_decide (Getenv env "CLAUDE_CODE_QUOTA_MONITOR_PROBE" = "1").

Section probe.
Context (LoadLocation : string → option Location) (local : Location) (otherFloat : string → float64 * bool).
Context (Unmarshal : string → option json) (machineInt : float64 → Z).

(** What a command prints, and whether it failed. *)
Context (Run : runnerCall → string * bool).

Abbreviation parseUsage := (ParseClaudeUsage LoadLocation local otherFloat Unmarshal machineInt).

(** [Collect] on the counter of consecutive logged-out answers, with the calls
    it makes; [now] and [usageNow] are the clock before and after the usage
    command. *)
Definition Collect (cfg : ClaudeConfig) (consecutiveLoggedOut : Z) (now usageNow : Time) : collected * Z * list runnerCall :=
  let unavailable code := unavailableReport "claude-auth-status" code now in
  let '(authOutput, authFailed) := Run (authCall cfg) in
  match ParseClaudeAuthStatus (Unmarshal authOutput) now with
  | Err parseErr =>
    ((if authFailed : bool then (unavailable "auth_status_failed", Some CommandFailed) else (unavailable "auth_status_invalid", Some parseErr)),
     resetLogoutConfirmation, [authCall cfg])
  | Ok auth =>
    if negb (bool_decide (pr_AuthState auth = "authenticated")) then
      let '(confirmed, n) := confirmLoggedOut consecutiveLoggedOut in
      ((if negb confirmed then (unavailable "auth_logout_unconfirmed", Some LogoutUnconfirmed)
        else (withErrorCode auth "not_authenticated", None)), n, [authCall cfg])
    else if authFailed : bool then ((unavailable "auth_status_failed", Some CommandFailed), resetLogoutConfirmation, [authCall cfg])
    else
      let calls := [authCall cfg; usageCall cfg] in
      let '(usageOutput, usageFailed) := Run (usageCall cfg) in
      if usageFailed : bool then
        ((mkProviderReport (pr_ObservedAt auth) (pr_AuthState auth) (pr_Plan auth) "claude-auth-status" (pr_Windows auth) "usage_command_failed",
          Some CommandFailed), resetLogoutConfirmation, calls)
      else match parseUsage usageOutput usageNow with
      | Err _ => ((withErrorCode auth "usage_parse_failed", Some UsageInvalid), resetLogoutConfirmation, calls)
      | Ok usage =>
        ((mkProviderReport (pr_ObservedAt usage) (pr_AuthState auth)
            (if bool_decide (pr_Plan usage = "") then pr_Plan auth else pr_Plan usage)
            (pr_Source usage) (pr_Windows usage) (pr_ErrorCode usage), None), resetLogoutConfirmation, calls)
      end
  end.

(** The probe that [Claude.Collect] sees. *)
Definition probeOf (cfg : ClaudeConfig) (now usageNow : Time) : Probe :=
  mkProbe (Unmarshal (Run (authCall cfg)).1) (Run (authCall cfg)).2 (Run (usageCall cfg)).2
    (match parseUsage (Run (usageCall cfg)).1 usageNow with Ok usage => Some usage | Err _ => None end) now.

(** The two probes of their own; a failed command is [None]. *)
Definition collectAuth (command : string) (timeout : Duration) (now : Time) : result ClaudeError ProviderReport :=
  let cfg := NewClaude (mkClaudeConfig command timeout) in
  let '(payload, failed) := Run (authCall cfg) in CollectClaudeAuth (Unmarshal payload) failed now.

Definition CollectClaudeUsage (command : string) (timeout : Duration) (now : Time) : option (result UsageError ProviderReport) :=
  let cfg := NewClaude (mkClaudeConfig command timeout) in
  let '(payload, failed) := Run (usageCall cfg) in
  if failed : bool then None else Some (parseUsage payload now).

(** ** Facts *)

Lemma Collect_probe cfg n now usageNow : (Collect cfg n now usageNow).1 = Claude.Collect n (probeOf cfg now usageNow).
Proof.
  unfold Collect, Claude.Collect, probeOf. cbn [p_auth p_authFailed p_usageFailed p_usage p_now].
  destruct (Run (authCall cfg)) as [authOutput authFailed]. cbn [fst snd].
  destruct (ParseClaudeAuthStatus (Unmarshal authOutput) now) as [auth|e]; [|done].
  destruct (bool_decide (pr_AuthState auth = "authenticated")); cbn [negb]; [|by destruct (confirmLoggedOut n)].
  destruct authFailed; [done|]. unfold collectUsage. cbn [p_usageFailed p_usage].
  destruct (Run (usageCall cfg)) as [usageOutput usageFailed]. cbn [fst snd].
  destruct usageFailed; [done|]. by destruct (parseUsage usageOutput usageNow).
Qed.

Lemma Collect_calls cfg n now usageNow :
  (Collect cfg n now usageNow).2 = [authCall cfg] ∨
  (Collect cfg n now usageNow).2 = [authCall cfg; usageCall cfg] ∧ (Run (authCall cfg)).2 = false ∧
    ∃ auth, ParseClaudeAuthStatus (Unmarshal (Run (authCall cfg)).1) now = Ok auth ∧ pr_AuthState auth = "authenticated".
Proof.
  unfold Collect. destruct (Run (authCall cfg)) as [authOutput authFailed]. cbn [fst snd].
  destruct (ParseClaudeAuthStatus (Unmarshal authOutput) now) as [auth|e]; [|by left].
  destruct (bool_decide (pr_AuthState auth = "authenticated")) eqn:E; cbn [negb]; [|left; by destruct (confirmLoggedOut n)].
  apply bool_decide_eq_true in E. destruct authFailed; [by left|]. right.
  destruct (Run (usageCall cfg)) as [usageOutput []]; [split_and!; eauto|]. destruct (parseUsage usageOutput usageNow); split_and!; eauto.
Qed.
End probe.

(** Entries that leave a variable alone. *)
Definition leaves (name : string) (env : list string) : Prop :=
  Forall (λ entry, ∀ k x, cut "=" entry = Some (k, x) → k ≠ name) env.

Lemma Getenv_app env extra name : leaves name extra → Getenv (env ++ extra) name = Getenv env name.
Proof.
  intros H. unfold Getenv. rewrite foldl_app. generalize (foldl (λ v entry, match cut "=" entry with Some (k, x) => if bool_decide (k = name) then x else v | None => v end) "" env).
  induction H as [|entry extra He _ IH]; intros v; [done|]. simpl. destruct (cut "=" entry) as [[k x]|] eqn:E; [|apply IH].
  rewrite bool_decide_false; [apply IH|]. by apply (He k x).
Qed.

Lemma probe_environment cfg environ call extra : call = authCall cfg ∨ call = usageCall cfg →
  leaves "QUOTA_MONITOR_PROBE" extra → IsProbeEnvironment (childEnvironment environ call ++ extra) = true.
Proof.
  intros Hcall Hx. unfold IsProbeEnvironment. rewrite Getenv_app by done. apply orb_true_intro. left. apply bool_decide_eq_true.
  unfold Getenv, childEnvironment. rewrite foldl_app. by destruct Hcall as [-> | ->].
Qed.

(** A hook of a probe is dropped before anything is sent. *)
Lemma probe_hook ReadFile loopbackURL EncodeEvent Unmarshal provider c input now send :
  runHookForward ReadFile loopbackURL EncodeEvent Unmarshal true provider c input now send ∈ [None; Some (Ok tt)].
Proof.
  unfold runHookForward. destruct (readLimited input MaxHookPayload) as [payload|]; [|left].
  destruct (ParseEvent provider "" (Unmarshal payload) now true) as [ev|e] eqn:E; [|left].
  assert (ev_Probe ev = true) as Hp.
  { unfold ParseEvent in E. repeat (apply bind_Ok in E as (? & _ & E)). apply Ok_inj in E. rewrite <- E. cbn [ev_Probe]. by rewrite orb_true_r. }
  unfold ForwardEvent. rewrite Hp. right. left.
Qed.

(** C18. The monitor does not watch itself: a poll of Claude runs the status
    command and, only after this has answered that somebody is logged in, the
    command whose sole prompt is the built-in [/usage], and nothing else; its
    outcome is the one of [Claude.Collect] on what they print; both run in an
    environment in which every hook process that they start, whatever the
    environment of the monitor was and whatever the provider adds to it other
    than a value of the probe variable itself, sends no request at all,
    whatever its input. *)
Theorem Probes_stay_invisible (LoadLocation : string → option Location) (local : Location) (otherFloat : string → float64 * bool)
    (Unmarshal : string → option json) (machineInt : float64 → Z) (Run : runnerCall → string * bool)
    (cfg : ClaudeConfig) (n : Z) (now usageNow : Time) (environ extra : list string)
    (Hextra : leaves "QUOTA_MONITOR_PROBE" extra) :
  let '(out, n', calls) := Collect LoadLocation local otherFloat Unmarshal machineInt Run cfg n now usageNow in
  (out, n') = Claude.Collect n (probeOf LoadLocation local otherFloat Unmarshal machineInt Run cfg now usageNow) ∧
  (calls = [authCall cfg] ∨
   calls = [authCall cfg; usageCall cfg] ∧ (Run (authCall cfg)).2 = false ∧
     ∃ auth, ParseClaudeAuthStatus (Unmarshal (Run (authCall cfg)).1) now = Ok auth ∧ pr_AuthState auth = "authenticated") ∧
  ∀ call, call ∈ calls →
    ∀ ReadFile loopbackURL EncodeEvent provider c input t send,
      runHookForward ReadFile loopbackURL EncodeEvent Unmarshal (IsProbeEnvironment (childEnvironment environ call ++ extra))
        provider c input t send ∈ [None; Some (Ok tt)].
Proof.
  pose proof (Collect_probe LoadLocation local otherFloat Unmarshal machineInt Run cfg n now usageNow) as Hp.
  pose proof (Collect_calls LoadLocation local otherFloat Unmarshal machineInt Run cfg n now usageNow) as Hc.
  destruct (Collect LoadLocation local otherFloat Unmarshal machineInt Run cfg n now usageNow) as [[out n'] calls]. cbn [fst snd] in Hp, Hc.
  split_and!; [done..|]. intros call Hcall ReadFile loopbackURL EncodeEvent provider c input t send.
  rewrite (probe_environment cfg); [apply probe_hook| |done].
  destruct Hc as [-> |[-> _]]; set_solver.
Qed.

Definition demo_run (call : runnerCall) : string * bool :=
  if bool_decide (rc_args call = ["auth"; "status"; "--json"]) then ("in", false) else ("used", false).
Definition demo_json (s : string) : option json :=
  if bool_decide (s = "in") then Some (JObject [("loggedIn", JBool true)]) else None.

Lemma Probes_stay_invisible_witness :
  let cfg := NewClaude (mkClaudeConfig "" 0) in
  (Collect (λ _, None) UTC (λ _, (f_zero, false)) demo_json (λ _, 0) demo_run cfg 1 5 6).2 = [authCall cfg; usageCall cfg] ∧
  ∀ send, runHookForward (λ _, None) (λ _, true) (λ _, None) demo_json
      (IsProbeEnvironment (childEnvironment ["QUOTA_MONITOR_PROBE=0"; "HOME=/root"] (usageCall cfg) ++ ["PWD=/tmp"]))
      "claude" (mkForwardConfig "" "" "") (Some "in") 5 send ∈ [None; Some (Ok tt)].
Proof.
  intros cfg.
  assert (leaves "QUOTA_MONITOR_PROBE" ["PWD=/tmp"]) as Hx.
  { repeat constructor. intros k x E. by injection E as <- <-. }
  pose proof (Probes_stay_invisible (λ _, None) UTC (λ _, (f_zero, false)) demo_json (λ _, 0) demo_run cfg 1 5 6
    ["QUOTA_MONITOR_PROBE=0"; "HOME=/root"] ["PWD=/tmp"] Hx) as H.
  assert (((Collect (λ _, None) UTC (λ _, (f_zero, false)) demo_json (λ _, 0) demo_run cfg 1 5 6).2) = [authCall cfg; usageCall cfg]) as E
    by (vm_compute; reflexivity).
  destruct (Collect (λ _, None) UTC (λ _, (f_zero, false)) demo_json (λ _, 0) demo_run cfg 1 5 6) as [[out n'] calls].
  cbn [snd] in E. subst calls. split; [done|]. intros send.
  destruct H as (_ & _ & H). apply (H (usageCall cfg)). right. left.
Defined.
