(* ===== verification/HooksCommand.v ===== *)
(** * cmd/quota-monitor: installing and removing the hooks

    [runHooksInstall] and [runHooksUninstall] of [main.go] after their flags:
    the shared secret of [Provision], then [Install], on one file system.  What
    a JSON file looks like as bytes, the home directory and [filepath]'s
    functions are arguments.  Installing again keeps what the first
    installation gave to others. *)

From S2P Require Import Prelude GoText GoTextFacts GoFloat Json Digest Model Validate Store HookConfig HookConfigFacts HookServer Provision ProvisionFacts Install InstallFacts.

Inductive HooksError := NoAbsolutePath | NoHomeDirectory | SecretFailed (e : ProvisionError) | HooksFailed (e : InstallError).

Record hooksFlags := mkHooksFlags {
  hf_executable : string; hf_home : string; hf_url : string; hf_secretFile : string; hf_stateFile : string }.

Section commands.
Context (UserHomeDir : option string) (GOOS : string) (loopbackURL : string → bool).
Context (Abs : string → option string) (Join : list string → string) (Clean : string → string).
Context (UnmarshalRoot : string → option (option (list (string * json)))).
Context (UnmarshalState : content → option installState).
Context (Encode : content → string).

(** ** The secret on the file system of [Install] *)

Definition bytesOf (c : content) : string := match c with Raw bytes => bytes | _ => Encode c end.
Definition diskOf (fs : FS) : Disk := (λ f, (bytesOf (payload f), mode f)) <$> fs.

(** Only the file of the secret can have been written. *)
Definition secretOn (fails : nat → bool) (partial : nat → nat) (path : string) (random : option (list Z)) (fs : FS)
    : result ProvisionError string * FS :=
  let '(r, p) := loadOrCreateSecret fails partial path random (Provision.mkWorld (diskOf fs) emptyDB 0) in
  (r, match disk p !! path with
      | Some (bytes, m) => if decide (diskOf fs !! path = Some (bytes, m)) then fs else <[path := mkFile (Raw bytes) m]> fs
      | None => fs
      end).

(** ** The commands *)

(** The oracles of a run, the random bytes and the stamps of the backups. *)
Record hooksRun := mkHooksRun {
  hr_secretFails : nat → bool; hr_partial : nat → nat; hr_random : option (list Z);
  hr_fails : nat → bool; hr_codexStamp : string; hr_claudeStamp : string }.

Definition resolvedHome (fl : hooksFlags) : option string :=
  if bool_decide (hf_home fl = "") then UserHomeDir else Some (hf_home fl).
Definition secretFile (fl : hooksFlags) (home : string) : string :=
  if bool_decide (hf_secretFile fl = "") then Join [home; ".quota-monitor"; "hook-secret"] else hf_secretFile fl.

Definition installConfig (fl : hooksFlags) (home executable secret : string) : InstallConfig :=
  mkInstallConfig home executable (hf_url fl) secret "" "" (hf_stateFile fl) (secretFile fl home) "".

Definition runHooksInstall (fl : hooksFlags) (run : hooksRun) (fs : FS) : result HooksError InstallResult * FS :=
  match Abs (hf_executable fl), resolvedHome fl with
  | None, _ => (Err NoAbsolutePath, fs)
  | _, None => (Err NoHomeDirectory, fs)
  | Some executable, Some home =>
    match secretOn (hr_secretFails run) (hr_partial run) (secretFile fl home) (hr_random run) fs with
    | (Err e, fs) => (Err (SecretFailed e), fs)
    | (Ok secret, fs) =>
      let '(r, w) := Install (hr_fails run) UserHomeDir GOOS loopbackURL Join Clean UnmarshalRoot UnmarshalState
        (hr_codexStamp run) (hr_claudeStamp run) (installConfig fl home executable secret) (mkWorld fs 0 0) in
      (match r with Ok result => Ok result | Err e => Err (HooksFailed e) end, files w)
    end
  end.

Definition runHooksUninstall (fl : hooksFlags) (run : hooksRun) (fs : FS) : result HooksError InstallResult * FS :=
  let '(r, w) := Uninstall (hr_fails run) UserHomeDir Join UnmarshalRoot UnmarshalState
    (hr_codexStamp run) (hr_claudeStamp run) (mkInstallConfig (hf_home fl) "" "" "" "" "" (hf_stateFile fl) (hf_secretFile fl) "")
    (mkWorld fs 0 0) in
  (match r with Ok result => Ok result | Err e => Err (HooksFailed e) end, files w).
End commands.

(** ** Installing again *)

Section again.
Context (UserHomeDir : option string) (GOOS : string) (loopbackURL : string → bool).
Context (Abs : string → option string) (Join : list string → string) (Clean : string → string).
Context (UnmarshalRoot : string → option (option (list (string * json)))).
Context (UnmarshalState : content → option installState).
Context (Encode : content → string).
Context (Join_Join : ∀ h a b, Join [Join [h; a]; b] = Join [h; a; b]).

Abbreviation install := (runHooksInstall UserHomeDir GOOS loopbackURL Abs Join Clean UnmarshalRoot UnmarshalState Encode).
Abbreviation secretOn' := (secretOn Encode).
Abbreviation secretFile' := (secretFile Join).

Lemma secretOn_Ok fails partial path random fs secret fs' :
  random ≠ Some [] → path ≠ "" → secretOn' fails partial path random fs = (Ok secret, fs') →
  secret ≠ "" ∧ TrimSpace secret = secret ∧ ∀ p, p ≠ path → fs' !! p = fs !! p.
Proof.
  intros Hr Hp. unfold secretOn. destruct (loadOrCreateSecret _ _ _ _ _) as [r p] eqn:E. intros [= -> <-].
  destruct (Secret_shared _ _ path "" random _ _ _ Hr Hp E) as (Hne & Ht & _). split; [done|]. split; [done|].
  intros q Hq. destruct (disk p !! path) as [[b m]|]; [|done]. case_decide; [done|]. by rewrite lookup_insert_ne.
Qed.

Lemma secretOn_again fails partial path random fs secret secret' m fs' :
  fs !! path = Some (mkFile (Raw (secret +:+ line_end)) m) → TrimSpace secret = secret → secret ≠ "" →
  secretOn' fails partial path random fs = (Ok secret', fs') → secret' = secret ∧ fs' = fs.
Proof.
  intros Hf Ht Hne. unfold secretOn, loadOrCreateSecret, ReadFile, Provision.call, mbind, Provision.IO_bind, mret, Provision.IO_ret.
  cbn [disk calls]. assert (Hd : diskOf Encode fs !! path = Some (secret +:+ line_end, m)) by (unfold diskOf; by rewrite lookup_fmap, Hf).
  destruct (fails O); cbn [negb]; cbv beta iota zeta; [done|]. cbn [disk]. rewrite Hd. cbn [fst].
  rewrite TrimSpace_line_end, Ht, bool_decide_false by done. cbn [negb]. cbv beta iota zeta. cbn [disk]. rewrite Hd.
  rewrite decide_True by done. by intros [= <- <-].
Qed.

(** What a successful run does. *)
Definition installedRun (fl : hooksFlags) (run : hooksRun) (home executable secret : string) (fs0 fs fs' : FS) (cfg : InstallConfig)
    (codex claude : list (string * json)) (cm km : Z) : Prop :=
  secretOn' (hr_secretFails run) (hr_partial run) (secretFile' fl home) (hr_random run) fs0 = (Ok secret, fs) ∧
  installedFrom UserHomeDir GOOS loopbackURL Join UnmarshalRoot fs (installConfig Join fl home executable secret) cfg codex claude cm km ∧
  NoDup (fm_path <$> installed UnmarshalState (hr_codexStamp run) (hr_claudeStamp run) fs cfg codex claude cm km) ∧
  writtenFiles UnmarshalState (hr_codexStamp run) (hr_claudeStamp run) fs fs' cfg codex claude cm km.

Lemma runHooksInstall_Ok fl run home fs0 r fs' :
  resolvedHome UserHomeDir fl = Some home → install fl run fs0 = (Ok r, fs') →
  ∃ executable secret fs cfg codex claude cm km, Abs (hf_executable fl) = Some executable ∧
    installedRun fl run home executable secret fs0 fs fs' cfg codex claude cm km.
Proof.
  intros Hh. unfold runHooksInstall. rewrite Hh. destruct (Abs _) as [executable|]; [|done].
  destruct (secretOn' _ _ _ _ fs0) as [[secret|e] fs] eqn:Es; [|done].
  pose proof (Install_spec (hr_fails run) UserHomeDir GOOS loopbackURL Join Clean UnmarshalRoot UnmarshalState (hr_codexStamp run)
    (hr_claudeStamp run) (installConfig Join fl home executable secret) fs (mkWorld fs 0 0) eq_refl) as Hi.
  destruct (Install _ _ _ _ _ _ _ _ _ _ _ _) as [[r'|e] w']; [|done]. intros [= -> <-]. cbn [files] in Hi.
  destruct Hi as (cfg & codex & claude & cm & km & Hfrom & Hn & Hw).
  exists executable, secret, fs, cfg, codex, claude, cm, km. split; [done|]. split; [done|]. split; [done|]. split; [done|].
  rewrite Hw. by apply applied_installed.
Qed.

(** The files of an installation. *)
Definition stateFile (fl : hooksFlags) (home : string) : string := orPath (hf_stateFile fl) (Join [home; ".quota-monitor"; "hooks-state.json"]).
Definition codexFile (home : string) : string := Join [home; ".codex"; "hooks.json"].
Definition claudeFile (home : string) : string := Join [home; ".claude"; "settings.json"].

Lemma installConfig_paths fl home executable secret cfg :
  resolvedHome UserHomeDir fl = Some home →
  withDefaults UserHomeDir GOOS loopbackURL Join (installConfig Join fl home executable secret) = Ok cfg →
  CodexConfigPath cfg = codexFile home ∧ ClaudeConfigPath cfg = claudeFile home ∧ StatePath cfg = stateFile fl home ∧
  SecretPath cfg = secretFile' fl home ∧ Secret cfg = secret.
Proof.
  unfold withDefaults, installConfig, resolvedHome. cbn [HomeDir Executable HookURL Secret CodexConfigPath ClaudeConfigPath StatePath SecretPath TargetOS].
  intros Hh Hd. apply bind_Ok in Hd as (h & Hhome & Hd).
  assert (h = home) as ->.
  { destruct (decide (home = "")) as [->|Hne]; [rewrite bool_decide_true in Hhome by done|rewrite bool_decide_false in Hhome by done; congruence].
    destruct (bool_decide (hf_home fl = "")) eqn:E; [rewrite Hh in Hhome; by injection Hhome|].
    apply bool_decide_eq_false in E. congruence. }
  repeat (apply refuse_bind_Ok in Hd as (_ & Hd)). injection Hd as <-.
  cbn [Secret CodexConfigPath ClaudeConfigPath StatePath SecretPath]. rewrite !Join_Join.
  split; [done|]. split; [done|]. split; [done|]. split; [|done].
  unfold orPath. destruct (bool_decide (secretFile' fl home = "")) eqn:E; [|done]. apply bool_decide_eq_true in E. unfold secretFile in E |- *.
  destruct (bool_decide (hf_secretFile fl = "")) eqn:Ef; [done|]. by apply bool_decide_eq_false in Ef.
Qed.

(** Two configurations with the same user content: they differ in the managed
    commands and the status line only. *)
Definition keeps (events : list string) (root1 root2 : list (string * json)) : Prop :=
  (∀ k, k ≠ "hooks" → k ≠ "statusLine" → field root2 k = field root1 k) ∧
  (∀ e, e ∈ events → ∃ groups c1 c2, field (hooksOf root1) e = Some (JArray (groups ++ [managedGroup c1])) ∧
     field (hooksOf root2) e = Some (JArray (groups ++ [managedGroup c2]))) ∧
  (∀ e, e ∉ events → field (hooksOf root2) e = field (hooksOf root1) e).

Lemma keeps_merge c1 c2 h events root1 root2 :
  NoDup events → Contains c1 ManagedMarker = true →
  hooksOf root1 = foldl (mergeEvent c1) h events → hooksOf root2 = foldl (mergeEvent c2) (hooksOf root1) events →
  (∀ k, k ≠ "hooks" → k ≠ "statusLine" → field root2 k = field root1 k) → keeps events root1 root2.
Proof.
  intros Hn Hc H1 H2 Hk. split; [done|]. split; intros e He.
  - exists (kept (groupsOf h e)), c1, c2. rewrite H2, merge_field, bool_decide_true by done.
    assert (field (hooksOf root1) e = Some (JArray (kept (groupsOf h e) ++ [managedGroup c1]))) as E
      by (rewrite H1, merge_field, bool_decide_true by done; done).
    split; [done|]. unfold groupsOf at 1. rewrite E. unfold kept at 1. by rewrite kept_managed.
  - by rewrite H2, merge_field, bool_decide_false.
Qed.

Lemma hooksOf_other root k v : k ≠ "hooks" → hooksOf (setField root k v) = hooksOf root.
Proof. intros Hk. unfold hooksOf. by rewrite field_setField, bool_decide_false. Qed.

Lemma codex_keeps cfg cfg' root : keeps codexEvents (codexMerged cfg root) (codexMerged cfg' (codexMerged cfg root)).
Proof.
  eapply keeps_merge; [apply codexEvents_NoDup|apply hookCommand_marked|apply hooksOf_merge|apply hooksOf_merge|].
  intros k Hk _. unfold codexMerged. by rewrite field_merge_other.
Qed.

Lemma claude_keeps cfg cfg' root :
  keeps claudeEvents (withWrapper cfg (claudeMerged cfg root)) (withWrapper cfg' (claudeMerged cfg' (withWrapper cfg (claudeMerged cfg root)))).
Proof.
  eapply keeps_merge; [apply claudeEvents_NoDup|apply hookCommand_marked| | |].
  - unfold withWrapper. rewrite hooksOf_other by done. apply hooksOf_merge.
  - unfold withWrapper at 1. rewrite hooksOf_other by done. apply hooksOf_merge.
  - intros k Hk Hs. unfold withWrapper at 1. rewrite field_setField, bool_decide_false by done. unfold claudeMerged at 1. by rewrite field_merge_other.
Qed.

Lemma newState_version old cfg root : st_Version (newState old cfg root) = 1.
Proof. unfold newState. cbn [st_Version]. destruct old as [s|]; [|done]. destruct (Z.eqb_spec (st_Version s) 1); done. Qed.

(** Installing over the wrapper keeps what is recorded. *)
Lemma newState_again s cfg root wrapper :
  st_Version s = 1 → field root "statusLine" = Some wrapper → isManagedValue wrapper = true →
  newState (Some s) cfg root =
  mkInstallState 1 (CodexConfigPath cfg) (ClaudeConfigPath cfg) (SecretPath cfg) (st_PreviousStatusLineExists s) (st_PreviousStatusLine s).
Proof. intros Hv Hf Hm. unfold newState. rewrite Hf, Hm, Hv. cbn. by rewrite Hv. Qed.

Lemma wrapper_field cfg root : ∃ wrapper, field (withWrapper cfg root) "statusLine" = Some wrapper ∧ isManagedValue wrapper = true.
Proof.
  eexists. unfold withWrapper. rewrite field_setField, bool_decide_true by done. split; [done|].
  apply managedStatusLine_managed, statusCommand_marked.
Qed.

(** Merging again with the same configuration. *)
Lemma codex_stable cfg root : codexMerged cfg (codexMerged cfg root) = codexMerged cfg root.
Proof.
  unfold codexMerged at 1. apply (merge_again _ _ _ (hooksOf root)); [apply codexEvents_NoDup|apply hookCommand_marked|].
  unfold codexMerged, mergeManagedHooks. by rewrite field_setField, bool_decide_true.
Qed.
Lemma claude_stable cfg root :
  withWrapper cfg (claudeMerged cfg (withWrapper cfg (claudeMerged cfg root))) = withWrapper cfg (claudeMerged cfg root).
Proof.
  assert (claudeMerged cfg (withWrapper cfg (claudeMerged cfg root)) = withWrapper cfg (claudeMerged cfg root)) as ->.
  { unfold claudeMerged at 1. apply (merge_again _ _ _ (hooksOf root)); [apply claudeEvents_NoDup|apply hookCommand_marked|].
    unfold withWrapper. rewrite field_setField, bool_decide_false by done.
    unfold claudeMerged, mergeManagedHooks. by rewrite field_setField, bool_decide_true. }
  unfold withWrapper at 1. apply setField_same. unfold withWrapper. by rewrite field_setField, bool_decide_true.
Qed.

(** Two runs one after the other, the four files being left alone between
    them. *)
Lemma two_runs fl fl' run run' home fs0 fs1 fs1' fs2 r1 r2 :
  resolvedHome UserHomeDir fl = Some home → hr_random run ≠ Some [] → secretFile' fl home ≠ "" →
  hf_home fl' = hf_home fl → hf_secretFile fl' = hf_secretFile fl → hf_stateFile fl' = hf_stateFile fl →
  install fl run fs0 = (Ok r1, fs1) →
  (∀ p, p ∈ [stateFile fl home; secretFile' fl home; codexFile home; claudeFile home] → fs1' !! p = fs1 !! p) →
  install fl' run' fs1' = (Ok r2, fs2) →
  ∃ executable executable' secret fs cfg cfg' codex claude cm km,
    Abs (hf_executable fl) = Some executable ∧ Abs (hf_executable fl') = Some executable' ∧
    installedRun fl run home executable secret fs0 fs fs1 cfg codex claude cm km ∧
    installedRun fl' run' home executable' secret fs1' fs1' fs2 cfg' (codexMerged cfg codex)
      (withWrapper cfg (claudeMerged cfg claude)) (orMode cm) (orMode km).
Proof.
  intros Hh Hr Hp Eh Es Et H1 Hbetween H2. assert (resolvedHome UserHomeDir fl' = Some home) as Hh' by (unfold resolvedHome in *; by rewrite Eh).
  assert (secretFile' fl' home = secretFile' fl home) as Esf by (unfold secretFile; by rewrite Es).
  destruct (runHooksInstall_Ok fl run home fs0 r1 fs1 Hh H1) as (exe & secret & fs & cfg & codex & claude & cm & km & Hexe & Hrun).
  destruct (runHooksInstall_Ok fl' run' home fs1' r2 fs2 Hh' H2) as (exe' & secret' & fs' & cfg' & codex' & claude' & cm' & km' & Hexe' & Hrun').
  pose proof Hrun as (Hsecret & (Hcfg & _ & _) & _ & (_ & Fs & Fc & Fk & _)).
  pose proof Hrun' as (Hsecret' & (Hcfg' & Sc & Sk) & _ & _).
  destruct (installConfig_paths _ _ _ _ _ Hh Hcfg) as (Pc & Pk & Pt & Ps & Psec).
  destruct (installConfig_paths _ _ _ _ _ Hh' Hcfg') as (Pc' & Pk' & _ & _ & _).
  apply secretOn_Ok in Hsecret as (Hne & Htrim & _); [|done..].
  rewrite Ps, Psec, <- Hbetween in Fs by set_solver. rewrite Pc, <- Hbetween in Fc by set_solver. rewrite Pk, <- Hbetween in Fk by set_solver.
  rewrite Esf in Hsecret'. destruct (secretOn_again _ _ _ _ _ _ _ _ _ Fs Htrim Hne Hsecret') as (-> & ->).
  unfold startOf in Sc, Sk. rewrite Pc', Fc in Sc. rewrite Pk', Fk in Sk. cbn in Sc, Sk. injection Sc as <- <-. injection Sk as <- <-.
  by exists exe, exe', secret, fs, cfg, cfg', codex, claude, cm, km.
Qed.

(** C29. Installing again is safe: after [hooks install] succeeded, a later
    successful one for the same home and files, with whatever executable, URL
    and random bytes, leaves the shared secret byte for byte as it was, so that
    a running agent and the hooks still agree on it; it leaves what is recorded
    of the user's status line; in both configurations it changes nothing but
    the managed commands and the status line; and with the same flags it
    changes no file at all, the new backups apart. *)
Theorem Reinstall_keeps (fl fl' : hooksFlags) (run run' : hooksRun) (home : string) (fs0 fs1 fs1' fs2 : FS) (r1 r2 : InstallResult)
    (Hhome : resolvedHome UserHomeDir fl = Some home) (Hrandom : hr_random run ≠ Some []) (Hpath : secretFile' fl home ≠ "")
    (Hsame : hf_home fl' = hf_home fl ∧ hf_secretFile fl' = hf_secretFile fl ∧ hf_stateFile fl' = hf_stateFile fl)
    (Hfirst : install fl run fs0 = (Ok r1, fs1))
    (Hbetween : ∀ p, p ∈ [stateFile fl home; secretFile' fl home; codexFile home; claudeFile home] → fs1' !! p = fs1 !! p)
    (Hsecond : install fl' run' fs1' = (Ok r2, fs2)) :
  fs2 !! secretFile' fl home = fs1 !! secretFile' fl home ∧
  (∃ s1 s2 m, fs1 !! stateFile fl home = Some (mkFile (StateFile s1) m) ∧ fs2 !! stateFile fl home = Some (mkFile (StateFile s2) m) ∧
     st_PreviousStatusLineExists s2 = st_PreviousStatusLineExists s1 ∧ st_PreviousStatusLine s2 = st_PreviousStatusLine s1) ∧
  (∃ root1 root2 m, fs1 !! codexFile home = Some (mkFile (JsonFile root1) m) ∧ fs2 !! codexFile home = Some (mkFile (JsonFile root2) m) ∧
     keeps codexEvents root1 root2) ∧
  (∃ root1 root2 m, fs1 !! claudeFile home = Some (mkFile (JsonFile root1) m) ∧ fs2 !! claudeFile home = Some (mkFile (JsonFile root2) m) ∧
     keeps claudeEvents root1 root2) ∧
  (fl' = fl → ∀ p, p ≠ backupName (codexFile home) (hr_codexStamp run') → p ≠ backupName (claudeFile home) (hr_claudeStamp run') →
     fs2 !! p = fs1' !! p).
Proof.
  destruct Hsame as (Eh & Es & Et).
  destruct (two_runs fl fl' run run' home fs0 fs1 fs1' fs2 r1 r2 Hhome Hrandom Hpath Eh Es Et Hfirst Hbetween Hsecond)
    as (exe & exe' & secret & fs & cfg & cfg' & codex & claude & cm & km & Hexe & Hexe' & Hrun & Hrun').
  destruct Hrun as (_ & (Hcfg & _ & _) & _ & (Ft & Fs & Fc & Fk & _)).
  destruct Hrun' as (_ & (Hcfg' & _ & _) & _ & (Gt & Gs & Gc & Gk & _ & _ & Go)).
  assert (resolvedHome UserHomeDir fl' = Some home) as Hhome' by (unfold resolvedHome in *; by rewrite Eh).
  destruct (installConfig_paths _ _ _ _ _ Hhome Hcfg) as (Pc & Pk & Pt & Ps & Psec).
  destruct (installConfig_paths _ _ _ _ _ Hhome' Hcfg') as (Pc' & Pk' & Pt' & Ps' & Psec').
  assert (secretFile' fl' home = secretFile' fl home ∧ stateFile fl' home = stateFile fl home) as [Esf Etf]
    by (unfold secretFile, stateFile; by rewrite Es, Et).
  rewrite Pc in Fc; rewrite Pk in Fk; rewrite Pt in Ft; rewrite Ps, Psec in Fs.
  rewrite Pc' in Gc; rewrite Pk' in Gk; rewrite Pt', Etf in Gt; rewrite Ps', Esf, Psec' in Gs. rewrite !orMode_orMode in *.
  set (s1 := newState _ cfg _) in Ft. pose proof (newState_version (f ← fs !! stateFile fl home; decodeState UnmarshalState (payload f)) cfg (claudeMerged cfg claude)) as Hv.
  fold s1 in Hv. rewrite Hbetween, Ft in Gt by set_solver. cbn [mbind option_bind payload decodeState] in Gt.
  destruct (wrapper_field cfg (claudeMerged cfg claude)) as (wrapper & Hw & Hm).
  rewrite (newState_again s1 cfg' _ wrapper) in Gt; [|done| |done].
  2: { unfold claudeMerged at 1. by rewrite field_merge_other. }
  split; [by rewrite Gs, Fs|]. split; [by eexists _, _, _|].
  split; [eexists _, _, _; split; [exact Fc|]; split; [exact Gc|apply codex_keeps]|].
  split; [eexists _, _, _; split; [exact Fk|]; split; [exact Gk|apply claude_keeps]|].
  intros -> p Hb1 Hb2. assert (cfg' = cfg) as -> by congruence.
  rewrite codex_stable in Gc. rewrite claude_stable in Gk.
  destruct (decide (p ∈ [stateFile fl home; secretFile' fl home; codexFile home; claudeFile home])) as [Hp|Hp].
  - rewrite Hbetween by done. repeat (apply elem_of_cons in Hp as [->|Hp]); [|by rewrite Gs, Fs|by rewrite Gc, Fc|by rewrite Gk, Fk|by apply elem_of_nil in Hp].
    rewrite Gt, Ft. do 2 f_equal. f_equal. subst s1. unfold newState in Hv |- *. cbn [st_Version st_PreviousStatusLineExists st_PreviousStatusLine] in *.
    by rewrite Hv.
  - apply Go. rewrite Pt', Ps', Pc', Pk'. unfold backupOf.
    destruct (fs1' !! codexFile home), (fs1' !! claudeFile home); set_solver.
Qed.
End again.

Definition demo_hooks (executable : string) : hooksFlags := mkHooksFlags executable "" "" "" "".
Definition demo_hooksRun (codexStamp claudeStamp : string) : hooksRun :=
  mkHooksRun (λ _, false) (λ _, O) (Some demo_bytes) (λ _, false) codexStamp claudeStamp.
Definition demo_hooksInstall (executable codexStamp claudeStamp : string) (fs : FS) : result HooksError InstallResult * FS :=
  runHooksInstall (Some "/home/u") "linux" (λ _, true) Some slash id (λ _, None) (λ _, None) (λ _, "")
    (demo_hooks executable) (demo_hooksRun codexStamp claudeStamp) fs.

Lemma Reinstall_keeps_witness :
  let fs1 := (demo_hooksInstall "/opt/old/qm" "t1" "t2" demo_files).2 in
  let fs2 := (demo_hooksInstall "/opt/new/qm" "t3" "t4" fs1).2 in
  fs2 !! "/home/u/.quota-monitor/hook-secret" = fs1 !! "/home/u/.quota-monitor/hook-secret" ∧
  ∃ root1 root2 m, fs1 !! "/home/u/.claude/settings.json" = Some (mkFile (JsonFile root1) m) ∧
    fs2 !! "/home/u/.claude/settings.json" = Some (mkFile (JsonFile root2) m) ∧ keeps claudeEvents root1 root2.
Proof.
  intros fs1 fs2.
  assert (is_ok (demo_hooksInstall "/opt/old/qm" "t1" "t2" demo_files).1 = true) as Hok1 by (vm_compute; reflexivity).
  assert (is_ok (demo_hooksInstall "/opt/new/qm" "t3" "t4" fs1).1 = true) as Hok2 by (vm_compute; reflexivity).
  subst fs2. destruct (demo_hooksInstall "/opt/old/qm" "t1" "t2" demo_files) as [[r1|e] f1] eqn:H1; [|done].
  subst fs1. cbn [snd] in *. destruct (demo_hooksInstall "/opt/new/qm" "t3" "t4" f1) as [[r2|e] f2] eqn:H2; [|done].
  destruct (Reinstall_keeps (Some "/home/u") "linux" (λ _, true) Some slash id (λ _, None) (λ _, None) (λ _, "") slash_Join
    (demo_hooks "/opt/old/qm") (demo_hooks "/opt/new/qm") (demo_hooksRun "t1" "t2") (demo_hooksRun "t3" "t4") "/home/u"
    demo_files f1 f1 f2 r1 r2) as (Hsecret & _ & _ & Hclaude & _).
  - reflexivity.
  - vm_compute. discriminate.
  - vm_compute. discriminate.
  - split_and!; reflexivity.
  - exact H1.
  - done.
  - exact H2.
  - split; [exact Hsecret|exact Hclaude].
Defined.
