(* ===== verification/DatabasePath.v ===== *)
(** * internal/store: the database's path as a URI

    [sqliteDSN] of [store.go], over [url.URL.String] and the escapes of [GoNet]:
    the driver is given a URI, so that no character of the path is taken for a
    parameter.  The functions of [filepath] that depend on the system are a
    record; [unixPaths] is theirs on Unix. *)

From S2P Require Import Prelude GoText GoTextFacts GoNet GoNetFacts Digest Service Server.

(** ** net/url *)

(** [String] of a URL that has a scheme and a path. *)
Definition URLString (scheme path : string) : string :=
  scheme +:+ ":" +:+ (if bool_decide (path = "") then "" else "//") +:+ (if bool_decide (path = "*") then "*" else escapePath path).

(** ** path/filepath *)

Record FilePath := mkFilePath { fp_Abs : string → option string; fp_ToSlash : string → string; fp_VolumeName : string → string }.

(** On Unix, in the working directory [cwd] if it is known. *)
Definition unixPaths (cwd : option string) : FilePath :=
  mkFilePath (λ p, if HasPrefix p "/" then Some (Clean p) else (λ d, Clean (d +:+ "/" +:+ p)) <$> cwd) id (λ _, "").

(** ** The data source name *)

(** Windows paths start with a drive letter. *)
Definition normalizedPath (fp : FilePath) (path : string) : string :=
  let abs := default path (fp_Abs fp path) in
  let normalized := fp_ToSlash fp abs in
  if negb (bool_decide (fp_VolumeName fp abs = "")) && negb (HasPrefix normalized "/") then "/" +:+ normalized else normalized.

Definition sqliteDSN (fp : FilePath) (path : string) : string :=
  if bool_decide (path = ":memory:") || HasPrefix path "file:" then path
  else URLString "file" (normalizedPath fp path).

(** ** Reading the URI back *)

(** Nothing in an escaped path ends it. *)
Definition uriPath (s : string) : Prop :=
  Forall (λ a, 33 <= zb a < 127 ∧ a ≠ "?"%char ∧ a ≠ "#"%char) (Stdlib.Strings.String.list_ascii_of_string s).

Lemma pathChar_uri a : pathChar a = true → 33 <= zb a < 127 ∧ a ≠ "?"%char ∧ a ≠ "#"%char.
Proof. destruct a as [[] [] [] [] [] [] [] []]; vm_compute; try discriminate; by intros _; split_and!. Qed.
Lemma hexUpper_uri d : 0 <= d < 16 → 33 <= zb (hexUpper d) < 127 ∧ hexUpper d ≠ "?"%char ∧ hexUpper d ≠ "#"%char.
Proof.
  intros Hd. assert (∃ n, (n < 16)%nat ∧ d = Z.of_nat n) as (n & Hn & ->) by (exists (Z.to_nat d); lia).
  do 16 (destruct n as [|n]; [by vm_compute; split_and!|]). lia.
Qed.

Lemma escapePath_uri s : uriPath (escapePath s).
Proof.
  unfold uriPath. induction s as [|a s IH]; [constructor|]. cbn [escapePath]. pose proof (zb_range a) as Hr.
  destruct (pathChar a) eqn:Ha; cbn [Stdlib.Strings.String.list_ascii_of_string].
  - constructor; [by apply pathChar_uri|done].
  - constructor; [by vm_compute; split_and!|]. constructor; [|constructor; [|done]]; apply hexUpper_uri.
    + split; [apply Z.div_pos; lia|apply Z.div_lt_upper_bound; lia].
    + apply Z.mod_pos_bound. lia.
Qed.

Lemma rooted_cons s : HasPrefix s "/" = true → ∃ t, s = String "/" t.
Proof. destruct s as [|a s]; [done|]. unfold HasPrefix. cbn. case_match; [subst; intros _; by exists s|done]. Qed.

Lemma Clean_rooted p : HasPrefix p "/" = true → HasPrefix (Clean p) "/" = true.
Proof. intros Hp. unfold Clean. rewrite Hp. by destruct (Stdlib.Strings.String.concat _ _). Qed.

(** A rooted path becomes a URI without authority, whose path is read back. *)
Lemma DSN_reads fp path :
  path ≠ ":memory:" → HasPrefix path "file:" = false → HasPrefix (normalizedPath fp path) "/" = true →
  ∃ rest, sqliteDSN fp path = "file://" +:+ rest ∧ HasPrefix rest "/" = true ∧ uriPath rest ∧
    PathUnescape rest = Some (normalizedPath fp path).
Proof.
  intros Hm Hf Hr. exists (escapePath (normalizedPath fp path)).
  destruct (rooted_cons _ Hr) as (t & Ht). split_and!; [|rewrite Ht; cbn [escapePath]; change (pathChar "/") with true; cbn iota; by destruct (escapePath t)|apply escapePath_uri|apply PathUnescape_escape].
  unfold sqliteDSN, URLString. rewrite (bool_decide_false (path = _)), Hf by done. cbn [orb].
  rewrite !bool_decide_false by (rewrite Ht; done). done.
Qed.

(** The database is the file that was asked for: on Unix, whatever bytes
    the path of a database has (question marks, percent signs, spaces, line
    breaks, other alphabets), the driver gets a URI without an authority, with
    no character in it that would end the path or start a parameter, and what
    it decodes to is the absolute path; so two paths share a database only if
    they are the same place. *)
Theorem Database_uri (cwd path path' : string) (Hcwd : HasPrefix cwd "/" = true)
    (Hpath : path ≠ ":memory:" ∧ HasPrefix path "file:" = false) (Hpath' : path' ≠ ":memory:" ∧ HasPrefix path' "file:" = false) :
  let place p := if HasPrefix p "/" then Clean p else Clean (cwd +:+ "/" +:+ p) in
  (∃ rest, sqliteDSN (unixPaths (Some cwd)) path = "file://" +:+ rest ∧ HasPrefix rest "/" = true ∧ uriPath rest ∧
     PathUnescape rest = Some (place path)) ∧
  (sqliteDSN (unixPaths (Some cwd)) path = sqliteDSN (unixPaths (Some cwd)) path' → place path = place path').
Proof.
  assert (∀ p, normalizedPath (unixPaths (Some cwd)) p = if HasPrefix p "/" then Clean p else Clean (cwd +:+ "/" +:+ p)) as Hplace
    by (intros p; unfold normalizedPath; cbn; by destruct (HasPrefix p "/")).
  assert (∀ p, HasPrefix (normalizedPath (unixPaths (Some cwd)) p) "/" = true) as Hrooted.
  { intros p. rewrite Hplace. destruct (HasPrefix p "/") eqn:E; apply Clean_rooted; [done|]. destruct (rooted_cons _ Hcwd) as (t & ->). rewrite str_app_cons. by destruct (t +:+ _). }
  cbv zeta. split.
  - destruct (DSN_reads (unixPaths (Some cwd)) path (proj1 Hpath) (proj2 Hpath) (Hrooted path)) as (rest & E & Hr & Hu & Hd).
    exists rest. by rewrite <- Hplace.
  - intros E.
    destruct (DSN_reads (unixPaths (Some cwd)) path (proj1 Hpath) (proj2 Hpath) (Hrooted path)) as (r1 & E1 & _ & _ & D1).
    destruct (DSN_reads (unixPaths (Some cwd)) path' (proj1 Hpath') (proj2 Hpath') (Hrooted path')) as (r2 & E2 & _ & _ & D2).
    rewrite E1, E2 in E. apply str_app_inv in E. subst r2. rewrite <- !Hplace. congruence.
Qed.

Lemma Database_uri_witness :
  sqliteDSN (unixPaths (Some "/srv/monitor")) "data/50% of?mode=memory.db" = "file:///srv/monitor/data/50%25%20of%3Fmode=memory.db" ∧
  (sqliteDSN (unixPaths (Some "/srv/monitor")) "data/50% of?mode=memory.db" = sqliteDSN (unixPaths (Some "/srv/monitor")) "/srv/q.db" →
   Clean "/srv/monitor/data/50% of?mode=memory.db" = Clean "/srv/q.db").
Proof.
  split; [vm_compute; reflexivity|].
  apply (Database_uri "/srv/monitor" "data/50% of?mode=memory.db" "/srv/q.db"); [reflexivity|split; [discriminate|reflexivity]|split; [discriminate|reflexivity]].
Defined.
