(* ===== verification/FirmwareDelivery.v ===== *)
(** * From [firmware publish] to the display

    What the administrator publishes is what a display with a token downloads,
    over [Publish] of [firmware.go] and the routes of [server.go]. *)

From S2P Require Import Prelude GoTime GoText GoTextFacts GoNet GoNetFacts Digest Model Limiter Validate Store StoreTokens Version Firmware FirmwareFacts Server ServerFacts.

(** ** The text of a version *)

Lemma spell_no_byte c l : is_digit (zb c) = false → Forall digit l → has_byte c (spell l) = false.
Proof.
  intros Hc. induction 1 as [|d l Hd Hl IH]; [done|]. unfold digit in Hd.
  change (spell (d :: l)) with (String (chr (d + 48)) (spell l)). cbn [has_byte]. rewrite IH, orb_false_r.
  apply bool_decide_eq_false. intros <-. rewrite zb_chr in Hc by lia. unfold is_digit, within in Hc. lia.
Qed.

Lemma showNat_no_byte c n : is_digit (zb c) = false → 0 <= n < 2 ^ 32 → has_byte c (showNat n) = false.
Proof.
  intros Hc Hn. apply (spell_no_byte c (digits 10 n) Hc). destruct (digits_decimal 9 n) as [[Hd _] _]; [|done].
  split; [lia|]. eapply Z.lt_trans; [apply Hn|done].
Qed.

Lemma showVersion_no_byte c v : is_digit (zb c) = false → c ≠ dot → version_ok v → has_byte c (showVersion v) = false.
Proof.
  intros Hc Hd (H1 & H2 & H3). unfold showVersion.
  assert (has_byte c (String dot "") = false) as Hdot by (cbn; by rewrite bool_decide_false).
  repeat first [rewrite has_byte_app|apply orb_false_intro|by apply showNat_no_byte|cbn; by rewrite bool_decide_false by congruence].
Qed.

(** ** The name of an image and the path it is asked for *)

Lemma bin_long v : (4 <= Stdlib.Strings.String.length (v +:+ ".bin"))%nat.
Proof. rewrite str_length_app. cbn. lia. Qed.

Lemma trimBin_app v : trimBin (v +:+ ".bin") = Some v.
Proof.
  induction v as [|a v IH]; [done|]. rewrite str_app_cons. cbn [trimBin]. rewrite IH.
  rewrite bool_decide_false; [done|]. intros [=-> H]. apply (f_equal Stdlib.Strings.String.length) in H.
  pose proof (bin_long v). cbn in H. lia.
Qed.
Lemma trimBin_Some s v : trimBin s = Some v → s = v +:+ ".bin".
Proof.
  revert v. induction s as [|a s IH]; intros v; [done|]. cbn [trimBin]. case_bool_decide as E; [by intros [= <-]|].
  destruct (trimBin s) as [u|]; [|done]. intros [= <-]. rewrite str_app_cons. f_equal. by apply IH.
Qed.

Lemma HasPrefix_head a b s p : HasPrefix (String a s) (String b p) = true → a = b ∧ HasPrefix s p = true.
Proof. unfold HasPrefix. cbn. by destruct (Stdlib.Strings.Ascii.ascii_dec b a) as [->|]. Qed.
Lemma countBin_app v : has_byte "b" v = false → countBin (v +:+ ".bin") = 1.
Proof.
  induction v as [|a v IH]; [done|]. cbn [has_byte]. intros [_ Hv]%orb_false_iff. rewrite str_app_cons. cbn [countBin].
  rewrite IH by done. destruct (HasPrefix (String a (v +:+ ".bin")) ".bin") eqn:E; [|done]. exfalso.
  destruct v as [|b v]; [by apply HasPrefix_head in E as [_ E]|]. cbn [has_byte] in Hv. apply orb_false_iff in Hv as [Hb _].
  apply bool_decide_eq_false in Hb. apply HasPrefix_head in E as [_ E]. rewrite str_app_cons in E. by apply HasPrefix_head in E as [-> _].
Qed.

(** The path of a file of the board, and how it is sent. *)
Definition firmwareURL (file : string) : string := "/api/v1/display/firmware/e32r28t/" +:+ file.
Definition firmwarePath (file : string) : string := firmwareURL (escapePath file).

Lemma firmwarePath_escape file : firmwarePath file = escapePath (firmwareURL file).
Proof. unfold firmwarePath, firmwareURL. by rewrite escapePath_app. Qed.

Lemma firmwareURL_Split file :
  has_byte slash file = false → Split slash (firmwareURL file) = [""; "api"; "v1"; "display"; "firmware"; "e32r28t"; file].
Proof.
  intros Hf. unfold firmwareURL.
  change ("/api/v1/display/firmware/e32r28t/" +:+ file) with
    ("" +:+ String slash ("api" +:+ String slash ("v1" +:+ String slash ("display" +:+ String slash ("firmware" +:+ String slash ("e32r28t" +:+ String slash file)))))).
  rewrite !Split_cons by done. by rewrite Split_plain.
Qed.

(** A name that is no element with a meaning of its own. *)
Definition plain_name (file : string) : Prop := has_byte slash file = false ∧ file ∉ [""; "."; ".."].

Lemma firmwareURL_clean file : plain_name file → Clean (firmwareURL file) = firmwareURL file.
Proof.
  intros [Hf Hn]. rewrite !not_elem_of_cons in Hn. destruct Hn as (H1 & H2 & H3 & _).
  unfold Clean. rewrite firmwareURL_Split by done. change (HasPrefix (firmwareURL file) "/") with true. cbv iota.
  unfold cleanElements. cbn [foldl]. by rewrite (bool_decide_false (file = "")), (bool_decide_false (file = ".")), (bool_decide_false (file = "..")).
Qed.

Lemma plain_name_escape file : plain_name file → plain_name (escapePath file).
Proof.
  intros [Hf Hn]. split; [by rewrite escapePath_slash|]. rewrite !not_elem_of_cons in *. destruct Hn as (H1 & H2 & H3 & _).
  split_and!; [| | |by intros ?%elem_of_nil]; intros E; [apply H1|apply H2|apply H3]; by apply escapePath_inj.
Qed.

Lemma cutLast_after c s t :
  has_byte c t = false → cutLast c (s +:+ t) = (λ xy, (xy.1, xy.2 +:+ t)) <$> cutLast c s.
Proof.
  intros Ht. assert (Hcut : cutLast c t = None).
  { induction t as [|a t IH]; [done|]. cbn [has_byte] in Ht. apply orb_false_iff in Ht as [Ha Ht]. cbn [cutLast]. by rewrite IH, Ha. }
  induction s as [|a s IH]; [exact Hcut|]. rewrite str_app_cons. cbn [cutLast]. rewrite IH.
  destruct (cutLast c s) as [[x y]|]; [done|]. cbn. by destruct (bool_decide (a = c)).
Qed.

Lemma plain_name_last file : plain_name file → (snd <$> cutLast slash (firmwareURL file)) ≠ Some "".
Proof.
  intros [Hf Hn]. rewrite not_elem_of_cons in Hn. destruct Hn as [Hn _]. unfold firmwareURL. rewrite cutLast_after by done.
  change (cutLast slash "/api/v1/display/firmware/e32r28t/") with (Some ("/api/v1/display/firmware/e32r28t", "")). intros [= E]. by apply Hn.
Qed.

(** The mux splits it into the segments of the route. *)
Lemma firmwarePath_target file :
  plain_name file → muxTarget "GET" (firmwarePath file) = MuxSegments ["api"; "v1"; "display"; "firmware"; "e32r28t"; file].
Proof.
  intros Hn. pose proof (plain_name_escape _ Hn) as He. unfold muxTarget.
  rewrite firmwarePath_escape at 1. rewrite PathUnescape_escape.
  assert (EscapedPath (firmwarePath file) (firmwareURL file) = firmwarePath file) as ->.
  { unfold EscapedPath. by rewrite firmwarePath_escape, validEncoded_escape. }
  rewrite bool_decide_false by (unfold firmwarePath, firmwareURL; discriminate).
  assert (cleanPath (firmwarePath file) = firmwarePath file) as ->.
  { unfold cleanPath. change (HasPrefix (firmwarePath file) "/") with true. cbv beta iota zeta.
    unfold firmwarePath. rewrite firmwareURL_clean by done. by rewrite (bool_decide_false (_ = Some "")) by by apply plain_name_last. }
  rewrite (bool_decide_true (firmwarePath file = _)), andb_false_r by done. do 1 f_equal.
  unfold pathSegments, firmwarePath. rewrite firmwareURL_Split by apply He. cbn [tail fmap list_fmap].
  by rewrite PathUnescape_escape.
Qed.

(** A request for a file of the board gets to its handler. *)
Lemma ServeHTTP_firmware s file header peer body env :
  has_byte slash file = false → (2 < Stdlib.Strings.String.length file)%nat →
  let r := mkRequest "GET" (firmwarePath file) header peer body in
  ServeHTTP s r env =
    if bool_decide (file = "manifest") then handleFirmwareManifest s r (clock env)
    else handleFirmwareDownload s r file (gone env) (clock env).
Proof.
  intros Hf Hl r.
  assert (Hn : plain_name file) by (split; [done|]; intros H; rewrite !elem_of_cons, elem_of_nil in H; destruct H as [->|[->|[->|[]]]]; cbn in Hl; lia).
  unfold ServeHTTP. cbn [Path Method r]. rewrite (firmwarePath_escape file) at 1. rewrite PathUnescape_escape.
  rewrite firmwareURL_clean, firmwarePath_target by done.
  rewrite (bool_decide_false (firmwareURL file = "")), (bool_decide_true (firmwareURL file = _)) by done. cbn [negb orb].
  unfold route. rewrite (bool_decide_true (["api"; "v1"; "display"; "firmware"; "e32r28t"] = _)) by done.
  rewrite (bool_decide_false (file ∈ _)) by (intros H; rewrite !elem_of_cons, elem_of_nil in H; destruct H as [->|[->|[]]]; cbn in Hl; lia).
  by destruct (bool_decide (file = "manifest")).
Qed.

(** ** A display that is let in *)

Lemma fresh_reader cfg d files r raw id row c :
  db_ok d → parseBearer (Authorization r) = (raw, true) → bearer d raw ScopeDisplayRead id row →
  let s := New cfg d files in
  ∃ record s', authenticate s r ScopeDisplayRead (displayRateLimit s) c = (Ok record, s') ∧
    firmwareFiles s' = files ∧ firmwareDir s' = TrimSpace (cfg_FirmwareDir cfg).
Proof.
  intros Hok Hp Hb s.
  destruct (AuthenticateToken_cases d raw ScopeDisplayRead (atUse c) Hok) as [(id' & row' & _ & Hauth)|[Hno _]]; [|by destruct (Hno _ _ Hb)].
  assert (Hcap : 0 < authCapacity s) by by apply orDefault_pos.
  destruct (authenticate_fresh s r ScopeDisplayRead (displayRateLimit s) c raw _ _ eq_refl eq_refl Hcap (or_intror eq_refl) Hp Hauth) as (s1 & Ha & _).
  eexists _, s1. split; [exact Ha|]. by apply authenticate_cases in Ha as ((-> & -> & _) & _).
Qed.

(** ** What a successful publication left *)

Lemma Publish_shows fails penv opts d m w :
  env_ok penv → Publish fails penv opts (startWorld d) = (Ok m, w) →
  ∃ bytes, faithful penv opts m bytes ∧ new_view (po_Directory opts) m bytes (dir w).
Proof.
  intros Henv Hrun. assert (po_Board opts = BoardE32R28T) as Hboard.
  { unfold Publish in Hrun. destruct (bool_decide (TrimSpace (po_Directory opts) = "")); [done|].
    destruct (decide (po_Board opts = BoardE32R28T)) as [|Hb]; [done|]. by rewrite (bool_decide_false (po_Board opts = _)) in Hrun. }
  pose proof (Publish_wp fails penv opts d Henv Hboard) as Hwp. unfold wp in Hwp. rewrite Hrun in Hwp.
  destruct Hwp as [Hblank [_ Hok]]. destruct (Hok m eq_refl) as (_ & _ & _ & bytes & Hf & Hp). exists bytes. split; [done|].
  apply (published_new_view penv opts Henv Hboard); [|done..]. intros Hdir. by destruct (Hblank Hdir).
Qed.

(** C14. From the administrator to the display: after [firmware publish]
    reported success, a server just started on that directory gives every
    display that presents its token the manifest of the published version, and
    under the version's name exactly the bytes of the administrator's file,
    whose SHA-256 is the one of the manifest; whatever other name without a
    slash and longer than two bytes is asked for, the answer is 404. *)
Theorem Firmware_reaches_display (fails : nat → bool) (penv : Env) (opts : PublishOptions) (d : Dir) (m : Manifest) (w : World)
    (cfg : Config) (db : DB) (raw id : string) (row : tokenRow) (peer : string) (body : result bodyError AgentReport) (c : Clock) (answer : bool)
    (Henv : env_ok penv) (Hpublish : Publish fails penv opts (startWorld d) = (Ok m, w))
    (Hserved : cfg_FirmwareDir cfg = po_Directory opts) (Hdir : TrimSpace (po_Directory opts) = po_Directory opts)
    (Hdb : db_ok db) (Hraw : parseBearer ("Bearer " +:+ raw) = (raw, true)) (Hbearer : bearer db raw ScopeDisplayRead id row) :
  let s := New cfg db (dir w) in
  let get file canceled := (ServeHTTP s (mkRequest "GET" (firmwarePath file) ("Bearer " +:+ raw) peer body) (mkAround c answer canceled)).1 in
  mf_Version m = po_Version opts ∧
  (∀ canceled, get "manifest" canceled = writeJSON (ManifestPayload m)) ∧
  (∃ source, env_source penv = Some source ∧ hex_encode (Sum256 (src_bytes source)) = mf_SHA256 m ∧
     get (mf_Version m +:+ ".bin") (λ _, false) = mkResponse 200 "" None false (ImagePayload (src_bytes source) m)) ∧
  (∀ file canceled, has_byte slash file = false → (2 < Stdlib.Strings.String.length file)%nat →
     file ≠ "manifest" → file ≠ mf_Version m +:+ ".bin" → Status (get file canceled) = 404).
Proof.
  intros s get. destruct (Publish_shows fails penv opts d m w Henv Hpublish) as (bytes & (Hv & Hver & _ & Hsha & source & Hsrc & Hbytes & _) & Hload & Hopen & Hother).
  assert (∀ file, ∃ record s', let r := mkRequest "GET" (firmwarePath file) ("Bearer " +:+ raw) peer body in
    authenticate s r ScopeDisplayRead (displayRateLimit s) c = (Ok record, s') ∧ firmwareFiles s' = dir w ∧ firmwareDir s' = po_Directory opts) as Hin.
  { intros file. rewrite <- Hdir, <- Hserved. by apply (fresh_reader cfg db (dir w) _ raw id row c). }
  apply Validate_Ok in Hv as (_ & _ & (v & [Hvok Hshow]%ParseVersion_show) & _).
  split; [done|]. split; [|split].
  - intros canceled. unfold get. rewrite ServeHTTP_firmware by (done || (cbn; lia)). cbn [clock]. cbv zeta. rewrite bool_decide_true by done.
    unfold handleFirmwareManifest. destruct (Hin "manifest") as (record & s' & -> & -> & ->). by rewrite Hload.
  - exists source. split; [done|]. split; [by rewrite <- Hbytes|]. unfold get. rewrite ServeHTTP_firmware.
    2: { by rewrite has_byte_app, Hshow, showVersion_no_byte. }
    2: { pose proof (bin_long (mf_Version m)). lia. }
    cbv zeta. rewrite bool_decide_false.
    2: { intros E. apply (f_equal trimBin) in E. by rewrite trimBin_app in E. }
    unfold handleFirmwareDownload. cbn [clock gone]. destruct (Hin (mf_Version m +:+ ".bin")) as (record & s' & -> & -> & ->).
    rewrite trimBin_app, countBin_app, Hopen, Hbytes; [done|]. rewrite Hshow. by apply showVersion_no_byte.
  - intros file canceled Hs Hl Hm Hb. unfold get. rewrite ServeHTTP_firmware by done. cbv zeta. rewrite bool_decide_false by done.
    unfold handleFirmwareDownload. cbn [clock gone]. destruct (Hin file) as (record & s' & -> & -> & ->).
    destruct (trimBin file) as [u|] eqn:E; [|done]. destruct (countBin file =? 1); [|done]. cbn [negb].
    rewrite Hother; [done|]. intros ->. by apply trimBin_Some in E.
Qed.

(** The display of [demo_display] gets the image of [demo_env]. *)
Lemma Firmware_reaches_display_witness :
  let s := New (mkConfig 0 0 0 0 0 "/srv/fw") demo_display demo_dir in
  let r := mkRequest "GET" "/api/v1/display/firmware/e32r28t/1.2.3.bin" ("Bearer qmon_" +:+ b64_encode (seqZ 50 32)) "[::1]:80" (Err BodyInvalid) in
  ∃ m, (ServeHTTP s r (mkAround demo_clock true (λ _, false))).1 = mkResponse 200 "" None false (ImagePayload "image" m) ∧ mf_Version m = "1.2.3".
Proof.
  cbv zeta. unfold demo_dir.
  assert (is_ok (Publish (λ _, false) demo_env (demo_opts "1.2.3") (startWorld ∅)).1 = true) as Hok by (vm_compute; reflexivity).
  destruct (Publish (λ _, false) demo_env (demo_opts "1.2.3") (startWorld ∅)) as [[m|e] w] eqn:Hp; [|discriminate Hok].
  cbn [fst snd] in *. clear Hok.
  destruct (CreateToken demo_db (mkCreateTokenRequest ScopeDisplayRead "" "desk") (Some (seqZ 50 32)) (Some (seqZ 30 12)) 1000)
    as [[ct db]|e] eqn:E; [|vm_compute in E; discriminate E].
  assert (demo_display = db) as Hd by (unfold demo_display; by rewrite E).
  destruct (CreateToken_bearer _ _ (Some (seqZ 50 32)) _ _ _ _ eq_refl E) as (row & Hb & _). rewrite <- Hd in Hb.
  assert (ct_RawToken ct = "qmon_" +:+ b64_encode (seqZ 50 32)) as Hraw.
  { pose proof E as Hc. apply CreateToken_Ok in Hc as (sb & ib & [= <-] & _ & Hraw & _). exact Hraw. }
  rewrite Hraw in Hb.
  destruct (Firmware_reaches_display (λ _, false) demo_env (demo_opts "1.2.3") ∅ m w (mkConfig 0 0 0 0 0 "/srv/fw") demo_display
    ("qmon_" +:+ b64_encode (seqZ 50 32)) (tr_ID (ct_Record ct)) row "[::1]:80" (Err BodyInvalid) demo_clock true
    demo_env_ok Hp eq_refl eq_refl demo_display_ok) as (Hv & _ & (source & Hs & _ & Hget) & _).
  - by apply rawToken_header.
  - exact Hb.
  - injection Hs as <-. exists m. split; [|exact Hv]. rewrite Hv in Hget. exact Hget.
Defined.
