(* ===== verification/ServerMode.v ===== *)
(** * cmd/quota-monitor: the server mode and its database

    [runServer] of [main.go]: from its flags to the listening server, its
    signals and its endings; and the processes that share one database file
    over time: servers that are started, stopped or killed, and the token
    commands, which can run beside a server.  A request and a command are one
    step each; the interleaving inside a request is the one of [Server].  The
    tables of the file are a function of the reports that were answered 204,
    the last one of each agent; a server that is started on it shows them. *)

From S2P Require Import Prelude GoTime GoText GoTextFacts GoFloat Digest Model Limiter Validate Store StoreTokens StoreReports StoreSnapshot Migrate MigrateFacts Version Firmware Server ServerFacts Standalone StandaloneFacts Reporting Commands CommandsFacts.

Record serverFlags := mkServerFlags { sv_Listen : string; sv_DBPath : string; sv_LogFormat : string; sv_FirmwareDir : string }.

Inductive ServerError :=
| ServerNoDirectory | ServerNotOpened (e : OpenError) | UnsupportedLogFormat (format : string)
| ShutdownFailed | ServeFailed.

(** ** Starting *)

Definition logFormatOK (format : string) : bool :=
  bool_decide (ToLower format = "json") || bool_decide (ToLower format = "text").

(** Up to [ListenAndServe]; the log format is looked at once the database is
    open. *)
Definition startServer (ft : storeFaults) (fl : serverFlags) (now : Time) (published : Dir) (f : Migrate.file)
    : result ServerError Server * Migrate.file :=
  if needsDir (sv_DBPath fl) && st_mkdir ft then (Err ServerNoDirectory, f)
  else match Open (st_open ft) (st_commits ft) migrations (sv_DBPath fl) now (mkSession f 0) with
  | (Err e, s) => (Err (ServerNotOpened e), ss_file s)
  | (Ok _, s) =>
    if negb (logFormatOK (sv_LogFormat fl)) then (Err (UnsupportedLogFormat (sv_LogFormat fl)), ss_file s)
    else (Ok (New (mkConfig 0 0 0 0 0 (sv_FirmwareDir fl)) (fl_rows (ss_file s)) published), ss_file s)
  end.

(** ** Running *)

Inductive phase := Serving | Draining.

Record serverLife := mkServerLife { lf_phase : phase; lf_api : Server }.

(** The file, and the server that has it open, if there is one. *)
Record system := mkSystem { sy_file : Migrate.file; sy_server : option serverLife }.

Definition tables (sys : system) : DB := fl_rows (sy_file sys).
Definition onFile (f : Migrate.file) (d : DB) : Migrate.file := Migrate.mkFile (fl_schema f) (fl_applied f) d.

Inductive tokenCommand :=
| CreateCommand (req : CreateTokenRequest) (jsonOutput : bool) (secret idBytes : option (list Z))
| ListCommand
| RevokeCommand (id : string).

Inductive action :=
| Start (ft : storeFaults) (fl : serverFlags) (now : Time) (published : Dir)
| Handled (r : Request) (env : Around)
| Signalled
| ShutdownReturned (inTime : bool)
| ServeReturned (closed : bool)       (* [closed]: with [http.ErrServerClosed] *)
| Killed
| TokenCommandRun (ft : storeFaults) (c : tokenCommand) (now : Time).

Inductive output :=
| Nothing
| Answered (resp : Response)
| Ended (r : result ServerError string)
| Printed (r : result TokenCommandError string).

(** What the database should hold: the last report of each agent that was
    answered 204, and when it came. *)
Abbreviation board := (gmap string (AgentReport * Time)).

Section processes.
(** The path of the file; a process on another path is none of the system's. *)
Context (path : string).
Context (EncodeCreated : CreatedToken → string) (EncodeRecords : list TokenRecord → string).

Definition runTokenCommand (ft : storeFaults) (c : tokenCommand) (now : Time) (f : Migrate.file)
    : result TokenCommandError string * Migrate.file :=
  match c with
  | CreateCommand req jsonOutput secret idBytes => runTokenCreate EncodeCreated ft path req jsonOutput secret idBytes now f
  | ListCommand => runTokenList EncodeRecords ft path now f
  | RevokeCommand id => runTokenRevoke ft path id now f
  end.

(** The [select] at the end of [runServer]: after a signal, [Shutdown] waits
    for the requests that are being handled, and nobody reads [errCh] any
    more; [None] when the action is not possible. *)
Definition systemStep (sys : system) (a : action) : option (output * system) :=
  match a, sy_server sys with
  | Start ft fl now published, None =>
    if negb (bool_decide (sv_DBPath fl = path)) then None
    else let '(r, f) := startServer ft fl now published (sy_file sys) in
    Some (match r with
          | Ok api => (Nothing, mkSystem f (Some (mkServerLife Serving api)))
          | Err e => (Ended (Err e), mkSystem f None)
          end)
  | Handled r env, Some (mkServerLife ph api) =>
    let '(resp, api) := ServeHTTP (setStore api (tables sys)) r env in
    Some (Answered resp, mkSystem (onFile (sy_file sys) (store api)) (Some (mkServerLife ph api)))
  | Signalled, Some (mkServerLife _ api) => Some (Nothing, mkSystem (sy_file sys) (Some (mkServerLife Draining api)))
  | ShutdownReturned inTime, Some (mkServerLife Draining _) =>
    Some (Ended (if inTime then Ok ("server stopped" +:+ lf) else Err ShutdownFailed), mkSystem (sy_file sys) None)
  | ServeReturned closed, Some (mkServerLife Serving _) =>
    Some (Ended (if closed then Ok "" else Err ServeFailed), mkSystem (sy_file sys) None)
  | ServeReturned _, Some (mkServerLife Draining _) => Some (Nothing, sys)
  | Killed, Some _ => Some (Nothing, mkSystem (sy_file sys) None)
  | TokenCommandRun ft c now, _ =>
    let '(r, f) := runTokenCommand ft c now (sy_file sys) in Some (Printed r, mkSystem f (sy_server sys))
  | _, _ => None
  end.

Definition noted (b : board) (a : action) (o : output) : board :=
  match a, o with
  | Handled r env, Answered resp =>
    match Body r with
    | Ok report => if Status resp =? 204 then <[ar_AgentID report := (report, atHandle (clock env))]> b else b
    | Err _ => b
    end
  | _, _ => b
  end.

Fixpoint sysRun (sys : system) (b : board) (l : list action) : option (board * system) :=
  match l with
  | [] => Some (b, sys)
  | a :: l => '(o, sys') ← systemStep sys a; sysRun sys' (noted b a o) l
  end.
End processes.

(** ** The tables that some reports make *)

Definition boardDB (b : board) : DB := map_fold (λ _ x d, reported d x.1 x.2) emptyDB b.

(** Each report is at its agent's name, and was accepted when it came. *)
Definition board_ok (b : board) : Prop := map_Forall (λ id x, ar_AgentID x.1 = id ∧ report_ok x.1 x.2) b.

Definition on_board (b : board) (d : DB) : Prop :=
  (∀ id, agents d !! id = (λ x, mkAgentRow (UnixNano (ar_SentAt x.1)) (UnixNano x.2)) <$> b !! id) ∧
  (∀ id p, provider_reports d !! (id, p) = x ← b !! id; providerTable x.1 !! p) ∧
  (∀ id p s, active_tasks d !! (id, p, s) = x ← b !! id; taskTable x.1 !! (p, s)).

Lemma on_board_reported b d id report t :
  ar_AgentID report = id → on_board b d → on_board (<[id := (report, t)]> b) (reported d report t).
Proof.
  intros <- (Ha & Hp & Ht). split_and!.
  - intros id. cbn [reported agents]. destruct (decide (ar_AgentID report = id)) as [<-|Hne]; [by rewrite !lookup_insert_eq|].
    by rewrite !lookup_insert_ne.
  - intros id p. rewrite reported_reports. case_decide as E; [subst id; by rewrite lookup_insert_eq|]. by rewrite lookup_insert_ne.
  - intros id p s. rewrite reported_tasks. case_decide as E; [subst id; by rewrite lookup_insert_eq|]. by rewrite lookup_insert_ne.
Qed.

Lemma boardDB_on b : board_ok b → on_board b (boardDB b).
Proof.
  unfold boardDB. revert b. apply (map_fold_weak_ind (λ d b, board_ok b → on_board b d)).
  - intros _. split_and!; intros; by rewrite ?lookup_empty.
  - intros id [report t] b d Hid IH [[Hr _] Hb]%map_Forall_insert; [|done]. by apply on_board_reported, IH.
Qed.

Lemma on_board_same b d d' : on_board b d → on_board b d' → same_data d d'.
Proof.
  intros (Ha & Hp & Ht) (Ha' & Hp' & Ht'). split_and!.
  - apply map_eq. intros id. by rewrite Ha, Ha'.
  - apply map_eq. intros [id p]. by rewrite Hp, Hp'.
  - apply map_eq. intros [[id p] s]. by rewrite Ht, Ht'.
Qed.

Lemma on_board_data b d d' : same_data d d' → on_board b d → on_board b d'.
Proof. intros (Ha & Hp & Ht). unfold on_board. by rewrite Ha, Hp, Ht. Qed.

(** ** Opening the file *)

Lemma Open_keeps fails commits path now f :
  openable f → let s := (Open fails commits migrations path now (mkSession f 0)).2 in openable (ss_file s) ∧ fl_rows (ss_file s) = fl_rows f.
Proof.
  intros (v & Hv & Hat). destruct (decide (TrimSpace path = "")) as [Hp|Hp].
  { unfold Open. rewrite bool_decide_true by done. split; [by exists v|done]. }
  destruct (Open _ _ _ _ _ _) as [r s] eqn:E. change migrations with (firstn 1 migrations) in E.
  eapply (MigrateFacts.Open_spec migrations migrations_valid) in E; [|done..|exact Hat].
  destruct E as [(v' & [_ Hv'] & Hat' & [Hrows _] & _) _]. split; [|done]. exists v'. split; [lia|done].
Qed.

Lemma startServer_keeps ft fl now published f r f' :
  openable f → startServer ft fl now published f = (r, f') → openable f' ∧ fl_rows f' = fl_rows f.
Proof.
  intros Hf. unfold startServer. destruct (_ && _); [by intros [= <- <-]|].
  pose proof (Open_keeps (st_open ft) (st_commits ft) (sv_DBPath fl) now f Hf) as Hk.
  destruct (Open _ _ _ _ _ _) as [[u|e] s]; [destruct (negb _)|]; by intros [= <- <-].
Qed.

Lemma openTokenStore_keeps ft path now f r f' :
  openable f → openTokenStore ft path now f = (r, f') → openable f' ∧ fl_rows f' = fl_rows f.
Proof.
  intros Hf. unfold openTokenStore. destruct (_ && _); [by intros [= <- <-]|].
  pose proof (Open_keeps (st_open ft) (st_commits ft) path now f Hf) as Hk. by destruct (Open _ _ _ _ _ _) as [[u|e] s]; intros [= <- <-].
Qed.

(** The token commands touch the tokens only. *)
Lemma runTokenCommand_keeps path EncodeCreated EncodeRecords ft c now f r f' :
  openable f → db_ok (fl_rows f) → runTokenCommand path EncodeCreated EncodeRecords ft c now f = (r, f') →
  openable f' ∧ db_ok (fl_rows f') ∧ same_data (fl_rows f) (fl_rows f').
Proof.
  intros Hf Hok. destruct c as [req js secret id| |id]; cbn [runTokenCommand]; unfold runTokenCreate, runTokenList, runTokenRevoke;
    destruct (openTokenStore ft path now f) as [[u|e] f1] eqn:E; apply openTokenStore_keeps in E as (Ho & Hr); try done;
    try (intros [= <- <-]; by rewrite Hr).
  - rewrite Hr. destruct (CreateToken (fl_rows f) req secret id now) as [[created d]|e] eqn:Ec; intros [= <- <-]; [|by rewrite Hr].
    split; [done|]. split; [by eapply CreateToken_ok|].
    by apply CreateToken_Ok in Ec as (sb & ib & _ & _ & _ & _ & _ & (_ & _ & _ & ->)%insertToken_Some).
  - rewrite Hr. pose proof (RevokeToken_ok _ id now Hok) as Hok'.
    destruct (RevokeToken_cases (fl_rows f) id now) as [(row & _ & _ & E)|[_ E]]; rewrite E in *; intros [= <- <-]; [done|by rewrite Hr].
Qed.

(** ** One step *)

Section runs.
Context (path : string) (EncodeCreated : CreatedToken → string) (EncodeRecords : list TokenRecord → string).
Abbreviation systemStep := (systemStep path EncodeCreated EncodeRecords).
Abbreviation sysRun := (sysRun path EncodeCreated EncodeRecords).

Record sound (b : board) (sys : system) : Prop := mkSound {
  so_open : openable (sy_file sys);
  so_ok : db_ok (tables sys);
  so_board : board_ok b;
  so_tables : on_board b (tables sys) }.

(** What keeps the board keeps the invariant if it keeps the tables. *)
Lemma sound_same b sys f server :
  sound b sys → openable f → db_ok (fl_rows f) → same_data (tables sys) (fl_rows f) → sound b (mkSystem f server).
Proof. intros [_ _ Hb Ht] Hf Hok Hd. split; [done|done|done|]. by eapply on_board_data. Qed.

Lemma systemStep_sound b sys a o sys' : sound b sys → systemStep sys a = Some (o, sys') → sound (noted b a o) sys'.
Proof.
  intros Hs. pose proof Hs as [Hf Hok Hb Ht]. destruct a as [ft fl now published|r env| |inTime|closed| |ft c now].
  - cbn [ServerMode.systemStep noted]. destruct (sy_server sys); [done|]. destruct (negb _); [done|].
    destruct (startServer ft fl now published (sy_file sys)) as [r f] eqn:E. apply startServer_keeps in E as (Hf' & Hr); [|done].
    destruct r as [api|e]; intros [= <- <-]; apply (sound_same b sys); try done; rewrite Hr; done.
  - cbn [ServerMode.systemStep]. destruct (sy_server sys) as [[ph api]|]; [|done].
    destruct (ServeHTTP _ r env) as [resp api'] eqn:E. intros [= <- <-].
    apply ServeHTTP_effect in E as (Hok' & [[Hno Hd]|(Hyes & report & id & row & Hbody & _ & _ & Hrep & _ & Hd)]); [..|exact Hok]; cbn [noted].
    + assert (match Body r with Ok report => if Status resp =? 204 then <[ar_AgentID report := (report, atHandle (clock env))]> b else b | Err _ => b end = b) as ->.
      { destruct (Body r); [|done]. by rewrite (proj2 (Z.eqb_neq _ _)). }
      by apply (sound_same b sys).
    + rewrite Hbody, Hyes. split; [done|done| |].
      * by apply map_Forall_insert_2.
      * eapply on_board_data; [exact Hd|]. by apply on_board_reported.
  - cbn [ServerMode.systemStep noted]. destruct (sy_server sys) as [[ph api]|]; [|done]. intros [= <- <-]. by apply (sound_same b sys).
  - cbn [ServerMode.systemStep noted]. destruct (sy_server sys) as [[[] api]|]; try done. intros [= <- <-]. by apply (sound_same b sys).
  - cbn [ServerMode.systemStep noted]. destruct (sy_server sys) as [[[] api]|]; try done; intros [= <- <-]; [by apply (sound_same b sys)|done].
  - cbn [ServerMode.systemStep noted]. destruct (sy_server sys) as [?|]; [|done]. intros [= <- <-]. by apply (sound_same b sys).
  - cbn [ServerMode.systemStep noted]. destruct (runTokenCommand _ _ _ ft c now (sy_file sys)) as [r f] eqn:E. intros [= <- <-].
    apply runTokenCommand_keeps in E as (? & ? & ?); [|done..]. by apply (sound_same b sys).
Qed.

Lemma sysRun_sound l : ∀ b sys b' sys', sound b sys → sysRun sys b l = Some (b', sys') → sound b' sys'.
Proof.
  induction l as [|a l IH]; intros b sys b' sys' Hs; cbn [ServerMode.sysRun]; [by intros [= <- <-]|].
  destruct (systemStep sys a) as [[o sys1]|] eqn:E; [|done]. apply IH. by eapply systemStep_sound.
Qed.

Lemma newFile_sound : sound ∅ (mkSystem newFile None).
Proof.
  split; [|apply emptyDB_ok|done|].
  - exists O. split; [lia|]. right. split_and!; [done| |done]. intros i. cbn. rewrite lookup_empty. split; [by intros [? ?]|lia].
  - split_and!; intros; cbn; by rewrite ?lookup_empty.
Qed.

Lemma startServer_serves fl now published f :
  TrimSpace (sv_DBPath fl) ≠ "" → logFormatOK (sv_LogFormat fl) = true → openable f →
  ∃ f', startServer noStoreFaults fl now published f = (Ok (New (mkConfig 0 0 0 0 0 (sv_FirmwareDir fl)) (fl_rows f) published), f') ∧
    fl_rows f' = fl_rows f.
Proof.
  intros Hp Hl Hf. destruct (open_succeeds (sv_DBPath fl) now f Hp Hf) as (s & Hs & _ & Hr). exists (ss_file s).
  unfold startServer. rewrite andb_false_r. cbn [st_open st_commits noStoreFaults]. by rewrite Hs, Hl, Hr.
Qed.

(** C9. The database is the record of the last accepted reports: take any
    sequence of server starts (with any failures), requests, signals,
    shutdowns, kills and token commands over one database file that did not
    exist at first.  The agents' tables are then exactly what the reports
    answered 204 make, the last one of each agent, all of them valid when they
    came: nothing that was acknowledged is lost with the process, and nothing
    else gets in.  And a server can then be started again, and a display that
    presents its token gets the snapshot of exactly those reports. *)
Theorem Database_records_reports (l : list action) (b : board) (sys : system)
    (Hfile : needsDir path = true ∧ TrimSpace path ≠ "") (Hrun : sysRun (mkSystem newFile None) ∅ l = Some (b, sys)) :
  same_data (boardDB b) (tables sys) ∧
  (∀ id report t, b !! id = Some (report, t) → ar_AgentID report = id ∧ report_ok report t) ∧
  ∀ fl now published raw id row peer body env,
    sv_DBPath fl = path → logFormatOK (sv_LogFormat fl) = true →
    parseBearer ("Bearer " +:+ raw) = (raw, true) → bearer (tables sys) raw ScopeDisplayRead id row →
    ∃ api f, startServer noStoreFaults fl now published (sy_file sys) = (Ok api, f) ∧
      (ServeHTTP api (mkRequest "GET" snapshotPath ("Bearer " +:+ raw) peer body) env).1 =
      writeJSON (SnapshotPayload (BuildDisplaySnapshot (boardDB b) (atHandle (clock env)))).
Proof.
  destruct Hfile as [_ Hpath]. apply sysRun_sound in Hrun as [Hf Hok Hb Ht]; [|apply newFile_sound].
  assert (same_data (boardDB b) (tables sys)) as Hd by (eapply on_board_same; [by apply boardDB_on|done]).
  split; [done|]. split; [intros id report t Hid; exact (Hb _ _ Hid)|].
  intros fl now published raw id row peer body env Hp Hl Hraw Hbearer. rewrite <- Hp in Hpath.
  destruct (startServer_serves fl now published (sy_file sys) Hpath Hl Hf) as (f & Hs & _).
  eexists _, f. split; [exact Hs|].
  destruct (fresh_display (mkConfig 0 0 0 0 0 (sv_FirmwareDir fl)) (tables sys) published raw id row peer body env Hok Hraw Hbearer) as (s' & E).
  unfold tables in E. rewrite E, Hd. reflexivity.
Qed.
End runs.

(** A day of a server: a token is made while it runs, a report is accepted, the
    machine dies, and a display asks the next server. *)
Definition demo_flags : serverFlags := mkServerFlags "127.0.0.1:8787" "data/monitor.db" "JSON" "/srv/fw".
Definition demo_env (t : Time) : Around := mkAround (mkClock t t t t) true (λ _, false).
Definition demo_actions (t : Time) : list action :=
  [Start noStoreFaults demo_flags 5 ∅;
   TokenCommandRun noStoreFaults (CreateCommand (mkCreateTokenRequest ScopeAgentWrite " mac-1 " "laptop") false (Some demo_secret) (Some demo_id)) t;
   TokenCommandRun noStoreFaults (CreateCommand (mkCreateTokenRequest ScopeDisplayRead "" "desk") false (Some (seqZ 50 32)) (Some (seqZ 30 12))) t;
   Handled (mkRequest "POST" reportPath ("Bearer " +:+ demo_raw) "10.0.0.1:999" (Ok (demo_report "mac-1" t))) (demo_env t);
   Handled (mkRequest "POST" reportPath ("Bearer " +:+ demo_raw) "10.0.0.1:999" (Ok (demo_report "mac-1" t))) (demo_env t);
   Killed].

Lemma Database_records_reports_witness :
  let t := 1700000000 * Second in
  match sysRun "data/monitor.db" (λ _, "") (λ _, "") (mkSystem newFile None) ∅ (demo_actions t) with
  | Some (b, sys) => b !! "mac-1" = Some (demo_report "mac-1" t, t) ∧ same_data (boardDB b) (tables sys)
  | None => False
  end.
Proof.
  intros t. destruct (sysRun "data/monitor.db" (λ _, "") (λ _, "") (mkSystem newFile None) ∅ (demo_actions t)) as [[b sys]|] eqn:E;
    [|vm_compute in E; discriminate E].
  split.
  - assert (fst <$> sysRun "data/monitor.db" (λ _, "") (λ _, "") (mkSystem newFile None) ∅ (demo_actions t) =
      Some {["mac-1" := (demo_report "mac-1" t, t)]}) as Hb by (vm_compute; reflexivity).
    rewrite E in Hb. injection Hb as ->. reflexivity.
  - exact (proj1 (Database_records_reports "data/monitor.db" (λ _, "") (λ _, "") (demo_actions t) b sys ltac:(split; [reflexivity|discriminate]) E)).
Defined.
