(* ===== verification/CommandRun.v ===== *)
(** * cmd/quota-monitor: the commands that write files or run tools

    [runService] and [runLogin] of [main.go] after their flags.  The service
    file is written by the calls of [Provision]; the lookup of a login tool is
    the one of [Commands], and running it is an argument. *)

From S2P Require Import Prelude GoText Model Store Provision Service Commands.

(** ** The service file *)

Inductive ServiceRunError := NotGenerated (e : ServiceError) | NoOutputDirectory | NotWritten.

Section service.
Context (Abs : string → option string) (filepathDir : string → string).
Context (fails : nat → bool) (partial : nat → nat).

(** What is printed; the directory of the output is made first. *)
Definition runService (target : string) (flags : ServiceFileConfig) (outputPath : string) : IO (result ServiceRunError string) :=
  match serviceContents Abs filepathDir target flags with
  | Err e => mret (Err (NotGenerated e))
  | Ok content =>
    if bool_decide (outputPath = "") then mret (Ok content)
    else
      made ← call fails;
      if negb made then mret (Err NoOutputDirectory)
      else
        written ← WriteFile fails partial outputPath content 0x180;
        mret (if written : bool then Ok ("wrote " +:+ outputPath +:+ lf) else Err NotWritten)
  end.

(** The service file is private and whole: whatever fails, the command touches
    no file but its output and not the database; if it succeeds, the output is
    what was generated, readable by its owner only unless the file was there
    before; and if it does not, either nothing was written or the file holds a
    part of it. *)
Theorem Service_file_written (target : string) (flags : ServiceFileConfig) (outputPath : string) (w : World) :
  let '(r, w') := runService target flags outputPath w in
  db w' = db w ∧ (∀ p, p ≠ outputPath ∨ outputPath = "" → disk w' !! p = disk w !! p) ∧
  match r with
  | Ok out => ∃ content, serviceContents Abs filepathDir target flags = Ok content ∧
      if bool_decide (outputPath = "") then out = content
      else disk w' !! outputPath = Some (content, default 0x180 (snd <$> disk w !! outputPath))
  | Err (NotGenerated _) | Err NoOutputDirectory => disk w' = disk w
  | Err NotWritten => disk w' = disk w ∨ ∃ content n, serviceContents Abs filepathDir target flags = Ok content ∧
      (disk w' !! outputPath = Some (Stdlib.Strings.String.substring 0 n content, default 0x180 (snd <$> disk w !! outputPath)) ∨
       disk w' !! outputPath = Some (content, default 0x180 (snd <$> disk w !! outputPath)))
  end.
Proof.
  unfold runService. destruct (serviceContents _ _ target flags) as [content|e]; [|done].
  destruct (bool_decide (outputPath = "")) eqn:Eo; [split; [done|]; split; [done|]; by exists content|].
  apply bool_decide_eq_false in Eo.
  assert (Hmode : match disk w !! outputPath with Some f => f.2 | None => 0x180 end = default 0x180 (snd <$> disk w !! outputPath))
    by (by destruct (disk w !! outputPath)).
  unfold WriteFile, Write, setDisk, call, mbind, IO_bind, mret, IO_ret. simpl.
  destruct (fails (calls w)); simpl; [done|]. destruct (fails (S (calls w))); simpl.
  { split; [done|]. split; [done|]. by left. }
  destruct (fails (S (S (calls w)))); simpl.
  - split; [done|]. split.
    + intros p [Hp| ->]; [|done]. by rewrite lookup_alter_ne, lookup_insert_ne.
    + right. exists content, (partial (S (S (calls w)))). split; [done|]. left.
      rewrite lookup_alter_eq, lookup_insert_eq, Hmode. reflexivity.
  - assert (∀ p, p ≠ outputPath ∨ outputPath = "" →
      alter (λ f : string * Z, (f.1 +:+ content, f.2)) outputPath
        (<[outputPath:=("", match disk w !! outputPath with Some f => f.2 | None => 0x180 end)]> (disk w)) !! p = disk w !! p) as Hp.
    { intros p [Hp| ->]; [|done]. by rewrite lookup_alter_ne, lookup_insert_ne. }
    destruct (fails (S (S (S (calls w))))); simpl; (split; [done|]; split; [exact Hp|]).
    + right. exists content, O. split; [done|]. right. rewrite lookup_alter_eq, lookup_insert_eq, Hmode. reflexivity.
    + exists content. split; [done|]. rewrite lookup_alter_eq, lookup_insert_eq, Hmode. reflexivity.
Qed.
End service.

(** ** The login tools *)

Inductive LoginRunError := ToolNotFound (e : LoginError) | ToolFailed.

(** [RunTool] is whether the tool, run with these arguments on the user's
    terminal and environment, exits with status zero. *)
Definition runLogin (lookup : string → result LoginError string) (RunTool : string → list string → bool)
    (provider executable : string) (commandArgs : list string) : result LoginRunError string :=
  match lookup executable with
  | Err e => Err (ToolNotFound e)
  | Ok resolved =>
    if RunTool resolved commandArgs then Ok (provider +:+ " login completed; standalone will refresh automatically" +:+ lf)
    else Err ToolFailed
  end.

Example login_runs :
  let lookup goos := λ name, resolveLoginExecutableForOS (λ a b c d, a +:+ "/" +:+ b +:+ "/" +:+ c +:+ "/" +:+ d)
    (λ p, if bool_decide (p = "/home/u/.local/bin/claude") then RegularFile else MissingFile) name goos (λ _, None) (Some "/home/u") in
  let tool path args := bool_decide (path = "/home/u/.local/bin/claude" ∧ args = ["auth"; "login"; "--claudeai"]) in
  runLogin (lookup "linux") tool "claude" "claude" ["auth"; "login"; "--claudeai"] =
    Ok ("claude login completed; standalone will refresh automatically" +:+ lf) ∧
  runLogin (lookup "linux") tool "codex" "codex" ["login"; "--device-auth"] = Err (ToolNotFound (NotFound "/home/u/.local/bin/codex")) ∧
  runLogin (lookup "windows") tool "claude" "claude" ["auth"; "login"; "--claudeai"] = Err (ToolNotFound NotInPath).
Proof. vm_compute. split_and!; reflexivity. Qed.
